(* ===== verification/_CoqProject ===== *)
-Q . S2P
Prelude.v
Frame.v
Io.v
CString.v
Console.v
HostPrintk.v
Itoa.v
ConsoleProps.v
Thread.v
Interrupt.v
Keyboard.v
Race.v
KeyboardInit.v
Shell.v
Boot.v
Delivery.v
Allocator.v
Chain.v
Memory.v
ProcessMm.v
Paging.v
Heap.v
HeapErrors.v
Cache.v
CacheProps.v
CacheHeap.v
Vfs.v
VfsSpec.v
Context.v
ProcState.v
Scheduler.v
Process.v
KernelInv.v
ProcessOps.v
ProcessCreate.v
KernelSteps.v
KernelSpec.v
KernelProps.v
Sjf.v
Restart.v
Switch.v
Restore.v
Tests.v
