(* ===== verification/Prelude.v ===== *)
(** * PhyOS kernel: verification library

    A model of the C sources of the kernel and the theorems that make them correct. Addresses
    and integers are [Z] kept at their C width by explicit wraps, objects live in one finite
    map per C type keyed by address, and a C function is a computation in the monad [M] of this
    file: it returns, switches away for good ([Jump]), waits or spins ([Hang]), dereferences a
    pointer to no object ([Fault]) or exhausts the fuel of a loop ([NoFuel]). The definitions
    evaluate, so the examples run the kernel.

    ** The program and its model

    The process subsystem (kernel/process) keeps a table of 64 process control blocks, a FIFO
    ready queue linked through the blocks, and a CPU context per process. It allocates from a
    1 MiB array. The memory manager (kernel/mm) has a first-fit heap, the file system
    (kernel/fs) a block cache over [kmalloc], a registry of file system types and a table of
    open files whose operations are called through function pointers. The boot kernel
    (kernel/core, kernel/printk.c, kernel/interrupt.c, drivers, kernel/shell.c) prints on the VGA
    screen, fills the descriptor table, enables the keyboard and runs a shell that reads what the
    keyboard interrupt stores.

    - [Prelude.v]: machine integers, struct layout, the monad and the rules of its loops.
      [Frame.v]: the class of the relations a computation keeps, with the instances that split
        such a claim along the statements of a function.
    - [Io.v]: include/io.h, port accesses as a log of events; the answers of the devices are an
      arbitrary list. [CString.v]: kernel/string.c and C strings.
    - [Console.v]: kernel/printk.c over the 4000 bytes of video memory. [Itoa.v]: what [itoa]
      writes. [ConsoleProps.v]: the page of which the screen is a window, and the simulation.
      [HostPrintk.v]: kernel/utils/printk.c over a stream of the host.
    - [Thread.v]: [vga_putc] and [printk] as trees of single accesses to memory and ports, with a
      program logic for such trees. [Race.v]: the keyboard interrupt between two of them.
    - [Interrupt.v]: kernel/interrupt.c and arch/x86/idt.S; the table as bytes, the processor's
      reading of it, and the two interrupt controllers driven by the port events.
    - [Keyboard.v]: drivers/keyboard.c, the handler and [get_key] as a queue. [KeyboardInit.v]:
      the dialogue with the keyboard controller, a Hoare logic over the controller's rules.
    - [Shell.v]: kernel/shell.c with [read_input], on the characters of the keyboard's queue.
      [Boot.v]: kernel/core/init.c, the composition of the above. [Delivery.v]: the booted kernel
      with the hardware that decides whether an interrupt is delivered, up to the return of the
      handler.
    - [Allocator.v]: what every [kmalloc]/[kfree] pair promises its callers, as a class; its
      clients are proved against the class. [Chain.v]: lists linked through a [next] member.
    - [Memory.v]: kernel/process/memory.c, the bump allocator and address spaces; an instance of
      the allocator class. [Linkage] is the address the linker gives to the array.
      [ProcessMm.v]: kernel/mm/process_mm.c, its second copy and the third instance.
    - [Paging.v]: kernel/mm/{physical,virtual,paging}.c as far as their code goes.
    - [Heap.v]: kernel/mm/heap.c, block headers linked both ways, [split_block] and [join] for
      the text of [kmalloc] and [kfree]; the second instance of the allocator class.
      [HeapErrors.v]: what [kfree] does with pointers it should not get.
    - [Cache.v], [CacheProps.v]: kernel/fs/cache.c over any allocator of the class whose blocks
      lie below 2 GiB ([LowMemory]; cache.c calls [kmalloc] undeclared, as a function that returns
      [int]), the abstract LRU machine it refines, and its properties. [CacheHeap.v]: the cache
      over the heap.
    - [Vfs.v]: kernel/fs/vfs.c and kernel/fs/fs_ops.c. The code behind the function pointers is
      the parameter [Driver]; [ClosesFile] is what the kernel relies on. [VfsSpec.v]: the finite
      map any sequence of its calls refines; [MountsFs] is what it asks of a mount function.
    - [Context.v]: kernel/process/context.c, the struct, [context_init] and what [context_save]
      stores. [Restore.v]: the register blocks of [context_save] and [context_restore] as lists of
      instructions.
    - [ProcState.v]: include/process.h, include/types.h and the globals of process.c and
      scheduler.c as the record [kstate].
    - [Scheduler.v]: kernel/process/scheduler.c. [Process.v]: kernel/process/process.c, every
      function, with each dereference made, those in the arguments of [printf] included.
    - [KernelInv.v], [ProcessOps.v], [ProcessCreate.v]: the invariant of the subsystem and one
      preservation lemma per operation. [KernelSteps.v]: the transition system of the calls
      [process_create], [process_exit], [process_wait], [do_timer], [schedule], [scheduler_block]
      and [scheduler_wake] after [process_init], with arbitrary user code between them; a switch
      ends with the context handed to [context_restore]. [KernelSpec.v]: the abstract
      machine on process identifiers and the simulation. [KernelProps.v]: the properties.
    - [Sjf.v]: [schedule_sjf] and [switch_to] of process.c. [Restart.v]: the context a process is
      resumed with. [Switch.v]: [__switch_to] of switch.S, instruction by
      instruction over registers and bytes.
    - [Tests.v]: the test framework and two of the test programs, run on the model.

    ** What the theorems show

    - Process subsystem (KernelProps): any sequence of the calls of KernelSteps.v refines the
      abstract machine and its C code is free of faults and endless loops; exactly one process
      runs; the ready queue is exactly the READY processes; pids are unique; each operation has its
      functional specification on success and on error; scheduling is round robin and starves
      nobody.
    - Queue primitives (Scheduler): append and unlink on the linked list, with termination.
    - Allocators (Memory, Heap): for a client that frees only what it holds, the blocks it holds
      are disjoint, inside the region and aligned; the heap is first fit, coalesces, and returns
      to a single block when everything is freed; a double free is counted twice.
    - Cache (CacheProps, CacheHeap): refinement of LRU, no fault, no leak, no eviction of a
      referenced block; over the heap, all cached memory is disjoint and inside the region.
    - File system (Vfs, VfsSpec): refinement of a finite map by any sequence of calls, up to the
      first mount of a type without a mount function; registration and lookup, seeks modulo 2^64,
      closing, error codes.
    - Contexts (Restore, Restart, Switch): what the register block of a save stores; that the one
      of a restore works only with its operand in R15; that a process is never resumed where it
      was interrupted; where [__switch_to] goes wrong.
    - Second scheduler (Sjf): it picks the shortest job, terminates exactly under the stated
      condition, and does not keep the ready queue.
    - Console (Itoa, ConsoleProps): [printk] shows exactly the rendered text on a page seen
      through a 25-row window, no character leaves the video memory, numbers read back, negative
      ones in base ten only.
    - An interrupt during printing (Thread, Race): wherever it comes, the handler returns, leaves
      the cursor on the screen and queues the key, with 26 rows and a cell of video memory; with
      the 25 rows of the screen alone it can overrun them.
    - Interrupts and boot (Interrupt, KeyboardInit, Boot): gates decode to their handlers; the
      keyboard is enabled by the controller's rules and in bounded exchanges; after boot exactly
      the keyboard line and the exceptions are delivered, to the right functions.
    - Keyboard and shell (Keyboard, Shell): between calls the buffer is a queue; without
      interrupts the shell is the session its user sees, but the queue the handler builds holds
      no newline, so [read_input] does not return.
    - The booted system (Delivery): at most one keyboard interrupt is ever served; until then the
      kernel runs as written.
    - Tests (Tests): the kmalloc program passes exactly when the heap array is aligned; the
      scheduler program reports one failure.
    - Strings, paging: [strcmp] orders strings; the direct map is a bijection.

    Several theorems state defects of the code as it is: a preempted process restarts at its
    entry point, [schedule_sjf] corrupts the ready queue and may not terminate, size arithmetic
    of both [kmalloc]s wraps, the cache evicts beside an empty slot, the file operations return
    positive error codes, mounting a type without a mount function calls NULL, [schedule]
    dereferences a null [current], a format ending in a percent sign overruns, [printk] of a
    negative number in hexadecimal prints no digits, no physical page can be allocated,
    [context_restore] overwrites the register it addresses the context with, [__switch_to] resumes
    at the wrong address, the keyboard handler shuts out every later interrupt and never hands a
    line over, [kfree] accepts a block twice, [vga_putc] interrupted in the last cell makes the
    handler write below the screen.

    ** Bounds and fuel

    Loops that follow links carry fuel: the number of objects of the store plus one
    ([scheduler_remove], [mm_destroy], [kmalloc] of the heap). A chain has no more elements than
    the store, so the fuel is never used up; this is part of what the theorems prove, since
    [NoFuel] is not among the outcomes they allow. [schedule_sjf] takes its recursion depth as
    an argument and two activations are enough whenever any number is. Requests of the allocator
    class are from 1 byte to 2 GiB; heap regions from 64 bytes to 4 GiB, the range in which
    the 32-bit size of a header is exact; under the cache they end at 2 GiB; the cache is used for
    fewer than 2^64 requests. The loops of [itoa] have fuel 33, more than the 32 characters of the
    buffer; the polling loops of the keyboard have one more than the answers left, since each turn
    consumes one, and the loops of the shell one more than the characters in the queue. A run whose
    device has not answered yet ends in [Hang] with the state it has reached. The interrupt of
    Race.v comes after any number of accesses, and the system of Delivery.v is an inductive
    reachability relation without bound. Video memory is taken with 4000 bytes, and with at least
    4162 where an interrupt comes (the adapter has 32 KiB).

    ** What is not modelled

    The text [printf] produces in kernel/process and kernel/mm (a host library call; [printk] of
    the boot kernel is modelled, and of kernel/utils/printk.c all but the formatting); boot.S,
    which only calls [kernel_main]; kernel/syscall.c, arch/x86/traps.c and init/main.c, which
    are empty; the test programs that cannot be built or that switch away before they report
    (named in Tests.v); the write to disk of the cache, an empty statement in the source. Freed memory is
    not poisoned by the bump allocator, so that objects of kernel/process stay readable after
    [kfree], as they do in the C program. Of the assembly of [context_restore] only the first
    register block is modelled: the rest reads its locals after RBP was replaced, so what it does
    is up to the compiler, and a switch of the process model ends where the assembly starts. The
    keyboard handler saves no registers, so what the interrupted code does after it has returned
    is not described: in Delivery.v it may do anything but write the command port of the interrupt
    controller. *)

From stdpp Require Import base numbers strings gmap list.

Local Open Scope Z_scope.

(** ** Machine integers

    A C integer of width [w] is a [Z] kept in range by an explicit wrap: unsigned arithmetic
    reduces modulo [2^w], a conversion to a signed type picks the representative around zero. *)

Definition NULL : Z := 0.

Definition wrap (w z : Z) : Z := z mod 2 ^ w.
Definition u8 (z : Z) : Z := wrap 8 z.
Definition u16 (z : Z) : Z := wrap 16 z.
Definition u32 (z : Z) : Z := wrap 32 z.
Definition u64 (z : Z) : Z := wrap 64 z.

Definition swrap (w z : Z) : Z := (z + 2 ^ (w - 1)) mod 2 ^ w - 2 ^ (w - 1).
Definition i32 (z : Z) : Z := swrap 32 z.
Definition i64 (z : Z) : Z := swrap 64 z.

Lemma wrap_small w z : 0 <= z < 2 ^ w → wrap w z = z.
Proof. apply Z.mod_small. Qed.

Lemma wrap_range w z : 0 <= w → 0 <= wrap w z < 2 ^ w.
Proof. intros. apply Z.mod_pos_bound. by apply Z.pow_pos_nonneg. Qed.

Lemma swrap_small w z : - 2 ^ (w - 1) <= z < 2 ^ (w - 1) → 0 < w → swrap w z = z.
Proof.
  intros Hz Hw. unfold swrap. replace (2 ^ w) with (2 * 2 ^ (w - 1)).
  - rewrite Z.mod_small; lia.
  - rewrite <- Z.pow_succ_r by lia. f_equal; lia.
Qed.

Lemma u64_small z : 0 <= z < 2 ^ 64 → u64 z = z.
Proof. apply wrap_small. Qed.

(** A pointer below 2 GiB survives the conversion to [int] and the one back. *)
Lemma low_pointer p : 0 <= p < 2 ^ 31 → u64 (i32 p) = p.
Proof. intros Hp. unfold i32. rewrite swrap_small by lia. apply u64_small. lia. Qed.

Lemma u32_small z : 0 <= z < 2 ^ 32 → u32 z = z.
Proof. apply wrap_small. Qed.

Lemma u64_range z : 0 <= u64 z < 2 ^ 64.
Proof. by apply wrap_range. Qed.

Lemma u32_range z : 0 <= u32 z < 2 ^ 32.
Proof. by apply wrap_range. Qed.

(** The C idiom [x & ~(2^k - 1)] on a 64-bit value clears the low [k] bits. *)
Lemma land_lnot_ones k x :
  0 <= k <= 64 → 0 <= x < 2 ^ 64 →
  Z.land x (u64 (Z.lnot (2 ^ k - 1))) = x - x mod 2 ^ k.
Proof.
  intros Hk Hx.
  unfold u64, wrap. rewrite <- Z.land_ones by lia.
  rewrite Z.land_assoc, (Z.land_comm x), <- Z.land_assoc.
  rewrite Z.land_ones by lia. rewrite (Z.mod_small x) by lia.
  rewrite Z.land_comm.
  replace (2 ^ k - 1) with (Z.ones k) by (rewrite Z.ones_equiv; lia).
  rewrite <- Z.ldiff_land, Z.ldiff_ones_r by lia.
  rewrite Z.shiftl_mul_pow2, Z.shiftr_div_pow2 by lia.
  pose proof (Z.div_mod x (2 ^ k)). lia.
Qed.

(** Rounding up to a multiple of [2^k] the way the allocators write it. *)
Definition align_up (k x : Z) : Z := Z.land (u64 (x + (2 ^ k - 1))) (u64 (Z.lnot (2 ^ k - 1))).

Lemma align_up_spec k x :
  0 <= k <= 32 → 0 <= x < 2 ^ 63 →
  x <= align_up k x < x + 2 ^ k ∧ align_up k x mod 2 ^ k = 0.
Proof.
  intros Hk Hx.
  assert (0 < 2 ^ k) by (apply Z.pow_pos_nonneg; lia).
  assert (2 ^ k <= 2 ^ 32) by (apply Z.pow_le_mono_r; lia).
  unfold align_up. rewrite (u64_small (x + _)) by lia.
  rewrite land_lnot_ones by lia.
  pose proof (Z.mod_pos_bound (x + (2 ^ k - 1)) (2 ^ k)).
  split; [lia|].
  rewrite Zminus_mod, Z.mod_mod, Z.sub_diag by lia. apply Z.mod_0_l; lia.
Qed.

Lemma align_up_le k x b :
  0 <= k <= 32 → 0 <= x <= b → b < 2 ^ 63 → b mod 2 ^ k = 0 → align_up k x <= b.
Proof.
  intros Hk Hx Hb Hm.
  assert (0 < 2 ^ k) by (apply Z.pow_pos_nonneg; lia).
  destruct (align_up_spec k x) as [Hr Ha]; [lia|lia|].
  apply Z.mod_divide in Hm as [m ->]; [|lia].
  apply Z.mod_divide in Ha as [a Ha]; [|lia]. rewrite Ha in Hr |- *.
  apply Z.mul_le_mono_nonneg_r; [lia|].
  apply Z.lt_succ_r, (Z.mul_lt_mono_pos_r (2 ^ k)); lia.
Qed.

Lemma align_up_id k x :
  0 <= k <= 32 → 0 <= x < 2 ^ 63 → x mod 2 ^ k = 0 → align_up k x = x.
Proof.
  intros. assert (align_up k x <= x) by (apply align_up_le; lia).
  destruct (align_up_spec k x); lia.
Qed.

(** ** C struct layout

    A struct is the list of its fields, each with a name, a size and an alignment. Members are
    placed in order at the next multiple of their alignment and the struct is padded to its
    largest alignment (the x86-64 ABI rule the kernel is compiled with). *)

Definition field : Type := string * Z * Z.
Definition scalar (name : string) (size : Z) : field := (name, size, size).
Definition array (name : string) (elt len : Z) : field := (name, elt * len, elt).

Arguments scalar _%_string _%_Z.
Arguments array _%_string _%_Z _%_Z.

Definition round_up (a n : Z) : Z := (n + a - 1) / a * a.

Fixpoint layout (off : Z) (fs : list field) : list (string * Z) * Z :=
  match fs with
  | [] => ([], off)
  | (name, size, align) :: fs' =>
      let o := round_up align off in
      let '(os, e) := layout (o + size) fs' in ((name, o) :: os, e)
  end.

Definition struct_align (fs : list field) : Z := foldr (λ '(_, _, a) m, Z.max a m) 1 fs.
Definition sizeof (fs : list field) : Z := round_up (struct_align fs) (layout 0 fs).2.
Definition offsetof (name : string) (fs : list field) : option Z :=
  (λ x, x.2.2) <$> list_find (λ x, x.1 = name) (layout 0 fs).1.

(** ** Outcomes and the kernel monad

    A C call run in state [s] either returns ([Ret]), transfers control for good through a
    context switch ([Jump]), spins in a loop or waits for a device that has not answered
    ([Hang]), dereferences a pointer to no object ([Fault]), or exhausts the fuel that bounds a
    loop of the model ([NoFuel]). *)

Inductive outcome (S A : Type) : Type :=
| Ret (a : A) (s : S)
| Jump (s : S)
| Hang (s : S)
| Fault
| NoFuel.
Arguments Ret {S A} a s.
Arguments Jump {S A} s.
Arguments Hang {S A} s.
Arguments Fault {S A}.
Arguments NoFuel {S A}.

Definition M (S A : Type) : Type := S → outcome S A.

#[export] Instance M_ret S : MRet (M S) := λ A a s, Ret a s.
#[export] Instance M_bind S : MBind (M S) := λ A B f c s,
  match c s with
  | Ret a s' => f a s'
  | Jump s' => Jump s'
  | Hang s' => Hang s'
  | Fault => Fault
  | NoFuel => NoFuel
  end.

Section monad.
Context {S : Type}.
Implicit Types s : S.

Definition get : M S S := λ s, Ret s s.
Definition modify (f : S → S) : M S unit := λ s, Ret tt (f s).
Definition jump {A} : M S A := λ s, Jump s.
Definition hang {A} : M S A := λ s, Hang s.
Definition fault {A} : M S A := λ _, Fault.
Definition nofuel {A} : M S A := λ _, NoFuel.
(** Dereference: a pointer to no object faults. *)
Definition deref {A} (f : S → option A) : M S A := λ s,
  match f s with Some a => Ret a s | None => Fault end.
Definition when (b : bool) (c : M S unit) : M S unit := if b then c else mret tt.

(** [for (i = lo; i < lo + n; i++) body(i)] *)
Fixpoint for_range (n : nat) (i : Z) (body : Z → M S unit) : M S unit :=
  match n with
  | O => mret tt
  | Datatypes.S n' => body i ;; for_range n' (i + 1) body
  end.

(** [for (i = lo; i < lo + n; i++) if (p(i)) break;], returning the index of the break. *)
Fixpoint find_range (n : nat) (i : Z) (p : Z → M S bool) : M S (option Z) :=
  match n with
  | O => mret None
  | Datatypes.S n' =>
      b ← p i;
      if b : bool then mret (Some i) else find_range n' (i + 1) p
  end.

(** [for (i = lo; i < lo + n; i++) acc = body(i, acc)] *)
Fixpoint fold_range {A} (n : nat) (i : Z) (acc : A) (body : Z → A → M S A) : M S A :=
  match n with
  | O => mret acc
  | Datatypes.S n' => acc' ← body i acc; fold_range n' (i + 1) acc' body
  end.

Lemma bind_ret {A B} (c : M S A) (f : A → M S B) s a s' :
  c s = Ret a s' → (c ≫= f) s = f a s'.
Proof. intros E. unfold mbind, M_bind. by rewrite E. Qed.

Lemma bind_get {B} (f : S → M S B) s : (get ≫= f) s = f s s.
Proof. done. Qed.

Lemma bind_modify {B} (g : S → S) (f : unit → M S B) s : (modify g ≫= f) s = f tt (g s).
Proof. done. Qed.

Lemma bind_mret {A B} (a : A) (f : A → M S B) s : ((mret a : M S A) ≫= f) s = f a s.
Proof. done. Qed.

Lemma bind_jump {A B} (c : M S A) (f : A → M S B) s s' :
  c s = Jump s' → (c ≫= f) s = Jump s'.
Proof. intros E. unfold mbind, M_bind. by rewrite E. Qed.

Lemma bind_fault {A B} (c : M S A) (f : A → M S B) s :
  c s = Fault → (c ≫= f) s = Fault.
Proof. intros E. unfold mbind, M_bind. by rewrite E. Qed.

Lemma bind_ext {A B} (c c' : M S A) (f f' : A → M S B) s :
  c s = c' s → (∀ a s', f a s' = f' a s') → (c ≫= f) s = (c' ≫= f') s.
Proof. intros E Hf. unfold mbind, M_bind. rewrite E. by destruct (c' s). Qed.

(** Sequencing is associative on a run. *)
Lemma assoc_seq {A B C} (c : M S A) (d : M S B) (e : M S C) s :
  (c;; d;; e) s = ((c;; d);; e) s.
Proof. unfold mbind, M_bind. by destruct (c s). Qed.

Lemma deref_ret {A} (f : S → option A) s a : f s = Some a → deref f s = Ret a s.
Proof. intros E. unfold deref. by rewrite E. Qed.

(** Total-correctness rule for counting loops whose body always returns. *)
Lemma for_range_inv (I : Z → S → Prop) n lo body s :
  I lo s →
  (∀ i s, lo <= i < lo + Z.of_nat n → I i s → ∃ s', body i s = Ret tt s' ∧ I (i + 1) s') →
  ∃ s', for_range n lo body s = Ret tt s' ∧ I (lo + Z.of_nat n) s'.
Proof.
  revert lo s. induction n as [|n IH]; intros lo s Hlo Hstep.
  - exists s. rewrite Z.add_0_r. by split.
  - destruct (Hstep lo s) as (s1 & E & H1); [lia|done|].
    destruct (IH (lo + 1) s1) as (s2 & E2 & H2); [done|intros; apply Hstep; [lia|done]|].
    exists s2. cbn [for_range]. rewrite (bind_ret _ _ _ _ _ E).
    split; [done|]. by replace (lo + Z.of_nat (Datatypes.S n)) with (lo + 1 + Z.of_nat n) by lia.
Qed.

Lemma fold_range_inv {A} (I : Z → A → S → Prop) n lo acc body s :
  I lo acc s →
  (∀ i a s, lo <= i < lo + Z.of_nat n → I i a s →
     ∃ a' s', body i a s = Ret a' s' ∧ I (i + 1) a' s') →
  ∃ a' s', fold_range n lo acc body s = Ret a' s' ∧ I (lo + Z.of_nat n) a' s'.
Proof.
  revert lo acc s. induction n as [|n IH]; intros lo acc s Hlo Hstep.
  - exists acc, s. rewrite Z.add_0_r. by split.
  - destruct (Hstep lo acc s) as (a1 & s1 & E & H1); [lia|done|].
    destruct (IH (lo + 1) a1 s1) as (a2 & s2 & E2 & H2);
      [done|intros; apply Hstep; [lia|done]|].
    exists a2, s2. cbn [fold_range]. rewrite (bind_ret _ _ _ _ _ E).
    split; [done|]. by replace (lo + Z.of_nat (Datatypes.S n)) with (lo + 1 + Z.of_nat n) by lia.
Qed.

(** Searching loops whose test only reads the state. *)
Lemma find_range_spec (b : Z → bool) n lo p s :
  (∀ i, lo <= i < lo + Z.of_nat n → p i s = Ret (b i) s) →
  ∃ r, find_range n lo p s = Ret r s ∧
    match r with
    | Some k => lo <= k < lo + Z.of_nat n ∧ b k = true ∧ ∀ j, lo <= j < k → b j = false
    | None => ∀ j, lo <= j < lo + Z.of_nat n → b j = false
    end.
Proof.
  revert lo. induction n as [|n IH]; intros lo Hp.
  - exists None. split; [done|lia].
  - cbn [find_range]. rewrite (bind_ret _ _ _ _ _ (Hp lo ltac:(lia))).
    destruct (b lo) eqn:E.
    + exists (Some lo). split; [done|]. split; [lia|]. split; [done|lia].
    + destruct (IH (lo + 1)) as (r & Er & Hr); [intros; apply Hp; lia|].
      exists r. split; [done|]. destruct r as [k|].
      * destruct Hr as (? & ? & Hj). split; [lia|]. split; [done|].
        intros j ?. destruct (decide (j = lo)) as [->|]; [done|]. apply Hj; lia.
      * intros j ?. destruct (decide (j = lo)) as [->|]; [done|]. apply Hr; lia.
Qed.
End monad.

(** Run a computation on a component [T] of the state [S]. *)
Definition zoom {S T A} (get : S → T) (put : T → S → S) (c : M T A) : M S A := λ s,
  match c (get s) with
  | Ret a t => Ret a (put t s)
  | Jump t => Jump (put t s)
  | Hang t => Hang (put t s)
  | Fault => Fault
  | NoFuel => NoFuel
  end.

Lemma zoom_ret {S T A} (g : S → T) (put : T → S → S) (c : M T A) s a t :
  c (g s) = Ret a t → zoom g put c s = Ret a (put t s).
Proof. intros E. unfold zoom. by rewrite E. Qed.

Lemma zoom_inv {S T A} (g : S → T) put (c : M T A) s a s' :
  zoom g put c s = Ret a s' → ∃ t, c (g s) = Ret a t ∧ s' = put t s.
Proof. unfold zoom. destruct (c (g s)); naive_solver. Qed.

Lemma bind_inv {S A B} (c : M S A) (f : A → M S B) s b s' :
  (c ≫= f) s = Ret b s' → ∃ a s1, c s = Ret a s1 ∧ f a s1 = Ret b s'.
Proof. unfold mbind, M_bind. destruct (c s); naive_solver. Qed.

(** The value and the state a call leaves, when it returns or switches away. *)
Definition final {S A} (o : outcome S A) : option S :=
  match o with Ret _ s | Jump s => Some s | _ => None end.

(** Whether a call returns, as a test that evaluates. *)
Definition returns {S A} (o : outcome S A) : bool :=
  match o with Ret _ _ => true | _ => false end.

Lemma returns_ret {S A} (o : outcome S A) : returns o = true → ∃ a s, o = Ret a s.
Proof. destruct o; [by eexists _, _|done..]. Qed.

(** A call that returns satisfies what every returning run satisfies. *)
Lemma returns_match {S A} (o : outcome S A) (P : A → S → Prop) :
  returns o = true →
  match o with Ret a s => P a s | Hang _ => True | _ => False end →
  ∃ a s, o = Ret a s ∧ P a s.
Proof. destruct o; naive_solver. Qed.

(** ** Removing an element from a list without duplicates *)

Definition remove_elem (p : Z) (q : list Z) : list Z := filter (λ y, y ≠ p) q.

Lemma remove_elem_notin p q : p ∉ q → remove_elem p q = q.
Proof.
  unfold remove_elem. induction q as [|y q IH]; intros Hp; [done|].
  rewrite filter_cons_True by set_solver. f_equal. apply IH. set_solver.
Qed.

Lemma remove_elem_cons_eq p q : p ∉ q → remove_elem p (p :: q) = q.
Proof.
  intros Hp. unfold remove_elem. rewrite filter_cons_False by naive_solver.
  by apply remove_elem_notin.
Qed.

Lemma remove_elem_cons_ne p x q : x ≠ p → remove_elem p (x :: q) = x :: remove_elem p q.
Proof. intros. unfold remove_elem. by rewrite filter_cons_True. Qed.

Lemma elem_of_remove_elem p q x : x ∈ remove_elem p q ↔ x ∈ q ∧ x ≠ p.
Proof. unfold remove_elem. rewrite list_elem_of_filter. naive_solver. Qed.

(** ** Tactics and hints *)

Create HintDb kernel.

(** Case analysis on the first integer comparison of the goal. *)
Ltac zcase :=
  match goal with
  | |- context [?a =? ?b] => destruct (Z.eqb_spec a b)
  | |- context [?a <? ?b] => destruct (Z.ltb_spec a b)
  | |- context [?a <=? ?b] => destruct (Z.leb_spec a b)
  end.

(** Expose the next call of a monadic sequence. *)
Ltac mstep H := rewrite (bind_ret _ _ _ _ _ H).
Ltac mred :=
  cbv beta iota delta [mbind M_bind mret M_ret get modify jump hang fault nofuel when].
