(* ===== verification/Frame.v ===== *)
(** * What a computation keeps

    A computation keeps a relation when the state it leaves is related to the state it started
    in, whether it returns, switches away or spins. For a preorder this splits along the
    statements of a function, which is what the instances below do; so the frame condition of a
    function follows from those of the calls it makes by [apply _]. *)

From stdpp Require Import base numbers list.
From S2P Require Import Prelude.

Local Open Scope Z_scope.

Definition left_in {S A} (o : outcome S A) : option S :=
  match o with Ret _ s | Jump s | Hang s => Some s | Fault | NoFuel => None end.

Lemma final_left {S A} (o : outcome S A) s : final o = Some s → left_in o = Some s.
Proof. by destruct o. Qed.

Class Keeps {S A} (R : relation S) (c : M S A) : Prop :=
  keeping s s' : left_in (c s) = Some s' → R s s'.
#[global] Hint Mode Keeps - - - ! : typeclass_instances.

(** A relation on a component of the state. *)
Definition on {S T} (g : S → T) (R : relation T) : relation S := λ s s', R (g s) (g s').

#[export] Instance on_preorder {S T} (g : S → T) (R : relation T) : PreOrder R → PreOrder (on g R).
Proof. intros [Hr Ht]. split; [intros s; apply Hr|intros s1 s2 s3; apply Ht]. Qed.

Section keeps.
Context {S : Type} (R : relation S) `{!PreOrder R}.

Lemma keeps_ret {A} (c : M S A) s a s' : Keeps R c → c s = Ret a s' → R s s'.
Proof. intros Hc E. apply (Hc s s'). by rewrite E. Qed.

Lemma keeps_final {A} (c : M S A) s s' : Keeps R c → final (c s) = Some s' → R s s'.
Proof. intros Hc E%final_left. by apply Hc. Qed.

Lemma keeps_modify f : (∀ s, R s (f s)) → Keeps R (modify f).
Proof. intros Hf s s' [= <-]. apply Hf. Qed.

#[export] Instance keeps_mret {A} (a : A) : Keeps R (mret a).
Proof. by intros s s' [= <-]. Qed.
#[export] Instance keeps_get : Keeps R get.
Proof. by intros s s' [= <-]. Qed.
#[export] Instance keeps_jump {A} : Keeps R (jump : M S A).
Proof. by intros s s' [= <-]. Qed.
#[export] Instance keeps_hang {A} : Keeps R (hang : M S A).
Proof. by intros s s' [= <-]. Qed.
#[export] Instance keeps_fault {A} : Keeps R (fault : M S A).
Proof. done. Qed.
#[export] Instance keeps_nofuel {A} : Keeps R (nofuel : M S A).
Proof. done. Qed.
#[export] Instance keeps_deref {A} (f : S → option A) : Keeps R (deref f).
Proof. intros s s'. unfold deref. destruct (f s); [|done]. by intros [= <-]. Qed.

#[export] Instance keeps_bind {A B} (c : M S A) (f : A → M S B) :
  Keeps R c → (∀ a, Keeps R (f a)) → Keeps R (c ≫= f).
Proof.
  intros Hc Hf s s'. unfold mbind, M_bind. specialize (Hc s).
  destruct (c s) as [a s1|s1|s1| |]; simpl in *; try done.
  - intros E. etrans; [by apply Hc|]. by eapply Hf.
  - intros [= <-]. by apply Hc.
  - intros [= <-]. by apply Hc.
Qed.

#[export] Instance keeps_if {A} (b : bool) (c d : M S A) :
  Keeps R c → Keeps R d → Keeps R (if b then c else d).
Proof. by destruct b. Qed.
#[export] Instance keeps_when b (c : M S unit) : Keeps R c → Keeps R (when b c).
Proof. intros. unfold when. apply _. Qed.
#[export] Instance keeps_match_option {A B} (o : option A) (f : A → M S B) (d : M S B) :
  (∀ a, Keeps R (f a)) → Keeps R d → Keeps R (match o with Some a => f a | None => d end).
Proof. by destruct o. Qed.

#[export] Instance keeps_for_range n lo body :
  (∀ i, Keeps R (body i)) → Keeps R (for_range n lo body).
Proof. intros H. revert lo. induction n as [|n IH]; intros lo; cbn [for_range]; apply _. Qed.
#[export] Instance keeps_find_range n lo p :
  (∀ i, Keeps R (p i)) → Keeps R (find_range n lo p).
Proof. intros H. revert lo. induction n as [|n IH]; intros lo; cbn [find_range]; apply _. Qed.
#[export] Instance keeps_fold_range {A} n lo (acc : A) body :
  (∀ i a, Keeps R (body i a)) → Keeps R (fold_range n lo acc body).
Proof. intros H. revert lo acc. induction n as [|n IH]; intros lo acc; cbn [fold_range]; apply _. Qed.
End keeps.

(** A computation on a component keeps what is said of the component. *)
Lemma keeps_zoom {S T A} (R : relation T) (g : S → T) put (c : M T A) :
  (∀ t s, g (put t s) = t) → Keeps R c → Keeps (on g R) (zoom g put c).
Proof.
  intros Hp Hc s s'. unfold zoom, on. specialize (Hc (g s)).
  destruct (c (g s)) as [a t|t|t| |]; simpl in *; intros E; simplify_eq; rewrite Hp; by apply Hc.
Qed.

(** And it keeps every relation that holds whatever the component becomes. *)
Lemma keeps_zoom_any {S T A} (R : relation S) (g : S → T) put (c : M T A) :
  (∀ t s, R s (put t s)) → Keeps R (zoom g put c).
Proof.
  intros HR s s'. unfold zoom. destruct (c (g s)) as [a t|t|t| |]; simpl; intros E; simplify_eq; apply HR.
Qed.

(** ** Where a computation switches away

    [JumpsTo P c]: whenever [c] transfers control for good, it does so in a state satisfying
    [P]. *)

Class JumpsTo {S A} (P : S → Prop) (c : M S A) : Prop := jumps_to s s' : c s = Jump s' → P s'.
#[global] Hint Mode JumpsTo - - - ! : typeclass_instances.

Lemma bind_jump_inv {S A B} (c : M S A) (f : A → M S B) s s' :
  JumpsTo (λ _, False) c → (c ≫= f) s = Jump s' → ∃ a s1, c s = Ret a s1 ∧ f a s1 = Jump s'.
Proof.
  intros Hc. unfold mbind, M_bind. destruct (c s) as [a s1|s1|s1| |] eqn:E; try done.
  - intros E'. by exists a, s1.
  - by destruct (Hc s s1).
Qed.

Section jumps.
Context {S : Type} (P : S → Prop).

#[export] Instance jumps_mret {A} (a : A) : JumpsTo P (mret a).
Proof. done. Qed.
#[export] Instance jumps_get : JumpsTo P get.
Proof. done. Qed.
#[export] Instance jumps_modify f : JumpsTo P (modify f).
Proof. done. Qed.
#[export] Instance jumps_hang {A} : JumpsTo P (hang : M S A).
Proof. done. Qed.
#[export] Instance jumps_fault {A} : JumpsTo P (fault : M S A).
Proof. done. Qed.
#[export] Instance jumps_nofuel {A} : JumpsTo P (nofuel : M S A).
Proof. done. Qed.
#[export] Instance jumps_deref {A} (f : S → option A) : JumpsTo P (deref f).
Proof. intros s s'. unfold deref. by destruct (f s). Qed.

#[export] Instance jumps_bind {A B} (c : M S A) (f : A → M S B) :
  JumpsTo P c → (∀ a, JumpsTo P (f a)) → JumpsTo P (c ≫= f).
Proof.
  intros Hc Hf s s'. unfold mbind, M_bind. destruct (c s) as [a s1|s1|s1| |] eqn:E; try done.
  - apply Hf.
  - intros [= <-]. by eapply Hc.
Qed.
#[export] Instance jumps_if {A} (b : bool) (c d : M S A) :
  JumpsTo P c → JumpsTo P d → JumpsTo P (if b then c else d).
Proof. by destruct b. Qed.
#[export] Instance jumps_when b (c : M S unit) : JumpsTo P c → JumpsTo P (when b c).
Proof. intros. unfold when. apply _. Qed.
#[export] Instance jumps_match_option {A B} (o : option A) (f : A → M S B) (d : M S B) :
  (∀ a, JumpsTo P (f a)) → JumpsTo P d → JumpsTo P (match o with Some a => f a | None => d end).
Proof. by destruct o. Qed.
#[export] Instance jumps_for_range n lo body :
  (∀ i, JumpsTo P (body i)) → JumpsTo P (for_range n lo body).
Proof. intros H. revert lo. induction n as [|n IH]; intros lo; cbn [for_range]; apply _. Qed.
#[export] Instance jumps_find_range n lo p :
  (∀ i, JumpsTo P (p i)) → JumpsTo P (find_range n lo p).
Proof. intros H. revert lo. induction n as [|n IH]; intros lo; cbn [find_range]; apply _. Qed.
#[export] Instance jumps_fold_range {A} n lo (acc : A) body :
  (∀ i a, JumpsTo P (body i a)) → JumpsTo P (fold_range n lo acc body).
Proof. intros H. revert lo acc. induction n as [|n IH]; intros lo acc; cbn [fold_range]; apply _. Qed.
End jumps.

(** A component that never switches away. *)
#[export] Instance jumps_zoom {S T A} (P : S → Prop) (g : S → T) put (c : M T A) :
  JumpsTo (λ _, False) c → JumpsTo P (zoom g put c).
Proof.
  intros Hc s s'. unfold zoom. specialize (Hc (g s)).
  destruct (c (g s)) as [a t|t|t| |]; try done. by destruct (Hc t eq_refl).
Qed.
