(* ===== verification/Io.v ===== *)
(** * Port input and output (include/io.h)

    The two instructions the drivers reach the hardware with. Every access is an event of a log.
    What a device answers is not decided by the program: the values of the successive [inb] are
    a list [answers] of the state, and theorems quantify over it. A run that asks for more
    values than the list holds ends there, in [Hang] with the state it has reached: the list is
    what was observed of the device, and theorems speak of the accesses up to that point. *)

From stdpp Require Import base numbers list.
From S2P Require Import Prelude.

Local Open Scope Z_scope.

Inductive event : Type :=
| Out (port value : Z)
| In (port value : Z).

#[export] Instance event_eq_dec : EqDecision event.
Proof. solve_decision. Defined.

Record io : Type := MkIo {
  trace : list event;   (** accesses so far, in order *)
  answers : list Z;     (** what the devices will answer *)
}.

(** [uint8_t inb(uint16_t port)] *)
Definition inb (port : Z) : M io Z := λ s,
  match answers s with
  | v :: vs => Ret (u8 v) (MkIo (trace s ++ [In (u16 port) (u8 v)]) vs)
  | [] => Hang s
  end.

(** [void outb(uint16_t port, uint8_t value)] *)
Definition outb (port value : Z) : M io unit := λ s,
  Ret tt (MkIo (trace s ++ [Out (u16 port) (u8 value)]) (answers s)).

(** The state after writing a list of port and value pairs. *)
Definition outs (l : list (Z * Z)) (s : io) : io :=
  MkIo (trace s ++ ((λ '(p, v), Out (u16 p) (u8 v)) <$> l)) (answers s).
