(* ===== verification/CString.v ===== *)
(** * C strings (kernel/string.c)

    A pointer into a string is the list of the characters from it to the end of its object, so
    that reading past the object is a [Fault]. A character is a signed 8-bit integer. *)

From Stdlib Require Import Ascii String.
From stdpp Require Import base numbers strings list.
From S2P Require Import Prelude.

Local Open Scope Z_scope.

Definition i8 (z : Z) : Z := swrap 8 z.

(** A character constant and a string literal; the literal's object ends with its NUL. *)
Definition chr (a : Ascii.ascii) : Z := i8 (Z.of_N (Ascii.N_of_ascii a)).
Fixpoint chars (s : string) : list Z :=
  match s with
  | EmptyString => []
  | String a s' => chr a :: chars s'
  end.
Definition literal (s : string) : list Z := chars s ++ [0].

Arguments chr _%_char.
Arguments chars _%_string.
Arguments literal _%_string.

Section string.
Context {S : Type}.

(** [int strcmp(const char *s1, const char *s2)]: the test reads [*s2] only when [*s1] is not
    NUL; the returned expression reads both. *)
Fixpoint strcmp (s1 s2 : list Z) : M S Z :=
  match s1, s2 with
  | c1 :: s1', c2 :: s2' =>
      if negb (c1 =? 0) && (c1 =? c2) then strcmp s1' s2' else mret (u8 c1 - u8 c2)
  | _, _ => fault
  end.

(** [void *memset(void *s, int c, uint32_t n)] on the object [mem], from offset [p]. *)
Fixpoint memset_loop (n : nat) (p c : Z) (mem : list Z) : option (list Z) :=
  match n with
  | O => Some mem
  | Datatypes.S n' =>
      if (0 <=? p) && (p <? Z.of_nat (length mem))
      then memset_loop n' (p + 1) c (<[Z.to_nat p := u8 c]> mem)
      else None
  end.
Definition memset (p c n : Z) (mem : list Z) : option (list Z) :=
  memset_loop (Z.to_nat (u32 n)) p c mem.
End string.

(** ** What [memset] writes *)

Lemma memset_loop_spec n p c mem :
  0 <= p → p + Z.of_nat n <= Z.of_nat (length mem) →
  memset_loop n p c mem =
    Some (take (Z.to_nat p) mem ++ replicate n (u8 c) ++ drop (Z.to_nat p + n) mem).
Proof.
  revert p mem. induction n as [|n IH]; intros p mem Hp Hn.
  - cbn. rewrite Nat.add_0_r, take_drop. done.
  - cbn [memset_loop]. rewrite (proj2 (Z.leb_le 0 p)), (proj2 (Z.ltb_lt p _)) by lia.
    cbn [andb]. rewrite IH by (rewrite ?length_insert; lia). f_equal.
    replace (Z.to_nat (p + 1)) with (Datatypes.S (Z.to_nat p)) by lia.
    erewrite take_S_r by (apply list_lookup_insert_eq; lia).
    rewrite take_insert_ge, drop_insert_lt by lia.
    rewrite <- app_assoc. cbn. repeat f_equal. lia.
Qed.

(** ** String comparison

    The order [strcmp] decides: lexicographic on the unsigned values of the characters. *)

Fixpoint lex_lt (a b : list Z) : Prop :=
  match a, b with
  | [], [] | _ :: _, [] => False
  | [], _ :: _ => True
  | x :: a', y :: b' => u8 x < u8 y ∨ (x = y ∧ lex_lt a' b')
  end.

(** A string: characters in range, none of them NUL. *)
Definition is_char (c : Z) : Prop := -128 <= c < 128.
Definition text (a : list Z) : Prop := Forall (λ c, is_char c ∧ c ≠ 0) a.

#[export] Instance is_char_dec c : Decision (is_char c).
Proof. unfold is_char. apply _. Defined.

Lemma text_check a : forallb (λ c, bool_decide (is_char c ∧ c ≠ 0)) a = true → text a.
Proof.
  intros H. apply Forall_forall. intros c Hc. apply list_elem_of_In in Hc.
  by apply (proj1 (forallb_forall _ _) H), bool_decide_eq_true in Hc.
Qed.

(** A literal is a text. *)
Ltac is_text := apply text_check; vm_compute; reflexivity.

Lemma u8_range c : 0 <= u8 c <= 255.
Proof. pose proof (wrap_range 8 c ltac:(lia)) as H. unfold u8. lia. Qed.

Lemma u8_inj a b : is_char a → is_char b → u8 a = u8 b → a = b.
Proof.
  unfold is_char, u8, wrap. intros Ha Hb E.
  pose proof (Z.div_mod a (2 ^ 8) ltac:(lia)). pose proof (Z.div_mod b (2 ^ 8) ltac:(lia)).
  rewrite E in *. lia.
Qed.

Lemma u8_pos a : is_char a → a ≠ 0 → 0 < u8 a.
Proof.
  intros Ha Hn. pose proof (u8_range a).
  destruct (decide (u8 a = 0)) as [E|]; [|lia].
  exfalso. apply Hn. apply u8_inj; [done|unfold is_char; lia|]. by rewrite E.
Qed.

(** The comparison writes nothing. *)
Lemma strcmp_reads {S} a b (s : S) r s' : strcmp a b s = Ret r s' → s' = s.
Proof.
  revert b. induction a as [|c a IH]; intros [|d b] E; try done. cbn [strcmp] in E.
  destruct (negb (c =? 0) && (c =? d)); [by eapply IH|]. by injection E.
Qed.

(** On two NUL-terminated strings, whatever follows them in memory, strcmp returns without
    reading past either terminator; the result is zero exactly when the strings are equal and
    negative exactly when the first is smaller in the byte-wise lexicographic order. *)
Theorem strcmp_orders S (s : S) a b ta tb :
  text a → text b →
  ∃ r, strcmp (a ++ 0 :: ta) (b ++ 0 :: tb) s = Ret r s ∧
    (r = 0 ↔ a = b) ∧ (r < 0 ↔ lex_lt a b) ∧ -255 <= r <= 255.
Proof.
  intros Ha. revert b. induction Ha as [|x a [Hx Hx0] Ha IH]; intros b Hb;
    destruct Hb as [|y b [Hy Hy0] Hb]; cbn [app strcmp];
    try pose proof (u8_pos x Hx Hx0); try pose proof (u8_pos y Hy Hy0);
    try pose proof (u8_range x); try pose proof (u8_range y).
  - eexists; split; [done|]. cbn. naive_solver lia.
  - eexists; split; [done|]. change (u8 0) with 0. cbn. naive_solver lia.
  - rewrite (proj2 (Z.eqb_neq x 0) Hx0).
    eexists; split; [done|]. change (u8 0) with 0. cbn. naive_solver lia.
  - rewrite (proj2 (Z.eqb_neq x 0) Hx0). cbn [negb andb lex_lt].
    destruct (Z.eqb_spec x y) as [->|Hne].
    + destruct (IH b Hb) as (r & E & Hr0 & Hr & Hb'). exists r. naive_solver lia.
    + eexists; split; [done|].
      assert (u8 x ≠ u8 y) by (intros ?; apply Hne; by apply u8_inj).
      naive_solver lia.
Qed.

Lemma strcmp_orders_witness :
  text (chars "ver") ∧
  ∃ r, strcmp (chars "ver" ++ 0 :: [7]) (chars "version" ++ 0 :: []) tt = Ret r tt ∧
    (r = 0 ↔ chars "ver" = chars "version") ∧ (r < 0 ↔ lex_lt (chars "ver") (chars "version")) ∧
    -255 <= r <= 255.
Proof.
  split; [is_text|]. apply (strcmp_orders unit tt); is_text.
Defined.
