(* ===== verification/Console.v ===== *)
(** * Console (kernel/printk.c)

    The VGA text screen, [vga_putc], [itoa] and [printk]. The state is the 4000 bytes of video
    memory at 0xB8000 (two per character cell), the cursor and the ports; a write outside the
    video memory is a [Fault]. [size_t] is 32 bits wide, as in the rest of the 32-bit boot
    kernel. The screen refines an unbounded page seen through a window of 25 rows ([page]). *)

From Stdlib Require Import Ascii String.
From stdpp Require Import base numbers strings gmap list.
From S2P Require Import Prelude Io CString.

Local Open Scope Z_scope.

Definition VGA_WIDTH : Z := 80.
Definition VGA_HEIGHT : Z := 25.
Definition VGA_COLOR : Z := 7.

Record console : Type := MkConsole {
  vram : list Z;      (** [VGA_MEMORY], characters and attributes interleaved *)
  cursor_x : Z;
  cursor_y : Z;
  cio : io;
}.

Definition set_vram (v : list Z) (s : console) : console :=
  MkConsole v (cursor_x s) (cursor_y s) (cio s).
Definition set_x (x : Z) (s : console) : console := MkConsole (vram s) x (cursor_y s) (cio s).
Definition set_y (y : Z) (s : console) : console := MkConsole (vram s) (cursor_x s) y (cio s).
Definition set_cio (i : io) (s : console) : console :=
  MkConsole (vram s) (cursor_x s) (cursor_y s) i.

(** [video_memory[i] = v] and [video_memory[i]] *)
Definition vset (i v : Z) : M console unit := λ s,
  if (0 <=? i) && (i <? Z.of_nat (length (vram s)))
  then Ret tt (set_vram (<[Z.to_nat i := v]> (vram s)) s) else Fault.
Definition vget (i : Z) : M console Z :=
  deref (λ s, if 0 <=? i then vram s !! Z.to_nat i else None).

Definition con_outb (port v : Z) : M console unit := zoom cio set_cio (outb port v).

Definition move_cursor : M console unit :=
  s ← get;
  let pos := u16 (u32 (u32 (cursor_y s * VGA_WIDTH) + cursor_x s)) in
  con_outb 0x3D4 0x0F;;
  con_outb 0x3D5 (u8 (Z.land pos 0xFF));;
  con_outb 0x3D4 0x0E;;
  con_outb 0x3D5 (u8 (Z.land (Z.shiftr pos 8) 0xFF)).

(** Index of a cell in video memory, as every branch of [vga_putc] computes it. *)
Definition cell_index (row col : Z) : Z := u32 (u32 (u32 (row * VGA_WIDTH) + col) * 2).

(** The two loops under [if (cursor_y >= VGA_HEIGHT)]. *)
Definition scroll_up : M console unit :=
  for_range 24 1 (λ row,
    for_range 80 0 (λ col,
      let src := cell_index row col in
      let dst := cell_index (u32 (row - 1)) col in
      v ← vget src;
      vset dst v;;
      a ← vget (src + 1);
      vset (dst + 1) a));;
  for_range 80 0 (λ col,
    let index := cell_index (VGA_HEIGHT - 1) col in
    vset index (chr " ");;
    vset (index + 1) VGA_COLOR).

Definition vga_putc (c : Z) : M console unit :=
  (if c =? 10 then
     modify (set_x 0);; modify (λ s, set_y (u32 (cursor_y s + 1)) s)
   else if c =? 8 then
     s ← get;
     (if 0 <? cursor_x s then modify (λ s, set_x (u32 (cursor_x s - 1)) s)
      else if 0 <? cursor_y s then
        modify (λ s, set_y (u32 (cursor_y s - 1)) s);; modify (set_x (VGA_WIDTH - 1))
      else mret tt);;
     s ← get;
     let index := cell_index (cursor_y s) (cursor_x s) in
     vset index (chr " ");;
     vset (index + 1) VGA_COLOR
   else
     s ← get;
     let index := cell_index (cursor_y s) (cursor_x s) in
     vset index c;;
     vset (index + 1) VGA_COLOR;;
     modify (λ s, set_x (u32 (cursor_x s + 1)) s);;
     s ← get;
     when (VGA_WIDTH <=? cursor_x s)
       (modify (set_x 0);; modify (λ s, set_y (u32 (cursor_y s + 1)) s)));;
  s ← get;
  when (VGA_HEIGHT <=? cursor_y s) (scroll_up;; modify (set_y (VGA_HEIGHT - 1)));;
  move_cursor.

(** ** [itoa]

    The buffer is a list of characters, [None] where nothing was written yet; reading such a
    place, or going outside the buffer, is a [Fault], as is signed overflow. *)

Abbreviation buffer := (list (option Z)).

Definition bset (i v : Z) : M buffer unit := λ b,
  if (0 <=? i) && (i <? Z.of_nat (length b)) then Ret tt (<[Z.to_nat i := Some (i8 v)]> b)
  else Fault.
Definition bget (i : Z) : M buffer Z :=
  deref (λ b, if 0 <=? i then mjoin (b !! Z.to_nat i) else None).

(** [(rem > 9) ? (rem - 10) + 'a' : rem + '0'] *)
Definition digit_char (rem : Z) : Z :=
  if 9 <? rem then (rem - 10) + chr "a" else rem + chr "0".

(** [while (num) { ... }], returning [i]. *)
Fixpoint itoa_digits (fuel : nat) (num base i : Z) : M buffer Z :=
  match fuel with
  | O => nofuel
  | S fuel' =>
      if num =? 0 then mret i else
      if (base =? 0) || ((base =? -1) && (num =? - 2 ^ 31)) then fault else
      bset i (digit_char (Z.rem num base));;
      itoa_digits fuel' (Z.quot num base) base (i + 1)
  end.

(** [for (int j = 0, k = i - 1; j < k; j++, k--)]: swap. *)
Fixpoint itoa_reverse (fuel : nat) (j k : Z) : M buffer unit :=
  match fuel with
  | O => nofuel
  | S fuel' =>
      if j <? k then
        temp ← bget j;
        v ← bget k;
        bset j v;;
        bset k temp;;
        itoa_reverse fuel' (j + 1) (k - 1)
      else mret tt
  end.

Definition itoa (num base : Z) : M buffer unit :=
  if num =? 0 then bset 0 (chr "0");; bset 1 0 else
  let isNegative := (num <? 0) && (base =? 10) in
  if isNegative && (num =? - 2 ^ 31) then fault else
  let num' := if isNegative then - num else num in
  i ← itoa_digits 33 num' base 0;
  i ← (if isNegative : bool then bset i (chr "-");; mret (i + 1) else mret i);
  bset i 0;;
  itoa_reverse 33 0 (i - 1).

(** ** [printk] *)

(** A value of the variable argument list; taking one of another type, or one too many, is
    undefined. *)
Inductive va : Type :=
| VInt (n : Z)
| VStr (str : list Z).

(** [while ( *str ) vga_putc( *str++ )] *)
Fixpoint put_string (str : list Z) : M console unit :=
  match str with
  | [] => fault
  | c :: str' => if c =? 0 then mret tt else vga_putc c;; put_string str'
  end.

(** The same loop over the local buffer. *)
Fixpoint put_buffer (b : buffer) : M console unit :=
  match b with
  | Some c :: b' => if c =? 0 then mret tt else vga_putc c;; put_buffer b'
  | _ => fault
  end.

(** The body of the cases ['d'] and ['x']. *)
Definition put_number (num base : Z) : M console unit := λ s,
  match itoa num base (replicate 32 None) with
  | Ret _ b => put_buffer b s
  | NoFuel => NoFuel
  | _ => Fault
  end.

Fixpoint printk_loop (format : list Z) (args : list va) : M console unit :=
  match format with
  | [] => fault
  | c :: format' =>
      if c =? 0 then mret tt else
      if c =? chr "%" then
        match format' with
        | [] => fault
        | d :: format'' =>
            if d =? chr "s" then
              match args with
              | VStr str :: args' => put_string str;; printk_loop format'' args'
              | _ => fault
              end
            else if d =? chr "d" then
              match args with
              | VInt num :: args' => put_number num 10;; printk_loop format'' args'
              | _ => fault
              end
            else if d =? chr "x" then
              match args with
              | VInt num :: args' => put_number num 16;; printk_loop format'' args'
              | _ => fault
              end
            else if d =? chr "c" then
              match args with
              | VInt n :: args' => vga_putc (i8 n);; printk_loop format'' args'
              | _ => fault
              end
            else vga_putc (chr "%");; vga_putc d;; printk_loop format'' args
        end
      else vga_putc c;; printk_loop format' args
  end.

Definition printk (format : list Z) (args : list va) : M console unit :=
  printk_loop format args;; move_cursor.
