(* ===== verification/HostPrintk.v ===== *)
(** * The hosted [printk] (kernel/utils/printk.c)

    The variant of [printk] for programs on a host system: it formats with [vprintf] and flushes
    [stdout]. The stream is what the host has received and what the C library still holds back.
    What a format renders to ([None] where C leaves the call undefined) and how much the library
    hands over by itself, which depends on the buffering of the stream, are parameters. *)

From stdpp Require Import base numbers list.
From S2P Require Import Prelude Console.

Local Open Scope Z_scope.

Record stream : Type := MkStream {
  received : list Z;   (** bytes the host has *)
  held : list Z;       (** bytes in the buffer of the stream *)
}.

Class Stdio : Type := {
  format_text : list Z → list va → option (list Z);
  early : list Z → nat;   (** bytes of a buffer handed over without being asked *)
}.

Section host.
Context `{Stdio}.

Definition vprintf (fmt : list Z) (args : list va) : M stream unit :=
  out ← deref (λ _, format_text fmt args);
  modify (λ s, let buf := held s ++ out in
    MkStream (received s ++ take (early buf) buf) (drop (early buf) buf)).

Definition fflush : M stream unit := modify (λ s, MkStream (received s ++ held s) []).

Definition host_printk (fmt : list Z) (args : list va) : M stream unit :=
  vprintf fmt args;; fflush.

Fixpoint host_printks (l : list (list Z * list va)) : M stream unit :=
  match l with
  | [] => mret tt
  | (fmt, args) :: l' => host_printk fmt args;; host_printks l'
  end.

Lemma host_printk_ret fmt args out s :
  format_text fmt args = Some out →
  host_printk fmt args s = Ret tt (MkStream ((received s ++ held s) ++ out) []).
Proof.
  intros E. unfold host_printk, vprintf, fflush. mred. unfold deref. rewrite E. cbn.
  by rewrite <- (app_assoc (received s)), take_drop, app_assoc.
Qed.

(** However the stream is buffered, every call leaves its text with the host, after everything
    written before it: the texts of a sequence of calls arrive complete and in order. *)
Theorem host_printks_in_order l outs s :
  Forall2 (λ c out, format_text c.1 c.2 = Some out) l outs → l ≠ [] →
  host_printks l s = Ret tt (MkStream ((received s ++ held s) ++ concat outs) []).
Proof.
  intros Hl. revert s. induction Hl as [|[fmt args] out l outs E Hl IH]; intros s Hne; [done|].
  cbn [host_printks]. rewrite (bind_ret _ _ _ _ _ (host_printk_ret fmt args out s E)).
  destruct Hl as [|c o l outs Ec Hl]; [cbn; by rewrite app_nil_r|].
  rewrite IH by done. cbn. by rewrite app_nil_r, <- !app_assoc.
Qed.
End host.

(** Line buffering of a library that copies the format. *)
Definition copying : Stdio := {|
  format_text := λ fmt _, Some fmt;
  early := λ buf, if decide (10 ∈ buf) then length buf else 0%nat;
|}.

Lemma host_printks_in_order_witness :
  host_printks (H := copying) [([104; 10], []); ([105], [])] (MkStream [1] [2]) =
  Ret tt (MkStream [1; 2; 104; 10; 105] []).
Proof.
  apply (host_printks_in_order (H := copying) _ [[104; 10]; [105]] (MkStream [1] [2]));
    [by repeat constructor|done].
Defined.
