(* ===== verification/Itoa.v ===== *)
(** * Integers as text ([itoa] of kernel/printk.c)

    [numeral] is the text [itoa] leaves in its buffer, wherever C defines the call, and [atoi]
    reads a text back. For a number that is not negative, and for a negative one in base ten,
    reading back is the identity. A negative number in another base is printed without a sign and
    with the character ['0' - d] for a digit [d], which is no digit at all. *)

From Stdlib Require Import Ascii String.
From stdpp Require Import base numbers strings list.
From S2P Require Import Prelude CString Console.

Local Open Scope Z_scope.

(** Digits of a positive number, least significant first. *)
Fixpoint digits_le (fuel : nat) (base n : Z) : list Z :=
  match fuel with
  | O => []
  | S fuel' => if n =? 0 then [] else n mod base :: digits_le fuel' base (n / base)
  end.

(** The characters of the digits of [sg * n], most significant first. *)
Definition digit_text (sg base n : Z) : list Z :=
  reverse ((λ d, digit_char (sg * d)) <$> digits_le 32 base n).

(** The text of [n]. *)
Definition numeral (base n : Z) : list Z :=
  if n =? 0 then [chr "0"]
  else if n <? 0 then
    if base =? 10 then chr "-" :: digit_text 1 base (- n) else digit_text (-1) base (- n)
  else digit_text 1 base n.

(** Reading a text back: an optional sign and a Horner sum. *)
Definition digit_value (c : Z) : Z := if c <=? chr "9" then c - chr "0" else c - chr "a" + 10.
Definition horner (base : Z) (cs : list Z) : Z :=
  foldl (λ acc c, acc * base + digit_value c) 0 cs.
Definition atoi (base : Z) (cs : list Z) : Z :=
  match cs with
  | c :: cs' => if c =? chr "-" then - horner base cs' else horner base cs
  | [] => 0
  end.

Section base.
Context (base : Z) (Hbase : 2 <= base <= 36).

Lemma digit_value_char d : 0 <= d < base → digit_value (digit_char d) = d.
Proof.
  intros Hd. unfold digit_value, digit_char.
  change (chr "a") with 97. change (chr "0") with 48. change (chr "9") with 57.
  repeat zcase; lia.
Qed.

Lemma digit_char_text sg d :
  sg = 1 ∨ sg = -1 → 0 <= d < base → 13 <= digit_char (sg * d) < 128 ∧ (sg = 1 → 48 <= digit_char d).
Proof.
  intros [->| ->] Hd; unfold digit_char; change (chr "a") with 97; change (chr "0") with 48;
    repeat zcase; lia.
Qed.

Lemma digits_range fuel n : Forall (λ d, 0 <= d < base) (digits_le fuel base n).
Proof.
  revert n. induction fuel as [|f IH]; intros n; cbn; [constructor|].
  zcase; constructor; [|apply IH]. apply Z.mod_pos_bound. lia.
Qed.

Lemma div_fuel f n : 0 <= n < 2 ^ Z.of_nat (S f) → 0 <= n / base < 2 ^ Z.of_nat f.
Proof.
  intros Hn. rewrite Nat2Z.inj_succ, Z.pow_succ_r in Hn by lia. split.
  - apply Z.div_pos; lia.
  - apply Z.le_lt_trans with (n / 2); [|apply Z.div_lt_upper_bound; lia].
    apply Z.div_le_compat_l; lia.
Qed.

Lemma horner_snoc cs c : horner base (cs ++ [c]) = horner base cs * base + digit_value c.
Proof. unfold horner. by rewrite foldl_app. Qed.

Lemma horner_digits fuel n :
  0 <= n < 2 ^ Z.of_nat fuel →
  horner base (reverse ((λ d, digit_char (1 * d)) <$> digits_le fuel base n)) = n.
Proof.
  revert n. induction fuel as [|f IH]; intros n Hn.
  - cbn in *. lia.
  - cbn [digits_le]. destruct (Z.eqb_spec n 0) as [->|Hz]; [done|].
    rewrite fmap_cons, reverse_cons, horner_snoc, IH by (by apply div_fuel).
    rewrite Z.mul_1_l, digit_value_char by (apply Z.mod_pos_bound; lia).
    pose proof (Z.div_mod n base). lia.
Qed.

(** ** The two loops *)

Lemma bset_app pre x post v :
  bset (Z.of_nat (length pre)) v (pre ++ x :: post) = Ret tt (pre ++ Some (i8 v) :: post).
Proof.
  unfold bset. rewrite length_app. cbn [length].
  rewrite (proj2 (Z.leb_le 0 _)), (proj2 (Z.ltb_lt _ _)) by lia. cbn [andb].
  rewrite Nat2Z.id. by rewrite insert_app_r_alt, Nat.sub_diag by lia.
Qed.

Lemma bget_app pre v post : bget (Z.of_nat (length pre)) (pre ++ Some v :: post) = Ret v (pre ++ Some v :: post).
Proof.
  unfold bget. apply deref_ret. rewrite (proj2 (Z.leb_le 0 _)) by lia.
  rewrite Nat2Z.id. by rewrite list_lookup_middle.
Qed.

Lemma i8_char c : is_char c → i8 c = c.
Proof. intros. apply swrap_small; unfold is_char in *; lia. Qed.

(** The remainders of a negative number are the negative ones of its opposite. *)
Lemma itoa_digits_step sg f n i :
  sg = 1 ∨ sg = -1 → 0 < n →
  itoa_digits (S f) (sg * n) base i =
    (bset i (digit_char (sg * (n mod base)));; itoa_digits f (sg * (n / base)) base (i + 1)).
Proof using Hbase.
  intros Hsg Hn. cbn [itoa_digits]. rewrite (proj2 (Z.eqb_neq (sg * n) 0)) by lia.
  rewrite (proj2 (Z.eqb_neq base 0)), (proj2 (Z.eqb_neq base (-1))) by lia. cbn [orb andb].
  destruct Hsg as [->| ->].
  - by rewrite !Z.mul_1_l, Z.rem_mod_nonneg, Z.quot_div_nonneg by lia.
  - replace (-1 * n) with (- n) by lia. rewrite Z.rem_opp_l, Z.quot_opp_l by lia.
    rewrite Z.rem_mod_nonneg, Z.quot_div_nonneg by lia.
    by rewrite !(Z.mul_comm (-1)), <- !Z.opp_eq_mul_m1.
Qed.

Lemma itoa_digits_run sg fuel n pre k :
  sg = 1 ∨ sg = -1 → 0 <= n < 2 ^ Z.of_nat fuel → (length (digits_le fuel base n) <= k)%nat →
  itoa_digits (S fuel) (sg * n) base (Z.of_nat (length pre)) (pre ++ replicate k None) =
    Ret (Z.of_nat (length pre + length (digits_le fuel base n)))
        (pre ++ (Some <$> ((λ d, digit_char (sg * d)) <$> digits_le fuel base n)) ++
           replicate (k - length (digits_le fuel base n)) None).
Proof.
  intros Hsg. revert n pre k. induction fuel as [|f IH]; intros n pre k Hn Hk.
  - change (2 ^ Z.of_nat 0) with 1 in Hn. assert (n = 0) as -> by lia. rewrite Z.mul_0_r.
    cbn. by rewrite Nat.add_0_r, Nat.sub_0_r.
  - cbn [digits_le] in *. destruct (Z.eqb_spec n 0) as [->|Hz].
    { rewrite Z.mul_0_r. cbn. by rewrite Nat.add_0_r, Nat.sub_0_r. }
    rewrite itoa_digits_step by (done || lia).
    assert (Hd : 0 <= n mod base < base) by (apply Z.mod_pos_bound; lia).
    cbn [length] in Hk. destruct k as [|k]; [lia|]. cbn [replicate].
    rewrite (bind_ret _ _ _ _ _ (bset_app pre None _ _)).
    rewrite i8_char by (pose proof (proj1 (digit_char_text sg _ Hsg Hd)); unfold is_char; lia).
    replace (Z.of_nat (length pre) + 1) with
      (Z.of_nat (length (pre ++ [Some (digit_char (sg * (n mod base)))])))
      by (rewrite length_app; cbn; lia).
    rewrite (app_assoc pre [_] (replicate k None) : pre ++ _ :: _ = _).
    rewrite IH by (first [by apply div_fuel|lia]).
    rewrite length_app. cbn [length fmap list_fmap]. rewrite <- app_assoc. cbn [app]. f_equal. lia.
Qed.

Lemma itoa_reverse_run fuel (mid : list Z) (pre post : buffer) :
  (length mid < fuel)%nat → Forall is_char mid →
  itoa_reverse fuel (Z.of_nat (length pre)) (Z.of_nat (length pre + length mid) - 1)
    (pre ++ (Some <$> mid) ++ post) = Ret tt (pre ++ (Some <$> reverse mid) ++ post).
Proof.
  revert mid pre post. induction fuel as [|f IH]; intros mid pre post Hf Hm; [lia|].
  cbn [itoa_reverse]. destruct mid as [|x mid].
  { cbn. rewrite (proj2 (Z.ltb_ge _ _)) by lia. done. }
  destruct mid as [|y mid _] using rev_ind.
  { cbn. rewrite (proj2 (Z.ltb_ge _ _)) by lia. done. }
  apply Forall_cons in Hm as [Hx Hm]. apply Forall_app in Hm as [Hm Hy].
  apply Forall_cons in Hy as [Hy _].
  rewrite (proj2 (Z.ltb_lt _ _)) by (cbn; rewrite length_app; cbn; lia).
  cbn [length] in Hf. rewrite length_app in Hf. cbn in Hf.
  set (k := Z.of_nat _ - 1).
  assert (Ek : k = Z.of_nat (length (pre ++ Some x :: (Some <$> mid))))
    by (unfold k; cbn; rewrite !length_app; cbn; rewrite length_fmap; lia).
  assert (Ek' : k = Z.of_nat (length (pre ++ Some y :: (Some <$> mid))))
    by (rewrite Ek, !length_app; done).
  rewrite reverse_cons, reverse_app. cbn [fmap list_fmap].
  change (reverse [y]) with [y]. rewrite !fmap_app. cbn [fmap list_fmap app].
  rewrite <- !app_assoc. cbn [app].
  rewrite (bind_ret _ _ _ _ _ (bget_app pre x _)).
  rewrite (bind_ret _ _ _ y (pre ++ Some x :: (Some <$> mid) ++ Some y :: post)); last first.
  { rewrite Ek, app_comm_cons, app_assoc. apply bget_app. }
  rewrite (bind_ret _ _ _ _ _ (bset_app pre _ _ y)), (i8_char y) by done.
  rewrite (bind_ret _ _ _ tt (pre ++ Some y :: (Some <$> mid) ++ Some x :: post)); last first.
  { rewrite Ek', !(app_comm_cons _ _ (Some y)), !(app_assoc pre), bset_app.
    by rewrite (i8_char x). }
  specialize (IH mid (pre ++ [Some y]) (Some x :: post)).
  rewrite !length_app in IH. cbn [length] in IH. rewrite <- !app_assoc in IH. cbn [app] in IH.
  replace (Z.of_nat (length pre) + 1) with (Z.of_nat (length pre + 1)) by lia.
  replace (k - 1) with (Z.of_nat (length pre + 1 + length mid) - 1)
    by (rewrite Ek, length_app; cbn; rewrite length_fmap; lia).
  apply IH; [lia|done].
Qed.

(** ** The whole function *)

Lemma digits_length fuel n k :
  0 <= n < base ^ Z.of_nat k → (length (digits_le fuel base n) <= k)%nat.
Proof.
  revert n k. induction fuel as [|f IH]; intros n k Hn; cbn [digits_le length]; [lia|].
  destruct (Z.eqb_spec n 0) as [->|Hz]; cbn [length]; [lia|].
  destruct k as [|k]; [change (base ^ Z.of_nat 0) with 1 in Hn; lia|].
  rewrite Nat2Z.inj_succ, Z.pow_succ_r in Hn by lia.
  apply le_n_S, IH. split; [apply Z.div_pos; lia|apply Z.div_lt_upper_bound; lia].
Qed.

(** The numbers C defines the call on: the smallest integer has no opposite for the sign of base
    ten, and in base two it has 32 digits, which leave no room for the terminator. *)
Definition printable (n : Z) : Prop :=
  - 2 ^ 31 <= n < 2 ^ 31 ∧ (n = - 2 ^ 31 → base ≠ 2 ∧ base ≠ 10).

Lemma digits_chars sg fuel n :
  sg = 1 ∨ sg = -1 → Forall is_char ((λ d, digit_char (sg * d)) <$> digits_le fuel base n).
Proof.
  intros Hsg. apply Forall_fmap. eapply Forall_impl; [apply digits_range|].
  intros d Hd. destruct (digit_char_text sg d Hsg Hd). cbn. unfold is_char. lia.
Qed.

Lemma digit_text_text sg n : sg = 1 ∨ sg = -1 → text (digit_text sg base n).
Proof.
  intros Hsg. apply Forall_reverse, Forall_fmap. eapply Forall_impl; [apply digits_range|].
  intros d Hd. destruct (digit_char_text sg d Hsg Hd). cbn. unfold is_char. lia.
Qed.

Lemma numeral_text n : text (numeral base n).
Proof.
  unfold numeral. repeat zcase; try (by apply digit_text_text; auto).
  - by repeat constructor.
  - apply Forall_cons. split; [done|]. apply digit_text_text. auto.
Qed.

Lemma digit_text_length sg n k :
  0 <= n < base ^ Z.of_nat k → (length (digit_text sg base n) <= k)%nat.
Proof.
  intros Hn. unfold digit_text. rewrite length_reverse, length_fmap. by apply digits_length.
Qed.

Lemma numeral_length n : printable n → (length (numeral base n) <= 31)%nat.
Proof.
  intros [Hn Hmin]. unfold numeral. destruct (Z.eqb_spec n 0); [cbn; lia|].
  assert (2 ^ 31 <= base ^ Z.of_nat 31) by (apply Z.pow_le_mono_l; lia).
  destruct (Z.ltb_spec n 0); [|apply digit_text_length; lia].
  destruct (Z.eqb_spec base 10) as [E|E].
  - cbn [length]. apply le_n_S. etrans; [apply (digit_text_length 1 _ 10)|lia].
    rewrite E. change (10 ^ Z.of_nat 10) with 10000000000. lia.
  - apply digit_text_length. destruct (Z.eq_dec n (- 2 ^ 31)) as [->|]; [|lia].
    split; [lia|]. apply Z.lt_le_trans with (3 ^ 31); [done|]. apply Z.pow_le_mono_l. lia.
Qed.

Lemma horner_text n : 0 <= n < 2 ^ 32 → horner base (digit_text 1 base n) = n.
Proof. intros. by apply horner_digits. Qed.

Lemma atoi_numeral n : printable n → (n < 0 → base = 10) → atoi base (numeral base n) = n.
Proof.
  intros [Hn _] Hneg. unfold numeral. destruct (Z.eqb_spec n 0) as [->|Hz]; [done|].
  destruct (Z.ltb_spec n 0) as [Hlt|].
  - rewrite (proj2 (Z.eqb_eq base 10)) by auto. cbn [atoi]. change (chr "-" =? chr "-") with true.
    cbv iota. rewrite horner_text by lia. lia.
  - pose proof (horner_text n ltac:(lia)) as Hh.
    assert (Forall (λ c, 48 <= c) (digit_text 1 base n)) as Hc.
    { apply Forall_reverse, Forall_fmap. eapply Forall_impl; [apply digits_range|].
      intros d Hd. destruct (digit_char_text 1 d ltac:(auto) Hd) as [_ Hd']. unfold compose.
      replace (1 * d) with d by lia. by apply Hd'. }
    destruct (digit_text _ _ _) as [|c cs]; [cbn in *; lia|].
    apply Forall_cons in Hc as [Hc _]. cbn [atoi].
    change (chr "-") with 45. by rewrite (proj2 (Z.eqb_neq c 45)) by lia.
Qed.

(** The terminator and the reversal, once the characters [cs] are in the buffer. *)
Lemma itoa_finish cs :
  (length cs <= 31)%nat → Forall is_char cs →
  (bset (Z.of_nat (length cs)) 0;; itoa_reverse 33 0 (Z.of_nat (length cs) - 1))
    ((Some <$> cs) ++ replicate (32 - length cs) None) =
  Ret tt ((Some <$> reverse cs ++ [0]) ++ replicate (31 - length cs) None).
Proof.
  intros Hl Hc. replace (32 - length cs)%nat with (S (31 - length cs)) by lia. cbn [replicate].
  rewrite <- (length_fmap Some cs) at 1. rewrite (bind_ret _ _ _ _ _ (bset_app _ _ _ _)).
  change (i8 0) with 0.
  pose proof (itoa_reverse_run 33 cs [] (Some 0 :: replicate (31 - length cs) None)) as H.
  cbn [length app Nat.add] in H. change (Z.of_nat 0) with 0 in H. 
  rewrite H by (done || lia).
  by rewrite fmap_app, <- app_assoc.
Qed.

(** The digits of [sg * n] in a fresh buffer, least significant first. *)
Lemma itoa_digits_fresh sg n :
  sg = 1 ∨ sg = -1 → 0 <= n < 2 ^ 32 → (length (digit_text sg base n) <= 32)%nat →
  itoa_digits 33 (sg * n) base 0 (replicate 32 None) =
    Ret (Z.of_nat (length (digit_text sg base n)))
      ((Some <$> reverse (digit_text sg base n)) ++
       replicate (32 - length (digit_text sg base n)) None).
Proof.
  intros Hsg Hn Hl. unfold digit_text in *. rewrite reverse_involutive, length_reverse, length_fmap in *.
  exact (itoa_digits_run sg 32 n [] 32 Hsg Hn Hl).
Qed.

Lemma reverse_chars sg n : sg = 1 ∨ sg = -1 → Forall is_char (reverse (digit_text sg base n)).
Proof. intros Hsg. unfold digit_text. rewrite reverse_involutive. by apply digits_chars. Qed.

(** Digits without a sign. *)
Lemma itoa_unsigned sg n :
  sg = 1 ∨ sg = -1 → 0 <= n < 2 ^ 32 → (length (digit_text sg base n) <= 31)%nat →
  (i ← itoa_digits 33 (sg * n) base 0; i ← mret i; bset i 0;; itoa_reverse 33 0 (i - 1))
    (replicate 32 None) =
    Ret tt ((Some <$> digit_text sg base n ++ [0]) ++
            replicate (31 - length (digit_text sg base n)) None).
Proof.
  intros Hsg Hn Hl. rewrite (bind_ret _ _ _ _ _ (itoa_digits_fresh sg n Hsg Hn ltac:(lia))), bind_mret.
  pose proof (itoa_finish (reverse (digit_text sg base n))) as H. rewrite length_reverse in H.
  rewrite H, reverse_involutive; [done|lia|by apply reverse_chars].
Qed.

(** Digits and the sign of base ten. *)
Lemma itoa_signed n :
  0 <= n < 2 ^ 32 → (length (digit_text 1 base n) <= 30)%nat →
  (i ← itoa_digits 33 n base 0; i ← (bset i (chr "-");; mret (i + 1)); bset i 0;; itoa_reverse 33 0 (i - 1))
    (replicate 32 None) =
    Ret tt ((Some <$> (chr "-" :: digit_text 1 base n) ++ [0]) ++
            replicate (31 - S (length (digit_text 1 base n))) None).
Proof.
  intros Hn Hl. set (ds := digit_text 1 base n) in *.
  pose proof (itoa_digits_fresh 1 n (or_introl eq_refl) Hn ltac:(fold ds; lia)) as Hd.
  rewrite Z.mul_1_l in Hd. fold ds in Hd. rewrite (bind_ret _ _ _ _ _ Hd).
  rewrite (bind_ret _ _ _ (Z.of_nat (length ds + 1))
    ((Some <$> reverse ds ++ [chr "-"]) ++ replicate (32 - (length ds + 1)) None)); last first.
  { replace (32 - length ds)%nat with (S (32 - (length ds + 1))) by lia. cbn [replicate].
    rewrite <- (length_reverse ds) at 1. rewrite <- (length_fmap Some (reverse ds)) at 1.
    rewrite (bind_ret _ _ _ _ _ (bset_app _ _ _ _)), fmap_app, <- app_assoc, Nat2Z.inj_add. done. }
  pose proof (itoa_finish (reverse ds ++ [chr "-"])) as H.
  rewrite length_app, length_reverse in H. cbn [length] in H.
  rewrite H; [|lia|apply Forall_app; split; [apply reverse_chars; auto|by repeat constructor]].
  rewrite reverse_app, reverse_involutive. cbn [app]. by rewrite Nat.add_comm.
Qed.

Lemma itoa_run n :
  printable n →
  itoa n base (replicate 32 None) =
    Ret tt ((Some <$> numeral base n ++ [0]) ++
            replicate (31 - length (numeral base n)) None).
Proof.
  intros Hp. pose proof (numeral_length n Hp) as Hlen. pose proof Hp as [Hn Hmin].
  unfold itoa, numeral in *. destruct (Z.eqb_spec n 0) as [->|Hz]; [done|].
  destruct (Z.ltb_spec n 0) as [Hlt|Hge]; cbn [andb].
  - destruct (Z.eqb_spec base 10) as [E|E]; cbn [andb length] in *.
    + destruct (Z.eqb_spec n (- 2 ^ 31)) as [->|_]; [by destruct Hmin|]. apply itoa_signed; lia.
    + pose proof (itoa_unsigned (-1) (- n) ltac:(auto) ltac:(lia) Hlen) as H.
      replace (-1 * - n) with n in H by lia. exact H.
  - pose proof (itoa_unsigned 1 n ltac:(auto) ltac:(lia) Hlen) as H. by rewrite Z.mul_1_l in H.
Qed.
End base.

(** C37: itoa, called the way printk calls it on an uninitialised buffer of 32 characters, for
    every base from 2 to 36 and every int, except the smallest one in the bases 2 and 10, where
    the call is undefined: it stays inside the buffer and leaves a NUL-terminated text. The text of
    a number that is not negative, and in base ten that of a negative one, reads back as the
    number. A negative number in another base is left as the digits of its absolute value with the
    character '0' - d for the digit d. *)
Theorem itoa_roundtrip base n :
  2 <= base <= 36 → - 2 ^ 31 <= n < 2 ^ 31 → (n = - 2 ^ 31 → base ≠ 2 ∧ base ≠ 10) →
  ∃ cs rest, itoa n base (replicate 32 None) = Ret tt ((Some <$> cs ++ [0]) ++ rest) ∧
    text cs ∧ (0 <= n ∨ base = 10 → atoi base cs = n) ∧
    (n < 0 → base ≠ 10 →
     ∃ ds, horner base (digit_char <$> ds) = - n ∧ cs = (λ d, chr "0" - d) <$> ds).
Proof.
  intros Hb Hn Hs. assert (Hp : printable base n) by done.
  exists (numeral base n), (replicate (31 - length (numeral base n)) None). split_and!.
  - by apply itoa_run.
  - by apply numeral_text.
  - intros H. apply atoi_numeral; [done|done|lia].
  - intros Hneg H10. exists (reverse (digits_le 32 base (- n))). split.
    + rewrite <- (horner_text base Hb (- n)) at 2 by lia. unfold digit_text.
      rewrite fmap_reverse. do 2 f_equal. apply list_fmap_ext. intros _ d _. by rewrite Z.mul_1_l.
    + unfold numeral. rewrite (proj2 (Z.eqb_neq n 0)), (proj2 (Z.ltb_lt n 0)) by lia.
      rewrite (proj2 (Z.eqb_neq base 10)) by done. unfold digit_text. rewrite fmap_reverse. f_equal.
      apply list_fmap_ext. intros i d Hd%list_elem_of_lookup_2.
      pose proof (proj1 (Forall_forall _ _) (digits_range base Hb 32 (- n)) d Hd) as Hr.
      cbn beta in Hr. unfold digit_char. rewrite (proj2 (Z.ltb_ge _ _)) by lia. lia.
Qed.

Lemma itoa_roundtrip_witness :
  (∃ cs rest, itoa (-2147483647) 10 (replicate 32 None) = Ret tt ((Some <$> cs ++ [0]) ++ rest) ∧
     text cs ∧ atoi 10 cs = -2147483647) ∧
  ∃ cs rest ds, itoa (- 2 ^ 31) 16 (replicate 32 None) = Ret tt ((Some <$> cs ++ [0]) ++ rest) ∧
    horner 16 (digit_char <$> ds) = 2 ^ 31 ∧ cs = (λ d, chr "0" - d) <$> ds.
Proof.
  split.
  - destruct (itoa_roundtrip 10 (-2147483647)) as (cs & rest & E & Ht & H & _); [lia|lia|lia|].
    exists cs, rest. split_and!; [exact E|exact Ht|apply H; right; reflexivity].
  - destruct (itoa_roundtrip 16 (- 2 ^ 31)) as (cs & rest & E & _ & _ & H); [lia|lia|lia|].
    destruct H as (ds & H1 & H2); [lia|lia|]. exists cs, rest, ds. exact (conj E (conj H1 H2)).
Defined.

(** A negative number in base 16, as [%x] prints it: the remainders are negative, so the
    characters are below ['0'] and no reading of them as digits is the number. *)
Lemma itoa_negative_hex :
  itoa (-1) 16 (replicate 32 None) = Ret tt (Some (chr "/") :: Some 0 :: replicate 30 None) ∧
  itoa (-255) 16 (replicate 32 None) =
    Ret tt (Some (chr "!") :: Some (chr "!") :: Some 0 :: replicate 29 None).
Proof. done. Qed.

(** The smallest integer has no opposite: [num = -num] overflows. *)
Lemma itoa_min : itoa (- 2 ^ 31) 10 (replicate 32 None) = Fault.
Proof. done. Qed.
