(* ===== verification/ConsoleProps.v ===== *)
(** * The console as a window on a page

    [page] is the abstract terminal: an unbounded sheet of rows of 80 cells, a cursor and the
    row the window starts at. Printing writes on the sheet, and the window follows the cursor
    down, never up. [shows] relates a console to a page; [vga_putc] and [printk] simulate. *)

From Stdlib Require Import Ascii String.
From stdpp Require Import base numbers strings gmap list.
From S2P Require Import Prelude Frame Io CString Console Itoa.

Local Open Scope Z_scope.

Definition cell : Type := Z * Z.
Definition blank : cell := (chr " ", VGA_COLOR).

Record page : Type := MkPage {
  sheet : gmap (Z * Z) cell;   (** row and column; blank where absent *)
  top : Z;                     (** first visible row *)
  row : Z;
  col : Z;
}.

Definition at_cell (p : page) (r c : Z) : cell := default blank (sheet p !! (r, c)).

(** Move the cursor to the start of the next row, the window with it when it falls out. *)
Definition next_row (p : page) : page :=
  MkPage (sheet p) (Z.max (top p) (row p + 1 - 24)) (row p + 1) 0.

Definition page_back (p : page) : page :=
  let '(r, c) := if 0 <? col p then (row p, col p - 1)
                 else if top p <? row p then (row p - 1, 79) else (row p, col p) in
  MkPage (<[(r, c) := blank]> (sheet p)) (top p) r c.

Definition page_put (ch : Z) (p : page) : page :=
  let p' := MkPage (<[(row p, col p) := (ch, VGA_COLOR)]> (sheet p)) (top p) (row p) (col p + 1) in
  if col p =? 79 then next_row p' else p'.

Definition page_putc (p : page) (ch : Z) : page :=
  if ch =? 10 then next_row p else if ch =? 8 then page_back p else page_put ch p.

(** ** The relation *)

(** Byte [i] of the video memory. *)
Definition vat (s : console) (i : Z) : option Z := vram s !! Z.to_nat i.

Definition window (s : console) (p : page) : Prop :=
  ∀ r c, 0 <= r < 25 → 0 <= c < 80 →
    vat s ((r * 80 + c) * 2) = Some (at_cell p (top p + r) c).1 ∧
    vat s ((r * 80 + c) * 2 + 1) = Some (at_cell p (top p + r) c).2.

Record con_wf (s : console) : Prop := {
  wf_vram : length (vram s) = 4000%nat;
  wf_x : 0 <= cursor_x s < 80;
  wf_y : 0 <= cursor_y s < 25;
}.

Record shows (s : console) (p : page) : Prop := {
  shows_wf : con_wf s;
  shows_col : cursor_x s = col p;
  shows_row : top p + cursor_y s = row p;
  shows_window : window s p;
  shows_below : ∀ r c, top p + 25 <= r → sheet p !! (r, c) = None;
}.

(** ** Video memory accesses *)

Lemma cell_index_exact r c : 0 <= r <= 25 → 0 <= c <= 80 → cell_index r c = (r * 80 + c) * 2.
Proof.
  intros. unfold cell_index, VGA_WIDTH. rewrite !(u32_small (r * 80)) by lia.
  rewrite !(u32_small (r * 80 + c)) by lia. apply u32_small; lia.
Qed.

Lemma vset_ret s i v :
  length (vram s) = 4000%nat → 0 <= i < 4000 →
  vset i v s = Ret tt (set_vram (<[Z.to_nat i := v]> (vram s)) s).
Proof.
  intros Hl Hi. unfold vset. rewrite Hl.
  rewrite (proj2 (Z.leb_le 0 i)), (proj2 (Z.ltb_lt i _)) by lia. done.
Qed.

Lemma vget_ret s i v : 0 <= i → vat s i = Some v → vget i s = Ret v s.
Proof.
  intros Hi E. unfold vget. apply deref_ret. rewrite (proj2 (Z.leb_le 0 i)) by lia. done.
Qed.

Lemma vat_some s i : length (vram s) = 4000%nat → 0 <= i < 4000 → ∃ v, vat s i = Some v.
Proof. intros. apply lookup_lt_is_Some. lia. Qed.

Lemma vat_insert s i j v :
  length (vram s) = 4000%nat → 0 <= i < 4000 → 0 <= j →
  vat (set_vram (<[Z.to_nat i := v]> (vram s)) s) j = if i =? j then Some v else vat s j.
Proof.
  intros Hl Hi Hj. unfold vat. cbn. destruct (Z.eqb_spec i j) as [->|].
  - apply list_lookup_insert_eq. lia.
  - apply list_lookup_insert_ne. lia.
Qed.

(** Two states that differ in the video memory only. *)
Definition same_but_vram (s s' : console) : Prop :=
  cursor_x s' = cursor_x s ∧ cursor_y s' = cursor_y s ∧ cio s' = cio s ∧
  length (vram s) = 4000%nat ∧ length (vram s') = 4000%nat.

(** Storing a character and its attribute in a cell. *)
Lemma store_cell s r c ch a :
  length (vram s) = 4000%nat → 0 <= r < 25 → 0 <= c < 80 →
  ∃ s', (vset (cell_index r c) ch;; vset (cell_index r c + 1) a) s = Ret tt s' ∧
    same_but_vram s s' ∧
    ∀ i, 0 <= i → vat s' i =
      if i =? (r * 80 + c) * 2 then Some ch
      else if i =? (r * 80 + c) * 2 + 1 then Some a else vat s i.
Proof.
  intros Hl Hr Hc. rewrite cell_index_exact by lia.
  rewrite (bind_ret _ _ _ _ _ (vset_ret s ((r * 80 + c) * 2) ch Hl ltac:(lia))).
  set (s1 := set_vram _ _).
  assert (Hl1 : length (vram s1) = 4000%nat) by (cbn; by rewrite length_insert).
  rewrite (vset_ret s1) by (done || lia). eexists; split; [done|]. split.
  - unfold same_but_vram. cbn. rewrite !length_insert. done.
  - intros i Hi. rewrite vat_insert by (done || lia). unfold s1.
    rewrite vat_insert by (done || lia). repeat zcase; done || lia.
Qed.

(** ** Scrolling *)

(** After [k] cells were copied, the first [2k] bytes are those of one row below. *)
Definition shifted (s0 : console) (k : Z) (s : console) : Prop :=
  same_but_vram s0 s ∧ ∀ i, 0 <= i < 4000 →
    vat s i = if i <? 2 * k then vat s0 (i + 160) else vat s0 i.

Lemma copy_step s0 s r c :
  1 <= r < 25 → 0 <= c < 80 → shifted s0 ((r - 1) * 80 + c) s →
  ∃ s', (v ← vget (cell_index r c);
         vset (cell_index (u32 (r - 1)) c) v;;
         a ← vget (cell_index r c + 1);
         vset (cell_index (u32 (r - 1)) c + 1) a) s = Ret tt s' ∧
        shifted s0 ((r - 1) * 80 + (c + 1)) s'.
Proof.
  intros Hr Hc [Hs Hv]. destruct Hs as (Hx & Hy & Hio & Hl0 & Hl).
  rewrite (u32_small (r - 1)), !cell_index_exact by lia.
  destruct (vat_some s ((r * 80 + c) * 2) Hl ltac:(lia)) as [v Ev].
  destruct (vat_some s ((r * 80 + c) * 2 + 1) Hl ltac:(lia)) as [a Ea].
  rewrite (bind_ret _ _ _ _ _ (vget_ret s ((r * 80 + c) * 2) v ltac:(lia) Ev)).
  rewrite (bind_ret _ _ _ _ _ (vset_ret s (((r - 1) * 80 + c) * 2) v Hl ltac:(lia))).
  set (s1 := set_vram _ _).
  assert (Hl1 : length (vram s1) = 4000%nat) by (cbn; by rewrite length_insert).
  rewrite (bind_ret _ _ _ a s1); last first.
  { apply vget_ret; [lia|]. unfold s1. rewrite vat_insert by (done || lia).
    zcase; [lia|done]. }
  rewrite (vset_ret s1) by (done || lia). eexists; split; [done|]. split.
  { unfold same_but_vram. cbn. rewrite !length_insert. done. }
  intros i Hi. rewrite vat_insert by (done || lia). unfold s1.
  rewrite vat_insert by (done || lia).
  pose proof (Hv ((r * 80 + c) * 2) ltac:(lia)) as Hv1.
  pose proof (Hv ((r * 80 + c) * 2 + 1) ltac:(lia)) as Hv2.
  pose proof (Hv i Hi) as Hv3. rewrite Ev in Hv1. rewrite Ea in Hv2.
  revert Hv1 Hv2 Hv3. repeat zcase; intros; try lia; try done.
  - rewrite Hv2. f_equal. lia.
  - rewrite Hv1. f_equal. lia.
Qed.

(** The last row while it is being blanked, [c] cells done. *)
Definition blanking (s0 : console) (c : Z) (s : console) : Prop :=
  same_but_vram s0 s ∧ ∀ i, 0 <= i < 4000 →
    vat s i = if i <? 3840 then vat s0 (i + 160)
              else if i <? 3840 + 2 * c then Some (if Z.even i then blank.1 else blank.2)
              else vat s0 i.

Lemma blank_step s0 s c :
  0 <= c < 80 → blanking s0 c s →
  ∃ s', (vset (cell_index (VGA_HEIGHT - 1) c) (chr " ");;
         vset (cell_index (VGA_HEIGHT - 1) c + 1) VGA_COLOR) s = Ret tt s' ∧
        blanking s0 (c + 1) s'.
Proof.
  intros Hc [Hs Hv]. destruct Hs as (Hx & Hy & Hio & Hl0 & Hl).
  change (VGA_HEIGHT - 1) with 24.
  destruct (store_cell s 24 c (chr " ") VGA_COLOR) as (s' & E & Hs' & Hv'); [done|lia..|].
  exists s'. split; [done|]. destruct Hs' as (? & ? & ? & ? & ?).
  split; [unfold same_but_vram; split_and!; congruence|].
  intros i Hi. rewrite Hv' by lia. specialize (Hv i Hi). revert Hv.
  destruct (Z.eqb_spec i ((24 * 80 + c) * 2)) as [->|].
  { intros _. rewrite Z.even_mul. cbn [Z.even orb]. rewrite orb_true_r.
    repeat zcase; done || lia. }
  destruct (Z.eqb_spec i ((24 * 80 + c) * 2 + 1)) as [->|].
  { intros _. rewrite Z.even_add, Z.even_mul. rewrite orb_true_r.
    repeat zcase; done || lia. }
  repeat zcase; done || lia.
Qed.

(** Scrolling shifts the screen up by one row and blanks the last one. *)
Lemma scroll_up_ret s0 :
  length (vram s0) = 4000%nat →
  ∃ s', scroll_up s0 = Ret tt s' ∧ blanking s0 80 s'.
Proof.
  intros Hl. unfold scroll_up.
  destruct (for_range_inv (λ r, shifted s0 ((r - 1) * 80)) 24 1 (λ row,
    for_range 80 0 (λ col,
      let src := cell_index row col in
      let dst := cell_index (u32 (row - 1)) col in
      v ← vget src;
      vset dst v;;
      a ← vget (src + 1);
      vset (dst + 1) a)) s0) as (s1 & E1 & H1).
  { split; [done|]. intros i ?. zcase; [lia|done]. }
  { intros r s Hr Hs.
    destruct (for_range_inv (λ c, shifted s0 ((r - 1) * 80 + c)) 80 0 (λ col,
      let src := cell_index r col in
      let dst := cell_index (u32 (r - 1)) col in
      v ← vget src;
      vset dst v;;
      a ← vget (src + 1);
      vset (dst + 1) a) s) as (s' & E & H').
    - by rewrite Z.add_0_r.
    - intros c s' Hc Hs'. apply copy_step; [lia..|done].
    - exists s'. split; [done|]. replace ((r + 1 - 1) * 80) with ((r - 1) * 80 + (0 + Z.of_nat 80)) by lia.
      done. }
  rewrite (bind_ret _ _ _ _ _ E1).
  apply (for_range_inv (blanking s0) 80 0).
  - destruct H1 as [Hs Hv]. split; [done|]. intros i Hi. rewrite Hv by done.
    change (2 * ((1 + Z.of_nat 24 - 1) * 80)) with 3840. repeat zcase; done || lia.
  - intros c s' Hc Hs'. apply blank_step; [lia|done].
Qed.

(** ** One character *)

Lemma move_cursor_ret s :
  con_wf s → move_cursor s = Ret tt (set_cio (outs
    [(0x3D4, 0x0F); (0x3D5, (cursor_y s * 80 + cursor_x s) mod 256);
     (0x3D4, 0x0E); (0x3D5, (cursor_y s * 80 + cursor_x s) / 256)] (cio s)) s).
Proof.
  intros [Hl Hx Hy]. unfold move_cursor, VGA_WIDTH. mred.
  rewrite !(u32_small (cursor_y s * 80)), !u32_small by lia.
  unfold u16 at 1 2. rewrite !wrap_small by lia.
  change 0xFF with (Z.ones 8). rewrite !Z.land_ones, Z.shiftr_div_pow2 by lia.
  assert (0 <= (cursor_y s * 80 + cursor_x s) / 2 ^ 8 < 2 ^ 8)
    by (split; [apply Z.div_pos; lia|apply Z.div_lt_upper_bound; lia]).
  rewrite (Z.mod_small (_ / _)) by lia.
  unfold con_outb, zoom, outb, outs. cbn. unfold set_cio. cbn.
  rewrite <- !app_assoc. cbn [app]. unfold u8, wrap. rewrite !Z.mod_mod by lia. done.
Qed.

(** The end of [vga_putc]: a state whose cursor may be one row below the screen. *)
Definition settle : M console unit :=
  s ← get;
  when (VGA_HEIGHT <=? cursor_y s) (scroll_up;; modify (set_y (VGA_HEIGHT - 1)));;
  move_cursor.

(** A console whose cursor row is the one below the last, before it scrolls. *)
Record shows' (s : console) (p : page) : Prop := {
  shows'_vram : length (vram s) = 4000%nat;
  shows'_x : 0 <= cursor_x s < 80;
  shows'_y : 0 <= cursor_y s <= 25;
  shows'_col : cursor_x s = col p;
  shows'_row : top p + cursor_y s = row p;
  shows'_window : window s p;
  shows'_below : ∀ r c, top p + 25 <= r → sheet p !! (r, c) = None;
}.

Definition follow (p : page) : page :=
  MkPage (sheet p) (Z.max (top p) (row p - 24)) (row p) (col p).

Lemma shows_cio s p i : shows s p → shows (set_cio i s) p.
Proof. intros [[] ????]. by constructor. Qed.

Lemma settle_shows s p :
  shows' s p → ∃ s', settle s = Ret tt s' ∧ shows s' (follow p).
Proof.
  intros [Hl Hx Hy Hc Hr Hw Hb]. unfold settle.
  rewrite bind_get. unfold VGA_HEIGHT at 1.
  destruct (Z.leb_spec 25 (cursor_y s)) as [Hge|Hlt]; unfold when.
  - destruct (scroll_up_ret s Hl) as (s1 & E & (E1 & E2 & E3 & _ & E4) & Hv).
    rewrite (bind_ret _ _ s tt (set_y 24 s1)) by (by rewrite (bind_ret _ _ _ _ _ E)).
    assert (Hwf : con_wf (set_y 24 s1)) by (constructor; cbn; [done|lia..]).
    rewrite move_cursor_ret by done. eexists; split; [done|]. apply shows_cio.
    unfold follow. rewrite Z.max_r by lia. constructor; cbn; [done|lia|lia| |].
    + intros r c Hr' Hc'. unfold vat. cbn. fold (vat s1 ((r * 80 + c) * 2)).
      fold (vat s1 ((r * 80 + c) * 2 + 1)). rewrite !Hv by lia.
      unfold at_cell. cbn [top sheet]. replace (row p - 24 + r) with (top p + (r + 1)) by lia.
      destruct (decide (r = 24)) as [->|].
      * rewrite (proj2 (Z.ltb_ge _ 3840)), (proj2 (Z.ltb_ge _ 3840)) by lia.
        rewrite !(proj2 (Z.ltb_lt _ (3840 + 2 * 80))) by lia.
        rewrite Z.even_add, !Z.even_mul, orb_true_r. rewrite (Hb _ c) by lia. done.
      * rewrite !(proj2 (Z.ltb_lt _ 3840)) by lia.
        destruct (Hw (r + 1) c ltac:(lia) ltac:(lia)) as [H1 H2]. unfold at_cell in H1, H2.
        rewrite <- H1, <- H2.
        split; f_equal; lia.
    + intros r c Hr'. apply Hb. lia.
  - assert (Hwf : con_wf s) by (constructor; [done|lia..]).
    rewrite bind_mret, move_cursor_ret by done.
    eexists; split; [done|]. apply shows_cio.
    unfold follow. rewrite Z.max_l by lia. by constructor.
Qed.

(** Storing a cell of the screen writes it on the page. *)
Lemma store_window s p r c ch a :
  length (vram s) = 4000%nat → window s p → 0 <= r < 25 → 0 <= c < 80 →
  ∃ s', (vset (cell_index r c) ch;; vset (cell_index r c + 1) a) s = Ret tt s' ∧
    same_but_vram s s' ∧
    ∀ r' c', window s' (MkPage (<[(top p + r, c) := (ch, a)]> (sheet p)) (top p) r' c').
Proof.
  intros Hl Hw Hr Hc.
  destruct (store_cell s r c ch a Hl Hr Hc) as (s' & E & Hs & Hv). exists s'.
  split; [done|]. split; [done|]. intros r' c' i j Hi Hj. unfold at_cell. cbn.
  rewrite !Hv by lia. destruct (Hw i j Hi Hj) as [Hw1 Hw2]. unfold at_cell in Hw1, Hw2.
  destruct (decide ((top p + r, c) = (top p + i, j))) as [Heq|Hne].
  - rewrite Heq, lookup_insert_eq. injection Heq as ? ->. assert (r = i) as -> by lia.
    cbn. repeat zcase; done || lia.
  - rewrite lookup_insert_ne by done.
    assert (i * 80 + j ≠ r * 80 + c).
    { intros Heq. apply Hne. f_equal; lia. }
    repeat zcase; done || lia.
Qed.

Lemma vga_putc_settle c s :
  vga_putc c s =
  ((if c =? 10 then
     modify (set_x 0);; modify (λ s, set_y (u32 (cursor_y s + 1)) s)
   else if c =? 8 then
     s ← get;
     (if 0 <? cursor_x s then modify (λ s, set_x (u32 (cursor_x s - 1)) s)
      else if 0 <? cursor_y s then
        modify (λ s, set_y (u32 (cursor_y s - 1)) s);; modify (set_x (VGA_WIDTH - 1))
      else mret tt);;
     s ← get;
     vset (cell_index (cursor_y s) (cursor_x s)) (chr " ");;
     vset (cell_index (cursor_y s) (cursor_x s) + 1) VGA_COLOR
   else
     s ← get;
     vset (cell_index (cursor_y s) (cursor_x s)) c;;
     vset (cell_index (cursor_y s) (cursor_x s) + 1) VGA_COLOR;;
     modify (λ s, set_x (u32 (cursor_x s + 1)) s);;
     s ← get;
     when (VGA_WIDTH <=? cursor_x s)
       (modify (set_x 0);; modify (λ s, set_y (u32 (cursor_y s + 1)) s)));; settle) s.
Proof. reflexivity. Qed.

Lemma settled c s s1 p1 (b : M console unit) :
  b s = Ret tt s1 → shows' s1 p1 → follow p1 = c →
  ∃ s', (b;; settle) s = Ret tt s' ∧ shows s' c.
Proof. intros E H <-. rewrite (bind_ret _ _ _ _ _ E). by apply settle_shows. Qed.

Lemma putc_newline s p : shows s p → ∃ s', vga_putc 10 s = Ret tt s' ∧ shows s' (next_row p).
Proof.
  intros [[Hl Hx Hy] Hc Hr Hw Hb]. rewrite vga_putc_settle.
  eapply (settled _ _ _ (MkPage (sheet p) (top p) (row p + 1) 0)); [done| |done].
  cbn [set_y set_x cursor_y]. rewrite u32_small by lia.
  constructor; cbn; done || lia.
Qed.

Lemma putc_back s p : shows s p → ∃ s', vga_putc 8 s = Ret tt s' ∧ shows s' (page_back p).
Proof.
  intros [[Hl Hx Hy] Hc Hr Hw Hb]. rewrite vga_putc_settle.
  set (mv := if 0 <? cursor_x s then (cursor_y s, cursor_x s - 1)
             else if 0 <? cursor_y s then (cursor_y s - 1, 79) else (cursor_y s, cursor_x s)).
  assert (Hmv : 0 <= mv.1 < 25 ∧ 0 <= mv.2 < 80)
    by (unfold mv; repeat zcase; cbn; lia).
  set (s1 := set_y mv.1 (set_x mv.2 s)).
  destruct (store_window s1 p mv.1 mv.2 (chr " ") VGA_COLOR) as (s2 & E & Hs & Hw2);
    [done|done|lia|lia|].
  destruct Hs as (Ex & Ey & _ & _ & Hl2).
  eapply (settled _ s s2 (MkPage (<[(top p + mv.1, mv.2) := blank]> (sheet p)) (top p)
                          (top p + mv.1) mv.2)).
  - change (8 =? 10) with false. change (8 =? 8) with true. cbv iota.
    rewrite bind_get. rewrite (bind_ret _ _ s tt s1); [exact E|].
    unfold s1, mv. repeat zcase; mred; cbn -[u32]; rewrite ?u32_small by lia; by destruct s.
  - constructor; cbn; rewrite ?Ex, ?Ey; cbn; try done; try lia.
    intros r c Hr'. rewrite lookup_insert_ne by (intros [=]; lia). by apply Hb.
  - unfold follow, page_back. rewrite <- Hc, <- Hr. cbn. rewrite Z.max_l by lia.
    unfold mv. replace (top p <? top p + cursor_y s) with (0 <? cursor_y s)
      by (repeat zcase; lia).
    repeat zcase; cbn; rewrite ?Z.add_sub_assoc; done.
Qed.

Lemma putc_put ch s p :
  ch ≠ 10 → ch ≠ 8 → shows s p → ∃ s', vga_putc ch s = Ret tt s' ∧ shows s' (page_put ch p).
Proof.
  intros Hn Hb8 [[Hl Hx Hy] Hc Hr Hw Hb]. rewrite vga_putc_settle.
  rewrite (proj2 (Z.eqb_neq ch 10) Hn), (proj2 (Z.eqb_neq ch 8) Hb8). cbv iota.
  destruct (store_window s p (cursor_y s) (cursor_x s) ch VGA_COLOR) as (s1 & E & Hs & Hw1);
    [done..|].
  destruct Hs as (Ex & Ey & _ & _ & Hl1).
  assert (Hb1 : ∀ r c, top p + 25 <= r →
    <[(top p + cursor_y s, cursor_x s) := (ch, VGA_COLOR)]> (sheet p) !! (r, c) = None).
  { intros r c Hr'. rewrite lookup_insert_ne by (intros [=]; lia). by apply Hb. }
  rewrite Hr, Hc in Hw1, Hb1.
  assert (E' : ∀ k : M console unit,
    (vset (cell_index (cursor_y s) (cursor_x s)) ch;;
     vset (cell_index (cursor_y s) (cursor_x s) + 1) VGA_COLOR;; k) s = k s1).
  { intros k. rewrite assoc_seq. by rewrite (bind_ret _ _ _ _ _ E). }
  unfold page_put. destruct (Z.eqb_spec (col p) 79) as [Ec|Ec].
  - eapply (settled _ s (set_y (cursor_y s + 1) (set_x 0 (set_x 80 s1)))
      (MkPage _ (top p) (row p + 1) 0)).
    + rewrite bind_get, E', bind_modify, bind_get. cbn [cursor_x set_x]. rewrite Ex, Hc, Ec.
      change (u32 (79 + 1)) with 80. change (VGA_WIDTH <=? 80) with true. unfold when.
      rewrite bind_modify. unfold modify. cbn [cursor_y set_x]. rewrite Ey.
      by rewrite u32_small by lia.
    + constructor; cbn; try done; try lia. apply Hw1.
    + done.
  - eapply (settled _ s (set_x (cursor_x s + 1) s1) (MkPage _ (top p) (row p) (col p + 1))).
    + rewrite bind_get, E', bind_modify, bind_get. cbn [cursor_x set_x]. rewrite Ex.
      rewrite u32_small by lia. unfold VGA_WIDTH. rewrite (proj2 (Z.leb_gt 80 _)) by lia.
      cbn [when]. done.
    + constructor; cbn; rewrite ?Ey; try done; try lia. apply Hw1.
    + unfold follow. cbn. rewrite Z.max_l by lia. done.
Qed.

Lemma putc_shows ch s p :
  shows s p → ∃ s', vga_putc ch s = Ret tt s' ∧ shows s' (page_putc p ch).
Proof.
  intros H. unfold page_putc. destruct (Z.eqb_spec ch 10) as [->|]; [by apply putc_newline|].
  destruct (Z.eqb_spec ch 8) as [->|]; [by apply putc_back|by apply putc_put].
Qed.

(** ** Every well-formed screen is a window *)

Definition cell_of (s : console) (k : Z) : cell :=
  (default 0 (vat s (2 * k)), default 0 (vat s (2 * k + 1))).
Definition sheet_of (n : Z) (s : console) : gmap (Z * Z) cell :=
  list_to_map ((λ k, ((k `div` 80, k `mod` 80), cell_of s k)) <$> seqZ 0 n).
Definition page_of (s : console) : page :=
  MkPage (sheet_of 2000 s) 0 (cursor_y s) (cursor_x s).

Lemma sheet_of_lookup n s r c :
  0 <= r → 0 <= c < 80 → r * 80 + c < n →
  sheet_of n s !! (r, c) = Some (cell_of s (r * 80 + c)).
Proof.
  intros Hr Hc Hn. apply elem_of_list_to_map.
  - rewrite <- list_fmap_compose. apply NoDup_fmap_2; [|apply NoDup_seqZ].
    intros k k' [= Hd Hm]. rewrite (Z.div_mod k 80), (Z.div_mod k' 80) by lia. lia.
  - apply list_elem_of_fmap. exists (r * 80 + c). split; [|apply elem_of_seqZ; lia].
    rewrite Z.div_add_l, (Z.div_small c) by lia.
    by rewrite (Z.add_comm (r * 80)), Z.mod_add, Z.mod_small, Z.add_0_r by lia.
Qed.

Lemma sheet_of_none n s r c : n <= r * 80 → sheet_of n s !! (r, c) = None.
Proof.
  intros Hr. apply not_elem_of_list_to_map_1. intros Hin.
  apply list_elem_of_fmap in Hin as ([[r' c'] ?] & [= -> ->] & Hin).
  apply list_elem_of_fmap in Hin as (k & [= -> ->] & Hk). apply elem_of_seqZ in Hk.
  pose proof (Z.mul_div_le k 80). lia.
Qed.

Lemma con_wf_shows s : con_wf s → shows s (page_of s).
Proof.
  intros Hwf. pose proof Hwf as [Hl Hx Hy]. constructor; [done|done|done| |].
  - intros r c Hr Hc. unfold at_cell, page_of.
    assert (E : sheet_of 2000 s !! (0 + r, c) = Some (cell_of s (r * 80 + c)))
      by (apply sheet_of_lookup; lia).
    change (sheet (MkPage ?a _ _ _)) with a. change (top (MkPage _ ?a _ _)) with a.
    rewrite E. clear E. unfold cell_of. cbn [default from_option id fst snd].
    rewrite !(Z.mul_comm _ 2).
    destruct (vat_some s (2 * (r * 80 + c)) Hl ltac:(lia)) as [v ->].
    destruct (vat_some s (2 * (r * 80 + c) + 1) Hl ltac:(lia)) as [a ->]. split; reflexivity.
  - intros r c Hr. apply sheet_of_none. change (top (page_of s)) with 0 in Hr. lia.
Qed.

(** C36: printing any character on a well-formed screen returns, never writes outside the video
    memory, and leaves a well-formed screen: 4000 bytes and the cursor inside the 80 by 25 cells,
    so that the next character is safe as well. *)
Theorem vga_putc_wf c s : con_wf s → ∃ s', vga_putc c s = Ret tt s' ∧ con_wf s'.
Proof.
  intros Hwf. destruct (putc_shows c s _ (con_wf_shows s Hwf)) as (s' & E & H).
  exists s'. split; [done|]. by destruct H.
Qed.

(** A dark screen with the cursor at its origin. *)
Definition boot_console : console := MkConsole (replicate 4000 0) 0 0 (MkIo [] []).

Lemma boot_console_wf : con_wf boot_console.
Proof. constructor; cbn [cursor_x cursor_y boot_console]; [reflexivity|lia..]. Qed.

Lemma vga_putc_wf_witness :
  con_wf boot_console ∧ ∃ s', vga_putc (chr "A") boot_console = Ret tt s' ∧ con_wf s'.
Proof.
  split; [apply boot_console_wf|]. apply vga_putc_wf. apply boot_console_wf.
Defined.

(** ** [printk] *)

(** The text of a C string: its characters before the first NUL. *)
Fixpoint c_string (str : list Z) : option (list Z) :=
  match str with
  | [] => None
  | c :: str' => if c =? 0 then Some [] else (cons c) <$> c_string str'
  end.

(** What a format and its arguments print, where C defines the call. ([%x] of a negative number
    prints the characters [numeral] says, which are not its digits.) Undefined are a format that
    ends in [%], a missing argument or one of another kind, [%d] of the smallest integer and a
    string that is not terminated. *)
Fixpoint render (format : list Z) (args : list va) : option (list Z) :=
  match format with
  | [] => Some []
  | c :: format' =>
      if c =? chr "%" then
        match format' with
        | [] => None
        | d :: format'' =>
            if d =? chr "s" then
              match args with
              | VStr str :: args' =>
                  t ← c_string str; out ← render format'' args'; Some (t ++ out)
              | _ => None
              end
            else if d =? chr "d" then
              match args with
              | VInt n :: args' =>
                  guard (- 2 ^ 31 < n < 2 ^ 31);;
                  out ← render format'' args'; Some (numeral 10 n ++ out)
              | _ => None
              end
            else if d =? chr "x" then
              match args with
              | VInt n :: args' =>
                  guard (- 2 ^ 31 <= n < 2 ^ 31);;
                  out ← render format'' args'; Some (numeral 16 n ++ out)
              | _ => None
              end
            else if d =? chr "c" then
              match args with
              | VInt n :: args' => out ← render format'' args'; Some (i8 n :: out)
              | _ => None
              end
            else out ← render format'' args; Some (chr "%" :: d :: out)
        end
      else out ← render format' args; Some (c :: out)
  end.

(** One rule per conversion the kernel uses. *)
Lemma render_nil args : render [] args = Some [].
Proof. done. Qed.
Lemma render_char c f args out :
  c ≠ chr "%" → render f args = Some out → render (c :: f) args = Some (c :: out).
Proof. intros Hc E. cbn [render]. by rewrite (proj2 (Z.eqb_neq _ _) Hc), E. Qed.
Lemma render_d n f args out :
  - 2 ^ 31 < n < 2 ^ 31 → render f args = Some out →
  render (37 :: 100 :: f) (VInt n :: args) = Some (numeral 10 n ++ out).
Proof.
  intros Hn E.
  change (render (37 :: 100 :: f) (VInt n :: args)) with
    (guard (- 2 ^ 31 < n < 2 ^ 31);; out ← render f args; Some (numeral 10 n ++ out)).
  rewrite E. by rewrite option_guard_True.
Qed.
Lemma render_x n f args out :
  - 2 ^ 31 <= n < 2 ^ 31 → render f args = Some out →
  render (37 :: 120 :: f) (VInt n :: args) = Some (numeral 16 n ++ out).
Proof.
  intros Hn E.
  change (render (37 :: 120 :: f) (VInt n :: args)) with
    (guard (- 2 ^ 31 <= n < 2 ^ 31);; out ← render f args; Some (numeral 16 n ++ out)).
  rewrite E. by rewrite option_guard_True.
Qed.
Lemma render_c n f args out :
  render f args = Some out → render (37 :: 99 :: f) (VInt n :: args) = Some (i8 n :: out).
Proof.
  intros E.
  change (render (37 :: 99 :: f) (VInt n :: args)) with
    (out ← render f args; Some (i8 n :: out)).
  by rewrite E.
Qed.

(** Evaluate the characters of string literals. *)
Ltac eval_chars :=
  repeat match goal with
  | |- context [chars ?x] => let l := eval vm_compute in (chars x) in change (chars x) with l
  end.
(** Find what a literal format renders to. *)
Ltac render :=
  eval_chars;
  repeat lazymatch goal with
  | |- render [] _ = _ => apply render_nil
  | |- render (37 :: 100 :: _) _ = _ => apply render_d; [lia|]
  | |- render (37 :: 120 :: _) _ = _ => apply render_x; [lia|]
  | |- render (37 :: 99 :: _) _ = _ => apply render_c
  | |- render (_ :: _) _ = _ => apply render_char; [discriminate|]
  end.

(** [vga_putc] of every character of a text. *)
Fixpoint put_all (out : list Z) : M console unit :=
  match out with
  | [] => mret tt
  | c :: out' => vga_putc c;; put_all out'
  end.

Lemma put_all_shows out s p :
  shows s p → ∃ s', put_all out s = Ret tt s' ∧ shows s' (foldl page_putc p out).
Proof.
  revert s p. induction out as [|c out IH]; intros s p H; [by exists s|].
  destruct (putc_shows c s p H) as (s1 & E1 & H1). cbn [put_all foldl].
  rewrite (bind_ret _ _ _ _ _ E1). by apply IH.
Qed.

(** A computation that prints exactly the text [out]. *)
Definition puts (c : M console unit) (out : list Z) : Prop := ∀ s, c s = put_all out s.

Lemma puts_nil : puts (mret tt) [].
Proof. done. Qed.

Lemma put_all_app out out' s : put_all (out ++ out') s = (put_all out;; put_all out') s.
Proof.
  revert s. induction out as [|c out IH]; intros s; [done|]. cbn [put_all app].
  rewrite <- assoc_seq. by apply bind_ext.
Qed.

Lemma puts_seq c d out out' : puts c out → puts d out' → puts (c;; d) (out ++ out').
Proof. intros Hc Hd s. rewrite put_all_app. by apply bind_ext. Qed.

Lemma puts_char c : puts (vga_putc c) [c].
Proof. intros s. cbn. unfold mbind, M_bind. by destruct (vga_putc c s) as [[]| | | |]. Qed.

Lemma puts_string str t : c_string str = Some t → puts (put_string str) t.
Proof.
  revert t. induction str as [|c str IH]; intros t E; cbn in *; [done|].
  destruct (c =? 0); [injection E as <-; apply puts_nil|].
  apply fmap_Some in E as (t' & E & ->).
  apply (puts_seq _ _ [c]); [apply puts_char|by apply IH].
Qed.

Lemma puts_buffer cs rest : text cs → puts (put_buffer ((Some <$> cs ++ [0]) ++ rest)) cs.
Proof.
  induction 1 as [|c cs [_ Hc] Hcs IH]; [apply puts_nil|].
  cbn. rewrite (proj2 (Z.eqb_neq c 0) Hc).
  apply (puts_seq _ _ [c]); [apply puts_char|apply IH].
Qed.

Lemma puts_number base n :
  2 <= base <= 36 → printable base n → puts (put_number n base) (numeral base n).
Proof.
  intros Hb Hp s. unfold put_number. rewrite (itoa_run base Hb n Hp).
  by apply puts_buffer, numeral_text.
Qed.

#[export] Hint Resolve puts_nil puts_char puts_string puts_number : kernel.

Lemma puts_printk format tail args out :
  text format → render format args = Some out →
  puts (printk_loop (format ++ 0 :: tail) args) out.
Proof.
  revert args out. induction format as [format IH] using (induction_ltof1 _ length).
  unfold ltof in IH. intros args out Ht E. destruct format as [|c format].
  { injection E as <-. apply puts_nil. }
  apply Forall_cons in Ht as [[_ Hc] Ht]. cbn [render app printk_loop] in *.
  rewrite (proj2 (Z.eqb_neq c 0) Hc). destruct (c =? chr "%").
  - destruct format as [|d format]; [done|]. apply Forall_cons in Ht as [_ Ht]. cbn [app].
    assert (IH' : ∀ args out, render format args = Some out →
      puts (printk_loop (format ++ 0 :: tail) args) out)
      by (intros; apply IH; [cbn; lia|done..]).
    repeat case_match; simplify_option_eq;
      first [ eapply puts_seq; [|by apply IH'] | apply (puts_seq _ _ [_]) ];
      eauto with kernel.
    + apply puts_number; [lia|]. split; lia.
    + apply puts_number; [lia|]. by split.
    + apply (puts_seq _ _ [_]); eauto with kernel.
  - destruct (render format args) as [out'|] eqn:Er; [|done]. injection E as <-.
    apply (puts_seq _ _ [c]); [apply puts_char|]. apply IH; [cbn; lia|done..].
Qed.

(** The port writes that place the hardware cursor at a cell. *)
Definition cursor_events (pos : Z) : list event :=
  [Out 0x3D4 0x0F; Out 0x3D5 (pos mod 256); Out 0x3D4 0x0E; Out 0x3D5 (pos / 256)].

Lemma move_cursor_shows s p :
  shows s p → ∃ s', move_cursor s = Ret tt s' ∧ shows s' p ∧
    trace (cio s') = trace (cio s) ++ cursor_events ((row p - top p) * 80 + col p).
Proof.
  intros H. pose proof H as [[Hl Hx Hy] Hc Hr _ _]. rewrite move_cursor_ret by done.
  eexists; split; [done|]. split; [by apply shows_cio|].
  replace (row p - top p) with (cursor_y s) by lia. rewrite <- Hc.
  assert (0 <= (cursor_y s * 80 + cursor_x s) mod 256 < 256) by (apply Z.mod_pos_bound; lia).
  assert (0 <= (cursor_y s * 80 + cursor_x s) / 256 < 256)
    by (split; [apply Z.div_pos; lia|apply Z.div_lt_upper_bound; lia]).
  cbn. unfold u8. by rewrite !wrap_small by lia.
Qed.

(** C29: printk refines the page terminal. For every format and argument list whose meaning
    [render] defines, from any screen, printk returns and the screen is the window on the page on
    which exactly the rendered text was typed; the hardware cursor ends at the page's cursor. *)
Theorem printk_refines_page format tail args out s p :
  text format → render format args = Some out → shows s p →
  ∃ s' tr, printk (format ++ 0 :: tail) args s = Ret tt s' ∧
    shows s' (foldl page_putc p out) ∧
    trace (cio s') = tr ++ cursor_events
      ((row (foldl page_putc p out) - top (foldl page_putc p out)) * 80 +
       col (foldl page_putc p out)).
Proof.
  intros Ht Er H. destruct (put_all_shows out s p H) as (s1 & E1 & H1).
  rewrite <- (puts_printk format tail args out Ht Er) in E1.
  destruct (move_cursor_shows _ _ H1) as (s2 & E2 & H2 & Htr).
  exists s2, (trace (cio s1)). split; [|done].
  unfold printk. by rewrite (bind_ret _ _ _ _ _ E1).
Qed.

Lemma printk_refines_page_witness :
  render (chars "IRQ %d at %x%c") [VInt (-33); VInt 48879; VInt 10] =
    Some (chars "IRQ -33 at beef" ++ [10]) ∧
  ∃ s' tr, printk (chars "IRQ %d at %x%c" ++ 0 :: []) [VInt (-33); VInt 48879; VInt 10]
      boot_console = Ret tt s' ∧
    shows s' (foldl page_putc (page_of boot_console) (chars "IRQ -33 at beef" ++ [10])) ∧
    trace (cio s') = tr ++ cursor_events
      ((row (foldl page_putc (page_of boot_console) (chars "IRQ -33 at beef" ++ [10])) -
        top (foldl page_putc (page_of boot_console) (chars "IRQ -33 at beef" ++ [10]))) * 80 +
       col (foldl page_putc (page_of boot_console) (chars "IRQ -33 at beef" ++ [10]))).
Proof.
  split; [reflexivity|]. apply printk_refines_page.
  - is_text.
  - reflexivity.
  - apply con_wf_shows, boot_console_wf.
Defined.

(** A format that ends in a percent sign makes printk read past the end of the format: the
    default case prints the terminator as if it were a conversion and steps over it. *)
Theorem printk_percent_overruns format args s :
  con_wf s → text format → chr "%" ∉ format →
  printk (format ++ [chr "%"; 0]) args s = Fault.
Proof.
  intros Hwf Ht Hn. unfold printk. apply bind_fault.
  apply con_wf_shows in Hwf. revert Hwf. generalize (page_of s) as p. revert s.
  induction Ht as [|c format [_ Hc] Ht IH]; intros s p Hs.
  - destruct (putc_shows (chr "%") s p Hs) as (s1 & E1 & H1).
    destruct (putc_shows 0 s1 _ H1) as (s2 & E2 & H2).
    change (printk_loop ([] ++ [chr "%"; 0]) args s)
      with ((vga_putc (chr "%");; vga_putc 0;; (fault : M console unit)) s).
    by rewrite (bind_ret _ _ _ _ _ E1), (bind_ret _ _ _ _ _ E2).
  - apply not_elem_of_cons in Hn as [Hn Hn'].
    destruct (putc_shows c s p Hs) as (s1 & E1 & H1). cbn [app printk_loop].
    rewrite (proj2 (Z.eqb_neq c 0) Hc), (proj2 (Z.eqb_neq c (chr "%"))) by done.
    rewrite (bind_ret _ _ _ _ _ E1). by eapply IH.
Qed.

Lemma printk_percent_overruns_witness :
  con_wf boot_console ∧ printk (chars "100" ++ [chr "%"; 0]) [] boot_console = Fault.
Proof.
  split; [apply boot_console_wf|].
  apply printk_percent_overruns; [apply boot_console_wf|is_text|].
  vm_compute. set_solver.
Defined.

(** ** Ports the console uses

    Whatever it prints, the console only writes the two ports of the VGA cursor and consumes no
    input: the other devices never notice it. *)

Definition cursor_event (e : event) : Prop :=
  match e with Out p _ => p = 0x3D4 ∨ p = 0x3D5 | In _ _ => False end.

(** The accesses of a device other than the console. *)
Definition adds_cursor_events (i i' : io) : Prop :=
  answers i' = answers i ∧ ∃ evs, trace i' = trace i ++ evs ∧ Forall cursor_event evs.

#[export] Instance adds_cursor_events_preorder : PreOrder adds_cursor_events.
Proof.
  split.
  - intros i. split; [done|]. exists []. by rewrite app_nil_r.
  - intros i j k [Ha (e & Ht & He)] [Ha' (e' & Ht' & He')]. split; [congruence|].
    exists (e ++ e'). rewrite Ht', Ht, app_assoc. split; [done|]. by apply Forall_app.
Qed.

(** What the console keeps. *)
Definition console_ports : relation console := on cio adds_cursor_events.

#[export] Instance console_ports_preorder : PreOrder console_ports.
Proof. apply _. Qed.

Lemma console_ports_same s s' : cio s' = cio s → console_ports s s'.
Proof. intros E. unfold console_ports, on. by rewrite E. Qed.

#[export] Instance keeps_vset i v : Keeps console_ports (vset i v).
Proof.
  intros s s'. unfold vset. destruct (_ && _); [|done]. intros [= <-]. by apply console_ports_same.
Qed.
#[export] Instance keeps_vget i : Keeps console_ports (vget i).
Proof. unfold vget. apply _. Qed.

Lemma keeps_con_outb p v : u16 p = 0x3D4 ∨ u16 p = 0x3D5 → Keeps console_ports (con_outb p v).
Proof.
  intros Hp. apply keeps_zoom; [done|]. intros s s' [= <-]. split; [done|].
  eexists. split; [done|]. constructor; [exact Hp|constructor].
Qed.
#[export] Hint Extern 2 (Keeps console_ports (con_outb _ _)) =>
  apply keeps_con_outb; first [left; reflexivity|right; reflexivity] : typeclass_instances.
#[export] Hint Extern 2 (Keeps console_ports (modify _)) =>
  apply keeps_modify; intros ?; apply console_ports_same; reflexivity : typeclass_instances.

#[export] Instance keeps_move_cursor : Keeps console_ports move_cursor.
Proof. unfold move_cursor. apply _. Qed.
#[export] Instance keeps_scroll_up : Keeps console_ports scroll_up.
Proof. unfold scroll_up. apply _. Qed.
#[export] Instance keeps_vga_putc c : Keeps console_ports (vga_putc c).
Proof. unfold vga_putc. apply _. Qed.
#[export] Instance keeps_put_string str : Keeps console_ports (put_string str).
Proof. induction str; cbn; apply _. Qed.
#[export] Instance keeps_put_buffer b : Keeps console_ports (put_buffer b).
Proof. induction b; cbn; apply _. Qed.
#[export] Instance keeps_put_number n base : Keeps console_ports (put_number n base).
Proof.
  intros s s'. unfold put_number. destruct (itoa _ _ _); try done. apply keeping.
Qed.

#[export] Instance keeps_printk format args : Keeps console_ports (printk format args).
Proof.
  unfold printk. apply keeps_bind; [apply _| |apply _].
  revert args. induction format as [format IH] using (induction_ltof1 _ length).
  unfold ltof in IH. intros args. destruct format as [|c format]; [done|]. cbn [printk_loop].
  destruct (c =? 0); [apply _|].
  destruct (c =? chr "%"); [|apply keeps_bind; [apply _..|]; intros _; apply IH; cbn; lia].
  destruct format as [|d format]; [done|].
  assert (IH' : ∀ args, Keeps console_ports (printk_loop format args))
    by (intros; apply IH; cbn; lia).
  repeat case_match; apply _.
Qed.
