(* ===== verification/Thread.v ===== *)
(** * Printing as a sequence of accesses (kernel/printk.c)

    After the [sti] of [kernel_main] the keyboard interrupt can come between any two accesses of
    the interrupted code to memory or to a port, and its handler prints too: it finds [cursor_x],
    [cursor_y] and the video memory as the interrupted [vga_putc] has left them half-way. Here
    [vga_putc] and [printk] are threads, trees of single accesses in the order of the source (each
    mention of a global reads it again); run to its end a thread is the function of Console.v.
    The logic of the file states what holds before each access of a thread, which is what an
    interrupt finds; Race.v adds the handler.

    Video memory is taken with 26 rows and one cell at least (4162 bytes; the adapter has 32 KiB
    at 0xB8000), since an interrupted [vga_putc] reaches the row below the screen. *)

From Stdlib Require Import Ascii String.
From stdpp Require Import base numbers strings gmap list.
From S2P Require Import Prelude Io CString Console ConsoleProps.

Local Open Scope Z_scope.

(** ** Threads *)

Inductive thread (A : Type) : Type :=
| Done (a : A)
| Access (X : Set) (m : M console X) (k : X → thread A).
Arguments Done {A} a.
Arguments Access {A X} m k.

#[export] Instance thread_ret : MRet thread := @Done.
#[export] Instance thread_bind : MBind thread := λ A B f,
  fix go p := match p with Done a => f a | Access m k => Access m (λ x, go (k x)) end.

Definition access {X : Set} (m : M console X) : thread X := Access m Done.

(** [for (i = lo; i < lo + n; i++) body(i)] *)
Fixpoint for_thread (n : nat) (i : Z) (body : Z → thread unit) : thread unit :=
  match n with
  | O => mret tt
  | S n' => body i;; for_thread n' (i + 1) body
  end.

Fixpoint run {A} (p : thread A) : M console A :=
  match p with Done a => mret a | Access m k => m ≫= λ x, run (k x) end.

(** ** The accesses of [vga_putc] and [printk] *)

Definition load_x : thread Z := access (deref (λ s, Some (cursor_x s))).
Definition load_y : thread Z := access (deref (λ s, Some (cursor_y s))).
Definition store_x (x : Z) : thread unit := access (modify (set_x x)).
Definition store_y (y : Z) : thread unit := access (modify (set_y y)).
Definition load_vram (i : Z) : thread Z := access (vget i).
Definition store_vram (i v : Z) : thread unit := access (vset i v).
Definition port (p v : Z) : thread unit := access (con_outb p v).

Definition move_cursor_thread : thread unit :=
  y ← load_y;
  x ← load_x;
  let pos := u16 (u32 (u32 (y * VGA_WIDTH) + x)) in
  port 0x3D4 0x0F;;
  port 0x3D5 (u8 (Z.land pos 0xFF));;
  port 0x3D4 0x0E;;
  port 0x3D5 (u8 (Z.land (Z.shiftr pos 8) 0xFF)).

Definition scroll_thread : thread unit :=
  for_thread 24 1 (λ row,
    for_thread 80 0 (λ col,
      let src := cell_index row col in
      let dst := cell_index (u32 (row - 1)) col in
      v ← load_vram src;
      store_vram dst v;;
      a ← load_vram (src + 1);
      store_vram (dst + 1) a));;
  for_thread 80 0 (λ col,
    let index := cell_index (VGA_HEIGHT - 1) col in
    store_vram index (chr " ");;
    store_vram (index + 1) VGA_COLOR).

Definition newline_thread : thread unit :=
  store_x 0;;
  y ← load_y;
  store_y (u32 (y + 1)).

Definition backspace_thread : thread unit :=
  x ← load_x;
  (if 0 <? x then
     x ← load_x;
     store_x (u32 (x - 1))
   else
     y ← load_y;
     if 0 <? y then
       y ← load_y;
       store_y (u32 (y - 1));;
       store_x (VGA_WIDTH - 1)
     else mret tt);;
  y ← load_y;
  x ← load_x;
  let index := cell_index y x in
  store_vram index (chr " ");;
  store_vram (index + 1) VGA_COLOR.

Definition put_thread (c : Z) : thread unit :=
  y ← load_y;
  x ← load_x;
  let index := cell_index y x in
  store_vram index c;;
  store_vram (index + 1) VGA_COLOR;;
  x ← load_x;
  store_x (u32 (x + 1));;
  x ← load_x;
  if VGA_WIDTH <=? x then newline_thread else mret tt.

(** [if (cursor_y >= VGA_HEIGHT) ...] and the update of the hardware cursor. *)
Definition settle_thread : thread unit :=
  y ← load_y;
  (if VGA_HEIGHT <=? y then scroll_thread;; store_y (VGA_HEIGHT - 1) else mret tt);;
  move_cursor_thread.

Definition putc_thread (c : Z) : thread unit :=
  (if c =? 10 then newline_thread
   else if c =? 8 then backspace_thread
   else put_thread c);;
  settle_thread.

(** [printk] of the text its format and arguments render to. The format, the arguments and the
    buffer of [itoa] are private to the thread, so its accesses are those of the characters. *)
Fixpoint text_thread (t : list Z) : thread unit :=
  match t with
  | [] => move_cursor_thread
  | c :: t' => putc_thread c;; text_thread t'
  end.

(** ** Run alone, the threads are the functions of Console.v *)

Lemma run_bind {A B} (p : thread A) (f : A → thread B) s :
  run (p ≫= f) s = (run p ≫= λ a, run (f a)) s.
Proof.
  revert s. induction p as [a|X m k IH]; intros s; [done|].
  change (run (Access m k ≫= f) s) with ((m ≫= λ x, run (k x ≫= f)) s).
  unfold mbind at 1 3, M_bind. cbn [run]. unfold mbind at 2, M_bind.
  by destruct (m s).
Qed.

Lemma run_access {X : Set} (m : M console X) s : run (access m) s = m s.
Proof. cbn. unfold mbind, M_bind. by destruct (m s). Qed.

Lemma run_then {X : Set} {A} (m : M console X) (f : X → thread A) (f' : X → M console A) s :
  (∀ x s, run (f x) s = f' x s) → run (access m ≫= f) s = (m ≫= f') s.
Proof. intros. by apply (bind_ext m). Qed.

Lemma run_for n lo body (body' : Z → M console unit) :
  (∀ i s, run (body i) s = body' i s) →
  ∀ s, run (for_thread n lo body) s = for_range n lo body' s.
Proof.
  intros H. revert lo. induction n as [|n IH]; intros lo s; [done|].
  cbn [for_thread for_range]. rewrite run_bind. by apply bind_ext.
Qed.

Lemma run_scroll s : run scroll_thread s = scroll_up s.
Proof.
  unfold scroll_thread, scroll_up. rewrite run_bind. apply bind_ext.
  - apply run_for. intros row s1. apply run_for. intros col s2.
    repeat (apply run_then; intros); apply run_access.
  - intros [] s1. apply run_for. intros col s2. apply run_then. intros; apply run_access.
Qed.

Lemma run_settle s : run settle_thread s = settle s.
Proof.
  change (run settle_thread s) with
    (run ((if VGA_HEIGHT <=? cursor_y s then scroll_thread;; store_y (VGA_HEIGHT - 1) else mret tt);;
      move_cursor_thread) s).
  unfold settle. rewrite bind_get, run_bind. apply bind_ext; [|done].
  destruct (VGA_HEIGHT <=? cursor_y s); [|done]. cbn [when].
  rewrite run_bind. apply bind_ext; [apply run_scroll|done].
Qed.

(** A thread that starts with a load goes on with the value in memory. *)
Lemma run_load_x {A} (f : Z → thread A) s : run (load_x ≫= f) s = run (f (cursor_x s)) s.
Proof. done. Qed.
Lemma run_load_y {A} (f : Z → thread A) s : run (load_y ≫= f) s = run (f (cursor_y s)) s.
Proof. done. Qed.

Lemma run_store_x {A} v (f : unit → thread A) s :
  run (store_x v ≫= f) s = run (f tt) (set_x v s).
Proof. done. Qed.

Lemma putc_thread_run c s : run (putc_thread c) s = vga_putc c s.
Proof.
  unfold putc_thread. rewrite run_bind, vga_putc_settle.
  apply bind_ext; [|intros []; apply run_settle].
  destruct (c =? 10); [done|]. destruct (c =? 8).
  - unfold backspace_thread. rewrite run_load_x, run_bind, bind_get. apply bind_ext.
    { destruct (0 <? cursor_x s); [done|]. rewrite run_load_y. by destruct (0 <? cursor_y s). }
    intros [] s1. rewrite run_load_y, run_load_x, bind_get. apply run_then. intros; apply run_access.
  - unfold put_thread. rewrite run_load_y, run_load_x, bind_get, run_bind.
    apply bind_ext; [apply run_access|intros [] s1].
    apply run_then. intros [] s2. rewrite run_load_x, run_store_x, run_load_x, bind_modify, bind_get.
    by destruct (VGA_WIDTH <=? _).
Qed.

Lemma text_thread_run out s : run (text_thread out) s = (put_all out;; move_cursor) s.
Proof.
  revert s. induction out as [|c out IH]; intros s; [done|]. cbn [text_thread put_all].
  rewrite run_bind, <- assoc_seq. apply bind_ext; [apply putc_thread_run|intros []; apply IH].
Qed.

(** [printk] run alone is the thread of the text it prints. *)
Lemma printk_thread format tail args out s :
  text format → render format args = Some out →
  run (text_thread out) s = printk (format ++ 0 :: tail) args s.
Proof.
  intros Ht Er. rewrite text_thread_run. apply bind_ext; [|done].
  by rewrite (puts_printk format tail args out Ht Er).
Qed.

(** ** A program logic for threads

    [safe G P p Q]: from a state satisfying [P] the thread [p] returns a value and a state
    satisfying [Q], takes no input, and before each of its accesses an assertion of the class
    [G] holds. With [G] true of everything this is total correctness of the thread; with [G] the
    assertions from which the handler is safe, it says besides that the handler is safe wherever
    it interrupts the thread. *)

Section logic.
Context (G : (console → Prop) → Prop).

Fixpoint safe {A} (P : console → Prop) (p : thread A) (Q : A → console → Prop) : Prop :=
  match p with
  | Done a => ∀ s, P s → Q a s
  | @Access _ X m k => ∃ (R : console → Prop) (φ : X → Prop) (P' : X → console → Prop),
      (∀ s, P s → R s) ∧ G R ∧
      (∀ s, R s → ∃ x s', m s = Ret x s' ∧ answers (cio s') = answers (cio s) ∧ φ x ∧ P' x s') ∧
      ∀ x, φ x → safe (P' x) (k x) Q
  end.

Lemma safe_weaken {A} (P P' : console → Prop) (p : thread A) Q :
  safe P p Q → (∀ s, P' s → P s) → safe P' p Q.
Proof.
  destruct p; cbn; [naive_solver|]. intros (R & φ & P1 & HR & H) HP. exists R, φ, P1. naive_solver.
Qed.

Lemma safe_bind {A B} P (p : thread A) (f : A → thread B) R Q :
  safe P p R → (∀ a, safe (R a) (f a) Q) → safe P (p ≫= f) Q.
Proof.
  intros Hp Hf. revert P Hp. induction p as [a|X m k IH]; intros P Hp.
  - eapply safe_weaken; [apply Hf|done].
  - destruct Hp as (I & φ & P' & HI & HG & Hm & Hk). exists I, φ, P'. split_and!; [done..|].
    intros x Hx. apply IH, Hk, Hx.
Qed.

Lemma safe_post {A} P (p : thread A) (Q Q' : A → console → Prop) :
  safe P p Q → (∀ a s, Q a s → Q' a s) → safe P p Q'.
Proof.
  intros Hp HQ. revert P Hp. induction p as [a|X m k IH]; intros P Hp; [naive_solver|].
  destruct Hp as (I & φ & P' & HI & HG & Hm & Hk). exists I, φ, P'. split_and!; naive_solver.
Qed.

(** The first access of a thread. *)
Lemma safe_step {X : Set} {A} P (φ : X → Prop) P' m (f : X → thread A) Q :
  G P →
  (∀ s, P s → ∃ x s', m s = Ret x s' ∧ answers (cio s') = answers (cio s) ∧ φ x ∧ P' x s') →
  (∀ x, φ x → safe (P' x) (f x) Q) → safe P (access m ≫= f) Q.
Proof. intros HG Hm Hf. by exists P, φ, P'. Qed.

(** A thread that is one access. *)
Lemma safe_last {X : Set} P (m : M console X) Q :
  safe P (access m ≫= mret) Q → safe P (access m) Q.
Proof. done. Qed.

Lemma safe_for P n lo body :
  (∀ i, lo <= i < lo + Z.of_nat n → safe P (body i) (λ _, P)) →
  safe P (for_thread n lo body) (λ _, P).
Proof.
  revert lo. induction n as [|n IH]; intros lo Hb; [by intros s|].
  cbn [for_thread]. eapply safe_bind; [apply Hb; lia|]. intros []. apply IH. intros. apply Hb. lia.
Qed.

(** *** Assertions on the cursor *)

(** The cursor within columns [0..X] and rows [0..Y], over at least 4162 bytes. *)
Definition within (X Y : Z) (s : console) : Prop :=
  0 <= cursor_x s <= X ∧ 0 <= cursor_y s <= Y ∧ (4162 <= length (vram s))%nat.

Lemma within_weaken X Y X' Y' s : within X Y s → X <= X' → Y <= Y' → within X' Y' s.
Proof. unfold within. lia. Qed.

Lemma safe_load_x {A} X Y (f : Z → thread A) Q :
  G (within X Y) → (∀ x, 0 <= x <= X → safe (within X Y) (f x) Q) →
  safe (within X Y) (load_x ≫= f) Q.
Proof.
  intros HG. apply (safe_step _ (λ v, 0 <= v <= X) (λ _, within X Y)); [done|].
  intros s Hs. exists (cursor_x s), s.
  unfold within in Hs. split_and!; lia || done.
Qed.

Lemma safe_load_y {A} X Y (f : Z → thread A) Q :
  G (within X Y) → (∀ y, 0 <= y <= Y → safe (within X Y) (f y) Q) →
  safe (within X Y) (load_y ≫= f) Q.
Proof.
  intros HG. apply (safe_step _ (λ v, 0 <= v <= Y) (λ _, within X Y)); [done|].
  intros s Hs. exists (cursor_y s), s.
  unfold within in Hs. split_and!; lia || done.
Qed.

(** A load followed by the test of the source bounds the variable from then on. *)
Lemma safe_test_x {A} X Y (f : Z → thread A) Q :
  G (within X Y) →
  (∀ x, 0 <= x <= X → safe (within (if VGA_WIDTH <=? x then X else 79) Y) (f x) Q) →
  safe (within X Y) (load_x ≫= f) Q.
Proof.
  intros HG. apply (safe_step _ (λ v, 0 <= v <= X)
    (λ x, within (if VGA_WIDTH <=? x then X else 79) Y)); [done|].
  intros s Hs. exists (cursor_x s), s. unfold within, VGA_WIDTH in *. zcase; split_and!; lia || done.
Qed.

Lemma safe_test_y {A} X Y (f : Z → thread A) Q :
  G (within X Y) →
  (∀ y, 0 <= y <= Y → safe (within X (if VGA_HEIGHT <=? y then Y else 24)) (f y) Q) →
  safe (within X Y) (load_y ≫= f) Q.
Proof.
  intros HG. apply (safe_step _ (λ v, 0 <= v <= Y)
    (λ y, within X (if VGA_HEIGHT <=? y then Y else 24))); [done|].
  intros s Hs. exists (cursor_y s), s. unfold within, VGA_HEIGHT in *. zcase; split_and!; lia || done.
Qed.

(** An access that does not read. *)
Lemma safe_do {A} P P' (m : M console unit) (f : unit → thread A) Q :
  G P → (∀ s, P s → ∃ s', m s = Ret tt s' ∧ answers (cio s') = answers (cio s) ∧ P' s') →
  safe P' (f tt) Q → safe P (access m ≫= f) Q.
Proof.
  intros HG Hm Hf. apply (safe_step P (λ _, True) (λ _, P')); [done| |by intros []].
  intros s Hs. destruct (Hm s Hs) as (s' & E & Ha & H'). by exists tt, s'.
Qed.

Lemma safe_store_x {A} X Y X' v (f : unit → thread A) Q :
  G (within X Y) → 0 <= v <= X' → safe (within X' Y) (f tt) Q →
  safe (within X Y) (store_x v ≫= f) Q.
Proof.
  intros HG Hv. apply safe_do; [done|]. intros s Hs. eexists. split; [done|]. split; [done|].
  unfold within in *. cbn. lia.
Qed.

Lemma safe_store_y {A} X Y Y' v (f : unit → thread A) Q :
  G (within X Y) → 0 <= v <= Y' → safe (within X Y') (f tt) Q →
  safe (within X Y) (store_y v ≫= f) Q.
Proof.
  intros HG Hv. apply safe_do; [done|]. intros s Hs. eexists. split; [done|]. split; [done|].
  unfold within in *. cbn. lia.
Qed.

Lemma safe_store_vram {A} X Y i v (f : unit → thread A) Q :
  G (within X Y) → 0 <= i < 4162 → safe (within X Y) (f tt) Q →
  safe (within X Y) (store_vram i v ≫= f) Q.
Proof.
  intros HG Hi. apply safe_do; [done|]. intros s (Hx & Hy & Hl). unfold vset.
  rewrite (proj2 (Z.leb_le 0 i)), (proj2 (Z.ltb_lt i _)) by lia.
  eexists. split; [done|]. split; [done|].
  unfold within. cbn. rewrite length_insert. lia.
Qed.

Lemma safe_load_vram {A} X Y i (f : Z → thread A) Q :
  G (within X Y) → 0 <= i < 4162 → (∀ v, safe (within X Y) (f v) Q) →
  safe (within X Y) (load_vram i ≫= f) Q.
Proof.
  intros HG Hi Hf. apply (safe_step _ (λ _, True) (λ _, within X Y)); [done| |auto].
  intros s Hs. unfold vget, deref. rewrite (proj2 (Z.leb_le 0 i)) by lia.
  destruct (lookup_lt_is_Some_2 (vram s) (Z.to_nat i)) as [v ->]; [destruct Hs; lia|]. by exists v, s.
Qed.

Lemma safe_port {A} X Y p v (f : unit → thread A) Q :
  G (within X Y) → safe (within X Y) (f tt) Q → safe (within X Y) (port p v ≫= f) Q.
Proof. intros HG. apply safe_do; [done|]. intros s Hs. by eexists. Qed.
End logic.

(** ** [vga_putc] in the logic

    One proof for both uses: started with the cursor at most at column [X] and row [Y], the
    thread passes through columns up to [X + 1] and rows up to [Y + 1] and ends on the screen.
    The interrupted code starts on the screen; the handler may start at column 80 and row 25,
    where the interrupted code has left the cursor. *)

Section putc.
Context (G : (console → Prop) → Prop) (X0 Y0 : Z).
Context (HX0 : 79 <= X0 <= 80) (HY0 : 24 <= Y0 <= 25).
Context (HG : ∀ X Y, 79 <= X <= X0 + 1 → 24 <= Y <= Y0 + 1 → G (within X Y)).

Lemma safe_move_cursor X Y :
  G (within X Y) → safe G (within X Y) move_cursor_thread (λ _, within X Y).
Proof.
  intros. unfold move_cursor_thread. apply safe_load_y; [done|]. intros y _.
  apply safe_load_x; [done|]. intros x _. do 3 (apply safe_port; [done|]).
  apply safe_last, safe_port; [done|]. by intros s.
Qed.

Lemma safe_scroll X Y : G (within X Y) → safe G (within X Y) scroll_thread (λ _, within X Y).
Proof.
  intros HG1. unfold scroll_thread. eapply safe_bind.
  - apply safe_for. intros row Hr. apply safe_for. intros col Hc.
    rewrite u32_small, !cell_index_exact by lia.
    apply safe_load_vram; [done|lia|intros v]. apply safe_store_vram; [done|lia|].
    apply safe_load_vram; [done|lia|intros a]. apply safe_last, safe_store_vram; [done|lia|by intros s].
  - intros []. apply safe_for. intros col Hc. rewrite cell_index_exact by (unfold VGA_HEIGHT; lia).
    unfold VGA_HEIGHT. apply safe_store_vram; [done|lia|].
    apply safe_last, safe_store_vram; [done|lia|by intros s].
Qed.

Lemma safe_newline X :
  79 <= X <= X0 + 1 → safe G (within X Y0) newline_thread (λ _, within 79 (Y0 + 1)).
Proof.
  intros HX. unfold newline_thread. apply safe_store_x with 79; [apply HG; lia|lia|].
  apply safe_load_y; [apply HG; lia|]. intros y Hy. rewrite u32_small by lia.
  apply safe_last, safe_store_y with (Y0 + 1); [apply HG; lia|lia|by intros s].
Qed.

Lemma safe_put c : safe G (within X0 Y0) (put_thread c) (λ _, within 79 (Y0 + 1)).
Proof.
  unfold put_thread. apply safe_load_y; [apply HG; lia|]. intros y Hy.
  apply safe_load_x; [apply HG; lia|]. intros x Hx. rewrite cell_index_exact by lia.
  do 2 (apply safe_store_vram; [apply HG; lia|lia|]).
  apply safe_load_x; [apply HG; lia|]. intros x' Hx'. rewrite u32_small by lia.
  apply safe_store_x with (X0 + 1); [apply HG; lia|lia|].
  apply safe_test_x; [apply HG; lia|]. intros x'' _. destruct (VGA_WIDTH <=? x'').
  - apply safe_newline. lia.
  - intros s Hs. eapply within_weaken; [done|lia..].
Qed.

Lemma safe_settle : safe G (within 79 (Y0 + 1)) settle_thread (λ _, within 79 24).
Proof.
  unfold settle_thread. apply safe_test_y; [apply HG; lia|]. intros y _.
  apply safe_bind with (λ _, within 79 24); [|intros []; apply safe_move_cursor, HG; lia].
  destruct (VGA_HEIGHT <=? y); [|by intros s].
  eapply safe_bind; [apply safe_scroll; apply HG; lia|intros []].
  apply safe_last, safe_store_y with 24; [apply HG; lia|unfold VGA_HEIGHT; lia|by intros s].
Qed.

Lemma safe_putc c : c ≠ 8 → safe G (within X0 Y0) (putc_thread c) (λ _, within 79 24).
Proof.
  intros Hc. unfold putc_thread.
  apply safe_bind with (λ _, within 79 (Y0 + 1)); [|intros []; apply safe_settle].
  destruct (c =? 10); [apply safe_newline; lia|].
  rewrite (proj2 (Z.eqb_neq _ _) Hc). apply safe_put.
Qed.

End putc.

(** ** Backspace

    The value tested is the value decremented. *)

Section backspace.
Context (G : (console → Prop) → Prop) (X0 Y0 : Z).
Context (HX0 : 79 <= X0 <= 80) (HY0 : 24 <= Y0 <= 25).
Context (HG : ∀ P : console → Prop, (∀ s, P s → within X0 Y0 s) → G P).

(** Every assertion of the proof is within the bounds. *)
Ltac edge := apply HG; intros ? ?; unfold within in *; lia.

Lemma safe_backspace : safe G (within X0 Y0) backspace_thread (λ _, within 79 Y0).
Proof.
  unfold backspace_thread.
  apply (safe_step _ _ (λ x, 0 <= x <= X0) (λ x s, within X0 Y0 s ∧ cursor_x s = x)); [edge| |].
  { intros s Hs. exists (cursor_x s), s. by destruct Hs. }
  intros x Hx. apply safe_bind with (λ _, within 79 Y0).
  - destruct (Z.ltb_spec 0 x).
    + apply (safe_step _ _ (λ x', 0 < x' <= X0) (λ _, within X0 Y0)); [edge| |].
      { intros s [Hs Ex]. exists (cursor_x s), s. unfold within in *. split_and!; lia || done. }
      intros x' Hx'. rewrite u32_small by lia.
      apply safe_last, safe_store_x with 79; [edge|lia|by intros s].
    + apply (safe_step _ _ (λ y, 0 <= y <= Y0) (λ y s, within 79 Y0 s ∧ cursor_y s = y)); [edge| |].
      { intros s [Hs Ex]. exists (cursor_y s), s. unfold within in *. split_and!; lia || done. }
      intros y Hy. destruct (Z.ltb_spec 0 y); [|by intros s [Hs _]].
      apply (safe_step _ _ (λ y', 0 < y' <= Y0) (λ _, within 79 Y0)); [edge| |].
      { intros s [Hs Ey]. exists (cursor_y s), s. unfold within in *. split_and!; lia || done. }
      intros y' Hy'. rewrite u32_small by lia. apply safe_store_y with Y0; [edge|lia|].
      apply safe_last, safe_store_x with 79; [edge|unfold VGA_WIDTH; lia|by intros s].
  - intros []. apply safe_load_y; [edge|]. intros y Hy. apply safe_load_x; [edge|]. intros x' Hx'.
    rewrite cell_index_exact by lia. apply safe_store_vram; [edge|lia|].
    apply safe_last, safe_store_vram; [edge|lia|by intros s].
Qed.
End backspace.

(** ** Run alone *)

Definition any (P : console → Prop) : Prop := True.

Lemma safe_run {A} G P (p : thread A) Q s :
  safe G P p Q → P s → ∃ a s', run p s = Ret a s' ∧ Q a s'.
Proof.
  revert P s. induction p as [a|X m k IH]; intros P s Hp HP; [exists a, s; by split; [|apply Hp]|].
  destruct Hp as (R & φ & P' & HR & _ & Hm & Hk).
  destruct (Hm s (HR s HP)) as (x & s1 & E & _ & Hx & H1).
  destruct (IH x (P' x) s1 (Hk x Hx) H1) as (a & s2 & E2 & H2). exists a, s2. split; [|done].
  cbn [run]. by rewrite (bind_ret _ _ _ _ _ E).
Qed.

(** [vga_putc] takes a cursor one cell beyond the screen, on either side, back to the screen. *)
Lemma vga_putc_recovers c s : within 80 25 s → ∃ s', vga_putc c s = Ret tt s' ∧ within 79 24 s'.
Proof.
  intros Hs. destruct (safe_run any (within 80 25) (putc_thread c) (λ _, within 79 24) s)
    as ([] & s' & E & H'); [|done|exists s'; by rewrite <- putc_thread_run].
  destruct (decide (c = 8)) as [->|]; [|by apply safe_putc].
  unfold putc_thread. eapply safe_bind; [by apply (safe_backspace any 80 25)|intros []].
  eapply safe_weaken; [by apply (safe_settle any 80 25)|].
  intros s1 H1. eapply within_weaken; [done|lia..].
Qed.

Lemma move_cursor_within X Y s :
  within X Y s → ∃ s', move_cursor s = Ret tt s' ∧ within X Y s'.
Proof.
  intros Hs. destruct (safe_run any (within X Y) move_cursor_thread (λ _, within X Y) s)
    as ([] & s' & E & H'); [by apply safe_move_cursor|done|]. by exists s'.
Qed.
