(* ===== verification/Interrupt.v ===== *)
(** * Interrupts (kernel/interrupt.c, arch/x86/idt.S, [init_pic] of kernel/core/init.c)

    The interrupt descriptor table is the 2048 bytes of the array [idt], written field by field
    at the offsets of the packed struct and read back the way the processor does ([cpu_gate]).
    The interrupt controllers are judged by the documented behaviour of the 8259 on the port
    writes of the run ([pic_after]). *)

From Stdlib Require Import Ascii String.
From stdpp Require Import base numbers strings gmap list.
From S2P Require Import Prelude Frame Io CString Console Itoa ConsoleProps.

Local Open Scope Z_scope.

Definition IDT_SIZE : Z := 256.

(** [idt_entry_t]: the offsets of the packed members and its size. *)
Definition base_low : Z := 0.
Definition sel : Z := 2.
Definition always0 : Z := 4.
Definition flags : Z := 5.
Definition base_high : Z := 6.
Definition sizeof_idt_entry : Z := 8.

Record idt_ptr_t : Type := MkIdtPtr { limit : Z; base : Z }.

Record machine : Type := MkMachine {
  idt : list Z;              (** bytes of [idt_entry_t idt[256]] *)
  idtp : idt_ptr_t;
  idtr : option idt_ptr_t;   (** the processor's register, once loaded *)
  con : console;
}.

Definition set_idt (t : list Z) (s : machine) : machine := MkMachine t (idtp s) (idtr s) (con s).
Definition set_idtp (p : idt_ptr_t) (s : machine) : machine :=
  MkMachine (idt s) p (idtr s) (con s).
Definition set_idtr (r : option idt_ptr_t) (s : machine) : machine :=
  MkMachine (idt s) (idtp s) r (con s).
Definition set_con (c : console) (s : machine) : machine :=
  MkMachine (idt s) (idtp s) (idtr s) c.

Definition on_con {A} (c : M console A) : M machine A := zoom con set_con c.
Definition m_outb (port v : Z) : M machine unit := on_con (con_outb port v).
Definition m_inb (port : Z) : M machine Z := on_con (zoom cio set_cio (inb port)).
Definition m_printk (format : string) (args : list va) : M machine unit :=
  on_con (printk (literal format) args).

Arguments m_printk _%_string _.

(** The escape [\n] of a string literal. *)
Definition nl : string := String "010" EmptyString.

(** Stores of one and two bytes at an offset of the table. *)
Definition idt_set8 (off v : Z) : M machine unit := λ s,
  if (0 <=? off) && (off <? Z.of_nat (length (idt s)))
  then Ret tt (set_idt (<[Z.to_nat off := u8 v]> (idt s)) s) else Fault.
Definition idt_set16 (off v : Z) : M machine unit :=
  idt_set8 off v;; idt_set8 (off + 1) (Z.shiftr (u16 v) 8).
Definition idt_get8 (off : Z) : M machine Z :=
  deref (λ s, if 0 <=? off then idt s !! Z.to_nat off else None).
Definition idt_get16 (off : Z) : M machine Z :=
  lo ← idt_get8 off; hi ← idt_get8 (off + 1); mret (lo + Z.shiftl hi 8).

Definition pic_remap : M machine unit :=
  m_outb 0x20 0x11;;
  m_outb 0xA0 0x11;;
  m_outb 0x21 0x20;;
  m_outb 0xA1 0x28;;
  m_outb 0x21 0x04;;
  m_outb 0xA1 0x02;;
  m_outb 0x21 0x01;;
  m_outb 0xA1 0x01;;
  m_outb 0x21 0x0;;
  m_outb 0xA1 0x0.

(** [init_pic] of kernel/core/init.c: the same writes, never called. *)
Definition init_pic : M machine unit :=
  m_outb 0x20 0x11;;
  m_outb 0xA0 0x11;;
  m_outb 0x21 0x20;;
  m_outb 0xA1 0x28;;
  m_outb 0x21 0x04;;
  m_outb 0xA1 0x02;;
  m_outb 0x21 0x01;;
  m_outb 0xA1 0x01;;
  m_outb 0x21 0x0;;
  m_outb 0xA1 0x0.

Definition exception_handler (interrupt_number : Z) : M machine unit :=
  m_printk (nl +:+ "Exception occurred! Interrupt: %d" +:+ nl) [VInt interrupt_number];;
  hang.

(** [void register_interrupt_handler(int num, void ( *handler )())] *)
Definition register_interrupt_handler (num handler : Z) : M machine unit :=
  let base := u32 handler in
  let entry := num * sizeof_idt_entry in
  idt_set16 (entry + base_low) (Z.land base 0xFFFF);;
  idt_set16 (entry + sel) 0x08;;
  idt_set8 (entry + always0) 0;;
  idt_set8 (entry + flags) 0x8E;;
  idt_set16 (entry + base_high) (Z.land (Z.shiftr base 16) 0xFFFF).

Definition debug_print_idt : M machine unit :=
  for_range 256 0 (λ i,
    let entry := i * sizeof_idt_entry in
    lo ← idt_get16 (entry + base_low);
    nz ← (if negb (lo =? 0) then mret true
          else hi ← idt_get16 (entry + base_high); mret (negb (hi =? 0)));
    when nz
      (hi ← idt_get16 (entry + base_high);
       fl ← idt_get8 (entry + flags);
       m_printk ("IDT[%d] -> base: %x%x flags: %x" +:+ nl) [VInt i; VInt hi; VInt lo; VInt fl])).

Section linked.
(** Addresses the linker gives: the table, its descriptor and the handlers. *)
Context (a_idt a_idtp a_exception_handler : Z).

Definition init_exceptions : M machine unit :=
  for_range 32 0 (λ i, register_interrupt_handler i a_exception_handler).

(** arch/x86/idt.S: [lidt] reads the descriptor its argument points to. *)
Definition idt_load (p : Z) : M machine unit :=
  if p =? u32 a_idtp then modify (λ s, set_idtr (Some (idtp s)) s) else fault.

(** [memset] of kernel/string.c on the object [idt]. *)
Definition memset_idt (c n : Z) : M machine unit := λ s,
  match memset 0 c n (idt s) with Some t => Ret tt (set_idt t s) | None => Fault end.

Definition init_interrupts : M machine unit :=
  modify (λ s, set_idtp
    (MkIdtPtr (u16 (u32 (sizeof_idt_entry * IDT_SIZE) - 1)) (u32 a_idt)) s);;
  memset_idt 0 (sizeof_idt_entry * IDT_SIZE);;
  init_exceptions;;
  pic_remap;;
  m_outb 0x21 0xFD;;
  m_outb 0xA1 0xFF;;
  idt_load (u32 a_idtp);;
  m_printk ("IDT initialized." +:+ nl) [].
End linked.

(** ** The processor's view of the table *)

Record gate : Type := MkGate {
  g_offset : Z;
  g_selector : Z;
  g_type : Z;      (** 14 is a 32-bit interrupt gate *)
  g_dpl : Z;
  g_present : bool;
}.

Definition cpu_gate (t : list Z) (v : Z) : option gate :=
  match firstn 8 (drop (Z.to_nat (8 * v)) t) with
  | [b0; b1; b2; b3; b4; b5; b6; b7] => Some (MkGate
      (b0 + 2 ^ 8 * b1 + 2 ^ 16 * b6 + 2 ^ 24 * b7) (b2 + 2 ^ 8 * b3)
      (Z.land b5 0x1F) (Z.land (Z.shiftr b5 5) 3) (Z.testbit b5 7))
  | _ => None
  end.

(** Where the processor goes on interrupt [v]: the offset of a present gate. *)
Definition vector_target (t : list Z) (v : Z) : option Z :=
  g ← cpu_gate t v; if g_present g then Some (g_offset g) else None.

Definition idt_wf (s : machine) : Prop := length (idt s) = 2048%nat.

(** The eight bytes of an interrupt gate for [h]. *)
Definition gate_bytes (h : Z) : list Z :=
  [u8 (u32 h); u8 (Z.shiftr (u32 h) 8); 8; 0; 0; 0x8E;
   u8 (Z.shiftr (u32 h) 16); u8 (Z.shiftr (u32 h) 24)].

(** Replace the bytes of a list from an offset on. *)
Fixpoint write_bytes (t : list Z) (off : nat) (bs : list Z) : list Z :=
  match bs with
  | [] => t
  | b :: bs' => write_bytes (<[off := b]> t) (S off) bs'
  end.

Lemma write_bytes_app t off bs :
  (off + length bs <= length t)%nat →
  write_bytes t off bs = take off t ++ bs ++ drop (off + length bs) t.
Proof.
  revert t off. induction bs as [|b bs IH]; intros t off Hl; cbn [write_bytes length app] in *.
  - by rewrite Nat.add_0_r, take_drop.
  - rewrite IH by (rewrite length_insert; lia).
    erewrite take_S_r by (apply list_lookup_insert_eq; lia).
    rewrite take_insert_ge, drop_insert_lt by lia. rewrite <- app_assoc. cbn.
    by rewrite Nat.add_succ_r.
Qed.

Lemma low_byte b : u8 (Z.land b 0xFFFF) = u8 b.
Proof.
  change 0xFFFF with (Z.ones 16). rewrite Z.land_ones by lia. unfold u8, wrap.
  Z.to_euclidean_division_equations. lia.
Qed.

Lemma high_byte b : u8 (Z.shiftr (u16 (Z.land b 0xFFFF)) 8) = u8 (Z.shiftr b 8).
Proof.
  change 0xFFFF with (Z.ones 16). rewrite Z.land_ones, !Z.shiftr_div_pow2 by lia.
  unfold u8, u16, wrap. Z.to_euclidean_division_equations. lia.
Qed.

Lemma set8_at t s o off v :
  length t = 2048%nat → off = Z.of_nat o → (o < 2048)%nat →
  idt_set8 off v (set_idt t s) = Ret tt (set_idt (<[o := u8 v]> t) s).
Proof.
  intros Hl -> Ho. unfold idt_set8. cbn [idt set_idt]. rewrite Hl.
  rewrite (proj2 (Z.leb_le 0 _)), (proj2 (Z.ltb_lt _ _)), Nat2Z.id by lia. done.
Qed.

Lemma set16_at t s o off v :
  length t = 2048%nat → off = Z.of_nat o → (S o < 2048)%nat →
  idt_set16 off v (set_idt t s) =
    Ret tt (set_idt (<[S o := u8 (Z.shiftr (u16 v) 8)]> (<[o := u8 v]> t)) s).
Proof.
  intros Hl -> Ho. unfold idt_set16.
  rewrite (bind_ret _ _ _ _ _ (set8_at t s o _ v Hl eq_refl ltac:(lia))).
  apply set8_at; [by rewrite length_insert|lia..].
Qed.

(** Registering stores the eight bytes of the gate and nothing else. *)
Lemma register_run num h s :
  idt_wf s → 0 <= num < 256 →
  register_interrupt_handler num h s =
    Ret tt (set_idt (write_bytes (idt s) (Z.to_nat (8 * num)) (gate_bytes h)) s).
Proof.
  intros Hl Hn. assert (Es : set_idt (idt s) s = s) by (by destruct s). rewrite <- Es at 1.
  set (o := Z.to_nat (8 * num)). unfold register_interrupt_handler.
  unfold sizeof_idt_entry, base_low, sel, always0, flags, base_high.
  assert (Hlen : ∀ i v t, length t = 2048%nat → length (<[i := v]> t : list Z) = 2048%nat)
    by (intros; by rewrite length_insert).
  erewrite bind_ret by (apply (set16_at _ _ o); [done|lia..]).
  erewrite bind_ret by (apply (set16_at _ _ (2 + o)); [auto|lia..]).
  erewrite bind_ret by (apply (set8_at _ _ (4 + o)); [auto|lia..]).
  erewrite bind_ret by (apply (set8_at _ _ (5 + o)); [auto 10|lia..]).
  erewrite (set16_at _ _ (6 + o)) by (auto 10 || lia).
  rewrite !low_byte, !high_byte, Z.shiftr_shiftr by lia. done.
Qed.

Lemma gate_bytes_length h : length (gate_bytes h) = 8%nat.
Proof. done. Qed.

(** Decoding the gate just written, and any other. *)
Lemma cpu_gate_same t v h :
  length t = 2048%nat → 0 <= v < 256 →
  cpu_gate (write_bytes t (Z.to_nat (8 * v)) (gate_bytes h)) v =
    Some (MkGate (u32 h) 8 14 0 true).
Proof.
  intros Hl Hv. unfold cpu_gate. rewrite write_bytes_app by (rewrite gate_bytes_length; lia).
  rewrite drop_app_length' by (rewrite length_take; lia).
  rewrite firstn_app. cbn [gate_bytes length Nat.sub firstn app].
  rewrite !Z.shiftr_div_pow2 by lia. f_equal. f_equal. unfold u8, wrap.
  pose proof (u32_range h). Z.to_euclidean_division_equations. lia.
Qed.

Lemma cpu_gate_other t v w h :
  length t = 2048%nat → 0 <= v < 256 → 0 <= w < 256 → v ≠ w →
  cpu_gate (write_bytes t (Z.to_nat (8 * v)) (gate_bytes h)) w = cpu_gate t w.
Proof.
  intros Hl Hv Hw Hne. unfold cpu_gate.
  rewrite write_bytes_app by (rewrite gate_bytes_length; lia). rewrite gate_bytes_length.
  replace (firstn 8 (drop _ (_ ++ _))) with (firstn 8 (drop (Z.to_nat (8 * w)) t)); [done|].
  apply list_eq. intros i. rewrite !lookup_take. case_decide; [|done].
  rewrite !lookup_drop. destruct (decide (v < w)).
  - rewrite lookup_app_r by (rewrite length_take; lia).
    rewrite lookup_app_r by (rewrite length_take, gate_bytes_length; lia).
    rewrite lookup_drop, length_take, gate_bytes_length. f_equal. lia.
  - rewrite lookup_app_l by (rewrite length_take; lia).
    rewrite lookup_take. case_decide; [done|lia].
Qed.

Lemma write_bytes_length t o bs : length (write_bytes t o bs) = length t.
Proof.
  revert t o. induction bs as [|b bs IH]; intros; [done|]. cbn. by rewrite IH, length_insert.
Qed.

(** C40: registering a handler writes an interrupt gate the processor decodes back to exactly
    that 32-bit address (present, ring 0, code segment 8), leaves the other 255 gates and the
    rest of the machine as they were, and a vector outside the table faults. *)
Theorem register_gate num h s :
  idt_wf s →
  if (0 <=? num) && (num <? 256) then
    ∃ t, register_interrupt_handler num h s = Ret tt (set_idt t s) ∧ length t = 2048%nat ∧
      cpu_gate t num = Some (MkGate (u32 h) 8 14 0 true) ∧
      ∀ v, 0 <= v < 256 → v ≠ num → cpu_gate t v = cpu_gate (idt s) v
  else register_interrupt_handler num h s = Fault.
Proof.
  intros Hl. assert (Hout : num < 0 ∨ 256 <= num → register_interrupt_handler num h s = Fault).
  { intros Ho. unfold register_interrupt_handler. do 2 apply bind_fault.
    unfold idt_set8, sizeof_idt_entry, base_low. rewrite Hl.
    destruct Ho; [rewrite (proj2 (Z.leb_gt 0 _)) by lia; done|].
    rewrite (proj2 (Z.ltb_ge _ (Z.of_nat 2048))) by lia. by rewrite andb_false_r. }
  destruct (Z.leb_spec 0 num), (Z.ltb_spec num 256); cbn [andb]; [|auto..].
  eexists. split; [by apply register_run|]. split; [by rewrite write_bytes_length|].
  split; [by apply cpu_gate_same|]. intros. by apply cpu_gate_other.
Qed.

Definition boot_machine (answers : list Z) : machine :=
  MkMachine (replicate 2048 0) (MkIdtPtr 0 0) None
    (MkConsole (replicate 4000 0) 0 0 (MkIo [] answers)).

Lemma register_gate_witness :
  idt_wf (boot_machine []) ∧
  ∃ t, register_interrupt_handler 33 0x101234 (boot_machine []) =
         Ret tt (set_idt t (boot_machine [])) ∧ length t = 2048%nat ∧
    cpu_gate t 33 = Some (MkGate (u32 0x101234) 8 14 0 true) ∧
    ∀ v, 0 <= v < 256 → v ≠ 33 → cpu_gate t v = cpu_gate (idt (boot_machine [])) v.
Proof.
  split; [reflexivity|].
  apply (register_gate 33 0x101234 (boot_machine [])). reflexivity.
Defined.

(** ** The 8259 controllers

    What the port writes of a run do to a pair of controllers, from the data sheet: a command
    byte with bit 4 set starts the initialisation, whose next data bytes are the vector base,
    the cascade wiring (unless bit 1 was set) and the mode (if bit 0 was set); any other data
    byte is the interrupt mask. *)

Inductive pic_stage : Type := Ready | Icw2 | Icw3 | Icw4.
Record pic : Type := MkPic {
  pic_base : Z; pic_mask : Z; pic_icw1 : Z; pic_next : pic_stage;
}.

Definition pic_command (v : Z) (p : pic) : pic :=
  if Z.testbit v 4 then MkPic (pic_base p) 0 v Icw2 else p.

Definition pic_data (v : Z) (p : pic) : pic :=
  let mode := if Z.testbit (pic_icw1 p) 0 then Icw4 else Ready in
  match pic_next p with
  | Ready => MkPic (pic_base p) v (pic_icw1 p) Ready
  | Icw2 => MkPic (Z.land v 0xF8) (pic_mask p) (pic_icw1 p)
              (if Z.testbit (pic_icw1 p) 1 then mode else Icw3)
  | Icw3 => MkPic (pic_base p) (pic_mask p) (pic_icw1 p) mode
  | Icw4 => MkPic (pic_base p) (pic_mask p) (pic_icw1 p) Ready
  end.

Definition pics : Type := pic * pic.
Definition pic_event (p : pics) (e : event) : pics :=
  match e with
  | Out 0x20 v => (pic_command v p.1, p.2)
  | Out 0x21 v => (pic_data v p.1, p.2)
  | Out 0xA0 v => (p.1, pic_command v p.2)
  | Out 0xA1 v => (p.1, pic_data v p.2)
  | _ => p
  end.
Definition pic_after (p : pics) (tr : list event) : pics := foldl pic_event p tr.

(** The vector of line [irq] when the controllers let it through. *)
Definition irq_vector (p : pics) (irq : Z) : option Z :=
  if irq <? 8 then
    if Z.testbit (pic_mask p.1) irq then None else Some (pic_base p.1 + irq)
  else
    if Z.testbit (pic_mask p.1) 2 || Z.testbit (pic_mask p.2) (irq - 8) then None
    else Some (pic_base p.2 + (irq - 8)).

Lemma pic_after_quiet p evs : Forall cursor_event evs → pic_after p evs = p.
Proof.
  induction 1 as [|e evs He _ IH]; [done|]. cbn. replace (pic_event p e) with p; [done|].
  destruct e as [port v|]; [|done]. by destruct He as [->| ->].
Qed.

(** ** Calls of the console from the machine *)

(** The console of [s] after something was printed: only the screen, the cursor and the cursor
    ports changed. *)
Definition printed (c c' : console) : Prop :=
  con_wf c' ∧ adds_cursor_events (cio c) (cio c').

Lemma printk_prints format args out c p :
  shows c p → text (chars format) → render (chars format) args = Some out →
  ∃ c', printk (literal format) args c = Ret tt c' ∧ shows c' (foldl page_putc p out) ∧
    printed c c'.
Proof.
  intros Hs Ht Er. destruct (put_all_shows out c p Hs) as (c1 & E1 & H1).
  rewrite <- (puts_printk (chars format) [] args out Ht Er) in E1.
  destruct (move_cursor_shows _ _ H1) as (c2 & E2 & H2 & _).
  assert (E : printk (literal format) args c = Ret tt c2)
    by (unfold literal, printk; by rewrite (bind_ret _ _ _ _ _ E1)).
  exists c2. split; [done|]. split; [done|]. split; [by destruct H2|].
  exact (keeps_ret _ _ _ _ _ (keeps_printk (literal format) args) E).
Qed.

Lemma m_printk_ret format args out s :
  con_wf (con s) → text (chars format) → render (chars format) args = Some out →
  ∃ c', m_printk format args s = Ret tt (set_con c' s) ∧ printed (con s) c'.
Proof.
  intros Hwf Ht Er.
  destruct (printk_prints format args out (con s) _ (con_wf_shows _ Hwf) Ht Er)
    as (c' & E & _ & Hp).
  exists c'. split; [by apply zoom_ret|done].
Qed.

(** The machine with the port writes [l] made after the accesses [i]. *)
Definition wrote (l : list (Z * Z)) (i : io) (s : machine) : machine :=
  set_con (set_cio (outs l i) (con s)) s.

Lemma wrote_nil s : wrote [] (cio (con s)) s = s.
Proof.
  destruct s as [? ? ? [? ? ? [t a]]]. unfold wrote, outs. cbn. by rewrite app_nil_r.
Qed.

Lemma m_outb_wrote port v l i s :
  m_outb port v (wrote l i s) = Ret tt (wrote (l ++ [(port, v)]) i s).
Proof.
  unfold wrote, m_outb, on_con, con_outb, zoom, outb, outs. cbn.
  by rewrite fmap_app, app_assoc.
Qed.

(** ** Initialisation *)

Definition no_gate : gate := MkGate 0 0 0 0 false.
Definition gate_to (h : Z) : gate := MkGate (u32 h) 8 14 0 true.

Lemma cpu_gate_zero v : 0 <= v < 256 → cpu_gate (replicate 2048 0) v = Some no_gate.
Proof.
  intros Hv. unfold cpu_gate. rewrite drop_replicate, take_replicate.
  by replace (8 `min` (2048 - Z.to_nat (8 * v)))%nat with 8%nat by lia.
Qed.

Section init.
Context (a_idt a_idtp a_exception_handler : Z).

Lemma init_exceptions_run s :
  idt_wf s → (∀ v, 0 <= v < 256 → cpu_gate (idt s) v = Some no_gate) →
  ∃ t, init_exceptions a_exception_handler s = Ret tt (set_idt t s) ∧ length t = 2048%nat ∧
    ∀ v, 0 <= v < 256 →
      cpu_gate t v = Some (if v <? 32 then gate_to a_exception_handler else no_gate).
Proof.
  intros Hl Hz.
  destruct (for_range_inv (λ i s', ∃ t, s' = set_idt t s ∧ length t = 2048%nat ∧
      ∀ v, 0 <= v < 256 →
        cpu_gate t v = Some (if v <? i then gate_to a_exception_handler else no_gate)) 32 0
    (λ i, register_interrupt_handler i a_exception_handler) s) as (s' & E & t & -> & Ht & Hg).
  - exists (idt s). split; [by destruct s|]. split; [done|]. intros v Hv. rewrite Hz by done.
    by rewrite (proj2 (Z.ltb_ge v 0)) by lia.
  - intros i s' Hi (t & -> & Ht & Hg).
    rewrite register_run by (done || lia). eexists. split; [done|].
    eexists. split; [done|]. cbn [idt set_idt]. split; [by rewrite write_bytes_length|].
    intros v Hv. destruct (decide (i = v)) as [->|Hne].
    + rewrite cpu_gate_same by (done || lia). by rewrite (proj2 (Z.ltb_lt v _)) by lia.
    + rewrite cpu_gate_other, Hg by (done || lia). repeat zcase; done || lia.
  - exists t. done.
Qed.

(** The port writes of [init_interrupts]. *)
Definition init_writes : list (Z * Z) :=
  [(0x20, 0x11); (0xA0, 0x11); (0x21, 0x20); (0xA1, 0x28); (0x21, 0x04); (0xA1, 0x02);
   (0x21, 0x01); (0xA1, 0x01); (0x21, 0x0); (0xA1, 0x0); (0x21, 0xFD); (0xA1, 0xFF)].

Lemma pic_remap_wrote i s :
  pic_remap (wrote [] i s) = Ret tt (wrote (take 10 init_writes) i s).
Proof.
  unfold pic_remap. repeat rewrite (bind_ret _ _ _ _ _ (m_outb_wrote _ _ _ _ _)).
  apply m_outb_wrote.
Qed.

Lemma init_interrupts_run s :
  idt_wf s → con_wf (con s) →
  ∃ t c', init_interrupts a_idt a_idtp a_exception_handler s =
      Ret tt (MkMachine t (MkIdtPtr 2047 (u32 a_idt)) (Some (MkIdtPtr 2047 (u32 a_idt))) c') ∧
    length t = 2048%nat ∧
    (∀ v, 0 <= v < 256 →
      cpu_gate t v = Some (if v <? 32 then gate_to a_exception_handler else no_gate)) ∧
    con_wf c' ∧ adds_cursor_events (outs init_writes (cio (con s))) (cio c').
Proof.
  intros Hl Hc. unfold init_interrupts. rewrite bind_modify.
  change (u16 (u32 (sizeof_idt_entry * IDT_SIZE) - 1)) with 2047.
  set (ptr := MkIdtPtr 2047 (u32 a_idt)).
  erewrite bind_ret; last first.
  { unfold memset_idt, memset. rewrite memset_loop_spec; [done|lia|].
    change (idt (set_idtp ptr s)) with (idt s). rewrite Hl. done. }
  set (t0 := _ ++ _). assert (t0 = replicate 2048 0) as ->.
  { unfold t0. cbn [idt set_idtp]. change (Z.to_nat (u32 _)) with 2048%nat.
    rewrite drop_ge by (rewrite Hl; done). rewrite app_nil_r. done. }
  destruct (init_exceptions_run (set_idt (replicate 2048 0) (set_idtp ptr s)))
    as (t & E & Ht & Hg); [apply length_replicate|apply cpu_gate_zero|].
  rewrite (bind_ret _ _ _ _ _ E). clear E.
  change (set_idt t _) with (MkMachine t ptr (idtr s) (con s)).
  set (s1 := MkMachine t ptr (idtr s) (con s)).
  rewrite <- (wrote_nil s1), (bind_ret _ _ _ _ _ (pic_remap_wrote _ _)).
  repeat rewrite (bind_ret _ _ _ _ _ (m_outb_wrote _ _ _ _ _)).
  rewrite (bind_ret _ _ _ tt (set_idtr (Some ptr) (wrote init_writes (cio (con s1)) s1)))
    by (unfold idt_load; by rewrite Z.eqb_refl).
  set (s2 := set_idtr _ _).
  destruct (m_printk_ret ("IDT initialized." +:+ nl) [] (chars ("IDT initialized." +:+ nl)) s2)
    as (c' & E & Hwf & Hadd); [by destruct Hc|is_text|reflexivity|].
  exists t, c'. split; [exact E|]. done.
Qed.
End init.

(** After [init_interrupts] the controllers let only line 1 through, on vector 33. *)
Lemma init_writes_pic p i i' :
  adds_cursor_events (outs init_writes i) i' →
  ∀ irq, 0 <= irq < 16 →
    irq_vector (pic_after p (trace i')) irq = if irq =? 1 then Some 33 else None.
Proof.
  intros [_ (evs & -> & Hq)] irq Hirq. unfold pic_after. rewrite foldl_app.
  fold (pic_after (foldl pic_event p (trace (outs init_writes i))) evs).
  rewrite pic_after_quiet by done. unfold outs. cbn [trace]. rewrite foldl_app.
  destruct (foldl pic_event p (trace i)) as [[b1 m1 i1 n1] [b2 m2 i2 n2]].
  vm_compute foldl.
  assert (irq ∈ seqZ 0 16) as Hin by (apply elem_of_seqZ; lia). revert Hin. clear.
  vm_compute seqZ. rewrite !elem_of_cons, elem_of_nil. intros Hin.
  repeat destruct Hin as [->|Hin]; try reflexivity. done.
Qed.

(** ** The handlers that only print *)

(** An exception is reported and the processor stops there. *)
Lemma exception_handler_hangs n s :
  con_wf (con s) → - 2 ^ 31 < n < 2 ^ 31 →
  ∃ c', exception_handler n s = Hang (set_con c' s) ∧ printed (con s) c'.
Proof.
  intros Hwf Hn.
  edestruct (m_printk_ret (nl +:+ "Exception occurred! Interrupt: %d" +:+ nl) [VInt n])
    as (c' & E & Hp); [done|is_text|render|].
  exists c'. split; [|exact Hp]. unfold exception_handler.
  rewrite (bind_ret _ _ _ _ _ E). reflexivity.
Qed.

Definition is_byte (b : Z) : Prop := 0 <= b < 256.

Lemma idt_get8_ret s off :
  idt_wf s → Forall is_byte (idt s) → 0 <= off < 2048 →
  ∃ b, idt_get8 off s = Ret b s ∧ is_byte b.
Proof.
  intros Hl Hb Ho. destruct (lookup_lt_is_Some_2 (idt s) (Z.to_nat off)) as [b E];
    [unfold idt_wf in Hl; lia|].
  exists b. unfold idt_get8. rewrite (deref_ret _ _ b).
  - split; [done|]. by eapply Forall_lookup_1.
  - by rewrite (proj2 (Z.leb_le 0 off)) by lia.
Qed.

Lemma idt_get16_ret s off :
  idt_wf s → Forall is_byte (idt s) → 0 <= off < 2047 →
  ∃ w, idt_get16 off s = Ret w s ∧ 0 <= w < 2 ^ 16.
Proof.
  intros Hl Hb Ho. unfold idt_get16, is_byte in *.
  destruct (idt_get8_ret s off Hl Hb ltac:(lia)) as (lo & E1 & H1).
  destruct (idt_get8_ret s (off + 1) Hl Hb ltac:(lia)) as (hi & E2 & H2).
  rewrite (bind_ret _ _ _ _ _ E1), (bind_ret _ _ _ _ _ E2).
  eexists. split; [done|]. unfold is_byte in *. rewrite Z.shiftl_mul_pow2 by lia. lia.
Qed.

Lemma printed_trans c c' c'' : printed c c' → printed c' c'' → printed c c''.
Proof. intros [_ H1] [Hw H2]. split; [done|]. by etrans. Qed.

(** Printing the table always returns and changes nothing but the screen. *)
Lemma debug_print_idt_prints s :
  idt_wf s → Forall is_byte (idt s) → con_wf (con s) →
  ∃ c', debug_print_idt s = Ret tt (set_con c' s) ∧ printed (con s) c'.
Proof.
  intros Hl Hb Hc. unfold debug_print_idt.
  edestruct (for_range_inv (λ _ s', ∃ c', s' = set_con c' s ∧ printed (con s) c') 256 0)
    as (s' & E & c' & -> & Hp); [| |exists c'; split; [exact E|done]].
  { exists (con s). split; [by destruct s|]. split; [done|reflexivity]. }
  intros i s' Hi (c & -> & Hpc). unfold sizeof_idt_entry, base_low, base_high, flags.
  set (s1 := set_con c s).
  destruct (idt_get16_ret s1 (i * 8 + 0) Hl Hb ltac:(lia)) as (lo & E1 & Hlo).
  destruct (idt_get16_ret s1 (i * 8 + 6) Hl Hb ltac:(lia)) as (hi & E2 & Hhi).
  destruct (idt_get8_ret s1 (i * 8 + 5) Hl Hb ltac:(lia)) as (fl & E3 & Hfl).
  unfold is_byte in Hfl.
  rewrite (bind_ret _ _ _ _ _ E1).
  rewrite (bind_ret _ _ _ (negb (lo =? 0) || negb (hi =? 0)) s1); last first.
  { destruct (lo =? 0); cbn [negb orb]; [|done]. by rewrite (bind_ret _ _ _ _ _ E2). }
  destruct (_ || _); cbn [when]; [|by eauto].
  rewrite (bind_ret _ _ _ _ _ E2), (bind_ret _ _ _ _ _ E3).
  clear E1 E2 E3. edestruct (m_printk_ret ("IDT[%d] -> base: %x%x flags: %x" +:+ nl)
    [VInt i; VInt hi; VInt lo; VInt fl]) with (s := s1) as (c' & E & Hp).
  - by destruct Hpc.
  - is_text.
  - render.
  - rewrite E. clear E. eexists. split; [reflexivity|]. exists c'. split; [reflexivity|].
    by eapply printed_trans.
Qed.
