(* ===== verification/Keyboard.v ===== *)
(** * Keyboard (drivers/keyboard.c)

    The interrupt handler, the blocking read [get_key] of its buffer, and the initialisation of
    the controller. The functions of this file run without interruption; Race.v and Delivery.v
    let the handler interrupt others. [keyboard_init] talks to the controller by polling, so its
    loops run as long as the device's answers say; their fuel is the number of answers left, which
    each turn consumes, and one more. *)

From Stdlib Require Import Ascii String.
From stdpp Require Import base numbers strings gmap list.
From S2P Require Import Prelude Frame Io CString Console Itoa ConsoleProps Interrupt.

Local Open Scope Z_scope.

Definition KEYBOARD_DATA_PORT : Z := 0x60.
Definition INPUT_BUFFER_SIZE : Z := 256.

Record kbd : Type := MkKbd {
  input_buffer : list Z;
  buffer_index : Z;
  mach : machine;
}.

Definition set_buffer (b : list Z) (s : kbd) : kbd := MkKbd b (buffer_index s) (mach s).
Definition set_index (i : Z) (s : kbd) : kbd := MkKbd (input_buffer s) i (mach s).
Definition set_mach (m : machine) (s : kbd) : kbd := MkKbd (input_buffer s) (buffer_index s) m.

Definition k_inb (port : Z) : M kbd Z := zoom mach set_mach (m_inb port).
Definition k_outb (port v : Z) : M kbd unit := zoom mach set_mach (m_outb port v).
Definition k_printk (format : string) (args : list va) : M kbd unit :=
  zoom mach set_mach (m_printk format args).

Arguments k_printk _%_string _.

(** [input_buffer[i] = v] and [input_buffer[i]] *)
Definition kset (i v : Z) : M kbd unit := λ s,
  if (0 <=? i) && (i <? Z.of_nat (length (input_buffer s)))
  then Ret tt (set_buffer (<[Z.to_nat i := v]> (input_buffer s)) s) else Fault.
Definition kget (i : Z) : M kbd Z :=
  deref (λ s, if 0 <=? i then input_buffer s !! Z.to_nat i else None).

(** The initialiser has 59 elements, the rest of the array is zero. *)
Definition scancode_to_ascii : list Z :=
  [0; 27] ++ chars "1234567890-=" ++ [8] ++
  [9] ++ chars "qwertyuiop[]" ++ [10] ++
  [0] ++ chars "asdfghjkl;'`" ++
  [0] ++ chars "\zxcvbnm,./" ++ [0] ++
  chars "*" ++ [0] ++ chars " " ++ [0] ++ replicate 69 0.

Definition keyboard_handler : M kbd unit :=
  k_printk ("first we get it." +:+ nl) [];;
  scancode ← k_inb KEYBOARD_DATA_PORT;
  if negb (Z.land scancode 0x80 =? 0) then mret tt else
  c ← deref (λ _, scancode_to_ascii !! Z.to_nat scancode);
  when (negb (c =? 0))
    (k_printk "%c" [VInt c];;
     s ← get;
     if c =? 10 then
       kset (buffer_index s) 0;; modify (set_index 0)
     else when (buffer_index s <? INPUT_BUFFER_SIZE - 1)
       (kset (buffer_index s) c;; modify (λ s, set_index (buffer_index s + 1) s))).

(** [get_key] run without interruption: nobody fills an empty buffer, so the wait spins. *)
Definition get_key : M kbd Z :=
  s ← get;
  if buffer_index s =? 0 then hang else
  c ← kget 0;
  for_range (Z.to_nat (buffer_index s - 1)) 0 (λ i, v ← kget (i + 1); kset i v);;
  modify (λ s, set_index (buffer_index s - 1) s);;
  mret c.

(** [while (test(inb(port)));] *)
Fixpoint poll (fuel : nat) (port : Z) (again : Z → bool) : M kbd unit :=
  match fuel with
  | O => nofuel
  | S fuel' => v ← k_inb port; if again v then poll fuel' port again else mret tt
  end.

(** [while (!(inb(0x64) & 0x01))] and [while (inb(0x64) & 0x02)] *)
Definition fuel_left (s : kbd) : nat := S (length (answers (cio (con (mach s))))).
Definition wait_output : M kbd unit := λ s, poll (fuel_left s) 0x64 (λ v, Z.land v 0x01 =? 0) s.
Definition wait_input : M kbd unit :=
  λ s, poll (fuel_left s) 0x64 (λ v, negb (Z.land v 0x02 =? 0)) s.

(** The body of the loop that resends the command; [true] when it was acknowledged. *)
Definition resend : M kbd bool :=
  wait_input;;
  k_outb 0x60 0xF4;;
  wait_output;;
  ack ← k_inb 0x60;
  mret (ack =? 0xFA).

Definition try_enable_keyboard : M kbd Z :=
  wait_output;;
  ack ← k_inb 0x60;
  if ack =? 0xFA then mret 0
  else if ack =? 0xFE then
    r ← find_range 3 0 (λ _, resend);
    mret (match r with Some _ => 0 | None => -1 end)
  else mret (-1).

Definition keyboard_init (a_keyboard_handler : Z) : M kbd unit :=
  zoom mach set_mach (register_interrupt_handler 33 a_keyboard_handler);;
  wait_input;;
  k_outb 0x64 0xD4;;
  wait_input;;
  k_outb 0x60 0xF4;;
  r ← try_enable_keyboard;
  if r =? 0 then k_printk ("Keyboard initialized." +:+ nl) []
  else k_printk ("Failed to enable keyboard scanning." +:+ nl) [].

Example scancode_table : length scancode_to_ascii = 128%nat ∧
  scancode_to_ascii !! 0x1c%nat = Some 10 ∧ scancode_to_ascii !! 0x2f%nat = Some (chr "v") ∧
  scancode_to_ascii !! 0x39%nat = Some (chr " ") ∧ scancode_to_ascii !! 0x3a%nat = Some 0.
Proof. split_and!; reflexivity. Qed.

(** ** The buffer as a queue *)

Record buffer_ok (s : kbd) : Prop := {
  buf_length : length (input_buffer s) = 256%nat;
  buf_index : 0 <= buffer_index s <= 255;
}.

Record kbd_ok (s : kbd) : Prop := {
  ok_buffer : length (input_buffer s) = 256%nat;
  ok_index : 0 <= buffer_index s <= 255;
  ok_con : con_wf (con (mach s));
}.

Definition queue (s : kbd) : list Z := take (Z.to_nat (buffer_index s)) (input_buffer s).

(** What pressing a key does to the queue. *)
Definition enqueue (c : Z) (q : list Z) : list Z :=
  if c =? 10 then [] else if (length q <? 255)%nat then q ++ [c] else q.
Definition press (scancode : Z) (q : list Z) : list Z :=
  match (if Z.testbit scancode 7 then None else scancode_to_ascii !! Z.to_nat scancode) with
  | Some c => if c =? 0 then q else enqueue c q
  | None => q
  end.

Lemma kset_ret s i v :
  length (input_buffer s) = 256%nat → 0 <= i < 256 →
  kset i v s = Ret tt (set_buffer (<[Z.to_nat i := v]> (input_buffer s)) s).
Proof.
  intros Hl Hi. unfold kset. rewrite Hl.
  by rewrite (proj2 (Z.leb_le 0 i)), (proj2 (Z.ltb_lt i _)) by lia.
Qed.

Lemma k_printk_ret format args out s :
  con_wf (con (mach s)) → text (chars format) → render (chars format) args = Some out →
  ∃ c', k_printk format args s = Ret tt (set_mach (set_con c' (mach s)) s) ∧
    printed (con (mach s)) c'.
Proof.
  intros Hwf Ht Er.
  destruct (m_printk_ret format args out (mach s) Hwf Ht Er) as (c' & E & Hp).
  exists c'. split; [by apply zoom_ret|done].
Qed.

Lemma testbit7 x : 0 <= x < 256 → negb (Z.land x 0x80 =? 0) = Z.testbit x 7.
Proof.
  intros Hx. assert (E : ∀ y, y ∈ seqZ 0 256 → negb (Z.land y 0x80 =? 0) = Z.testbit y 7).
  { apply Forall_forall. vm_compute. repeat constructor. }
  apply E, elem_of_seqZ. lia.
Qed.

Lemma scancode_lookup x :
  0 <= x → Z.testbit x 7 = false → x < 256 →
  ∃ c, scancode_to_ascii !! Z.to_nat x = Some c ∧ is_char c.
Proof.
  intros Hx Hb Hx'. assert (x < 128).
  { apply Z.nle_gt. intros ?.
    assert (Z.testbit x 7 = true); [|congruence].
    apply Z.testbit_true; [lia|]. change (2 ^ 7) with 128.
    replace (x / 128) with 1; [done|]. apply Z.div_unique with (x - 128); lia. }
  assert (Hall : Forall is_char scancode_to_ascii)
    by (vm_compute; repeat constructor; discriminate).
  destruct (lookup_lt_is_Some_2 scancode_to_ascii (Z.to_nat x)) as [c E];
    [change (length scancode_to_ascii) with 128%nat; lia|].
  exists c. split; [done|]. by eapply Forall_lookup_1.
Qed.

(** Storing the character typed. *)
Lemma store_key c s :
  buffer_ok s →
  ∃ s', (if c =? 10 then kset (buffer_index s) 0;; modify (set_index 0)
         else when (buffer_index s <? INPUT_BUFFER_SIZE - 1)
           (kset (buffer_index s) c;; modify (λ s, set_index (buffer_index s + 1) s))) s =
        Ret tt s' ∧ buffer_ok s' ∧ queue s' = enqueue c (queue s) ∧ mach s' = mach s.
Proof.
  intros [Hl Hi]. unfold enqueue, INPUT_BUFFER_SIZE.
  assert (Hq : length (queue s) = Z.to_nat (buffer_index s))
    by (unfold queue; rewrite length_take; lia).
  destruct (c =? 10).
  - rewrite (bind_ret _ _ _ _ _ (kset_ret s (buffer_index s) 0 Hl ltac:(lia))).
    eexists. split; [done|]. split; [|done].
    constructor; cbn; [by rewrite length_insert|lia].
  - rewrite Hq. destruct (Z.ltb_spec (buffer_index s) (256 - 1)); cbn [when].
    + rewrite (bind_ret _ _ _ _ _ (kset_ret s (buffer_index s) c Hl ltac:(lia))).
      eexists. split; [done|].
      split; [constructor; cbn; [by rewrite length_insert|lia]|]. split; [|done].
      rewrite (proj2 (Nat.ltb_lt _ _)) by lia. unfold queue. cbn.
      replace (Z.to_nat (buffer_index s + 1)) with (S (Z.to_nat (buffer_index s))) by lia.
      rewrite (take_S_r _ _ c) by (apply list_lookup_insert_eq; lia).
      by rewrite take_insert_ge by lia.
    + exists s. split; [done|]. split; [done|].
      by rewrite (proj2 (Nat.ltb_ge _ _)) by lia.
Qed.

(** The controller holds a scan code. *)
Definition give (scancode : Z) (s : kbd) : kbd :=
  let i := cio (con (mach s)) in
  set_mach (set_con (set_cio (MkIo (trace i) (scancode :: answers i)) (con (mach s))) (mach s)) s.

(** What the handler does not touch. *)
Definition same_tables (s s' : kbd) : Prop :=
  idt (mach s') = idt (mach s) ∧ idtp (mach s') = idtp (mach s) ∧
  idtr (mach s') = idtr (mach s) ∧
  answers (cio (con (mach s'))) = answers (cio (con (mach s))).

(** Replace the ports of the machine. *)
Definition set_io (i : io) (s : kbd) : kbd :=
  set_mach (set_con (set_cio i (con (mach s))) (mach s)) s.
Definition kio (s : kbd) : io := cio (con (mach s)).

Lemma k_inb_ret port v vs s :
  answers (kio s) = v :: vs →
  k_inb port s = Ret (u8 v) (set_io (MkIo (trace (kio s) ++ [In (u16 port) (u8 v)]) vs) s).
Proof.
  intros E. unfold kio in E.
  unfold k_inb, m_inb, on_con, zoom, inb. rewrite E. done.
Qed.

Lemma kbd_ok_io i s : kbd_ok s → kbd_ok (set_io i s).
Proof. intros [? ? []]. by constructor. Qed.

Lemma kbd_ok_con c s : kbd_ok s → con_wf c → kbd_ok (set_mach (set_con c (mach s)) s).
Proof. intros [? ? ?] ?. by constructor. Qed.

(** The handler, over any property [P] of the screen that printing brings about from [P0] and
    keeps: it stores the key and consumes one scan code. *)
Section handler.
Context (P0 P : console → Prop).
Context (P_io : ∀ i c, P c → P (set_cio i c)).
Context (P_notice : ∀ c, P0 c → ∃ c',
  printk (literal ("first we get it." +:+ nl)) [] c = Ret tt c' ∧ P c').
Context (P_echo : ∀ ch c, is_char ch → P c → ∃ c',
  printk (literal "%c") [VInt ch] c = Ret tt c' ∧ P c').

Lemma k_printk_run format args s c' :
  printk (literal format) args (con (mach s)) = Ret tt c' →
  k_printk format args s = Ret tt (set_mach (set_con c' (mach s)) s) ∧
    answers (cio c') = answers (kio s).
Proof.
  intros E. split; [by apply zoom_ret, zoom_ret|].
  exact (proj1 (keeps_ret _ _ _ _ _ (keeps_printk (literal format) args) E)).
Qed.

Lemma handler_serves sc vs s :
  buffer_ok s → P0 (con (mach s)) → answers (kio s) = sc :: vs →
  ∃ s', keyboard_handler s = Ret tt s' ∧ buffer_ok s' ∧ P (con (mach s')) ∧
    queue s' = press (u8 sc) (queue s) ∧ answers (kio s') = vs ∧
    idt (mach s') = idt (mach s) ∧ idtp (mach s') = idtp (mach s) ∧ idtr (mach s') = idtr (mach s).
Proof.
  intros Hb HP Ha. unfold keyboard_handler. destruct (P_notice _ HP) as (c1 & E1 & H1).
  destruct (k_printk_run _ _ _ _ E1) as [E1' Ha1]. rewrite (bind_ret _ _ _ _ _ E1'). clear E1 E1'.
  set (s1 := set_mach _ s). rewrite Ha in Ha1.
  rewrite (bind_ret _ _ _ _ _ (k_inb_ret _ sc vs s1 Ha1)).
  set (s2 := set_io _ s1). assert (Hb2 : buffer_ok s2) by (by destruct Hb).
  assert (H2 : P (con (mach s2))) by (by apply P_io).
  pose proof (u8_range sc) as Hr. unfold press.
  rewrite testbit7 by lia. destruct (Z.testbit (u8 sc) 7) eqn:Hbit.
  { by exists s2. }
  destruct (scancode_lookup (u8 sc)) as (c & Ec & Hc); [lia|done|lia|].
  rewrite (bind_ret _ _ _ c s2) by (by apply deref_ret). rewrite Ec.
  destruct (c =? 0) eqn:Hc0; cbn [negb when]; [by exists s2|].
  destruct (P_echo c _ Hc H2) as (c3 & E3 & H3).
  destruct (k_printk_run _ _ _ _ E3) as [E3' Ha3]. rewrite (bind_ret _ _ _ _ _ E3'). clear E3 E3'.
  set (s3 := set_mach _ s2). assert (Hb3 : buffer_ok s3) by (by destruct Hb2).
  rewrite bind_get. destruct (store_key c s3 Hb3) as (s' & E & Hb' & Hq' & Hm).
  exists s'. split; [exact E|]. split; [done|]. rewrite Hm, Hq'. split_and!; try done.
  unfold kio. by rewrite Hm.
Qed.
End handler.

Lemma handler_run sc s :
  kbd_ok s →
  ∃ s', keyboard_handler (give sc s) = Ret tt s' ∧ kbd_ok s' ∧
    queue s' = press (u8 sc) (queue s) ∧ same_tables s s'.
Proof.
  intros [Hl Hi Hc].
  assert (Hp : ∀ format args out c, text (chars format) → render (chars format) args = Some out →
    con_wf c → ∃ c', printk (literal format) args c = Ret tt c' ∧ con_wf c').
  { intros format args out c Ht Er Hw.
    destruct (printk_prints format args out c _ (con_wf_shows _ Hw) Ht Er) as (c' & E & _ & H & _).
    by exists c'. }
  destruct (handler_serves con_wf con_wf) with (sc := sc) (vs := answers (kio s)) (s := give sc s)
    as (s' & E & [Hl' Hi'] & Hc' & Hq & Ha & Ht).
  - by intros i c [].
  - intros c Hw. eapply Hp; [is_text|render|done].
  - intros ch c Hch Hw. eapply Hp; [is_text|render|done].
  - done.
  - by destruct Hc.
  - done.
  - exists s'. split; [done|]. split; [done|]. split; [done|].
    destruct Ht as (? & ? & ?). by split_and!.
Qed.

(** Removing the first character: the loop moves the others down by one. *)
Lemma shift_run n s :
  length (input_buffer s) = 256%nat → (n < 256)%nat →
  ∃ b, for_range n 0 (λ i, v ← kget (i + 1); kset i v) s = Ret tt (set_buffer b s) ∧
    length b = 256%nat ∧ take n b = take n (drop 1 (input_buffer s)).
Proof.
  intros Hl Hn.
  destruct (for_range_inv (λ i s', ∃ b, s' = set_buffer b s ∧ length b = 256%nat ∧
    ∀ j, b !! j = if decide (Z.of_nat j < i) then input_buffer s !! S j else input_buffer s !! j)
    n 0 (λ i, v ← kget (i + 1); kset i v) s) as (s' & E & b & -> & Hb & Hv).
  - exists (input_buffer s). split; [by destruct s|]. split; [done|]. intros j.
    rewrite decide_False by lia. done.
  - intros i s' Hi (b & -> & Hb & Hv).
    destruct (lookup_lt_is_Some_2 b (Z.to_nat (i + 1))) as [v Ev]; [lia|].
    rewrite (bind_ret _ _ _ v (set_buffer b s)); last first.
    { apply deref_ret. rewrite (proj2 (Z.leb_le 0 _)) by lia. done. }
    rewrite kset_ret by (done || lia). eexists. split; [done|]. eexists. split; [done|].
    cbn [input_buffer set_buffer]. split; [by rewrite length_insert|].
    intros j. rewrite Hv, decide_False in Ev by lia.
    destruct (decide (j = Z.to_nat i)) as [->|Hj].
    + rewrite list_lookup_insert_eq by lia. rewrite decide_True by lia. rewrite <- Ev. f_equal. lia.
    + rewrite list_lookup_insert_ne, Hv by done.
      destruct (decide (Z.of_nat j < i)), (decide (Z.of_nat j < i + 1)); done || lia.
  - exists b. split; [done|]. split; [done|]. apply list_eq. intros j.
    rewrite !lookup_take. case_decide; [|done]. rewrite lookup_drop, Hv. by rewrite decide_True by lia.
Qed.

Lemma get_key_run s :
  kbd_ok s →
  match queue s with
  | [] => get_key s = Hang s
  | c :: q => ∃ s', get_key s = Ret c s' ∧ kbd_ok s' ∧ queue s' = q ∧ mach s' = mach s
  end.
Proof.
  intros [Hl Hi Hc]. unfold get_key. rewrite bind_get. unfold queue.
  destruct (Z.eqb_spec (buffer_index s) 0) as [->|Hnz]; [done|].
  destruct (input_buffer s) as [|c b] eqn:Eb; [done|].
  replace (Z.to_nat (buffer_index s)) with (S (Z.to_nat (buffer_index s - 1))) by lia.
  cbn [take].
  rewrite (bind_ret _ _ _ c s) by (apply deref_ret; by rewrite Eb).
  rewrite <- Eb in Hl. destruct (shift_run (Z.to_nat (buffer_index s - 1)) s Hl ltac:(lia))
    as (b' & E & Hb' & Ht).
  rewrite (bind_ret _ _ _ _ _ E). eexists. split; [done|].
  split; [constructor; cbn; done || lia|]. split; [|done]. cbn.
  rewrite Ht, Eb. done.
Qed.

(** ** Any sequence of calls *)

Inductive kop : Type := Press (scancode : Z) | Read.

Definition kop_run (o : kop) : M kbd (list Z) :=
  match o with
  | Press sc => modify (give sc);; keyboard_handler;; mret []
  | Read => c ← get_key; mret [c]
  end.
Fixpoint kops_run (ops : list kop) : M kbd (list Z) :=
  match ops with
  | [] => mret []
  | o :: ops' => r ← kop_run o; rs ← kops_run ops'; mret (r ++ rs)
  end.

(** The specification: a queue of at most 255 characters that Enter empties; a read of the
    empty queue waits. *)
Fixpoint fifo_run (ops : list kop) (q : list Z) : option (list Z * list Z) :=
  match ops with
  | [] => Some ([], q)
  | Press sc :: ops' => fifo_run ops' (press (u8 sc) q)
  | Read :: ops' =>
      match q with
      | [] => None
      | c :: q' => '(rs, q'') ← fifo_run ops' q'; Some (c :: rs, q'')
      end
  end.

(** C35: driven by any sequence of key presses and reads that the queue specification accepts,
    the handler and get_key return what the queue returns, in order, stay inside the buffer and
    leave the descriptor table alone. *)
Theorem keyboard_refines_fifo ops s outs q' :
  kbd_ok s → fifo_run ops (queue s) = Some (outs, q') →
  ∃ s', kops_run ops s = Ret outs s' ∧ kbd_ok s' ∧ queue s' = q' ∧ same_tables s s'.
Proof.
  revert s outs. induction ops as [|o ops IH]; intros s outs Hok E.
  { injection E as <- <-. by exists s. }
  destruct o as [sc|]; cbn [fifo_run kops_run kop_run] in *.
  - destruct (handler_run sc s Hok) as (s1 & E1 & Hok1 & Hq1 & Hs1).
    rewrite <- Hq1 in E. destruct (IH s1 outs Hok1 E) as (s2 & E2 & Hok2 & Hq2 & Hs2).
    exists s2. rewrite (bind_ret _ _ s [] s1); last first.
    { rewrite bind_modify. by rewrite (bind_ret _ _ _ _ _ E1). }
    rewrite (bind_ret _ _ _ _ _ E2). unfold same_tables in *. naive_solver congruence.
  - pose proof (get_key_run s Hok) as Hg. destruct (queue s) as [|c q]; [done|].
    destruct Hg as (s1 & E1 & Hok1 & Hq1 & Hm1).
    destruct (fifo_run ops q) as [[rs q'']|] eqn:Er; [|done]. injection E as <- <-.
    rewrite <- Hq1 in Er. destruct (IH s1 rs Hok1 Er) as (s2 & E2 & Hok2 & Hq2 & Hs2).
    exists s2. rewrite (bind_ret _ _ s [c] s1) by (by rewrite (bind_ret _ _ _ _ _ E1)).
    rewrite (bind_ret _ _ _ _ _ E2). unfold same_tables in *. rewrite Hm1 in Hs2. done.
Qed.

Definition boot_kbd (answers : list Z) : kbd :=
  MkKbd (replicate 256 0) 0 (boot_machine answers).

Lemma boot_kbd_ok a : kbd_ok (boot_kbd a).
Proof. constructor; [done|done|]. constructor; cbn [boot_kbd mach boot_machine con]; done. Qed.

Lemma keyboard_refines_fifo_witness :
  fifo_run [Press 0x1e; Press 0x9e; Press 0x30; Read; Press 0x1c; Press 0x2e; Read]
    (queue (boot_kbd [])) = Some (chars "ac", []) ∧
  ∃ s', kops_run [Press 0x1e; Press 0x9e; Press 0x30; Read; Press 0x1c; Press 0x2e; Read]
      (boot_kbd []) = Ret (chars "ac") s' ∧ kbd_ok s' ∧ queue s' = [] ∧
    same_tables (boot_kbd []) s'.
Proof.
  split; [reflexivity|]. apply keyboard_refines_fifo; [apply boot_kbd_ok|reflexivity].
Defined.
