(* ===== verification/Race.v ===== *)
(** * An interrupt during printing (kernel/printk.c with drivers/keyboard.c)

    [strike n p] runs the first [n] accesses of a thread of Thread.v on the machine of the keyboard
    driver, and then the keyboard handler, which is not interrupted itself, since its gate clears
    the interrupt flag. The handler thus starts from a screen that the interrupted [printk] has
    left half-way. What the interrupted code does after the handler has returned is not described:
    the handler is entered from the gate itself, saves no register and leaves the stack with 8
    bytes too many (Delivery.v), so the C code says nothing about it. *)

From Stdlib Require Import Ascii String.
From stdpp Require Import base numbers strings gmap list.
From S2P Require Import Prelude Frame Io CString Console Itoa ConsoleProps Thread Interrupt Keyboard.

Local Open Scope Z_scope.

Definition screen (s : kbd) : console := con (mach s).
Definition at_console {A} (c : M console A) : M kbd A := zoom mach set_mach (on_con c).

Fixpoint strike {A} (n : nat) (p : thread A) : M kbd unit :=
  match n, p with
  | S n', Access m k => x ← at_console m; strike n' (k x)
  | _, _ => keyboard_handler
  end.

(** ** The handler from a cursor beyond the screen *)

Lemma put_all_recovers c out s :
  within 80 25 s → ∃ s', put_all (c :: out) s = Ret tt s' ∧ within 79 24 s'.
Proof.
  revert c s. induction out as [|c' out IH]; intros c s Hs;
    destruct (vga_putc_recovers c s Hs) as (s1 & E1 & H1).
  - exists s1. by rewrite <- (puts_char c).
  - change (put_all (c :: c' :: out)) with (vga_putc c;; put_all (c' :: out)).
    rewrite (bind_ret _ _ _ _ _ E1). apply IH. eapply within_weaken; [done|lia..].
Qed.

Lemma printk_recovers format args out s :
  text (chars format) → render (chars format) args = Some out → out ≠ [] → within 80 25 s →
  ∃ s', printk (literal format) args s = Ret tt s' ∧ within 79 24 s'.
Proof.
  intros Ht Er Hne Hs. destruct out as [|c out]; [done|].
  destruct (put_all_recovers c out s Hs) as (s1 & E1 & H1).
  rewrite <- (puts_printk (chars format) [] args _ Ht Er) in E1.
  unfold printk, literal. rewrite (bind_ret _ _ _ _ _ E1). by apply move_cursor_within.
Qed.

Lemma handler_recovers sc vs s :
  buffer_ok s → within 80 25 (screen s) → answers (kio s) = sc :: vs →
  ∃ s', keyboard_handler s = Ret tt s' ∧ buffer_ok s' ∧ within 79 24 (screen s') ∧
    queue s' = press (u8 sc) (queue s) ∧ answers (kio s') = vs.
Proof.
  intros Hb Hs Ha.
  destruct (handler_serves (within 80 25) (within 79 24)) with (sc := sc) (vs := vs) (s := s)
    as (s' & E & Hb' & H' & Hq & Ha' & _); try done.
  - intros c Hc. eapply printk_recovers; [is_text|render|done|done].
  - intros ch c _ Hc. eapply printk_recovers; [is_text|render|done|].
    eapply within_weaken; [done|lia..].
  - by exists s'.
Qed.

(** ** The screen an interrupt finds *)

(** An assertion from which the handler is safe. *)
Definition edge (P : console → Prop) : Prop := ∀ c, P c → within 80 25 c.

Lemma within_edge X Y : X <= 80 → Y <= 25 → edge (within X Y).
Proof. intros HX HY c Hc. eapply within_weaken; [done|lia..]. Qed.

Lemma safe_putc_edge c : safe edge (within 79 24) (putc_thread c) (λ _, within 79 24).
Proof.
  destruct (decide (c = 8)) as [->|].
  - unfold putc_thread. eapply safe_bind; [apply (safe_backspace edge 79 24)|intros []]; [lia|lia| |].
    + intros P HP s Hs. apply (within_edge 79 24); [lia|lia|]. by apply HP.
    + eapply safe_weaken; [apply (safe_settle edge 79 24); [lia|lia|]|].
      * intros X Y HX HY. apply within_edge; lia.
      * intros s Hs. eapply within_weaken; [done|lia..].
  - apply (safe_putc edge 79 24); [lia|lia| |done]. intros X Y HX HY. apply within_edge; lia.
Qed.

Lemma safe_text t : safe edge (within 79 24) (text_thread t) (λ _, within 79 24).
Proof.
  induction t as [|c t IH]; [apply safe_move_cursor, within_edge; lia|].
  cbn [text_thread]. apply safe_bind with (λ _, within 79 24); [apply safe_putc_edge|intros []; apply IH].
Qed.

(** One access of a thread on the machine: the rest of the thread is safe again, the screen apart
    nothing changes. *)
Lemma access_safe {X : Set} {A} P (m : M console X) (k : X → thread A) Q s :
  safe edge P (Access m k) Q → P (screen s) →
  ∃ x c P', at_console m s = Ret x (set_mach (set_con c (mach s)) s) ∧ m (screen s) = Ret x c ∧
    answers (cio c) = answers (kio s) ∧ safe edge P' (k x) Q ∧ P' c.
Proof.
  intros (R & φ & P' & HR & _ & Hm & Hk) HP. destruct (Hm (screen s) (HR _ HP)) as (x & c & E & Ha & Hx & H').
  exists x, c, (P' x). split; [by apply zoom_ret, zoom_ret|]. split_and!; try done. by apply Hk.
Qed.

(** What an interrupt finds between two accesses, and after the last. *)
Lemma safe_edge {A} P (p : thread A) c :
  safe edge P p (λ _, within 79 24) → P c → within 80 25 c.
Proof.
  destruct p as [a|X m k]; intros Hp HP.
  - apply (within_edge 79 24); [lia|lia|]. by apply Hp.
  - destruct Hp as (R & _ & _ & HR & HG & _). by apply HG, HR.
Qed.

Lemma strike_safe {A} n P (p : thread A) s sc vs :
  safe edge P p (λ _, within 79 24) → buffer_ok s → P (screen s) → answers (kio s) = sc :: vs →
  ∃ s', strike n p s = Ret tt s' ∧ buffer_ok s' ∧ within 79 24 (screen s') ∧
    queue s' = press (u8 sc) (queue s) ∧ answers (kio s') = vs.
Proof.
  revert P p s. induction n as [|n IH]; intros P p s Hp Hb HP Ha.
  { apply handler_recovers; [done| |done]. by eapply safe_edge. }
  destruct p as [a|X m k].
  { apply handler_recovers; [done| |done]. by apply (safe_edge P (Done a)). }
  destruct (access_safe P m k _ s Hp HP) as (x & c & P' & E & _ & Hac & Hk & Hc).
  cbn [strike]. rewrite (bind_ret _ _ _ _ _ E). set (s1 := set_mach _ s) in *.
  change (queue s) with (queue s1). apply (IH P'); [done|by destruct Hb|done|by rewrite <- Ha].
Qed.

(** C31: Whatever [printk] prints and wherever between its accesses to memory and ports a keyboard
    interrupt comes: the accesses up to there are those of [printk], they and the handler return,
    none of them leaves a video memory of 26 rows and one cell, and when the handler is done the
    cursor is on the screen, the key is in the queue and one scan code has been read. *)
Theorem printk_interrupted format tail args out n s sc vs :
  text format → render format args = Some out →
  buffer_ok s → within 79 24 (screen s) → answers (kio s) = sc :: vs →
  (∀ c, run (text_thread out) c = printk (format ++ 0 :: tail) args c) ∧
  ∃ s', strike n (text_thread out) s = Ret tt s' ∧ buffer_ok s' ∧ within 79 24 (screen s') ∧
    queue s' = press (u8 sc) (queue s) ∧ answers (kio s') = vs.
Proof.
  intros Ht Er Hb Hs Ha. split; [intros c; by apply printk_thread|].
  eapply strike_safe; [apply safe_text|done|done|done].
Qed.

(** A machine with [n] bytes of blank video memory and the given cursor and scan codes. *)
Definition machine_at (n : nat) (x y : Z) (codes : list Z) : kbd :=
  MkKbd (replicate 256 0) 0
    (MkMachine [] (MkIdtPtr 0 0) None (MkConsole (replicate n 32) x y (MkIo [] codes))).

(** A backspace in the last column, struck after its fourth access. *)
Lemma printk_interrupted_witness :
  ∃ s', strike 4 (text_thread (chars "a12" ++ [8; 10])) (machine_at 4162 79 24 [0x1e; 0x9e]) =
      Ret tt s' ∧
    within 79 24 (screen s') ∧ queue s' = chars "a".
Proof.
  destruct (printk_interrupted (chars ("a%d%c" +:+ nl)) [] [VInt 12; VInt 8] (chars "a12" ++ [8; 10])
    4 (machine_at 4162 79 24 [0x1e; 0x9e]) 0x1e [0x9e]) as (_ & s' & E & _ & Hs & Hq & _).
  - is_text.
  - vm_compute. reflexivity.
  - split; [reflexivity|split; discriminate].
  - unfold within. cbn. lia.
  - reflexivity.
  - exists s'. exact (conj E (conj Hs Hq)).
Defined.

(** ** What an interrupt does break *)

(** The handler writes the byte after the 4000 of the screen when it comes between
    [cursor_x++] at the last cell and the test that follows. *)
Lemma handler_overruns s :
  length (vram (screen s)) = 4000%nat → cursor_x (screen s) = 80 → cursor_y (screen s) = 24 →
  keyboard_handler s = Fault.
Proof.
  intros Hl Hx Hy. unfold keyboard_handler. apply bind_fault.
  assert (E : vga_putc (chr "f") (screen s) = Fault).
  { unfold vga_putc. apply bind_fault. change (chr "f" =? 10) with false.
    change (chr "f" =? 8) with false. cbv iota. rewrite bind_get. apply bind_fault.
    rewrite Hx, Hy. unfold vset. by rewrite Hl. }
  unfold k_printk, m_printk, on_con, zoom. fold (screen s).
  set (t := chars (String.substring 1 16 ("first we get it." +:+ nl)) ++ [0]).
  change (printk (literal ("first we get it." +:+ nl)) [] (screen s)) with
    (((vga_putc (chr "f");; printk_loop t []);; move_cursor) (screen s)).
  rewrite <- assoc_seq. by rewrite (bind_fault _ _ _ E).
Qed.

(** An access before the interrupt. *)
Lemma strike_access {X : Set} {A} n (m : M console X) (k : X → thread A) s x c :
  m (screen s) = Ret x c →
  strike (S n) (Access m k) s = strike n (k x) (set_mach (set_con c (mach s)) s).
Proof.
  intros E. cbn [strike].
  by rewrite (bind_ret (at_console m) _ _ x (set_mach (set_con c (mach s)) s))
    by (by apply zoom_ret, zoom_ret).
Qed.

(** With the 4000 bytes of the screen alone the handler does leave the video memory. *)
Theorem putc_strike_overruns c s :
  c ≠ 10 → c ≠ 8 → con_wf (screen s) → cursor_x (screen s) = 79 → cursor_y (screen s) = 24 →
  strike 6 (putc_thread c) s = Fault.
Proof.
  intros H10 H8 [Hl _ _] Hx Hy. unfold putc_thread.
  rewrite (proj2 (Z.eqb_neq _ _) H10), (proj2 (Z.eqb_neq _ _) H8).
  destruct s as [b j [it ip ir [v x y i]]]. cbn in Hl, Hx, Hy. subst x y.
  do 2 (etransitivity; [eapply strike_access; reflexivity|]).
  etransitivity; [eapply strike_access, vset_ret; done|].
  etransitivity; [eapply strike_access, vset_ret; [cbn; by rewrite length_insert|done]|].
  do 2 (etransitivity; [eapply strike_access; reflexivity|]).
  apply handler_overruns; cbn; by rewrite ?length_insert.
Qed.
