(* ===== verification/KeyboardInit.v ===== *)
(** * Enabling the keyboard (drivers/keyboard.c)

    [keyboard_init] and [try_enable_keyboard] against the documented rules of the keyboard
    controller: the data port is read only after the status says that a byte waits (bit 0), and
    a port is written only after it says that the input buffer is free (bit 1). The rules are an
    automaton over the port events ([i8042]), the proof a Hoare logic over its states. *)

From Stdlib Require Import Ascii String.
From stdpp Require Import base numbers strings gmap list.
From S2P Require Import Prelude Io CString Console Itoa ConsoleProps Interrupt Keyboard.

Local Open Scope Z_scope.

(** What is known of the status register: nothing, or its last value; [None] after a violation. *)
Definition i8042_state : Type := option (option Z).

Definition i8042_step (a : i8042_state) (e : event) : i8042_state :=
  match a with
  | None => None
  | Some st =>
      match e with
      | In 0x64 v => Some (Some v)
      | In 0x60 _ =>
          match st with
          | Some v => if Z.testbit v 0 then Some None else None
          | None => None
          end
      | Out 0x60 _ | Out 0x64 _ =>
          match st with
          | Some v => if Z.testbit v 1 then None else Some None
          | None => None
          end
      | _ => Some st
      end
  end.
Definition i8042 (a : i8042_state) (tr : list event) : i8042_state := foldl i8042_step a tr.

Lemma i8042_quiet a evs : Forall cursor_event evs → i8042 a evs = a.
Proof.
  induction 1 as [|e evs He _ IH]; [done|]. cbn. replace (i8042_step a e) with a; [done|].
  destruct e as [port v|]; [|done]. destruct a; [|done]. by destruct He as [->| ->].
Qed.

(** ** A logic of controller states

    [triple P c Q]: started well-formed in a controller state satisfying [P], [c] does not fault,
    and when it returns the state satisfies [Q]. It may wait for an answer that has not come
    ([Hang]); the rules were kept up to there. *)

(** What polling leaves alone: the descriptor table and the interrupt controllers. *)
Definition same_devices (s s' : kbd) : Prop :=
  idt (mach s') = idt (mach s) ∧ idtp (mach s') = idtp (mach s) ∧
  idtr (mach s') = idtr (mach s) ∧
  ∀ p, pic_after p (trace (kio s')) = pic_after p (trace (kio s)).

#[export] Instance same_devices_preorder : PreOrder same_devices.
Proof.
  split; [done|]. intros s1 s2 s3 (? & ? & ? & E) (? & ? & ? & E').
  split_and!; congruence.
Qed.

Definition clean (a : i8042_state) : Prop := is_Some a.

Definition triple {A} (P : i8042_state → Prop) (c : M kbd A) (Q : A → i8042_state → Prop) : Prop :=
  ∀ s a0, kbd_ok s → P (i8042 a0 (trace (kio s))) →
    match c s with
    | Ret a s' => kbd_ok s' ∧ same_devices s s' ∧ Q a (i8042 a0 (trace (kio s')))
    | Hang s' => kbd_ok s' ∧ same_devices s s' ∧ clean (i8042 a0 (trace (kio s')))
    | _ => False
    end.

Lemma triple_bind {A B} P (c : M kbd A) (f : A → M kbd B) R Q :
  triple P c R → (∀ a, triple (R a) (f a) Q) → triple P (c ≫= f) Q.
Proof.
  intros Hc Hf s a0 Hok HP. unfold mbind, M_bind. specialize (Hc s a0 Hok HP).
  destruct (c s) as [a s'| | | |]; try done. destruct Hc as (Hok' & Hd & HR).
  specialize (Hf a s' a0 Hok' HR).
  destruct (f a s'); try done; destruct Hf as (? & ? & ?); (split_and!; [done|by etrans|done]).
Qed.

Lemma triple_ret {A} (a : A) (Q : A → i8042_state → Prop) : triple (Q a) (mret a) Q.
Proof. intros s a0 Hok HP. by split_and!. Qed.

Lemma triple_conseq {A} (P P' : i8042_state → Prop) (c : M kbd A) Q Q' :
  triple P c Q → (∀ a, P' a → P a) → (∀ r a, Q r a → Q' r a) → triple P' c Q'.
Proof.
  intros Hc HP HQ s a0 Hok H. specialize (Hc s a0 Hok (HP _ H)).
  destruct (c s); naive_solver.
Qed.

Lemma triple_if {A} P (b : bool) (c d : M kbd A) Q :
  triple P c Q → triple P d Q → triple P (if b then c else d) Q.
Proof. by destruct b. Qed.

Lemma i8042_snoc a tr e : i8042 a (tr ++ [e]) = i8042_step (i8042 a tr) e.
Proof. unfold i8042. by rewrite foldl_app. Qed.

(** Reading a port: the value is the device's. *)
Lemma k_inb_waits port s : answers (kio s) = [] → k_inb port s = Hang s.
Proof.
  destruct s as [? ? [? ? ? [? ? ? [? ans]]]]. unfold kio. cbn. intros ->. done.
Qed.

Lemma triple_inb port (P : i8042_state → Prop) (Q : Z → i8042_state → Prop) :
  (∀ a, P a → clean a) → (∀ a v, 0 <= v <= 255 → P a → Q v (i8042_step a (In (u16 port) v))) →
  triple P (k_inb port) Q.
Proof.
  intros Hcl H s a0 Hok HP. destruct (answers (kio s)) as [|v vs] eqn:E.
  - rewrite k_inb_waits by done. split_and!; [done|done|by apply Hcl].
  - rewrite (k_inb_ret _ v vs s E). split; [by apply kbd_ok_io|]. unfold kio, set_io. cbn.
    split; [|rewrite i8042_snoc; apply H; [apply u8_range|done]].
    split_and!; try done. intros p. unfold kio, pic_after. cbn. by rewrite foldl_app.
Qed.

Lemma triple_outb port v (P : i8042_state → Prop) (Q : unit → i8042_state → Prop) :
  u16 port = 0x60 ∨ u16 port = 0x64 →
  (∀ a, P a → Q tt (i8042_step a (Out (u16 port) (u8 v)))) → triple P (k_outb port v) Q.
Proof.
  intros Hp H s a0 Hok HP. cbn.
  split; [destruct Hok as [? ? []]; by constructor|]. unfold kio. cbn.
  split; [|rewrite i8042_snoc; by apply H].
  split_and!; try done. intros p. unfold kio, pic_after. cbn. rewrite foldl_app. cbn.
  by destruct Hp as [-> | ->].
Qed.

Lemma triple_printk format args out (P : i8042_state → Prop) :
  text (chars format) → render (chars format) args = Some out →
  triple P (k_printk format args) (λ _, P).
Proof.
  intros Ht Er s a0 Hok HP.
  destruct (k_printk_ret format args out s) as (c' & E & Hw & _ & evs & Htr & Hq);
    [by destruct Hok|done|done|].
  rewrite E. clear E. split; [by apply kbd_ok_con|]. unfold kio. cbn. split.
  - split_and!; try done. intros p. unfold kio. cbn. rewrite Htr.
    unfold pic_after. rewrite foldl_app. by apply pic_after_quiet.
  - rewrite Htr. unfold i8042. rewrite foldl_app.
    change (P (i8042 (i8042 a0 (trace (kio s))) evs)). by rewrite i8042_quiet.
Qed.

(** ** The polling loops *)

Definition status (p : Z → Prop) (a : i8042_state) : Prop := ∃ v, a = Some (Some v) ∧ p v.

(** Each turn consumes an answer, so a fuel above their number is enough. *)
Lemma poll_protocol fuel again s a0 :
  (length (answers (kio s)) < fuel)%nat → kbd_ok s → clean (i8042 a0 (trace (kio s))) →
  match poll fuel 0x64 again s with
  | Ret _ s' => kbd_ok s' ∧ same_devices s s' ∧
      status (λ v, 0 <= v <= 255 ∧ again v = false) (i8042 a0 (trace (kio s')))
  | Hang s' => kbd_ok s' ∧ same_devices s s' ∧ clean (i8042 a0 (trace (kio s')))
  | _ => False
  end.
Proof.
  revert s. induction fuel as [|f IH]; intros s Hf Hok Hc; [lia|]. cbn [poll].
  pose proof (triple_inb 0x64 clean (λ v a, a = Some (Some v) ∧ 0 <= v <= 255)
    ltac:(done) ltac:(by intros a v Hv [st ->]) s a0 Hok Hc) as H.
  destruct (answers (kio s)) as [|v vs] eqn:E.
  { unfold mbind, M_bind. by rewrite k_inb_waits in H |- *. }
  rewrite (k_inb_ret _ v vs s E) in H. rewrite (bind_ret _ _ _ _ _ (k_inb_ret _ v vs s E)).
  set (s1 := set_io _ s) in *. destruct H as (Hok1 & Hd1 & Ha & Hv).
  destruct (again (u8 v)) eqn:Eb.
  - assert (length (answers (kio s1)) < f)%nat as Hf1 by (cbn in Hf |- *; lia).
    specialize (IH s1 Hf1 Hok1 ltac:(by eexists)).
    destruct (poll f 0x64 again s1); try done; destruct IH as (? & ? & ?);
      (split_and!; [done|by etrans|done]).
  - split_and!; [done|done|]. by exists (u8 v).
Qed.

(** The tests of the code are the bits of the status. *)
Lemma status_bits v :
  0 <= v <= 255 →
  (Z.land v 0x01 =? 0) = negb (Z.testbit v 0) ∧ negb (Z.land v 0x02 =? 0) = Z.testbit v 1.
Proof.
  intros Hv. assert (E : ∀ y, y ∈ seqZ 0 256 →
    (Z.land y 0x01 =? 0) = negb (Z.testbit y 0) ∧ negb (Z.land y 0x02 =? 0) = Z.testbit y 1).
  { apply Forall_forall. vm_compute. repeat constructor. }
  apply E, elem_of_seqZ. lia.
Qed.

Lemma triple_wait_output : triple clean wait_output (λ _, status (λ v, Z.testbit v 0 = true)).
Proof.
  intros s a0 Hok HP.
  pose proof (poll_protocol (fuel_left s) (λ v, Z.land v 0x01 =? 0) s a0
    (Nat.lt_succ_diag_r _) Hok HP) as H.
  unfold wait_output. destruct (poll _ _ _ s); try done.
  destruct H as (? & ? & v & E & Hv & Hz). split_and!; [done..|]. exists v. split; [done|].
  destruct (status_bits v Hv) as [Eb _]. rewrite Eb in Hz. by destruct (Z.testbit v 0).
Qed.

Lemma triple_wait_input : triple clean wait_input (λ _, status (λ v, Z.testbit v 1 = false)).
Proof.
  intros s a0 Hok HP.
  pose proof (poll_protocol (fuel_left s) (λ v, negb (Z.land v 0x02 =? 0)) s a0
    (Nat.lt_succ_diag_r _) Hok HP) as H.
  unfold wait_input. destruct (poll _ _ _ s); try done.
  destruct H as (? & ? & v & E & Hv & Hz). split_and!; [done..|]. exists v. split; [done|].
  destruct (status_bits v Hv) as [_ Eb]. by rewrite Eb in Hz.
Qed.

Lemma triple_read_data : triple (status (λ v, Z.testbit v 0 = true)) (k_inb 0x60) (λ _, clean).
Proof.
  apply triple_inb; [intros a (w & -> & _); by eexists|].
  intros a v _ (w & -> & Hw). cbn -[Z.testbit]. rewrite Hw. by eexists.
Qed.

Lemma triple_command port v :
  u16 port = 0x60 ∨ u16 port = 0x64 →
  triple (status (λ v, Z.testbit v 1 = false)) (k_outb port v) (λ _, clean).
Proof.
  intros Hp. apply triple_outb; [done|]. intros a (w & -> & Hw).
  destruct Hp as [-> | ->]; cbn -[Z.testbit]; rewrite Hw; by eexists.
Qed.

#[export] Hint Resolve triple_wait_output triple_wait_input triple_read_data : kernel.

(** ** The two functions *)

Lemma triple_resend : triple clean resend (λ _, clean).
Proof.
  unfold resend. eapply triple_bind; [apply triple_wait_input|intros []; cbv beta].
  eapply triple_bind; [apply triple_command; by left|intros []; cbv beta].
  eapply triple_bind; [apply triple_wait_output|intros []; cbv beta].
  eapply triple_bind; [apply triple_read_data|intros ack].
  eapply triple_conseq; [apply (triple_ret (ack =? 0xFA) (λ _, clean))|done|done].
Qed.

Lemma triple_resends n i : triple clean (find_range n i (λ _, resend)) (λ _, clean).
Proof.
  revert i. induction n as [|n IH]; intros i; cbn [find_range].
  - apply (triple_ret None (λ _, clean)).
  - eapply triple_bind; [apply triple_resend|]. intros b. apply triple_if; [|apply IH].
    apply (triple_ret (Some i) (λ _, clean)).
Qed.

Lemma triple_try_enable : triple clean try_enable_keyboard (λ r a, clean a ∧ (r = 0 ∨ r = -1)).
Proof.
  assert (Hret : ∀ r, r = 0 ∨ r = -1 →
    triple clean (mret r) (λ r a, clean a ∧ (r = 0 ∨ r = -1))).
  { intros r Hr s a0 Hok HP. by split_and!. }
  unfold try_enable_keyboard. eapply triple_bind; [apply triple_wait_output|intros []; cbv beta].
  eapply triple_bind; [apply triple_read_data|intros ack].
  apply triple_if; [auto|]. apply triple_if; [|auto].
  eapply (triple_bind _ _ _ (λ _, clean)).
  - apply triple_resends.
  - intros r. apply Hret. destruct r; auto.
Qed.

(** [keyboard_init] after the registration. *)
Definition enable_keyboard : M kbd unit :=
  wait_input;;
  k_outb 0x64 0xD4;;
  wait_input;;
  k_outb 0x60 0xF4;;
  r ← try_enable_keyboard;
  if r =? 0 then k_printk ("Keyboard initialized." +:+ nl) []
  else k_printk ("Failed to enable keyboard scanning." +:+ nl) [].

Lemma triple_enable_keyboard : triple clean enable_keyboard (λ _, clean).
Proof.
  eapply triple_bind; [apply triple_wait_input|intros []; cbv beta].
  eapply triple_bind; [apply triple_command; by right|intros []; cbv beta].
  eapply triple_bind; [apply triple_wait_input|intros []; cbv beta].
  eapply triple_bind; [apply triple_command; by left|intros []; cbv beta].
  eapply triple_bind; [apply triple_try_enable|intros r].
  apply (triple_conseq clean _ _ (λ _, clean)); [|by intros a [? _]|done].
  apply triple_if; (eapply triple_printk; [is_text|render]).
Qed.

(** The registration, then polling that leaves the table alone. *)
Lemma keyboard_init_inv h s a0 :
  kbd_ok s → idt_wf (mach s) → is_Some (i8042 a0 (trace (kio s))) →
  match keyboard_init h s with
  | Ret _ s' => kbd_ok s' ∧ is_Some (i8042 a0 (trace (kio s'))) ∧
      same_devices (set_mach (set_idt (write_bytes (idt (mach s)) (Z.to_nat (8 * 33))
        (gate_bytes h)) (mach s)) s) s'
  | Hang s' => kbd_ok s' ∧ is_Some (i8042 a0 (trace (kio s'))) ∧
      same_devices (set_mach (set_idt (write_bytes (idt (mach s)) (Z.to_nat (8 * 33))
        (gate_bytes h)) (mach s)) s) s'
  | _ => False
  end.
Proof.
  intros Hok Hidt H. unfold keyboard_init.
  rewrite (bind_ret _ _ _ _ _ (zoom_ret mach set_mach _ s tt _
    (register_run 33 h (mach s) Hidt ltac:(lia)))).
  set (s1 := set_mach _ s).
  assert (Hok1 : kbd_ok s1) by (destruct Hok as [? ? []]; by constructor).
  pose proof (triple_enable_keyboard s1 a0 Hok1 H) as Ht. unfold enable_keyboard in Ht.
  lazymatch type of Ht with match ?o with _ => _ end => destruct o; naive_solver end.
Qed.

(** C39: whatever the keyboard controller answers and however far the run gets, keyboard_init
    keeps the controller's rules: every read of the data port follows a status read with bit 0
    set, and every write follows one with bit 1 clear. It never faults; it returns, or it still
    waits for an answer, and in both cases the rules were kept by all its accesses, and the
    buffer, the screen and the descriptor table are well formed. *)
Theorem keyboard_init_protocol h s :
  kbd_ok s → idt_wf (mach s) → is_Some (i8042 (Some None) (trace (kio s))) →
  ∃ s', (keyboard_init h s = Ret tt s' ∨ keyboard_init h s = Hang s') ∧
    kbd_ok s' ∧ idt_wf (mach s') ∧ is_Some (i8042 (Some None) (trace (kio s'))).
Proof.
  intros Hok Hidt H. pose proof (keyboard_init_inv h s (Some None) Hok Hidt H) as Hi.
  destruct (keyboard_init h s) as [[] s'| |s'| |]; try done;
    (exists s'; split; [auto|]; destruct Hi as (? & ? & E & _); split_and!; try done;
     unfold idt_wf; rewrite E; cbn [mach set_mach idt set_idt]; by rewrite write_bytes_length).
Qed.

(** A run that ends, with two commands, and the same run cut short while it polls. *)
Lemma keyboard_init_protocol_witness :
  (∃ s', keyboard_init 0x100000 (boot_kbd [0; 2; 0; 1; 0xFE; 0; 0; 1; 0xFA]) = Ret tt s' ∧
     is_Some (i8042 (Some None) (trace (kio s')))) ∧
  ∃ s', keyboard_init 0x100000 (boot_kbd [0; 2; 0; 1; 0xFE]) = Hang s' ∧
    trace (kio s') = [In 0x64 0; Out 0x64 0xD4; In 0x64 2; In 0x64 0; Out 0x60 0xF4;
                      In 0x64 1; In 0x60 0xFE] ∧
    is_Some (i8042 (Some None) (trace (kio s'))).
Proof.
  split.
  - destruct (keyboard_init_protocol 0x100000 (boot_kbd [0; 2; 0; 1; 0xFE; 0; 0; 1; 0xFA]))
      as (s' & [E|E] & _ & _ & H); [apply boot_kbd_ok|reflexivity|eexists; reflexivity
      |exists s'; exact (conj E H)|].
    assert (returns (keyboard_init 0x100000 (boot_kbd [0; 2; 0; 1; 0xFE; 0; 0; 1; 0xFA])) = true)
      as Hr by (vm_compute; reflexivity). rewrite E in Hr. discriminate Hr.
  - destruct (keyboard_init_protocol 0x100000 (boot_kbd [0; 2; 0; 1; 0xFE]))
      as (s' & Hs & _ & _ & H); [apply boot_kbd_ok|reflexivity|eexists; reflexivity|].
    assert (match keyboard_init 0x100000 (boot_kbd [0; 2; 0; 1; 0xFE]) with
      | Hang t => bool_decide (trace (kio t) = [In 0x64 0; Out 0x64 0xD4; In 0x64 2; In 0x64 0;
          Out 0x60 0xF4; In 0x64 1; In 0x60 0xFE]) | _ => false end = true) as Hr
      by (vm_compute; reflexivity).
    destruct Hs as [E|E]; rewrite E in Hr; [discriminate Hr|]. exists s'.
    exact (conj E (conj (bool_decide_unpack _ (Is_true_true_2 _ Hr)) H)).
Defined.

(** ** A device that answers

    One exchange with the controller: some status reads with the input buffer busy, one with it
    free, then the command; some with nothing to read, one with a byte waiting, the byte. *)

Definition busy (v : Z) : bool := negb (Z.land (u8 v) 0x02 =? 0).
Definition empty (v : Z) : bool := Z.land (u8 v) 0x01 =? 0.

Record reply : Type := MkReply {
  r_busy : list Z; r_free : Z; r_empty : list Z; r_full : Z; r_ack : Z;
}.

Definition reply_ok (r : reply) : Prop :=
  Forall (λ v, busy v = true) (r_busy r) ∧ busy (r_free r) = false ∧
  Forall (λ v, empty v = true) (r_empty r) ∧ empty (r_full r) = false.
Definition reply_answers (r : reply) : list Z :=
  (r_busy r ++ [r_free r]) ++ (r_empty r ++ [r_full r]) ++ [r_ack r].

Definition reads (port : Z) (l : list Z) : list event := (λ v, In (u16 port) (u8 v)) <$> l.
Definition reply_events (r : reply) : list event :=
  reads 0x64 (r_busy r ++ [r_free r]) ++ [Out 0x60 0xF4] ++
  reads 0x64 (r_empty r ++ [r_full r]) ++ reads 0x60 [r_ack r].

(** The ports after the accesses [evs], with the answers [rest] left. *)
Definition ports (evs : list event) (rest : list Z) (s : kbd) : kbd :=
  set_io (MkIo (trace (kio s) ++ evs) rest) s.

Lemma ports_app e e' r r' s : ports e' r' (ports e r s) = ports (e ++ e') r' s.
Proof. unfold ports, set_io, kio. cbn. by rewrite app_assoc. Qed.

Lemma k_outb_ports port v e r s :
  k_outb port v (ports e r s) = Ret tt (ports (e ++ [Out (u16 port) (u8 v)]) r s).
Proof. unfold ports, set_io, kio, k_outb. cbn. by rewrite app_assoc. Qed.

Lemma k_inb_ports port v e r s :
  k_inb port (ports e (v :: r) s) = Ret (u8 v) (ports (e ++ reads port [v]) r s).
Proof. rewrite (k_inb_ret _ v r) by done. unfold ports, set_io, kio. cbn. by rewrite app_assoc. Qed.

Lemma poll_ports fuel port again w v e r s :
  Forall (λ x, again (u8 x) = true) w → again (u8 v) = false → (length w < fuel)%nat →
  poll fuel port again (ports e ((w ++ [v]) ++ r) s) =
    Ret tt (ports (e ++ reads port (w ++ [v])) r s).
Proof.
  intros Hw Hv. revert e fuel. induction Hw as [|x w Hx Hw IH]; intros e [|f] Hf; try (cbn in *; lia).
  - cbn [poll app]. rewrite (bind_ret _ _ _ _ _ (k_inb_ports port v e r s)). by rewrite Hv.
  - cbn [poll app]. rewrite (bind_ret _ _ _ _ _ (k_inb_ports port x e _ s)). rewrite Hx.
    rewrite IH by (cbn in Hf; lia). by rewrite <- app_assoc.
Qed.

Lemma wait_input_ports w v e r s :
  Forall (λ x, busy x = true) w → busy v = false →
  wait_input (ports e ((w ++ [v]) ++ r) s) = Ret tt (ports (e ++ reads 0x64 (w ++ [v])) r s).
Proof.
  intros Hw Hv. unfold wait_input. apply poll_ports; [done|done|].
  unfold fuel_left. cbn. rewrite !length_app. lia.
Qed.

Lemma wait_output_ports w v e r s :
  Forall (λ x, empty x = true) w → empty v = false →
  wait_output (ports e ((w ++ [v]) ++ r) s) = Ret tt (ports (e ++ reads 0x64 (w ++ [v])) r s).
Proof.
  intros Hw Hv. unfold wait_output. apply poll_ports; [done|done|].
  unfold fuel_left. cbn. rewrite !length_app. lia.
Qed.

(** An exchange, with whatever follows it. *)
Lemma exchange_run {A} (k : Z → M kbd A) r e rest s :
  reply_ok r →
  (wait_input;; k_outb 0x60 0xF4;; wait_output;; ack ← k_inb 0x60; k ack)
    (ports e (reply_answers r ++ rest) s) =
  k (u8 (r_ack r)) (ports (e ++ reply_events r) rest s).
Proof.
  intros (H1 & H2 & H3 & H4). unfold reply_answers. rewrite <- !(app_assoc (_ ++ [r_free r])).
  rewrite (bind_ret _ _ _ _ _ (wait_input_ports _ _ _ _ _ H1 H2)).
  rewrite (bind_ret _ _ _ _ _ (k_outb_ports _ _ _ _ _)).
  rewrite <- !(app_assoc (r_empty r ++ _)).
  rewrite (bind_ret _ _ _ _ _ (wait_output_ports _ _ _ _ _ H3 H4)). cbn [app].
  rewrite (bind_ret _ _ _ _ _ (k_inb_ports _ _ _ _ _)).
  unfold reply_events. rewrite <- !app_assoc. done.
Qed.

Lemma resend_run r e rest s :
  reply_ok r →
  resend (ports e (reply_answers r ++ rest) s) =
    Ret (u8 (r_ack r) =? 0xFA) (ports (e ++ reply_events r) rest s).
Proof. intros Hr. apply (exchange_run (λ ack, mret (ack =? 0xFA))), Hr. Qed.

(** How many exchanges are used and whether one is acknowledged, from the bytes returned. *)
Fixpoint resends (n : nat) (acks : list Z) : nat * bool :=
  match n, acks with
  | S n', a :: acks' =>
      if u8 a =? 0xFA then (1%nat, true)
      else let '(k, b) := resends n' acks' in (S k, b)
  | _, _ => (0%nat, false)
  end.
Definition enabling (acks : list Z) : nat * bool :=
  match acks with
  | a :: acks' =>
      if u8 a =? 0xFA then (1%nat, true)
      else if u8 a =? 0xFE then let '(k, b) := resends 3 acks' in (S k, b)
      else (1%nat, false)
  | [] => (0%nat, false)
  end.

Lemma resends_run n i rs e rest s :
  Forall reply_ok rs → (n <= length rs)%nat →
  let '(k, b) := resends n (r_ack <$> rs) in
  ∃ j, find_range n i (λ _, resend) (ports e (concat (reply_answers <$> rs) ++ rest) s) =
    Ret (if b then Some j else None)
      (ports (e ++ concat (reply_events <$> take k rs))
             (concat (reply_answers <$> drop k rs) ++ rest) s).
Proof.
  intros Hrs. revert n i e. induction Hrs as [|r rs Hr Hrs IH]; intros [|n] i e Hn;
    try (cbn in Hn; lia); cbn [resends fmap list_fmap].
  - exists 0. cbn. by rewrite app_nil_r.
  - exists 0. cbn [take drop fmap list_fmap concat]. rewrite app_nil_r. done.
  - cbn [find_range concat]. rewrite <- app_assoc.
    rewrite (bind_ret _ _ _ _ _ (resend_run r e _ s Hr)).
    destruct (u8 (r_ack r) =? 0xFA).
    + exists i. cbn [take drop fmap list_fmap concat]. by rewrite app_nil_r.
    + specialize (IH n (i + 1) (e ++ reply_events r) ltac:(cbn in Hn; lia)).
      destruct (resends n (r_ack <$> rs)) as [k b]. destruct IH as (j & IH). exists j.
      rewrite IH. cbn [take drop fmap list_fmap concat]. by rewrite app_assoc.
Qed.

(** What [keyboard_init] prints. *)
Definition init_message (ok : bool) : string :=
  if ok then "Keyboard initialized." +:+ nl else "Failed to enable keyboard scanning." +:+ nl.

Lemma init_message_run r s p :
  r = 0 ∨ r = -1 → shows (con (mach s)) p →
  ∃ c', (if r =? 0 then k_printk ("Keyboard initialized." +:+ nl) []
         else k_printk ("Failed to enable keyboard scanning." +:+ nl) []) s =
      Ret tt (set_mach (set_con c' (mach s)) s) ∧
    shows c' (foldl page_putc p (chars (init_message (r =? 0)))) ∧ printed (con (mach s)) c'.
Proof.
  intros Hr Hs.
  destruct (printk_prints (init_message (r =? 0)) [] (chars (init_message (r =? 0)))
    (con (mach s)) p Hs) as (c' & E & Hs' & Hp).
  - by destruct Hr as [->| ->]; is_text.
  - destruct Hr as [->| ->]; reflexivity.
  - exists c'. split; [|done].
    destruct Hr as [->| ->]; cbn in E |- *; by apply zoom_ret, zoom_ret.
Qed.

(** The acknowledgement of the first command and the resends that may follow. *)
Lemma try_enable_run (k : Z → M kbd unit) rs e rest s :
  Forall reply_ok rs → length rs = 4%nat →
  let '(n, ok) := enabling (r_ack <$> rs) in
  (wait_input;; k_outb 0x60 0xF4;; r ← try_enable_keyboard; k r)
    (ports e (concat (reply_answers <$> rs) ++ rest) s) =
  k (if ok then 0 else -1)
    (ports (e ++ concat (reply_events <$> take n rs))
           (concat (reply_answers <$> drop n rs) ++ rest) s).
Proof.
  intros Hrs Hl. destruct Hrs as [|r rs Hr Hrs]; [done|]. cbn [enabling fmap list_fmap concat].
  set (K := λ ack, if ack =? 0xFA then mret 0
    else if ack =? 0xFE then
      r ← find_range 3 0 (λ _, resend);
      mret (match r with Some _ => 0 | None => -1 end)
    else mret (-1) : M kbd Z).
  assert (E : ∀ s, (r ← try_enable_keyboard; k r) s =
    (wait_output;; ack ← k_inb 0x60; r ← K ack; k r) s).
  { intros s'. unfold try_enable_keyboard, mbind, M_bind. destruct (wait_output s'); [|done..].
    by destruct (k_inb 0x60 _). }
  rewrite <- app_assoc.
  assert (E' : (wait_input;; k_outb 0x60 0xF4;; r ← try_enable_keyboard; k r)
      (ports e (reply_answers r ++ concat (reply_answers <$> rs) ++ rest) s) =
    (r' ← K (u8 (r_ack r)); k r')
      (ports (e ++ reply_events r) (concat (reply_answers <$> rs) ++ rest) s)).
  { rewrite <- (exchange_run (λ ack, r ← K ack; k r) r) by done.
    unfold mbind at 1 2 4 5, M_bind at 1 2 4 5.
    destruct (wait_input _); [|done..]. destruct (k_outb _ _ _); [|done..]. apply E. }
  rewrite E'. clear E E'. unfold K.
  destruct (u8 (r_ack r) =? 0xFA); [by cbn; rewrite app_nil_r|].
  destruct (u8 (r_ack r) =? 0xFE); [|by cbn; rewrite app_nil_r].
  pose proof (resends_run 3 0 rs (e ++ reply_events r) rest s Hrs ltac:(cbn in Hl; lia)) as H.
  destruct (resends 3 (r_ack <$> rs)) as [n ok]. destruct H as (j & H).
  rewrite (bind_ret _ _ _ (if ok then 0 else -1)
    (ports ((e ++ reply_events r) ++ concat (reply_events <$> take n rs))
      (concat (reply_answers <$> drop n rs) ++ rest) s)).
  - cbn [take drop fmap list_fmap concat]. by rewrite app_assoc.
  - rewrite (bind_ret _ _ _ _ _ H). by destruct ok.
Qed.

(** C38: against any controller that keeps answering (any number of busy polls before each
    access), keyboard_init terminates. It sends the enable command once; when the answer to it is
    the resend request 0xFE, it sends the command again, up to three times, until one is answered
    with 0xFA, whatever the other answers are (they are not tested for 0xFE). It reports success
    exactly when a command is acknowledged with 0xFA, and it consumes no further answer. *)
Theorem keyboard_init_enables h s p b0 f0 rs rest :
  kbd_ok s → idt_wf (mach s) → shows (con (mach s)) p →
  Forall (λ v, busy v = true) b0 → busy f0 = false → Forall reply_ok rs → length rs = 4%nat →
  answers (kio s) = (b0 ++ [f0]) ++ concat (reply_answers <$> rs) ++ rest →
  let '(n, ok) := enabling (r_ack <$> rs) in
  ∃ s' evs, keyboard_init h s = Ret tt s' ∧
    answers (kio s') = concat (reply_answers <$> drop n rs) ++ rest ∧
    trace (kio s') = trace (kio s) ++ (reads 0x64 (b0 ++ [f0]) ++ [Out 0x64 0xD4]) ++
      concat (reply_events <$> take n rs) ++ evs ∧ Forall cursor_event evs ∧
    shows (con (mach s')) (foldl page_putc p (chars (init_message ok))) ∧
    cpu_gate (idt (mach s')) 33 = Some (gate_to h).
Proof.
  intros Hok Hidt Hs Hb Hf Hrs Hl Ha.
  unfold keyboard_init.
  rewrite (bind_ret _ _ _ _ _ (zoom_ret mach set_mach _ s tt _
    (register_run 33 h (mach s) Hidt ltac:(lia)))).
  set (t := write_bytes _ _ _). set (s1 := set_mach _ s).
  assert (Hg : cpu_gate t 33 = Some (gate_to h)) by (apply cpu_gate_same; [exact Hidt|lia]).
  assert (E1 : s1 = ports [] ((b0 ++ [f0]) ++ concat (reply_answers <$> rs) ++ rest) s1).
  { rewrite <- Ha. unfold ports, set_io, s1, kio. cbn. rewrite app_nil_r.
    by destruct s as [? ? [? ? ? [? ? ? [? ?]]]]. }
  rewrite E1, (bind_ret _ _ _ _ _ (wait_input_ports _ _ _ _ _ Hb Hf)).
  rewrite (bind_ret _ _ _ _ _ (k_outb_ports _ _ _ _ _)). clear E1.
  pose proof (try_enable_run (λ r, if r =? 0 then k_printk ("Keyboard initialized." +:+ nl) []
    else k_printk ("Failed to enable keyboard scanning." +:+ nl) []) rs
    (([] ++ reads 0x64 (b0 ++ [f0])) ++ [Out (u16 0x64) (u8 0xD4)]) rest s1 Hrs Hl) as E2.
  destruct (enabling (r_ack <$> rs)) as [n ok]. rewrite E2. clear E2.
  set (s2 := ports _ _ s1).
  destruct (init_message_run (if ok then 0 else -1) s2 p) as (c' & E3 & Hs' & _ & Ha' & evs & Ht' & Hq).
  { destruct ok; auto. }
  { by apply shows_cio. }
  replace ((if ok then 0 else -1) =? 0) with ok in E3, Hs' by (by destruct ok).
  exists (set_mach (set_con c' (mach s2)) s2), evs.
  split; [destruct ok; exact E3|]. clear E3. split; [exact Ha'|]. split.
  { change (trace (cio c') = trace (kio s) ++ (reads 0x64 (b0 ++ [f0]) ++ [Out 0x64 0xD4]) ++
      concat (reply_events <$> take n rs) ++ evs).
    rewrite Ht'. unfold s2, ports. cbn [kio set_io con mach set_mach set_con set_cio cio trace].
    rewrite <- !app_assoc. done. }
  done.
Qed.

(** A controller that asks for the command once more. *)
Definition demo_replies : list reply :=
  [MkReply [2; 2] 0 [0] 1 0xFE; MkReply [] 0 [0; 0] 1 0xFA; MkReply [] 0 [] 1 0; MkReply [] 0 [] 1 0].
Definition demo_answers : list Z := ([2] ++ [0]) ++ concat (reply_answers <$> demo_replies) ++ [].

Lemma keyboard_init_enables_witness :
  enabling (r_ack <$> demo_replies) = (2%nat, true) ∧
  ∃ s' evs, keyboard_init 0x101000 (boot_kbd demo_answers) = Ret tt s' ∧
    answers (kio s') = concat (reply_answers <$> drop 2 demo_replies) ++ [] ∧
    trace (kio s') = trace (kio (boot_kbd demo_answers)) ++
      (reads 0x64 ([2] ++ [0]) ++ [Out 0x64 0xD4]) ++
      concat (reply_events <$> take 2 demo_replies) ++ evs ∧ Forall cursor_event evs ∧
    shows (con (mach s')) (foldl page_putc (page_of (con (mach (boot_kbd demo_answers))))
      (chars (init_message true))) ∧
    cpu_gate (idt (mach s')) 33 = Some (gate_to 0x101000).
Proof.
  split; [reflexivity|].
  apply (keyboard_init_enables 0x101000 (boot_kbd demo_answers)
    (page_of (con (mach (boot_kbd demo_answers)))) [2] 0 demo_replies []).
  - apply boot_kbd_ok.
  - reflexivity.
  - apply con_wf_shows. apply boot_kbd_ok.
  - repeat constructor.
  - reflexivity.
  - repeat constructor.
  - reflexivity.
  - reflexivity.
Defined.
