(* ===== verification/Shell.v ===== *)
(** * Shell (kernel/shell.c, [read_input] of drivers/keyboard.c)

    The last function of the boot kernel: [shell] prints a prompt, reads a line with
    [read_input], which takes its characters from [get_key], and answers one command. The
    functions run here as they are written, one after the other and without interrupts, on the
    characters that are in the keyboard's queue when they start; once the queue is empty
    [get_key] waits ([Hang]). What an interrupt does to them is the subject of Race.v and
    Delivery.v.

    The specification is the session a user sees: [edit] is the line editor, [session] the text
    that appears on the screen. Each turn of the two loops takes a character from the queue, so
    the number of characters in it, and one more, is fuel enough. *)

From Stdlib Require Import Ascii String.
From stdpp Require Import base numbers strings gmap list.
From S2P Require Import Prelude Io CString Console Itoa ConsoleProps Interrupt Keyboard.

Local Open Scope Z_scope.

Definition VERSION : string := "jiahao@v1.0.0".
Definition SHELL_BUFFER_SIZE : Z := 300000.

(** The keyboard with the machine, and the characters of [command] written so far. *)
Record shell_state : Type := MkShell {
  kb : kbd;
  command : gmap Z Z;
}.

Definition set_kb (k : kbd) (s : shell_state) : shell_state := MkShell k (command s).
Definition on_kb {A} (c : M kbd A) : M shell_state A := zoom kb set_kb c.
Definition s_printk (format : string) (args : list va) : M shell_state unit :=
  on_kb (k_printk format args).

Arguments s_printk _%_string _.

(** The object [command] from offset [k] on, as far as it is written. *)
Fixpoint cells (fuel : nat) (cmd : gmap Z Z) (k : Z) : list Z :=
  match fuel with
  | O => []
  | S f => match cmd !! k with Some c => c :: cells f cmd (k + 1) | None => [] end
  end.

Definition keys_left (s : shell_state) : nat := S (Z.to_nat (buffer_index (kb s))).

Section shell.
(** The size of [command], the argument of [read_input]. *)
Context (size : Z).

(** [buffer[i] = v] *)
Definition cset (i v : Z) : M shell_state unit := λ s,
  if (0 <=? i) && (i <? size)
  then Ret tt (MkShell (kb s) (<[i := v]> (command s))) else Fault.

Fixpoint read_loop (fuel : nat) (i : Z) : M shell_state unit :=
  match fuel with
  | O => nofuel
  | S fuel' =>
      c ← on_kb get_key;
      if (c =? 10) || (size - 1 <=? i) then cset i 0
      else if (c =? 8) && (0 <? i) then
        s_printk (String "008" (String " " (String "008" EmptyString))) [];;
        read_loop fuel' (i - 1)
      else
        cset i c;;
        s_printk "%c" [VInt c];;
        read_loop fuel' (i + 1)
  end.

Definition read_input : M shell_state unit := λ s, read_loop (keys_left s) 0 s.

(** [strcmp(command, "version") == 0] *)
Definition is_version : M shell_state bool :=
  s ← get;
  r ← strcmp (cells (Z.to_nat size) (command s) 0) (literal "version");
  mret (r =? 0).

Fixpoint shell_loop (fuel : nat) : M shell_state unit :=
  match fuel with
  | O => nofuel
  | S fuel' =>
      s_printk "> " [];;
      read_input;;
      b ← is_version;
      when b (s_printk ("%s" +:+ nl) [VStr (literal VERSION)]);;
      shell_loop fuel'
  end.

(** ** The session *)

(** Does the character [c] end the line? *)
Definition ends (line : list Z) (c : Z) : bool :=
  (c =? 10) || (size - 1 <=? Z.of_nat (length line)).
(** Does it delete the last character? *)
Definition deletes (line : list Z) (c : Z) : bool :=
  (c =? 8) && (0 <? Z.of_nat (length line)).

(** The line editor on the characters [q]: what it echoes, and the line and the characters left,
    or nothing when it still waits for the end of the line. *)
Fixpoint edit (line q : list Z) : list Z * option (list Z * list Z) :=
  match q with
  | [] => ([], None)
  | c :: q' =>
      if ends line c then ([], Some (line, q'))
      else if deletes line c then
        let '(e, r) := edit (take (length line - 1) line) q' in ([8; 32; 8] ++ e, r)
      else let '(e, r) := edit (line ++ [c]) q' in (c :: e, r)
  end.

Definition answer (line : list Z) : list Z :=
  if decide (line = chars "version") then chars VERSION ++ [10] else [].

(** The text of a session: prompts, echoes and answers. *)
Fixpoint session (fuel : nat) (q : list Z) : list Z :=
  match fuel with
  | O => []
  | S fuel' =>
      chars "> " ++ fst (edit [] q) ++
      match snd (edit [] q) with
      | None => []
      | Some (line, q') => answer line ++ session fuel' q'
      end
  end.
End shell.

Definition shell : M shell_state unit := λ s, shell_loop SHELL_BUFFER_SIZE (keys_left s) s.

(** ** The line editor *)

(** The screen shows [p], the queue holds [q]. *)
Record at_shell (s : shell_state) (p : page) (q : list Z) : Prop := {
  as_kbd : kbd_ok (kb s);
  as_shows : shows (con (mach (kb s))) p;
  as_queue : queue (kb s) = q;
}.

(** The first characters of [command]. *)
Definition holds (cmd : gmap Z Z) (line : list Z) : Prop :=
  ∀ k c, line !! k = Some c → cmd !! Z.of_nat k = Some c.

Lemma s_printk_shows format args out s p q :
  at_shell s p q → text (chars format) → render (chars format) args = Some out →
  ∃ s', s_printk format args s = Ret tt s' ∧ at_shell s' (foldl page_putc p out) q ∧
    command s' = command s.
Proof.
  intros [Hok Hs Hq] Ht Er.
  destruct (printk_prints format args out (con (mach (kb s))) p Hs Ht Er) as (c' & E & Hs' & Hp).
  exists (set_kb (set_mach (set_con c' (mach (kb s))) (kb s)) s).
  split; [by do 3 apply zoom_ret|]. split; [|done]. constructor; cbn; [|done|done].
  apply kbd_ok_con; [done|]. by destruct Hs'.
Qed.

Lemma get_key_shell s p c q :
  at_shell s p (c :: q) →
  ∃ s', on_kb get_key s = Ret c s' ∧ at_shell s' p q ∧ command s' = command s.
Proof.
  intros [Hok Hs Hq]. pose proof (get_key_run (kb s) Hok) as H. rewrite Hq in H.
  destruct H as (k & E & Hk & Hqk & Hm). exists (set_kb k s). split; [by apply zoom_ret|].
  split; [|done]. constructor; cbn; [done|by rewrite Hm|done].
Qed.

Lemma get_key_waits s p : at_shell s p [] → ∃ s', on_kb get_key s = Hang s' ∧ at_shell s' p [].
Proof.
  intros [Hok Hs Hq]. pose proof (get_key_run (kb s) Hok) as H. rewrite Hq in H.
  exists (set_kb (kb s) s). split; [unfold on_kb, zoom; by rewrite H|]. by constructor.
Qed.

Lemma bind_hang {S A B} (c : M S A) (f : A → M S B) s s' : c s = Hang s' → (c ≫= f) s = Hang s'.
Proof. intros E. unfold mbind, M_bind. by rewrite E. Qed.

Section editor.
Context (size : Z) (Hsize : 2 <= size).

Lemma cset_ret s i v :
  0 <= i < size → cset size i v s = Ret tt (MkShell (kb s) (<[i := v]> (command s))).
Proof.
  intros Hi. unfold cset. by rewrite (proj2 (Z.leb_le 0 i)), (proj2 (Z.ltb_lt i size)) by lia.
Qed.

Lemma holds_snoc cmd line c :
  holds cmd line → holds (<[Z.of_nat (length line) := c]> cmd) (line ++ [c]).
Proof.
  intros H k d [Hd|[Hk Hd]]%lookup_app_Some.
  - pose proof (lookup_lt_Some _ _ _ Hd). rewrite lookup_insert_ne by lia. by apply H.
  - apply list_lookup_singleton_Some in Hd as [Hk' <-]. replace k with (length line) by lia.
    by rewrite lookup_insert_eq.
Qed.

Lemma holds_take cmd line n : holds cmd line → holds cmd (take n line).
Proof. intros H k c [Hc _]%lookup_take_Some. by apply H. Qed.

(** What the editor leaves: it waits, with its echo on the screen, or it returns, with the line
    in [command]. *)
Definition edited (o : outcome shell_state unit) (p : page) (r : list Z * option (list Z * list Z)) : Prop :=
  match r.2 with
  | None => ∃ s', o = Hang s' ∧ at_shell s' (foldl page_putc p r.1) []
  | Some (line, q) => ∃ s', o = Ret tt s' ∧ at_shell s' (foldl page_putc p r.1) q ∧
      text line ∧ Z.of_nat (length line) < size ∧ holds (command s') (line ++ [0])
  end.

Lemma edited_echo o p e r e' :
  edited o (foldl page_putc p e') (e, r) → edited o p (e' ++ e, r).
Proof. unfold edited. cbn [fst snd]. by rewrite foldl_app. Qed.

(** A character is stored and echoed, or the last one is deleted from the screen. *)
Lemma type_char (next : M shell_state unit) line c s p q :
  at_shell s p q → is_char c → Z.of_nat (length line) < size → holds (command s) line →
  ∃ s', (cset size (Z.of_nat (length line)) c;; s_printk "%c" [VInt c];; next) s = next s' ∧
    at_shell s' (foldl page_putc p [c]) q ∧ holds (command s') (line ++ [c]).
Proof using.
  intros Hs Hc Hn Hh. rewrite (bind_ret _ _ _ _ _ (cset_ret s (Z.of_nat (length line)) c ltac:(lia))).
  set (s2 := MkShell _ _). assert (at_shell s2 p q) as Hs2 by (by destruct Hs).
  destruct (s_printk_shows "%c" [VInt c] [i8 c] s2 p q Hs2) as (s3 & E3 & Hs3 & Ec3);
    [is_text|render|]. exists s3. rewrite (bind_ret _ _ _ _ _ E3), i8_char in * by done.
  split_and!; [done..|]. rewrite Ec3. by apply holds_snoc.
Qed.

Lemma delete_char (next : M shell_state unit) s p q :
  at_shell s p q →
  ∃ s', (s_printk (String "008" (String " " (String "008" EmptyString))) [];; next) s = next s' ∧
    at_shell s' (foldl page_putc p [8; 32; 8]) q ∧ command s' = command s.
Proof using.
  intros Hs. destruct (s_printk_shows (String "008" (String " " (String "008" EmptyString))) []
    [8; 32; 8] s p q Hs) as (s' & E & Hs' & Ec); [is_text|reflexivity|].
  exists s'. by rewrite (bind_ret _ _ _ _ _ E).
Qed.

Lemma read_loop_edits q fuel line s p :
  at_shell s p q → text q → text line → Z.of_nat (length line) < size → holds (command s) line →
  (length q < fuel)%nat →
  edited (read_loop size fuel (Z.of_nat (length line)) s) p (edit size line q).
Proof using.
  revert fuel line s p. induction q as [|c q IH]; intros [|fuel] line s p Hs Hq Hl Hn Hc Hf;
    try (cbn in Hf; lia); cbn [read_loop edit].
  { destruct (get_key_waits s p Hs) as (s' & E & Hs'). exists s'. split; [by apply bind_hang|done]. }
  destruct (get_key_shell s p c q Hs) as (s1 & E1 & Hs1 & Ec1). rewrite <- Ec1 in Hc. clear Hs Ec1.
  rewrite (bind_ret _ _ _ _ _ E1). clear E1. apply Forall_cons in Hq as [Hch Hq].
  fold (ends size line c) (deletes line c). cbn [length] in Hf.
  destruct (ends size line c) eqn:Ee.
  { rewrite cset_ret by lia. eexists. split; [done|]. split; [by destruct Hs1|].
    split; [done|]. split; [done|]. by apply holds_snoc. }
  apply orb_false_iff in Ee as [_ Ee%Z.leb_gt].
  destruct (deletes line c) eqn:Ed.
  - apply andb_true_iff in Ed as [_ Ed%Z.ltb_lt].
    assert (length (take (length line - 1) line) = (length line - 1)%nat) as El
      by (rewrite length_take; lia).
    replace (Z.of_nat (length line) - 1) with (Z.of_nat (length (take (length line - 1) line))) by lia.
    edestruct delete_char as (s2 & -> & Hs2 & Ec2); [exact Hs1|]. rewrite <- Ec2 in Hc.
    specialize (IH fuel (take (length line - 1) line) s2 _ Hs2 Hq (Forall_take _ _ _ Hl)
      ltac:(lia) (holds_take _ _ _ Hc) ltac:(lia)).
    destruct (edit size (take (length line - 1) line) q) as [e r]. by apply edited_echo.
  - replace (Z.of_nat (length line) + 1) with (Z.of_nat (length (line ++ [c])))
      by (rewrite length_app; cbn; lia).
    edestruct type_char as (s2 & -> & Hs2 & Hc2); [exact Hs1|apply Hch|exact Hn|exact Hc|].
    specialize (IH fuel (line ++ [c]) s2 _ Hs2 Hq).
    destruct (edit size (line ++ [c]) q) as [e r]. apply (edited_echo _ _ _ _ [c]), IH; try done.
    + apply Forall_app. by split; [|constructor].
    + rewrite length_app. cbn. lia.
    + lia.
Qed.

(** The comparison reads the line. *)
Lemma cells_holds n cmd line k :
  (∀ j c, (line ++ [0]) !! j = Some c → cmd !! (k + Z.of_nat j) = Some c) → (length line < n)%nat →
  ∃ tail, cells n cmd k = line ++ 0 :: tail.
Proof.
  revert n k. induction line as [|c line IH]; intros [|n] k H Hn; try (cbn in Hn; lia).
  - exists (cells n cmd (k + 1)). cbn [cells]. pose proof (H 0%nat 0 eq_refl) as H0.
    rewrite Z.add_0_r in H0. by rewrite H0.
  - destruct (IH n (k + 1)) as [tail E].
    + intros j d Hd. replace (k + 1 + Z.of_nat j) with (k + Z.of_nat (S j)) by lia. by apply H.
    + cbn in Hn. lia.
    + exists tail. cbn [cells app]. pose proof (H 0%nat c eq_refl) as H0.
      rewrite Z.add_0_r in H0. by rewrite H0, E.
Qed.

Lemma is_version_run s line :
  text line → Z.of_nat (length line) < size → holds (command s) (line ++ [0]) →
  is_version size s = Ret (bool_decide (line = chars "version")) s.
Proof.
  intros Ht Hl Hh. unfold is_version. rewrite bind_get.
  destruct (cells_holds (Z.to_nat size) (command s) line 0) as [tail E].
  { intros j c Hj. rewrite Z.add_0_l. by apply Hh. }
  { lia. }
  rewrite E. destruct (strcmp_orders shell_state s line (chars "version") tail [] Ht) as (r & Er & Hr & _);
    [is_text|]. unfold literal. rewrite (bind_ret _ _ _ _ _ Er).
  unfold mret, M_ret. f_equal. destruct (Z.eqb_spec r 0) as [E0|Hne].
  - symmetry. apply bool_decide_eq_true. by apply Hr.
  - symmetry. apply bool_decide_eq_false. intros ->. by apply Hne, Hr.
Qed.

Lemma answer_run s p q line :
  at_shell s p q →
  ∃ s', when (bool_decide (line = chars "version"))
      (s_printk ("%s" +:+ nl) [VStr (literal VERSION)]) s = Ret tt s' ∧
    at_shell s' (foldl page_putc p (answer line)) q.
Proof.
  intros Hs. unfold answer. destruct (decide (line = chars "version")) as [E|E].
  - rewrite bool_decide_true by done. cbn [when].
    destruct (s_printk_shows ("%s" +:+ nl) [VStr (literal VERSION)] (chars VERSION ++ [10]) s p q Hs)
      as (s' & E' & Hs' & _); [is_text|reflexivity|]. by exists s'.
  - rewrite bool_decide_false by done. by exists s.
Qed.

(** The editor never gives back more than it took. *)
Lemma edit_rest line q e l q' : edit size line q = (e, Some (l, q')) → (length q' < length q)%nat.
Proof using.
  revert line e. induction q as [|c q IH]; intros line e E; cbn [edit] in E; [done|].
  destruct (ends size line c); [injection E as <- <- <-; cbn; lia|].
  destruct (deletes line c).
  - destruct (edit size (take _ line) q) as [e' r] eqn:E'. injection E as <- ->.
    specialize (IH _ _ E'). cbn. lia.
  - destruct (edit size (line ++ [c]) q) as [e' r] eqn:E'. injection E as <- ->.
    specialize (IH _ _ E'). cbn. lia.
Qed.

Lemma edit_rest_text line q e l q' : edit size line q = (e, Some (l, q')) → text q → text q'.
Proof using.
  revert line e. induction q as [|c q IH]; intros line e E Ht; cbn [edit] in E; [done|].
  apply Forall_cons in Ht as [_ Ht]. destruct (ends size line c); [by injection E as <- <- <-|].
  destruct (deletes line c).
  - destruct (edit size (take _ line) q) as [e' r] eqn:E'. injection E as <- ->. by eapply IH.
  - destruct (edit size (line ++ [c]) q) as [e' r] eqn:E'. injection E as <- ->. by eapply IH.
Qed.

Lemma keys_left_queue s p q : at_shell s p q → keys_left s = S (length q).
Proof using.
  intros [[Hl Hi _] _ <-]. unfold keys_left, queue. rewrite length_take. lia.
Qed.

Lemma read_input_edits s p q :
  at_shell s p q → text q → edited (read_input size s) p (edit size [] q).
Proof.
  intros Hs Ht. unfold read_input. rewrite (keys_left_queue s p q Hs).
  apply (read_loop_edits q _ [] s p); [done|done|constructor|cbn; lia|done|lia].
Qed.

Lemma shell_loop_session fuel q s p :
  at_shell s p q → text q → (length q < fuel)%nat →
  ∃ s', shell_loop size fuel s = Hang s' ∧ at_shell s' (foldl page_putc p (session size fuel q)) [].
Proof.
  revert q s p. induction fuel as [|fuel IH]; intros q s p Hs Ht Hf; [lia|].
  cbn [shell_loop session].
  destruct (s_printk_shows "> " [] (chars "> ") s p q Hs) as (s1 & E1 & Hs1 & _); [is_text|render|].
  rewrite (bind_ret _ _ _ _ _ E1), foldl_app. clear E1 Hs s. set (p1 := foldl _ p _) in *.
  pose proof (read_input_edits s1 p1 q Hs1 Ht) as He.
  destruct (edit size [] q) as [e [[line q']|]] eqn:Eq; unfold edited in He; cbn [fst snd] in *.
  - destruct He as (s2 & E2 & Hs2 & Hl & Hn & Hh). rewrite (bind_ret _ _ _ _ _ E2). clear E2.
    rewrite (bind_ret _ _ _ _ _ (is_version_run s2 line Hl Hn Hh)).
    destruct (answer_run s2 _ q' line Hs2) as (s3 & E3 & Hs3). rewrite (bind_ret _ _ _ _ _ E3).
    rewrite !foldl_app. apply IH; [done|by eapply edit_rest_text|].
    pose proof (edit_rest [] q _ _ _ Eq). lia.
  - destruct He as (s2 & E2 & Hs2). exists s2. rewrite app_nil_r. split; [by apply bind_hang|done].
Qed.
End editor.

(** C32: run on the characters that are in the keyboard's queue, without interrupts, the shell is
    the interactive session its user sees: from any screen, it prints the prompt, echoes each
    character, lets a backspace delete the last character of the line, and at the end of a line
    (a newline, or a full buffer) answers the command "version" and no other; it then reads the
    next line, and when the characters are used up it waits for a key. No access leaves the
    keyboard's buffer, the 300000 characters of the command or the screen. *)
Theorem shell_session s p :
  kbd_ok (kb s) → shows (con (mach (kb s))) p → text (queue (kb s)) →
  ∃ s', shell s = Hang s' ∧ kbd_ok (kb s') ∧ queue (kb s') = [] ∧
    shows (con (mach (kb s')))
      (foldl page_putc p (session SHELL_BUFFER_SIZE (S (length (queue (kb s)))) (queue (kb s)))).
Proof.
  intros Hok Hs Ht. assert (at_shell s p (queue (kb s))) as Ha by done. unfold shell.
  rewrite (keys_left_queue s p _ Ha).
  destruct (shell_loop_session SHELL_BUFFER_SIZE ltac:(done) _ _ s p Ha Ht (Nat.lt_succ_diag_r _))
    as (s' & E & [Hok' Hs' Hq']). by exists s'.
Qed.

(** A keyboard with some characters in its queue. *)
Definition typed_kbd (q : list Z) : kbd :=
  set_index (Z.of_nat (length q)) (set_buffer (q ++ replicate (256 - length q) 0) (boot_kbd [])).
Definition demo_line : list Z := chars "versio" ++ [chr "m"; 8] ++ chars "n" ++ [10; chr "x"].
Definition demo_screen : list Z :=
  chars "> versiom" ++ [8; 32; 8] ++ chars "n" ++ chars VERSION ++ [10] ++ chars "> x".

Lemma shell_session_witness :
  session SHELL_BUFFER_SIZE (S (length demo_line)) demo_line = demo_screen ∧
  ∃ s', shell (MkShell (typed_kbd demo_line) ∅) = Hang s' ∧ queue (kb s') = [] ∧
    shows (con (mach (kb s'))) (foldl page_putc (page_of (con (mach (typed_kbd demo_line)))) demo_screen).
Proof.
  assert (session SHELL_BUFFER_SIZE (S (length demo_line)) demo_line = demo_screen) as Es
    by (vm_compute; reflexivity).
  split; [exact Es|].
  destruct (shell_session (MkShell (typed_kbd demo_line) ∅)
    (page_of (con (mach (typed_kbd demo_line))))) as (s' & E & _ & Hq & Hs).
  - constructor; [reflexivity|split; discriminate|]. apply boot_kbd_ok.
  - apply con_wf_shows, boot_kbd_ok.
  - apply text_check. vm_compute. reflexivity.
  - exists s'. split; [exact E|]. split; [exact Hq|].
    change (queue (kb (MkShell (typed_kbd demo_line) ∅))) with demo_line in Hs.
    rewrite Es in Hs. exact Hs.
Defined.

(** ** What the handler puts in the queue *)







