(* ===== verification/Boot.v ===== *)
(** * Boot (kernel/core/init.c)

    [kernel_main]: the composition of the console, the descriptor table, the interrupt controllers,
    the keyboard and the shell, here run without interrupts; Delivery.v adds them. The
    processor's interrupt flag is part of the state; [sti] sets it. *)

From Stdlib Require Import Ascii String.
From stdpp Require Import base numbers strings gmap list.
From S2P Require Import Prelude Io CString Console Itoa ConsoleProps Interrupt.
From S2P Require Import Keyboard KeyboardInit Shell.

Local Open Scope Z_scope.

Record boot : Type := MkBoot { bk : kbd; iflag : bool }.

Definition set_bk (k : kbd) (s : boot) : boot := MkBoot k (iflag s).
Definition on_bk {A} (c : M kbd A) : M boot A := zoom bk set_bk c.
Definition b_printk (format : string) : M boot unit := on_bk (k_printk format []).
Definition sti : M boot unit := modify (λ s, MkBoot (bk s) true).

Arguments b_printk _%_string.

Definition banner : string :=
  "GOOD MANY TIMES +==============================================" +:+ nl.

Definition ready : string := "System ready. Type a command:" +:+ nl.

Section boot.
(** Addresses the linker gives. *)
Context (a_idt a_idtp a_exception_handler a_keyboard_handler : Z).

(** [kernel_main] up to the instruction [sti]: nothing interrupts it. *)
Definition kernel_devices : M boot unit :=
  b_printk ("Initializing system..." +:+ nl);;
  b_printk banner;;
  b_printk ("PhyOS is the BEST OS!!!" +:+ nl);;
  on_bk (zoom mach set_mach (init_interrupts a_idt a_idtp a_exception_handler));;
  on_bk (keyboard_init a_keyboard_handler);;
  sti.

(** [kernel_main] before [shell()]. *)
Definition kernel_init : M boot unit :=
  kernel_devices;;
  b_printk banner;;
  b_printk ready.

(** [shell()]: its local [command] is not initialised. *)
Definition call_shell : M boot unit := zoom (λ s, MkShell (bk s) ∅) (λ t, set_bk (kb t)) shell.

Definition kernel_main : M boot unit :=
  kernel_init;;
  call_shell.

(** ** What the calls keep *)

Definition frame (s s' : boot) : Prop := same_devices (bk s) (bk s') ∧ iflag s' = iflag s.

Lemma b_printk_ret format s :
  kbd_ok (bk s) → text (chars format) → render (chars format) [] = Some (chars format) →
  ∃ s1, b_printk format s = Ret tt s1 ∧ kbd_ok (bk s1) ∧ frame s s1 ∧
    i8042 (Some None) (trace (kio (bk s1))) = i8042 (Some None) (trace (kio (bk s))).
Proof.
  intros Hok Ht Er.
  destruct (k_printk_ret format [] (chars format) (bk s)) as (c' & E & Hw & Ha & evs & Htr & Hq);
    [by destruct Hok|done|done|].
  exists (set_bk (set_mach (set_con c' (mach (bk s))) (bk s)) s).
  split; [by apply zoom_ret|].
  split; [by apply kbd_ok_con|]. unfold frame, same_devices, kio in *. cbn in *. rewrite Htr.
  split; [|unfold i8042; rewrite foldl_app; by apply i8042_quiet].
  split; [|done]. split_and!; try done. intros p. unfold pic_after. rewrite foldl_app.
  by apply pic_after_quiet.
Qed.

(** The descriptor table and the controllers, as [init_interrupts] leaves them. *)
Definition wired (s : kbd) : Prop :=
  length (idt (mach s)) = 2048%nat ∧
  (∀ v, 0 <= v < 256 → cpu_gate (idt (mach s)) v =
     Some (if v <? 32 then gate_to a_exception_handler else no_gate)) ∧
  idtr (mach s) = Some (MkIdtPtr 2047 (u32 a_idt)) ∧
  ∀ p irq, 0 <= irq < 16 →
    irq_vector (pic_after p (trace (kio s))) irq = if irq =? 1 then Some 33 else None.

Lemma init_interrupts_wired s :
  kbd_ok s → idt_wf (mach s) →
  ∃ s', zoom mach set_mach (init_interrupts a_idt a_idtp a_exception_handler) s = Ret tt s' ∧
    kbd_ok s' ∧ wired s' ∧
    i8042 (Some None) (trace (kio s')) = i8042 (Some None) (trace (kio s)).
Proof.
  intros [Hl Hi Hc] Hidt.
  destruct (init_interrupts_run a_idt a_idtp a_exception_handler (mach s) Hidt Hc)
    as (t & c' & E & Ht & Hg & Hw & Hadd).
  eexists. split; [by apply zoom_ret|]. split; [by constructor|].
  unfold wired, kio. cbn [mach set_mach idt idtr con]. split.
  - split_and!; [done|done|done|]. intros p irq. by eapply init_writes_pic.
  - destruct Hadd as [_ (evs & -> & Hq)]. unfold i8042. rewrite !foldl_app.
    fold (i8042 (foldl i8042_step (Some None) (trace (outs init_writes (cio (con (mach s)))))) evs).
    rewrite i8042_quiet by done. cbn [outs trace]. rewrite foldl_app.
    by destruct (foldl i8042_step (Some None) (trace (cio (con (mach s))))).
Qed.

(** The keyboard's gate added to such a table. *)
Definition with_keyboard (k : kbd) : kbd :=
  set_mach (set_idt (write_bytes (idt (mach k)) (Z.to_nat (8 * 33))
    (gate_bytes a_keyboard_handler)) (mach k)) k.

(** Print a literal and go on. *)
Ltac print_next s' Hok Hf Hi :=
  lazymatch goal with
  | |- context [(b_printk ?fmt ≫= _) ?s] =>
      destruct (b_printk_ret fmt s) as (s' & ?E & Hok & Hf & Hi);
      [done|is_text|render|];
      rewrite (bind_ret _ _ _ _ _ E); clear E
  end.

Lemma kernel_devices_inv s :
  kbd_ok (bk s) → idt_wf (mach (bk s)) → is_Some (i8042 (Some None) (trace (kio (bk s)))) →
  match kernel_devices s with
  | Ret _ s' => kbd_ok (bk s') ∧ iflag s' = true ∧
      ∃ k, wired k ∧ same_devices (with_keyboard k) (bk s')
  | Hang _ => True
  | _ => False
  end.
Proof.
  intros Hok Hidt Hst. unfold kernel_devices.
  print_next s1 Hok1 Hf1 Hi1. print_next s2 Hok2 Hf2 Hi2. print_next s3 Hok3 Hf3 Hi3.
  rewrite <- Hi1, <- Hi2, <- Hi3 in Hst. clear Hi1 Hi2 Hi3.
  assert (Hidt3 : idt_wf (mach (bk s3))).
  { unfold idt_wf. destruct Hf1 as [[E1 _] _], Hf2 as [[E2 _] _], Hf3 as [[E3 _] _].
    by rewrite E3, E2, E1. }
  clear Hf1 Hf2 Hf3 Hok Hidt Hok1 Hok2 s s1 s2.
  destruct (init_interrupts_wired (bk s3) Hok3 Hidt3) as (k4 & E4 & Hok4 & Hw4 & Hi4).
  rewrite (bind_ret _ _ _ _ _ (zoom_ret bk set_bk _ s3 tt k4 E4)). clear E4.
  rewrite <- Hi4 in Hst. clear Hi4 Hok3 Hidt3.
  pose proof (keyboard_init_inv a_keyboard_handler k4 (Some None) Hok4 (proj1 Hw4) Hst) as H.
  unfold mbind at 1, M_bind at 1, on_bk, zoom. cbn [bk set_bk].
  destruct (keyboard_init a_keyboard_handler k4) as [[] k5| | | |]; try done.
  destruct H as (Hok5 & _ & Hd5). split; [done|]. split; [done|]. by exists k4.
Qed.

Lemma kernel_init_inv s :
  kbd_ok (bk s) → idt_wf (mach (bk s)) → is_Some (i8042 (Some None) (trace (kio (bk s)))) →
  match kernel_init s with
  | Ret _ s' => kbd_ok (bk s') ∧ iflag s' = true ∧
      ∃ k, wired k ∧ same_devices (with_keyboard k) (bk s')
  | Hang _ => True
  | _ => False
  end.
Proof.
  intros Hok Hidt Hst. pose proof (kernel_devices_inv s Hok Hidt Hst) as H. unfold kernel_init.
  unfold mbind at 1, M_bind at 1. destruct (kernel_devices s) as [[] s6| | | |]; try done.
  destruct H as (Hok6 & Hi6 & k & Hw & Hd). clear Hok.
  print_next s7 Hok7 Hf7 Hi7.
  destruct (b_printk_ret ready s7) as (s8 & E & Hok8 & Hf8 & _); [done|is_text|render|].
  rewrite E. clear E. destruct Hf7 as [Hd7 Hi], Hf8 as [Hd8 Hi']. split; [done|].
  split; [by rewrite Hi', Hi|]. exists k. split; [done|]. etrans; [exact Hd|]. by etrans.
Qed.

(** Reading the table and the controllers of a wired machine with its keyboard. *)
Lemma wired_targets k k' :
  wired k → same_devices (with_keyboard k) k' →
  idtr (mach k') = Some (MkIdtPtr 2047 (u32 a_idt)) ∧
  (∀ v, 0 <= v < 256 → vector_target (idt (mach k')) v =
     if v <? 32 then Some (u32 a_exception_handler)
     else if v =? 33 then Some (u32 a_keyboard_handler) else None) ∧
  ∀ p irq, 0 <= irq < 16 →
    irq_vector (pic_after p (trace (kio k'))) irq = if irq =? 1 then Some 33 else None.
Proof.
  intros (Hl & Hg & Hr & Hp) (Hidt & _ & Hr' & Hp'). split; [by rewrite Hr'|].
  split; [|intros p irq Hirq; rewrite Hp'; by apply Hp].
  intros v Hv. unfold vector_target. rewrite Hidt. cbn [with_keyboard mach set_mach idt set_idt].
  destruct (Z.eqb_spec v 33) as [->|Hne].
  - by rewrite cpu_gate_same by (done || lia).
  - rewrite cpu_gate_other, Hg by (done || lia). by destruct (v <? 32).
Qed.

(** The machine when the shell starts. *)
Definition booted (s' : boot) : Prop :=
  kbd_ok (bk s') ∧ iflag s' = true ∧
  idtr (mach (bk s')) = Some (MkIdtPtr 2047 (u32 a_idt)) ∧
  (∀ v, 0 <= v < 256 → vector_target (idt (mach (bk s'))) v =
     if v <? 32 then Some (u32 a_exception_handler)
     else if v =? 33 then Some (u32 a_keyboard_handler) else None) ∧
  ∀ p irq, 0 <= irq < 16 →
    irq_vector (pic_after p (trace (kio (bk s')))) irq = if irq =? 1 then Some 33 else None.

(** C34: whatever the keyboard controller answers, kernel_main does not fault on its way to the
    shell; when it calls the shell, interrupts are enabled, the loaded table sends vectors 0 to 31
    to exception_handler, vector 33 to keyboard_handler and no other anywhere, and the interrupt
    controllers let exactly line 1 through, on vector 33. *)
Theorem boot_wires_keyboard s :
  kbd_ok (bk s) → idt_wf (mach (bk s)) → is_Some (i8042 (Some None) (trace (kio (bk s)))) →
  match kernel_init s with
  | Ret _ s' => booted s'
  | Hang _ => True
  | _ => False
  end.
Proof.
  intros Hok Hidt Hst. pose proof (kernel_init_inv s Hok Hidt Hst) as H.
  destruct (kernel_init s) as [[] s'| | | |]; try done.
  destruct H as (Hok' & Hi & k & Hw & Hd).
  destruct (wired_targets k (bk s') Hw Hd) as (? & ? & ?). done.
Qed.
End boot.

(** The machine as the boot loader hands it over, with a controller that answers. *)
Definition boot_state : boot := MkBoot (boot_kbd demo_answers) false.

Lemma boot_wires_keyboard_witness :
  ∃ s', kernel_init 0x104000 0x105000 0x101000 0x102000 boot_state = Ret tt s' ∧
    booted 0x104000 0x101000 0x102000 s'.
Proof.
  destruct (returns_match (kernel_init 0x104000 0x105000 0x101000 0x102000 boot_state)
    (λ _, booted 0x104000 0x101000 0x102000)) as ([] & s' & H); [vm_compute; reflexivity| |].
  - apply boot_wires_keyboard; [apply boot_kbd_ok|reflexivity|eexists; reflexivity].
  - exists s'. exact H.
Defined.
