(* ===== verification/Delivery.v ===== *)
(** * Delivery of the keyboard interrupt to the booted kernel

    The composition of Boot.v, Interrupt.v, Keyboard.v and Race.v with the hardware between them:
    the line of the keyboard, the in-service register of the interrupt controller, the gate the
    processor goes through, its interrupt flag and the stack. From its [sti] on [kernel_main]
    prints three texts, the last one the prompt of the shell, and then waits in [get_key]; the
    keyboard may interrupt it between any two of its accesses, and while it waits.

    The processor and the controller follow their documentation: going through an interrupt gate
    pushes three words and clears the interrupt flag; a line is not delivered while a line of at
    least its priority is in service, and a line stays in service until the controller receives
    an end-of-interrupt command. The code registers the C function [keyboard_handler] itself in
    the table, so the handler ends in [ret]; [epilogue] makes the last instruction a parameter,
    to show that with [iret] the result is the same.

    The handler saves no registers, so when it has returned the interrupted code goes on with
    registers, and with [ret] a stack, that are not its own: it is [Derailed]. From there on the
    model lets it do anything to memory, flags, stack and ports, except write to port 0x20, the
    command port of the controller. (After [sti] no statement of the kernel writes there.) *)

From Stdlib Require Import Ascii String.
From stdpp Require Import base numbers strings gmap list.
From S2P Require Import Prelude Frame Io CString Console Itoa ConsoleProps Thread Interrupt.
From S2P Require Import Keyboard Race KeyboardInit Shell Boot.

Local Open Scope Z_scope.

(** ** The hardware *)

(** The last instruction of the handler: a C function ends in [ERet]. *)
Inductive epilogue : Type := ERet | EIret.

(** The in-service register of the first controller: an end-of-interrupt command is a command
    byte with bits 3 and 4 clear and bit 5 set; with bit 6 it names the line, without it ends the
    line of highest priority in service, the lowest bit set. *)
Definition isr_event (isr : Z) (e : event) : Z :=
  match e with
  | Out 0x20 v =>
      if (Z.land v 0x18 =? 0) && Z.testbit v 5 then
        if Z.testbit v 6 then Z.clearbit isr (Z.land v 7) else Z.ldiff isr (Z.land isr (- isr))
      else isr
  | _ => isr
  end.
Definition isr_after (isr : Z) (tr : list event) : Z := foldl isr_event isr tr.

(** A line is held back while a line of its own or a higher priority is in service. *)
Definition held_back (isr irq : Z) : bool := negb (Z.land isr (Z.ones (irq + 1)) =? 0).

(** ** The system *)

(** The accesses of [kernel_main] after [sti], and of [shell], up to the first call of
    [get_key]. *)
Definition main_thread : thread unit :=
  text_thread (chars banner);;
  text_thread (chars ready);;
  text_thread (chars "> ").

Inductive program : Type :=
| Running (p : thread unit)   (** the accesses to come; none: [get_key] waits *)
| Derailed.

Record system : Type := MkSystem {
  mem : kbd;              (** memory and devices *)
  code : program;
  int_flag : bool;        (** IF of EFLAGS *)
  isr : Z;                (** the in-service register *)
  esp : Z;                (** the stack pointer *)
  pending : list Z;       (** scan codes typed and not yet read *)
  served : list Z;        (** scan codes read by the handler *)
}.

(** The accesses made between two states. *)
Definition new_events (k k' : kbd) : list event := drop (length (trace (kio k))) (trace (kio k')).

(** Not a command to the first interrupt controller. *)
Definition no_command (e : event) : Prop :=
  match e with Out p _ => p ≠ 0x20 | In _ _ => True end.

Section delivery.
Context (a_keyboard_handler : Z) (ep : epilogue) (p0 : pics).

(** The gate the processor goes through when it accepts line 1 now. *)
Definition deliver (s : system) : option gate :=
  if int_flag s && negb (held_back (isr s) 1) then
    let m := mach (mem s) in
    v ← irq_vector (pic_after p0 (trace (kio (mem s)))) 1;
    r ← idtr m;
    g ← cpu_gate (idt m) v;
    if (8 * v + 7 <=? limit r) && g_present g then Some g else None
  else None.

(** Entering through the gate pushes EFLAGS, CS and EIP; an interrupt gate clears the flag. *)
Definition enter_flag (g : gate) (f : bool) : bool := if g_type g =? 14 then false else f.
Definition leave_flag (saved now : bool) : bool :=
  match ep with ERet => now | EIret => saved end.
Definition leave_pops : Z := match ep with ERet => 4 | EIret => 12 end.

(** The state when the handler has returned. *)
Definition handled (g : gate) (sc : Z) (rest : list Z) (k : kbd) (s : system) : system :=
  MkSystem k Derailed (leave_flag (int_flag s) (enter_flag g (int_flag s)))
    (isr_after (Z.setbit (isr s) 1) (new_events (mem s) k))
    (esp s - 12 + leave_pops) rest (served s ++ [sc]).

Inductive sys_step (s : system) : system → Prop :=
| sys_access (X : Set) (m : M console X) next x k :
    code s = Running (Access m next) → at_console m (mem s) = Ret x k →
    sys_step s (MkSystem k (Running (next x)) (int_flag s)
      (isr_after (isr s) (new_events (mem s) k)) (esp s) (pending s) (served s))
| sys_wait :                          (** [while (buffer_index == 0);] *)
    code s = Running (Done tt) → buffer_index (mem s) = 0 → sys_step s s
| sys_type sc :
    sys_step s (MkSystem (mem s) (code s) (int_flag s) (isr s) (esp s) (pending s ++ [sc]) (served s))
| sys_interrupt g sc rest k :
    deliver s = Some g → g_offset g = u32 a_keyboard_handler → pending s = sc :: rest →
    keyboard_handler (give sc (mem s)) = Ret tt k → sys_step s (handled g sc rest k s)
| sys_derailed k f e evs :
    code s = Derailed → trace (kio k) = trace (kio (mem s)) ++ evs → Forall no_command evs →
    sys_step s (MkSystem k Derailed f (isr_after (isr s) evs) e (pending s) (served s)).

Inductive sys_reach (s0 : system) : system → Prop :=
| sys_start : sys_reach s0 s0
| sys_next s s' : sys_reach s0 s → sys_step s s' → sys_reach s0 s'.
End delivery.

(** The adapter's memory goes on behind the 4000 bytes of the screen, which is all the
    uninterrupted code touches; [extra] are the bytes that follow. *)
Definition with_adapter (extra : list Z) (k : kbd) : kbd :=
  set_mach (set_con (set_vram (vram (con (mach k)) ++ extra) (con (mach k))) (mach k)) k.

(** The machine after [sti], with nothing typed and no line in service. *)
Definition after_sti (extra : list Z) (b : boot) (stack : Z) : system :=
  MkSystem (with_adapter extra (bk b)) (Running main_thread) (iflag b) 0 stack [] [].

(** Run to its end the thread is what the source says. *)
Lemma main_thread_run c :
  run main_thread c =
    (printk (literal banner) [];; printk (literal ready) [];; printk (literal "> ") []) c.
Proof.
  unfold main_thread, literal. rewrite run_bind. apply bind_ext; [apply printk_thread; [is_text|render]|].
  intros [] c1. rewrite run_bind. apply bind_ext; [apply printk_thread; [is_text|render]|].
  intros [] c2. apply printk_thread; [is_text|render].
Qed.

(** ** What the kernel does to the devices after [sti] *)

(** The tables are kept; the ports accessed are those of the cursor, and reads. *)
Definition harmless (e : event) : Prop :=
  match e with Out p _ => p = 0x3D4 ∨ p = 0x3D5 | In _ _ => True end.

Definition devices_kept (k k' : kbd) : Prop :=
  idt (mach k') = idt (mach k) ∧ idtr (mach k') = idtr (mach k) ∧
  ∃ evs, trace (kio k') = trace (kio k) ++ evs ∧ Forall harmless evs.

#[export] Instance devices_kept_preorder : PreOrder devices_kept.
Proof.
  split.
  - intros k. split_and!; [done..|]. exists []. by rewrite app_nil_r.
  - intros k1 k2 k3 (E1 & E2 & l & E3 & H) (F1 & F2 & l' & F3 & H').
    split_and!; [congruence..|]. exists (l ++ l'). rewrite F3, E3, app_assoc.
    split; [done|]. by apply Forall_app.
Qed.

Lemma devices_kept_mach k k' : mach k' = mach k → devices_kept k k'.
Proof.
  intros E. unfold devices_kept, kio. rewrite E. split_and!; [done..|]. exists [].
  by rewrite app_nil_r.
Qed.

Lemma isr_harmless isr evs : Forall harmless evs → isr_after isr evs = isr.
Proof.
  induction 1 as [|e evs He _ IH]; [done|]. cbn. replace (isr_event isr e) with isr; [done|].
  destruct e as [p v|]; [|done]. by destruct He as [->| ->].
Qed.

Lemma pic_harmless p evs : Forall harmless evs → pic_after p evs = p.
Proof.
  induction 1 as [|e evs He _ IH]; [done|]. cbn. replace (pic_event p e) with p; [done|].
  destruct e as [q v|]; [|done]. by destruct He as [->| ->].
Qed.

Lemma isr_no_command isr evs : Forall no_command evs → isr_after isr evs = isr.
Proof.
  induction 1 as [|e evs He _ IH]; [done|]. cbn. replace (isr_event isr e) with isr; [done|].
  destruct e as [p v|]; [|done]. cbn in He. unfold isr_event. repeat case_match; congruence.
Qed.

#[export] Hint Extern 2 (Keeps devices_kept (modify _)) =>
  apply keeps_modify; intros ?; apply devices_kept_mach; reflexivity : typeclass_instances.
#[export] Instance devices_kset i v : Keeps devices_kept (kset i v).
Proof.
  intros s s'. unfold kset. destruct (_ && _); [|done]. intros [= <-]. by apply devices_kept_mach.
Qed.
#[export] Instance devices_kget i : Keeps devices_kept (kget i).
Proof. unfold kget. apply _. Qed.

(** A computation on the console that accesses only harmless ports. *)
Definition io_harmless (i i' : io) : Prop := ∃ evs, trace i' = trace i ++ evs ∧ Forall harmless evs.

Lemma devices_console {A} (c : M console A) :
  Keeps (on cio io_harmless) c → Keeps devices_kept (zoom mach set_mach (on_con c)).
Proof.
  intros Hc s s' E. unfold on_con, zoom in E. specialize (Hc (con (mach s))).
  destruct (c (con (mach s))) as [a t|t|t| |]; simpl in E; try done; injection E as <-;
    (split; [done|]; split; [done|]); by apply Hc.
Qed.

#[export] Instance devices_printk format args : Keeps devices_kept (k_printk format args).
Proof.
  apply devices_console. intros c c' (_ & evs & Etr & Hq)%(keeps_printk (literal format) args).
  exists evs. split; [exact Etr|]. eapply Forall_impl; [exact Hq|]. by intros [].
Qed.

#[export] Instance devices_inb port : Keeps devices_kept (k_inb port).
Proof.
  apply (devices_console (zoom cio set_cio (inb port))), keeps_zoom; [done|]. intros i i'.
  unfold inb. destruct (answers i) as [|v vs]; intros [= <-].
  { exists []. by rewrite app_nil_r. }
  eexists. split; [done|]. by repeat constructor.
Qed.

#[export] Instance devices_handler : Keeps devices_kept keyboard_handler.
Proof. unfold keyboard_handler. apply _. Qed.

(** The accesses of the printing threads touch the screen and the cursor's ports only. *)
Fixpoint quiet {A} (p : thread A) : Prop :=
  match p with
  | Done _ => True
  | Access m k => Keeps console_ports m ∧ ∀ x, quiet (k x)
  end.
Class Quiet {A} (p : thread A) : Prop := is_quiet : quiet p.

#[export] Instance quiet_ret {A} (a : A) : Quiet (mret a).
Proof. done. Qed.
#[export] Instance quiet_bind {A B} (p : thread A) (f : A → thread B) :
  Quiet p → (∀ a, Quiet (f a)) → Quiet (p ≫= f).
Proof.
  unfold Quiet. intros Hp Hf. induction p as [a|X m k IH]; [apply Hf|].
  destruct Hp as [Hm Hk]. split; [done|]. intros x. by apply IH.
Qed.
#[export] Instance quiet_access {X : Set} (m : M console X) : Keeps console_ports m → Quiet (access m).
Proof. intros Hm. by split. Qed.
#[export] Instance quiet_if {A} (b : bool) (p q : thread A) :
  Quiet p → Quiet q → Quiet (if b then p else q).
Proof. by destruct b. Qed.
#[export] Instance quiet_for n lo body : (∀ i, Quiet (body i)) → Quiet (for_thread n lo body).
Proof. intros H. revert lo. induction n as [|n IH]; intros lo; cbn [for_thread]; apply _. Qed.

#[export] Instance quiet_move : Quiet move_cursor_thread.
Proof. unfold move_cursor_thread, load_x, load_y, port. apply _. Qed.
#[export] Instance quiet_scroll : Quiet scroll_thread.
Proof. unfold scroll_thread, load_vram, store_vram. apply _. Qed.
#[export] Instance quiet_newline : Quiet newline_thread.
Proof. unfold newline_thread, store_x, load_y, store_y. apply _. Qed.
#[export] Instance quiet_backspace : Quiet backspace_thread.
Proof. unfold backspace_thread, load_x, load_y, store_x, store_y, store_vram. apply _. Qed.
#[export] Instance quiet_put c : Quiet (put_thread c).
Proof. unfold put_thread, load_x, load_y, store_x, store_vram. apply _. Qed.
#[export] Instance quiet_settle : Quiet settle_thread.
Proof. unfold settle_thread, load_y, store_y. apply _. Qed.
#[export] Instance quiet_putc c : Quiet (putc_thread c).
Proof. unfold putc_thread. apply _. Qed.
#[export] Instance quiet_text t : Quiet (text_thread t).
Proof. induction t as [|c t IH]; cbn [text_thread]; apply _. Qed.
#[export] Instance quiet_main : Quiet main_thread.
Proof. unfold main_thread. apply _. Qed.

(** An access of such a thread leaves the other devices alone. *)
Lemma devices_access {A} (m : M console A) k x k' :
  Keeps console_ports m → at_console m k = Ret x k' → devices_kept k k'.
Proof.
  intros Hm E. assert (Keeps devices_kept (at_console m)) as Hk.
  { apply devices_console. intros c c' (_ & evs & Etr & Hq)%Hm. exists evs. split; [exact Etr|].
    eapply Forall_impl; [exact Hq|]. by intros []. }
  exact (keeps_ret _ _ _ _ _ Hk E).
Qed.

(** Before [sti] the buffer is not touched. *)
Definition same_buffer (k k' : kbd) : Prop :=
  input_buffer k' = input_buffer k ∧ buffer_index k' = buffer_index k.

#[export] Instance same_buffer_preorder : PreOrder same_buffer.
Proof. split; [done|]. intros k1 k2 k3 [E1 E2] [F1 F2]. split; congruence. Qed.

#[export] Instance buffer_mach {A} (c : M machine A) : Keeps same_buffer (zoom mach set_mach c).
Proof. by apply keeps_zoom_any. Qed.
#[export] Instance buffer_poll fuel port again : Keeps same_buffer (poll fuel port again).
Proof. unfold k_inb. induction fuel as [|fuel IH]; cbn [poll]; unfold k_inb; apply _. Qed.
#[export] Instance buffer_wait_input : Keeps same_buffer wait_input.
Proof. intros s s'. apply (buffer_poll _ _ _ s s'). Qed.
#[export] Instance buffer_wait_output : Keeps same_buffer wait_output.
Proof. intros s s'. apply (buffer_poll _ _ _ s s'). Qed.

#[export] Instance buffer_keyboard_init h : Keeps same_buffer (keyboard_init h).
Proof. unfold keyboard_init, try_enable_keyboard, resend, k_inb, k_outb, k_printk. apply _. Qed.

#[export] Instance buffer_on_bk {A} (c : M kbd A) :
  Keeps same_buffer c → Keeps (on bk same_buffer) (on_bk c).
Proof. intros Hc. by apply keeps_zoom. Qed.
#[export] Instance buffer_sti : Keeps (on bk same_buffer) sti.
Proof. by apply keeps_modify. Qed.

Lemma buffer_devices a1 a2 a3 a4 : Keeps (on bk same_buffer) (kernel_devices a1 a2 a3 a4).
Proof. unfold kernel_devices, b_printk, k_printk. apply _. Qed.

(** ** The invariant of the booted system *)

Section booted.
Context (a_idt a_idtp a_exception_handler a_keyboard_handler : Z).
Context (ep : epilogue) (p0 : pics) (stack : Z).

(** The way of line 1 to the handler. *)
Definition routed (k : kbd) : Prop :=
  cpu_gate (idt (mach k)) 33 = Some (gate_to a_keyboard_handler) ∧
  idtr (mach k) = Some (MkIdtPtr 2047 (u32 a_idt)) ∧
  irq_vector (pic_after p0 (trace (kio k))) 1 = Some 33.

(** A thread that has not been interrupted, with the screen it has reached. *)
Definition runs_on (p : thread unit) (c : console) : Prop :=
  quiet p ∧ ∃ P, safe edge P p (λ _, within 79 24) ∧ P c.

(** No key was served yet: the line is open and [kernel_main] runs as it is written. *)
Record undisturbed (s : system) : Prop := {
  un_served : served s = [];
  un_flag : int_flag s = true;
  un_isr : isr s = 0;
  un_esp : esp s = stack;
  un_routed : routed (mem s);
  un_buffer : buffer_ok (mem s);
  un_empty : buffer_index (mem s) = 0;
  un_code : ∃ p, code s = Running p ∧ runs_on p (screen (mem s));
}.

(** One was, and the line is in service for ever. *)
Record disturbed (s : system) : Prop := {
  dis_served : length (served s) = 1%nat;
  dis_isr : isr s = 2;
  dis_code : code s = Derailed;
}.

Lemma routed_kept k k' : routed k → devices_kept k k' → routed k'.
Proof.
  intros (Hg & Hr & Hv) (E1 & E2 & evs & E3 & Hev). unfold routed. rewrite E1, E2, E3.
  split_and!; [done..|]. unfold pic_after. rewrite foldl_app.
  fold (pic_after (foldl pic_event p0 (trace (kio k))) evs). by rewrite pic_harmless.
Qed.

(** No access after [sti] ends an interrupt. *)
Lemma isr_kept k k' i : devices_kept k k' → isr_after i (new_events k k') = i.
Proof.
  intros (_ & _ & evs & E & Hev). unfold new_events. rewrite E, drop_app_length.
  by apply isr_harmless.
Qed.

Lemma deliver_open s : undisturbed s → deliver p0 s = Some (gate_to a_keyboard_handler).
Proof.
  intros [_ Hf Hi _ (Hg & Hr & Hv) _ _ _]. unfold deliver. rewrite Hf, Hi.
  change (held_back 0 1) with false. cbn [andb negb]. rewrite Hv. cbn. rewrite Hr. cbn.
  by rewrite Hg.
Qed.

Lemma deliver_shut s : disturbed s → deliver p0 s = None.
Proof.
  intros [_ Hi _]. unfold deliver. rewrite Hi. change (held_back 2 1) with true.
  by rewrite andb_false_r.
Qed.

(** The next access of [kernel_main] returns. *)
Lemma access_undisturbed s (X : Set) (m : M console X) next :
  undisturbed s → code s = Running (Access m next) →
  ∃ x k, at_console m (mem s) = Ret x k ∧
    undisturbed (MkSystem k (Running (next x)) (int_flag s)
      (isr_after (isr s) (new_events (mem s) k)) (esp s) (pending s) (served s)).
Proof.
  intros [Hs Hf Hi He Hr Hb H0 (p & Ec & Hq & P & Hp & HP)] Ec'. rewrite Ec in Ec'.
  injection Ec' as ->. destruct Hq as [Hq Hn].
  destruct (access_safe P m next _ (mem s) Hp HP) as (x & c & P' & E & _ & _ & Hk & Hc).
  exists x, (set_mach (set_con c (mach (mem s))) (mem s)). split; [exact E|].
  pose proof (devices_access m _ _ _ Hq E) as Hd.
  constructor; cbn; try done.
  - by rewrite isr_kept.
  - by eapply routed_kept.
  - by destruct Hb.
  - exists (next x). split; [done|]. split; [apply Hn|]. by exists P'.
Qed.

(** The first key is served wherever it comes. *)
Lemma serve_first s sc :
  undisturbed s →
  ∃ k, keyboard_handler (give sc (mem s)) = Ret tt k ∧ queue k = press (u8 sc) [] ∧
    within 79 24 (screen k) ∧ ∀ rest, disturbed (handled ep (gate_to a_keyboard_handler) sc rest k s).
Proof.
  intros [Hs Hf Hi He Hr Hb H0 (p & _ & _ & P & Hp & HP)].
  assert (queue (mem s) = []) as Hq by (unfold queue; by rewrite H0).
  assert (within 80 25 (screen (mem s))) as Hin by (by apply (safe_edge P p)).
  destruct (handler_recovers sc (answers (kio (mem s))) (give sc (mem s)))
    as (k & E & _ & Hw & Hk & _); [by destruct Hb|exact Hin|done|].
  change (queue (give sc (mem s))) with (queue (mem s)) in Hk. rewrite Hq in Hk.
  exists k. split; [done|]. split; [done|]. split; [done|]. intros rest.
  constructor; cbn; [by rewrite Hs| |done].
  pose proof (keeps_ret _ _ _ _ _ devices_handler E) as Hd. rewrite Hi.
  exact (isr_kept (give sc (mem s)) k (Z.setbit 0 1) Hd).
Qed.

Lemma sys_step_inv s s' :
  undisturbed s ∨ disturbed s → sys_step a_keyboard_handler ep p0 s s' → undisturbed s' ∨ disturbed s'.
Proof.
  intros Hinv Hstep. destruct Hstep as [X m next x k Ec E|_ _|sc|g sc rest k Ed _ _ E|k f e evs Ec Et Hev].
  - destruct Hinv as [Hu|[_ _ Hd]]; [left|congruence].
    destruct (access_undisturbed s X m next Hu Ec) as (x' & k' & E' & Hu').
    rewrite E in E'. by injection E' as <- <-.
  - done.
  - destruct Hinv as [[]|[]]; [left|right]; by constructor.
  - destruct Hinv as [Hu|Hd]; [right|by rewrite deliver_shut in Ed].
    rewrite deliver_open in Ed by done. injection Ed as <-.
    destruct (serve_first s sc Hu) as (k' & E' & _ & _ & Hd). rewrite E in E'. by injection E' as <-.
  - destruct Hinv as [[_ _ _ _ _ _ _ (p & Ec' & _)]|[Hs Hi _]]; [congruence|right].
    constructor; cbn; [done| |done]. by rewrite isr_no_command.
Qed.
End booted.

(** ** The booted kernel hears at most one key *)

Section one_key.
Context (a_idt a_idtp a_exception_handler a_keyboard_handler : Z).
Context (ep : epilogue) (p0 : pics) (stack : Z) (extra : list Z) (Hextra : (162 <= length extra)%nat).

Lemma main_thread_safe : safe edge (within 79 24) main_thread (λ _, within 79 24).
Proof.
  unfold main_thread.
  do 2 (eapply safe_bind; [apply safe_text|intros []]). apply safe_text.
Qed.

Lemma after_sti_inv s b :
  kbd_ok (bk s) → idt_wf (mach (bk s)) → is_Some (i8042 (Some None) (trace (kio (bk s)))) →
  buffer_index (bk s) = 0 →
  kernel_devices a_idt a_idtp a_exception_handler a_keyboard_handler s = Ret tt b →
  undisturbed a_idt a_keyboard_handler p0 stack (after_sti extra b stack).
Proof.
  intros Hok Hidt Hst H0 E.
  pose proof (keeps_ret _ _ _ _ _ (buffer_devices _ _ _ _) E) as [_ Hi]. rewrite H0 in Hi.
  pose proof (kernel_devices_inv a_idt a_idtp a_exception_handler a_keyboard_handler s Hok Hidt Hst)
    as H. rewrite E in H. destruct H as ([Hl Hi' [Hv Hx Hy]] & Hf & k & Hw & Hd). clear E.
  destruct (wired_targets _ _ _ _ _ Hw Hd) as (Hr & _ & Hp).
  constructor; cbn; try done.
  - split; [|split; [done|by apply Hp]]. destruct Hd as (Ed & _). cbn. rewrite Ed.
    destruct Hw as (Hlen & _). by apply cpu_gate_same.
  - exists main_thread. split; [done|]. split; [apply quiet_main|].
    exists (within 79 24). split; [apply main_thread_safe|].
    split; [cbn; lia|]. split; [cbn; lia|]. cbn. rewrite length_app. lia.
Qed.

(** C30: from the [sti] of kernel_main on, whatever is typed and whenever, at most one keyboard
    interrupt is served. As long as none was, kernel_main runs as it is written, none of its
    accesses faults, and an interrupt is accepted at any moment, through the gate of
    keyboard_handler; the handler then returns, with the cursor on the screen and the key in the
    queue, but as a C function it returns with [ret]: interrupts stay off and 8 bytes stay on the
    stack (with [iret] neither would). After it no interrupt is delivered any more, with [iret]
    either, whatever the derailed code does short of a command to the interrupt controller, since
    the handler has sent no end-of-interrupt. *)
Theorem one_key_only s b t :
  kbd_ok (bk s) → idt_wf (mach (bk s)) → is_Some (i8042 (Some None) (trace (kio (bk s)))) →
  buffer_index (bk s) = 0 →
  kernel_devices a_idt a_idtp a_exception_handler a_keyboard_handler s = Ret tt b →
  sys_reach a_keyboard_handler ep p0 (after_sti extra b stack) t →
  (length (served t) <= 1)%nat ∧ (served t ≠ [] → deliver p0 t = None) ∧
  (served t = [] →
    deliver p0 t = Some (gate_to a_keyboard_handler) ∧ esp t = stack ∧ buffer_index (mem t) = 0 ∧
    (∃ p, code t = Running p ∧
       match p with Done _ => True | Access m _ => ∃ x k, at_console m (mem t) = Ret x k end) ∧
    ∀ sc rest, pending t = sc :: rest →
      ∃ t', sys_step a_keyboard_handler ep p0 t t' ∧ served t' = [sc] ∧
        queue (mem t') = press (u8 sc) [] ∧ within 79 24 (screen (mem t')) ∧
        esp t' = stack - match ep with ERet => 8 | EIret => 0 end ∧
        int_flag t' = match ep with ERet => false | EIret => true end).
Proof using Hextra.
  intros Hok Hidt Hst H0 E Hreach.
  assert (Hinv : undisturbed a_idt a_keyboard_handler p0 stack t ∨ disturbed t).
  { induction Hreach; [left; by eapply after_sti_inv|by eapply sys_step_inv]. }
  destruct Hinv as [Hu|Hd].
  - pose proof Hu as [Hs Hf Hi He _ _ Hb (p & Ec & _)]. rewrite Hs. split; [cbn; lia|]. split; [done|].
    intros _. pose proof (deliver_open _ _ _ _ _ Hu) as Ed. split_and!; [done..| |].
    + exists p. split; [done|]. destruct p as [|X m next]; [done|].
      destruct (access_undisturbed _ _ _ _ _ _ _ _ Hu Ec) as (x & k & Ek & _). by exists x, k.
    + intros sc rest Ep. destruct (serve_first _ _ ep _ _ t sc Hu) as (k & Ek & Hq & Hw & _).
      eexists. split; [by eapply sys_interrupt|]. cbn. rewrite Hs, Hf, He. split_and!; [done..| |].
      * destruct ep; cbn; lia.
      * by destruct ep.
  - pose proof Hd as [Hs _ _]. rewrite Hs. split; [lia|]. split; [intros _; by apply deliver_shut|].
    intros E'. by rewrite E' in Hs.
Qed.
End one_key.

(** A key typed right after [sti] and served there. *)
Definition cold_pics : pics := (MkPic 8 0xFF 0 Ready, MkPic 0x70 0xFF 0 Ready).

Definition demo_adapter : list Z := replicate 162 0.

(** A key typed right after [sti] is served there, and then nothing is any more. *)
Lemma one_key_only_witness :
  ∃ b t, kernel_devices 0x104000 0x105000 0x101000 0x102000 boot_state = Ret tt b ∧
    sys_reach 0x102000 ERet cold_pics (after_sti demo_adapter b 0x90000) t ∧ served t = [0x1e] ∧
    esp t = 0x90000 - 8 ∧ int_flag t = false ∧ deliver cold_pics t = None.
Proof.
  destruct (returns_ret (kernel_devices 0x104000 0x105000 0x101000 0x102000 boot_state))
    as ([] & b & E); [vm_compute; reflexivity|].
  assert (Hok : kbd_ok (bk boot_state)) by apply boot_kbd_ok.
  assert (Hst : is_Some (i8042 (Some None) (trace (kio (bk boot_state))))) by (eexists; reflexivity).
  pose proof (sys_next 0x102000 ERet cold_pics _ _ _ (sys_start 0x102000 ERet cold_pics _)
    (sys_type 0x102000 ERet cold_pics (after_sti demo_adapter b 0x90000) 0x1e)) as H1.
  set (t1 := MkSystem _ _ _ _ _ _ _) in H1.
  destruct (one_key_only 0x104000 0x105000 0x101000 0x102000 ERet cold_pics 0x90000 demo_adapter
    (Nat.le_refl 162) boot_state b t1 Hok eq_refl Hst eq_refl E H1) as (_ & _ & Hopen).
  destruct (Hopen eq_refl) as (_ & _ & _ & _ & Hserve).
  destruct (Hserve 0x1e [] eq_refl) as (t & Hstep & Hs & _ & _ & He & Hf).
  exists b, t. split; [exact E|].
  assert (sys_reach 0x102000 ERet cold_pics (after_sti demo_adapter b 0x90000) t) as Hr
    by exact (sys_next _ _ _ _ _ _ H1 Hstep).
  split; [exact Hr|]. split; [exact Hs|]. split; [exact He|]. split; [exact Hf|].
  destruct (one_key_only 0x104000 0x105000 0x101000 0x102000 ERet cold_pics 0x90000 demo_adapter
    (Nat.le_refl 162) boot_state b t Hok eq_refl Hst eq_refl E Hr) as (_ & Hshut & _).
  apply Hshut. rewrite Hs. discriminate.
Defined.
