(* ===== verification/Allocator.v ===== *)
(** * The allocator contract

    Three translation units of the kernel define [kmalloc]/[kfree]
    (kernel/process/memory.c, kernel/mm/process_mm.c, kernel/mm/heap.c) and the callers
    (kernel/process/process.c, kernel/fs/cache.c) rely only on what is stated here: a call
    returns, it returns NULL or a block disjoint from every block still handed out, and a
    block that was handed out can be given back.

    [al_rep s m] reads: in allocator state [s] the blocks handed out and not yet freed are
    exactly those of [m], each with the size its client asked for. *)

From stdpp Require Import base numbers gmap list.
From S2P Require Import Prelude.

Local Open Scope Z_scope.

(** Two byte ranges (address, length) share no byte. *)
Definition disjoint_blocks (p n q k : Z) : Prop := p + n <= q ∨ q + k <= p.

Class Allocator (St : Type) := {
  al_kmalloc : Z → M St Z;
  al_kfree : Z → M St unit;
  al_rep : St → gmap Z Z → Prop;
}.

(** Requests of up to 2 GiB are within every allocator's size arithmetic. *)
Definition request_ok (n : Z) : Prop := 0 < n < 2 ^ 31.

Class AllocatorLaws (St : Type) `{!Allocator St} := {
  al_kmalloc_ok s m n :
    al_rep s m → request_ok n →
    ∃ p s', al_kmalloc n s = Ret p s' ∧
      ((p = NULL ∧ al_rep s' m) ∨
       (0 < p ∧ m !! p = None ∧ al_rep s' (<[p := n]> m) ∧
        ∀ q k, m !! q = Some k → disjoint_blocks p n q k));
  al_kfree_ok s m p n :
    al_rep s m → m !! p = Some n →
    ∃ s', al_kfree p s = Ret tt s' ∧ al_rep s' (delete p m);
  al_rep_pos s m p n : al_rep s m → m !! p = Some n → 0 < p;
}.

(** The blocks handed out start below 2 GiB, so a pointer to one survives a conversion to [int]
    and back. A caller that uses [kmalloc] without a declaration relies on it. *)
Class LowMemory (St : Type) `{!Allocator St} :=
  al_low s m p n : al_rep s m → m !! p = Some n → p < 2 ^ 31.

(** Well-formed block maps: every block is non-null and non-empty and no two overlap. The
    concrete instances share this part of their representation predicate. *)
Definition blocks_ok (m : gmap Z Z) : Prop :=
  (∀ p n, m !! p = Some n → 0 < p ∧ 0 < n) ∧
  (∀ p n q k, m !! p = Some n → m !! q = Some k → p ≠ q → disjoint_blocks p n q k).

Lemma blocks_ok_empty : blocks_ok ∅.
Proof. split; intros *; by rewrite lookup_empty. Qed.

Lemma blocks_ok_insert m p n :
  blocks_ok m → 0 < p → 0 < n →
  (∀ q k, m !! q = Some k → disjoint_blocks p n q k) →
  blocks_ok (<[p := n]> m).
Proof.
  intros [Hpos Hdis] Hp Hn Hnew. split.
  - intros q k [[<- <-]|[_ Hq]]%lookup_insert_Some; [lia|by apply Hpos].
  - unfold disjoint_blocks in *.
    intros q k q' k' [[<- <-]|[Hne Hq]]%lookup_insert_Some
      [[<- <-]|[Hne' Hq']]%lookup_insert_Some Hd; [done| | |by eapply Hdis].
    + by apply Hnew.
    + apply or_comm, (Hnew q k Hq).
Qed.

Lemma blocks_ok_delete m p : blocks_ok m → blocks_ok (delete p m).
Proof.
  intros [Hpos Hdis]. split.
  - intros q k [_ Hq]%lookup_delete_Some. by apply Hpos.
  - intros q k q' k' [_ Hq]%lookup_delete_Some [_ Hq']%lookup_delete_Some. by apply Hdis.
Qed.

(** A block outside all the others is at an address of its own. *)
Lemma blocks_fresh m p n :
  blocks_ok m → 0 < n → (∀ q k, m !! q = Some k → disjoint_blocks p n q k) → m !! p = None.
Proof.
  intros [Hpos _] Hn Hd. destruct (m !! p) as [k|] eqn:E; [|done].
  pose proof (Hpos _ _ E). destruct (Hd _ _ E); lia.
Qed.

#[export] Hint Resolve blocks_ok_empty blocks_ok_insert blocks_ok_delete : kernel.

(** ** A client of the contract

    Requests in any order: allocate [n] bytes, or give back a block that is held. [serve]
    returns the blocks held at the end. *)
Inductive areq := AMalloc (n : Z) | AFree (p : Z).

Definition areq_ok (r : areq) : Prop :=
  match r with AMalloc n => request_ok n | AFree _ => True end.

Section client.
Context {St : Type} `{!Allocator St}.

Fixpoint serve (rs : list areq) (m : gmap Z Z) : M St (gmap Z Z) :=
  match rs with
  | [] => mret m
  | AMalloc n :: rs' =>
      p ← al_kmalloc n;
      serve rs' (if p =? NULL then m else <[p := n]> m)
  | AFree p :: rs' =>
      match m !! p with
      | Some _ => al_kfree p;; serve rs' (delete p m)
      | None => serve rs' m
      end
  end.

(** Whatever the requests, the client never sees an error and the blocks it holds are
    non-null and pairwise disjoint. *)
Lemma serve_ok `{!AllocatorLaws St} rs m s :
  al_rep s m → blocks_ok m → Forall areq_ok rs →
  ∃ m' s', serve rs m s = Ret m' s' ∧ al_rep s' m' ∧ blocks_ok m'.
Proof.
  intros Hs Hm Hrs. revert m s Hs Hm.
  induction Hrs as [|[n|p] rs Hr _ IH]; intros m s Hs Hm; cbn [serve].
  - by exists m, s.
  - destruct (al_kmalloc_ok s m n Hs Hr) as (p & s1 & E & Hp). mstep E.
    destruct Hp as [[-> H1]|(Hp & _ & H1 & Hd)]; [by apply IH|].
    rewrite (proj2 (Z.eqb_neq p NULL)) by (unfold NULL; lia).
    apply IH; [done|]. apply blocks_ok_insert; [done|done|apply Hr|done].
  - destruct (m !! p) as [n|] eqn:E; [|by apply IH].
    destruct (al_kfree_ok s m p n Hs E) as (s1 & E1 & H1). mstep E1.
    apply IH; [done|by apply blocks_ok_delete].
Qed.
End client.
