(* ===== verification/Chain.v ===== *)
(** * Intrusive singly linked lists

    The ready queue and the list of memory areas are chains of objects reached through a [next]
    field and ended by NULL. [linked nxt m q] says that in the object store [m] the addresses
    [q] form such a chain. *)

From stdpp Require Import base numbers gmap list.
From S2P Require Import Prelude.

Local Open Scope Z_scope.

Section chain.
Context {A : Type} (nxt : A → Z).
Implicit Types (m : gmap Z A) (q : list Z) (x y : Z) (a : A).

Fixpoint linked m q : Prop :=
  match q with
  | [] => True
  | x :: q' => x ≠ NULL ∧ (∃ a, m !! x = Some a ∧ nxt a = hd NULL q') ∧ linked m q'
  end.

(** Address of the last object, NULL for an empty chain. *)
Definition tail_of q : Z := List.last q NULL.

Lemma linked_app m q1 q2 : linked m (q1 ++ q2) → linked m q2.
Proof. induction q1; simpl; naive_solver. Qed.

Lemma linked_not_null m q x : linked m q → x ∈ q → x ≠ NULL.
Proof. induction q; simpl; set_solver. Qed.

Lemma linked_lookup m q x : linked m q → x ∈ q → is_Some (m !! x).
Proof.
  induction q as [|y q IH]; simpl; [set_solver|].
  intros (_ & (a & Ha & _) & Hq) [->|]%elem_of_cons; eauto.
Qed.

Lemma linked_hd_null m q : linked m q → hd NULL q = NULL → q = [].
Proof. destruct q; simpl; naive_solver. Qed.

(** The start address determines the whole chain. *)
Lemma linked_det m q1 q2 : linked m q1 → linked m q2 → hd NULL q1 = hd NULL q2 → q1 = q2.
Proof.
  revert q2. induction q1 as [|x q1 IH]; intros [|y q2] H1 H2 E; simpl in *; try naive_solver.
  subst y. destruct H1 as (_ & (a & Ha & Hn) & H1), H2 as (_ & (b & Hb & Hn') & H2).
  simplify_eq. f_equal. apply IH; auto. congruence.
Qed.

(** A chain is acyclic. *)
Lemma linked_NoDup m q : linked m q → NoDup q.
Proof.
  induction q as [|x q IH]; intros Hq; constructor; [|apply IH; simpl in *; tauto].
  intros (l1 & l2 & ->)%list_elem_of_split.
  assert (linked m (x :: l2)) as H2 by (by apply (linked_app m (x :: l1))).
  pose proof (linked_det _ _ _ Hq H2 eq_refl) as E.
  apply (f_equal length) in E. rewrite !length_cons, length_app in E. simpl in E. lia.
Qed.

(** The number of objects bounds the length of a chain: the fuel of every traversal. *)
Lemma linked_length m q : linked m q → (length q <= size m)%nat.
Proof.
  intros H. rewrite <- (size_list_to_set (C := gset Z) q) by (by eapply linked_NoDup).
  rewrite <- size_dom. apply subseteq_size. intros x Hx%elem_of_list_to_set.
  apply elem_of_dom. by eapply linked_lookup.
Qed.

(** Objects outside the chain can change freely. *)
Lemma linked_insert_notin m q x a : x ∉ q → linked m q → linked (<[x := a]> m) q.
Proof.
  induction q as [|y q IH]; simpl; [done|].
  intros Hx (Hy & (b & Hb & Hn) & Hq). apply not_elem_of_cons in Hx as [Hxy Hxq].
  split; [done|]. split; [|by apply IH].
  exists b. by rewrite lookup_insert_ne.
Qed.

(** Objects on the chain can change as long as their link stays. *)
Lemma linked_insert_same m q x a b :
  m !! x = Some a → nxt b = nxt a → linked m q → linked (<[x := b]> m) q.
Proof.
  intros Hx Hn. induction q as [|y q IH]; simpl; [done|].
  intros (Hy & (c & Hc & Hnc) & Hq). split; [done|]. split; [|by apply IH].
  destruct (decide (x = y)) as [->|].
  - exists b. rewrite lookup_insert_eq. split; [done|congruence].
  - exists c. by rewrite lookup_insert_ne.
Qed.

Lemma linked_delete_notin m q x : x ∉ q → linked m q → linked (delete x m) q.
Proof.
  induction q as [|y q IH]; simpl; [done|].
  intros Hx (Hy & (b & Hb & Hn) & Hq). apply not_elem_of_cons in Hx as [Hxy Hxq].
  split; [done|]. split; [|by apply IH]. exists b. by rewrite lookup_delete_ne.
Qed.

Lemma tail_of_snoc q x : tail_of (q ++ [x]) = x.
Proof. apply List.last_last. Qed.

Lemma tail_of_elem q : q ≠ [] → tail_of q ∈ q.
Proof.
  destruct q as [|x q _] using rev_ind; [done|]. rewrite tail_of_snoc. set_solver.
Qed.

Lemma tail_of_app q x q' : tail_of (q ++ x :: q') = tail_of (x :: q').
Proof.
  unfold tail_of. destruct (exists_last (l := x :: q')) as (l & y & ->); [done|].
  by rewrite app_assoc, !List.last_last.
Qed.

Lemma tail_of_self x q : x ∉ q → tail_of (x :: q) = x → q = [].
Proof.
  intros Hx E. destruct q as [|y q]; [done|]. change (tail_of (y :: q) = x) in E.
  destruct Hx. rewrite <- E. by apply tail_of_elem.
Qed.

(** Appending: the old tail is linked to the new object. *)
Lemma linked_snoc m q t x a b c :
  linked m (q ++ [t]) → x ∉ q ++ [t] → x ≠ NULL →
  m !! t = Some a → nxt b = x → m !! x = Some c → nxt c = NULL →
  linked (<[t := b]> m) ((q ++ [t]) ++ [x]).
Proof.
  induction q as [|y q IH]; simpl; intros Hq Hx Hnull Ha Hb Hmx Hc.
  - destruct Hq as (Ht & (a' & Ha' & _) & _). assert (x ≠ t) by set_solver.
    rewrite lookup_insert_eq, lookup_insert_ne by done. naive_solver.
  - destruct Hq as (Hy & (d & Hd & Hn) & Hq). assert (x ∉ q ++ [t]) by set_solver.
    split; [done|]. split; [|by eapply IH].
    pose proof (linked_NoDup m (y :: q ++ [t])) as Hnd. simpl in Hnd.
    apply NoDup_cons in Hnd as [Hyq _]; [|naive_solver].
    exists d. rewrite lookup_insert_ne by set_solver.
    split; [done|]. rewrite Hn. by destruct q.
Qed.

(** Unlinking the object after [y]. *)
Lemma linked_unlink m q1 y x q2 a b c :
  linked m (q1 ++ y :: x :: q2) →
  m !! y = Some a → m !! x = Some b → nxt c = nxt b →
  linked (<[y := c]> m) (q1 ++ y :: q2).
Proof.
  induction q1 as [|z q1 IH]; intros Hq Ha Hb Hc.
  - pose proof (linked_NoDup _ _ Hq) as Hnd. cbn [app] in *.
    apply NoDup_cons in Hnd as [Hyx _].
    destruct Hq as (Hy & _ & Hx & (b' & Hb' & Hn) & Hq2). simplify_eq.
    split; [done|]. split.
    + exists c. rewrite lookup_insert_eq. split; [done|congruence].
    + apply linked_insert_notin; set_solver.
  - pose proof (linked_NoDup _ _ Hq) as Hnd. cbn [app] in *.
    apply NoDup_cons in Hnd as [Hzq _].
    destruct Hq as (Hz & (d & Hd & Hn) & Hq).
    split; [done|]. split; [|by apply IH].
    exists d. rewrite lookup_insert_ne by set_solver. split; [done|].
    rewrite Hn. by destruct q1.
Qed.
End chain.

#[export] Hint Resolve linked_insert_notin linked_delete_notin : kernel.
