(* ===== verification/Memory.v ===== *)
(** * kernel/process/memory.c: the bump allocator and address spaces

    The 1 MiB static array [heap] is handed out from the front; [kfree] does nothing. The
    state is [heap_used] together with the [mm_struct] and [vm_area_struct] objects that
    [mm_create] and its clients place in the allocated memory. *)

From stdpp Require Import base numbers strings gmap list.
From S2P Require Import Prelude.
From S2P Require Import Allocator.
From S2P Require Import Chain.

Local Open Scope Z_scope.

(** The address the linker gives to the array [heap]; any placement inside the 64-bit
    address space that leaves address 0 free. *)
Class Linkage := {
  heap_addr : Z;
  heap_addr_pos : 0 < heap_addr;
  heap_addr_top : heap_addr + 2 ^ 20 < 2 ^ 64;
}.

Record vm_area_struct := VmArea {
  vm_start : Z;
  vm_end : Z;
  vm_flags : Z;
  vm_next : Z;
}.

Record mm_struct := MmStruct {
  mm_mmap : Z;
  mm_start_code : Z;
  mm_end_code : Z;
  mm_start_data : Z;
  mm_end_data : Z;
  mm_start_heap : Z;
  mm_end_heap : Z;
  mm_start_stack : Z;
}.

Definition vm_area_fields : list field :=
  [scalar "start" 4; scalar "end" 4; scalar "flags" 4; scalar "next" 8].
Definition mm_struct_fields : list field :=
  [scalar "mmap" 8; scalar "start_code" 4; scalar "end_code" 4; scalar "start_data" 4;
   scalar "end_data" 4; scalar "start_heap" 4; scalar "end_heap" 4; scalar "start_stack" 4].

Definition sizeof_mm_struct : Z := Eval vm_compute in sizeof mm_struct_fields.
Definition mm_zero : mm_struct := MmStruct 0 0 0 0 0 0 0 0.

Record mem := Mem {
  heap_used : Z;
  mms : gmap Z mm_struct;
  vmas : gmap Z vm_area_struct;
}.

Definition set_heap_used (n : Z) (s : mem) : mem := Mem n (mms s) (vmas s).
Definition set_mms (m : gmap Z mm_struct) (s : mem) : mem := Mem (heap_used s) m (vmas s).

(** The allocator before the first call. *)
Definition mem_init : mem := Mem 0 ∅ ∅.

Definition HEAP_SIZE : Z := 1024 * 1024.

Module Memory.
Section memory.
Context `{L : Linkage}.

Definition kmalloc (size : Z) : M mem Z := λ s,
  if HEAP_SIZE <? u64 (heap_used s + size) then Ret NULL s
  else
    let ptr := heap_addr + heap_used s in
    let used := u64 (heap_used s + size) in
    let used := Z.land (u64 (used + 3)) (u64 (Z.lnot 3)) in
    Ret ptr (set_heap_used used s).

(** [kfree] prints the pointer and returns. *)
Definition kfree (ptr : Z) : M mem unit := mret tt.

Definition mm_create : M mem Z :=
  mm ← kmalloc sizeof_mm_struct;
  if mm =? NULL then mret NULL
  else
    modify (λ s, set_mms (<[mm := mm_zero]> (mms s)) s);;
    mret mm.

Fixpoint destroy_loop (fuel : nat) (vma : Z) : M mem unit :=
  match fuel with
  | O => nofuel
  | S fuel' =>
      if vma =? NULL then mret tt
      else
        v ← deref (λ s, vmas s !! vma);
        kfree vma;;
        destroy_loop fuel' (vm_next v)
  end.

Definition mm_destroy (mm : Z) : M mem unit :=
  if mm =? NULL then mret tt
  else
    m ← deref (λ s, mms s !! mm);
    s ← get;
    destroy_loop (S (size (vmas s))) (mm_mmap m);;
    kfree mm.

Definition allocate_kernel_stack (size : Z) : M mem Z :=
  stack ← kmalloc size;
  mret stack.

Definition free_kernel_stack (stack : Z) : M mem unit := kfree stack.

(** ** The allocator invariant *)

Definition bump_ok (s : mem) : Prop := 0 <= heap_used s <= HEAP_SIZE ∧ heap_used s mod 4 = 0.

Lemma kmalloc_full s n :
  bump_ok s → 0 <= n < 2 ^ 63 → HEAP_SIZE < heap_used s + n → kmalloc n s = Ret NULL s.
Proof.
  intros [Hu _] Hn Hf. unfold kmalloc, HEAP_SIZE in *.
  rewrite u64_small by lia. by rewrite (proj2 (Z.ltb_lt _ _)) by lia.
Qed.

Lemma kmalloc_fits s n :
  bump_ok s → 0 <= n → heap_used s + n <= HEAP_SIZE →
  kmalloc n s =
    Ret (heap_addr + heap_used s) (set_heap_used (align_up 2 (heap_used s + n)) s).
Proof.
  intros [Hu _] Hn Hf. unfold kmalloc, HEAP_SIZE in *.
  rewrite u64_small by lia. by rewrite (proj2 (Z.ltb_ge _ _)) by lia.
Qed.

Lemma bump_ok_step s n :
  bump_ok s → 0 <= n → heap_used s + n <= HEAP_SIZE →
  heap_used s + n <= align_up 2 (heap_used s + n) ∧
  bump_ok (set_heap_used (align_up 2 (heap_used s + n)) s).
Proof.
  intros [Hu _] Hn Hf. unfold HEAP_SIZE in *.
  destruct (align_up_spec 2 (heap_used s + n)) as [Hr Hm]; [lia|lia|].
  pose proof (align_up_le 2 (heap_used s + n) (1024 * 1024) ltac:(lia) ltac:(lia) ltac:(lia)
    eq_refl). change (2 ^ 2) with 4 in *. unfold bump_ok, HEAP_SIZE; simpl; lia.
Qed.

(** Every outcome of a request of ordinary size: either the array is exhausted, NULL is
    returned and nothing changes, or the next free address is returned and [heap_used] moves
    past the block to the next multiple of four. *)
Lemma kmalloc_cases s n :
  bump_ok s → 0 <= n < 2 ^ 63 →
  (HEAP_SIZE < heap_used s + n ∧ kmalloc n s = Ret NULL s) ∨
  (heap_used s + n <= HEAP_SIZE ∧
   ∃ s', kmalloc n s = Ret (heap_addr + heap_used s) s' ∧ bump_ok s' ∧
     heap_used s + n <= heap_used s' < heap_used s + n + 4 ∧
     mms s' = mms s ∧ vmas s' = vmas s).
Proof.
  intros Hok Hn. destruct (Z.le_gt_cases (heap_used s + n) HEAP_SIZE) as [Hf|Hf].
  - right. split; [done|]. eexists. split; [apply kmalloc_fits; [done|lia|done]|].
    destruct (bump_ok_step s n) as [Hle Hok']; [done|lia|done|].
    split; [done|]. split; [|done]. simpl. destruct Hok as [Hu _]. unfold HEAP_SIZE in *.
    destruct (align_up_spec 2 (heap_used s + n)); lia.
  - left. split; [lia|]. apply kmalloc_full; [done|lia|lia].
Qed.

(** ** The allocator contract *)

(** The blocks handed out lie below [heap_used]; blocks given back are never reused. *)
Definition bump_rep (s : mem) (m : gmap Z Z) : Prop :=
  bump_ok s ∧ blocks_ok m ∧
  ∀ p n, m !! p = Some n → heap_addr <= p ∧ p + n <= heap_addr + heap_used s.

#[export] Instance memory_allocator : Allocator mem :=
  {| al_kmalloc := kmalloc; al_kfree := kfree; al_rep := bump_rep |}.

#[export] Instance memory_allocator_laws : AllocatorLaws mem.
Proof.
  pose proof heap_addr_pos. constructor; simpl.
  - intros s m n (Hok & Hm & Hin) [Hn Hn2].
    destruct (kmalloc_cases s n) as [[_ E]|(Hf & s' & E & Hok' & Hu & _)]; [done|lia| |].
    { exists NULL, s. split; [done|]. left. split; [done|]. exact (conj Hok (conj Hm Hin)). }
    exists (heap_addr + heap_used s), s'. split; [done|]. right.
    assert (∀ q k, m !! q = Some k → disjoint_blocks (heap_addr + heap_used s) n q k).
    { intros q k Hq. destruct (Hin _ _ Hq). right. lia. }
    destruct Hok as [Hs _].
    split; [lia|]. split; [by eapply blocks_fresh|]. split; [|done].
    split; [done|]. split; [apply blocks_ok_insert; auto; lia|].
    intros p k [[<- <-]|[_ Hp]]%lookup_insert_Some; [lia|]. destruct (Hin _ _ Hp). lia.
  - intros s m p n (Hok & Hm & Hin) Hp. exists s. split; [done|].
    split; [done|]. split; [by apply blocks_ok_delete|].
    intros q k [_ Hq]%lookup_delete_Some. by apply Hin.
  - intros s m p n (_ & [Hm _] & _) Hp. by destruct (Hm _ _ Hp).
Qed.

(** ** Destroying an address space *)

(** The areas of an address space form a chain from [mmap]. *)
Definition mm_ok (s : mem) (mm : Z) : Prop :=
  ∃ m areas, mms s !! mm = Some m ∧ linked vm_next (vmas s) areas ∧ mm_mmap m = hd NULL areas.

Lemma destroy_loop_ret s areas fuel :
  linked vm_next (vmas s) areas → (length areas < fuel)%nat →
  destroy_loop fuel (hd NULL areas) s = Ret tt s.
Proof.
  revert fuel. induction areas as [|x areas IH]; intros [|fuel] Hl Hf; simpl in *;
    try lia; [done|].
  destruct Hl as (Hx & (v & Hv & Hn) & Hl).
  rewrite (proj2 (Z.eqb_neq _ _)) by done.
  mstep (deref_ret (λ s, vmas s !! x) s v Hv). mred. rewrite Hn. apply IH; [done|lia].
Qed.

Lemma mm_destroy_ret s mm : mm_ok s mm → mm_destroy mm s = Ret tt s.
Proof.
  intros (m & areas & Hm & Hl & E). unfold mm_destroy.
  zcase; [done|]. mstep (deref_ret (λ s, mms s !! mm) s m Hm).
  mred. rewrite E, destroy_loop_ret; [done|done|].
  apply linked_length in Hl. lia.
Qed.

(** ** Properties *)

(** From a fresh heap, whatever a client allocates and frees, the blocks it holds are
    inside the 1 MiB array and pairwise disjoint. *)
Theorem bump_serves rs :
  Forall areq_ok rs →
  ∃ m s, serve rs ∅ mem_init = Ret m s ∧ blocks_ok m ∧
    ∀ p n, m !! p = Some n → heap_addr <= p ∧ p + n <= heap_addr + HEAP_SIZE.
Proof.
  intros Hrs. destruct (serve_ok rs ∅ mem_init) as (m & s & E & (Hok & Hm & Hin) & _); [|by auto with kernel|done|].
  { split; [by unfold bump_ok, HEAP_SIZE|]. split; [apply blocks_ok_empty|].
    intros p n. by rewrite lookup_empty. }
  exists m, s. split_and!; [done..|]. intros p n Hp. destruct (Hin _ _ Hp), Hok as [? _]. lia.
Qed.

(** The bound of [kmalloc] is computed modulo 2^64: a request of [2^64 - heap_used] bytes
    succeeds, rewinds [heap_used] to 0, and the next request is given the start of the array,
    where the first object ever allocated lives. *)
Theorem kmalloc_wraps s n :
  bump_ok s → 0 < heap_used s → 0 < n <= HEAP_SIZE →
  ∃ s1 s2, kmalloc (2 ^ 64 - heap_used s) s = Ret (heap_addr + heap_used s) s1 ∧
    heap_used s1 = 0 ∧ kmalloc n s1 = Ret heap_addr s2.
Proof.
  intros [Hu _] Hpos Hn. exists (set_heap_used 0 s). unfold kmalloc.
  replace (heap_used s + (2 ^ 64 - heap_used s)) with (2 ^ 64) by lia.
  change (u64 (2 ^ 64)) with 0. simpl (heap_used (set_heap_used _ _)).
  rewrite (u64_small (0 + n)) by (unfold HEAP_SIZE in Hn; lia).
  rewrite (proj2 (Z.ltb_ge HEAP_SIZE (0 + n))) by lia.
  eexists. split_and!; [reflexivity..|]. rewrite Z.add_0_r. reflexivity.
Qed.

(** [mm_destroy] returns for NULL and for every address space whose areas form a list: it
    walks the list to its end and follows no other pointer. *)
Theorem mm_destroy_returns s mm :
  mm = NULL ∨ mm_ok s mm → mm_destroy mm s = Ret tt s.
Proof. intros [-> |H]; [done|]. by apply mm_destroy_ret. Qed.

End memory.
End Memory.

(** ** Witnesses *)

Definition heap_at_1M : Linkage :=
  {| heap_addr := 0x100000; heap_addr_pos := eq_refl; heap_addr_top := eq_refl |}.

Lemma bump_serves_witness :
  ∃ m s, serve (Allocator0 := Memory.memory_allocator (L := heap_at_1M))
    [AMalloc 10; AMalloc 20; AFree 0x100000; AMalloc 2000000] ∅ mem_init = Ret m s ∧ blocks_ok m.
Proof.
  destruct (Memory.bump_serves (L := heap_at_1M)
    [AMalloc 10; AMalloc 20; AFree 0x100000; AMalloc 2000000]) as (m & s & E & Hm & _).
  - repeat constructor.
  - exists m, s. exact (conj E Hm).
Defined.

Lemma kmalloc_wraps_witness :
  ∃ s1 s2, Memory.kmalloc (L := heap_at_1M) (2 ^ 64 - 8) (Mem 8 ∅ ∅) = Ret 0x100008 s1 ∧
    heap_used s1 = 0 ∧ Memory.kmalloc (L := heap_at_1M) 100 s1 = Ret 0x100000 s2.
Proof. apply (Memory.kmalloc_wraps (L := heap_at_1M) (Mem 8 ∅ ∅) 100); by vm_compute. Defined.

Lemma mm_destroy_returns_witness :
  let s := Mem 200 {[0x100000 := MmStruct 0x100040 0 0 0 0 0 0 0]}
             {[0x100040 := VmArea 0 4096 0 0x100060; 0x100060 := VmArea 4096 8192 0 0]} in
  Memory.mm_destroy 0x100000 s = Ret tt s.
Proof.
  intros s. apply Memory.mm_destroy_returns. right.
  exists (MmStruct 0x100040 0 0 0 0 0 0 0), [0x100040; 0x100060].
  split; [reflexivity|]. split; [|reflexivity]. cbn [linked hd].
  split; [discriminate|]. split; [by eexists|]. split; [discriminate|]. split; [by eexists|exact I].
Defined.
