(* ===== verification/ProcessMm.v ===== *)
(** * Address spaces of the memory manager (kernel/mm/process_mm.c)

    The memory manager carries its own bump allocator and [mm_struct] operations, a second copy
    of those of kernel/process/memory.c with a separate static array. They are translated from
    their own text and shown to be an allocator of the class, so the clients of the class run on
    them too. *)

From stdpp Require Import base numbers strings gmap list.
From S2P Require Import Prelude.
From S2P Require Import Allocator.
From S2P Require Import Chain.
From S2P Require Import Memory.

Local Open Scope Z_scope.

Module ProcessMm.
Section process_mm.
(** The address of this file's array [heap]. *)
Context `{L : Linkage}.

Definition kmalloc (size : Z) : M mem Z := λ s,
  if HEAP_SIZE <? u64 (heap_used s + size) then Ret NULL s
  else
    let ptr := heap_addr + heap_used s in
    let used := u64 (heap_used s + size) in
    let used := Z.land (u64 (used + 3)) (u64 (Z.lnot 3)) in
    Ret ptr (set_heap_used used s).

Definition kfree (ptr : Z) : M mem unit := mret tt.

Definition mm_create : M mem Z :=
  mm ← kmalloc sizeof_mm_struct;
  if mm =? NULL then mret NULL
  else
    modify (λ s, set_mms (<[mm := mm_zero]> (mms s)) s);;
    mret mm.

Fixpoint destroy_loop (fuel : nat) (vma : Z) : M mem unit :=
  match fuel with
  | O => nofuel
  | S fuel' =>
      if vma =? NULL then mret tt
      else
        v ← deref (λ s, vmas s !! vma);
        let next := vm_next v in
        kfree vma;;
        destroy_loop fuel' next
  end.

Definition mm_destroy (mm : Z) : M mem unit :=
  if mm =? NULL then mret tt
  else
    m ← deref (λ s, mms s !! mm);
    s ← get;
    destroy_loop (S (size (vmas s))) (mm_mmap m);;
    kfree mm.

Definition allocate_kernel_stack (size : Z) : M mem Z :=
  stack ← kmalloc size;
  mret stack.

Definition free_kernel_stack (stack : Z) : M mem unit := kfree stack.

(** The copies agree call by call. *)
Lemma kmalloc_copy : kmalloc = Memory.kmalloc.
Proof. done. Qed.

Lemma mm_destroy_copy : mm_destroy = Memory.mm_destroy.
Proof. done. Qed.

#[export] Instance process_mm_allocator : Allocator mem :=
  {| al_kmalloc := kmalloc; al_kfree := kfree; al_rep := Memory.bump_rep |}.

#[export] Instance process_mm_allocator_laws : AllocatorLaws mem (Allocator0 := process_mm_allocator).
Proof. exact Memory.memory_allocator_laws. Qed.

(** An address space made by mm_create is empty and mm_destroy takes it down again, in any
    state of the allocator in which it succeeds; mm_create fails, without changing anything,
    exactly when the array has no room for the structure. *)
Theorem mm_create_destroy s :
  Memory.bump_ok s →
  if HEAP_SIZE <? heap_used s + sizeof_mm_struct then mm_create s = Ret NULL s
  else ∃ mm s', mm_create s = Ret mm s' ∧ mm = heap_addr + heap_used s ∧ Memory.bump_ok s' ∧
    mms s' = <[mm := mm_zero]> (mms s) ∧ mm_destroy mm s' = Ret tt s'.
Proof.
  intros Hok. pose proof heap_addr_pos. pose proof Hok as [Hu _]. unfold mm_create.
  rewrite kmalloc_copy. change sizeof_mm_struct with 40.
  destruct (Z.ltb_spec HEAP_SIZE (heap_used s + 40)) as [Hf|Hf].
  - by rewrite (bind_ret _ _ _ _ _ (Memory.kmalloc_full s 40 Hok ltac:(lia) Hf)).
  - rewrite (bind_ret _ _ _ _ _ (Memory.kmalloc_fits s 40 Hok ltac:(lia) Hf)).
    rewrite (proj2 (Z.eqb_neq _ NULL)) by (unfold NULL; lia).
    destruct (Memory.bump_ok_step s 40 Hok ltac:(lia) Hf) as [_ Hok'].
    eexists _, _. split; [done|]. split; [done|]. split; [done|]. split; [done|].
    rewrite mm_destroy_copy. apply Memory.mm_destroy_ret.
    exists mm_zero, []. cbn. by rewrite lookup_insert_eq.
Qed.
End process_mm.
End ProcessMm.

Lemma mm_create_destroy_witness :
  Memory.bump_ok (Mem 8 ∅ ∅) ∧
  ∃ mm s', ProcessMm.mm_create (L := heap_at_1M) (Mem 8 ∅ ∅) = Ret mm s' ∧ mm = 0x100000 + 8 ∧
    Memory.bump_ok s' ∧ mms s' = <[mm := mm_zero]> ∅ ∧ ProcessMm.mm_destroy mm s' = Ret tt s'.
Proof.
  split; [by vm_compute|].
  exact (ProcessMm.mm_create_destroy (L := heap_at_1M) (Mem 8 ∅ ∅) ltac:(by vm_compute)).
Defined.
