(* ===== verification/Paging.v ===== *)
(** * Physical pages, virtual memory and paging (kernel/mm/{physical,virtual,paging}.c)

    The managers are frameworks: counting of free pages, the direct map and the register CR3
    are there, the search for a page and the walks of the tables are not. The model has what the
    code does. [KERNEL_VIRTUAL_BASE] is defined nowhere in the sources and is a parameter. *)

From stdpp Require Import base numbers gmap list.
From S2P Require Import Prelude.

Local Open Scope Z_scope.

(** [phys_mem_manager], [vmm], the words of the page tables and the register CR3. *)
Record phys_mem : Type := MkPhys { zones : Z; frames : Z; total_pages : Z; free_pages : Z }.
Record vmm_t : Type := MkVmm { kernel_pgd : Z; kernel_start : Z; kernel_end : Z }.
Record paging : Type := MkPaging {
  phys_mem_manager : phys_mem;
  vmm : vmm_t;
  words : gmap Z Z;
  cr3 : Z;
}.

Definition set_phys (p : phys_mem) (s : paging) : paging := MkPaging p (vmm s) (words s) (cr3 s).
Definition set_free (n : Z) (s : paging) : paging :=
  let p := phys_mem_manager s in
  set_phys (MkPhys (zones p) (frames p) (total_pages p) n) s.
Definition set_vmm (v : vmm_t) (s : paging) : paging :=
  MkPaging (phys_mem_manager s) v (words s) (cr3 s).
Definition free_of (s : paging) : Z := free_pages (phys_mem_manager s).

(** ** physical.c *)

Definition phys_mem_init : M paging unit := modify (set_phys (MkPhys NULL NULL 0 0)).

Definition phys_alloc_page : M paging Z :=
  s ← get;
  if free_of s =? 0 then mret 0
  else
    modify (set_free (u32 (free_of s - 1)));;
    mret 0.

Definition phys_free_page (phys_addr : Z) : M paging unit :=
  if phys_addr =? 0 then mret tt
  else modify (λ s, set_free (u32 (free_of s + 1)) s).

(** The two results, written through the pointers that are not null. *)
Definition phys_mem_info (want_total want_free : bool) : M paging (option Z * option Z) :=
  s ← get;
  mret (if want_total then Some (total_pages (phys_mem_manager s)) else None,
        if want_free then Some (free_of s) else None).

Section base.
Context (KERNEL_VIRTUAL_BASE : Z).

(** ** virtual.c *)

Definition phys_to_virt (phys_addr : Z) : Z := u64 (phys_addr + KERNEL_VIRTUAL_BASE).
Definition virt_to_phys (virt_addr : Z) : Z := u64 (virt_addr - KERNEL_VIRTUAL_BASE).

Definition vmm_init : M paging unit := modify (set_vmm (MkVmm NULL 0 0)).

(** [entries[i] = 0] of the table at [table]. *)
Definition clear_entry (table i : Z) : M paging unit := λ s,
  match words s !! (u64 (table + 8 * i)) with
  | Some _ => Ret tt (MkPaging (phys_mem_manager s) (vmm s)
                        (<[u64 (table + 8 * i) := 0]> (words s)) (cr3 s))
  | None => Fault
  end.

Definition create_page_table : M paging Z :=
  phys_addr ← phys_alloc_page;
  if phys_addr =? 0 then mret 0
  else
    let table := phys_to_virt phys_addr in
    for_range 512 0 (λ i, clear_entry table i);;
    mret phys_addr.

Definition vmm_map_page (pgd virt_addr phys_addr flags : Z) : M paging Z := mret 0.
Definition vmm_unmap_page (pgd virt_addr : Z) : M paging unit := mret tt.
Definition vmm_translate (pgd virt_addr : Z) : M paging Z := mret 0.

(** ** paging.c *)

Definition get_cr3 : M paging Z := s ← get; mret (cr3 s).
Definition set_cr3 (v : Z) : M paging unit :=
  modify (λ s, MkPaging (phys_mem_manager s) (vmm s) (words s) v).
Definition flush_tlb : M paging unit := v ← get_cr3; set_cr3 v.
(** [invlpg] drops a cached translation; the state has none. *)
Definition flush_tlb_single (addr : Z) : M paging unit := mret tt.

Definition paging_init : M paging unit := vmm_init.

Definition paging_create_address_space : M paging Z :=
  pgd_phys ← phys_alloc_page;
  if pgd_phys =? 0 then mret 0
  else
    let pgd := phys_to_virt pgd_phys in
    for_range 512 0 (λ i, clear_entry pgd i);;
    mret pgd_phys.

Definition paging_destroy_address_space (v : Z) : M paging unit := phys_free_page v.
Definition paging_switch_address_space (v : Z) : M paging unit := set_cr3 v.

(** ** Properties *)

(** The direct map is a bijection of the 64-bit addresses: converting a physical address to
    a kernel virtual address and back is the identity, and the other way round, whatever the
    base of the map. *)
Theorem direct_map_inverse a :
  0 <= a < 2 ^ 64 → virt_to_phys (phys_to_virt a) = a ∧ phys_to_virt (virt_to_phys a) = a.
Proof.
  intros Ha. unfold virt_to_phys, phys_to_virt, u64, wrap.
  rewrite Zminus_mod_idemp_l, Zplus_mod_idemp_l. split.
  - replace (a + KERNEL_VIRTUAL_BASE - KERNEL_VIRTUAL_BASE) with a by lia. by apply Z.mod_small.
  - replace (a - KERNEL_VIRTUAL_BASE + KERNEL_VIRTUAL_BASE) with a by lia. by apply Z.mod_small.
Qed.

(** A client that creates address spaces and destroys those it was given. *)
Fixpoint spaces (n : nat) : M paging unit :=
  match n with
  | O => mret tt
  | S n' =>
      v ← paging_create_address_space;
      paging_destroy_address_space v;;
      spaces n'
  end.

Lemma alloc_fails s :
  0 <= free_of s < 2 ^ 32 → phys_alloc_page s = Ret 0 (set_free (Z.max 0 (free_of s - 1)) s).
Proof.
  intros Hf. unfold phys_alloc_page. rewrite bind_get.
  destruct (Z.eqb_spec (free_of s) 0) as [E|E].
  - destruct s as [[z f t n] v w c]. cbn in E. by subst n.
  - rewrite bind_modify. rewrite u32_small, Z.max_r by lia. done.
Qed.

(** No address space and no page table can be created: in every state both functions return
    0, the failure code, without writing a table. As long as the free count is not 0 (phys_mem_init
    leaves it at 0) each attempt takes a page off it, and destroying what was returned does not
    give it back. *)
Theorem paging_loses_pages n s :
  0 <= free_of s < 2 ^ 32 →
  spaces n s = Ret tt (set_free (Z.max 0 (free_of s - Z.of_nat n)) s) ∧
  paging_create_address_space s = Ret 0 (set_free (Z.max 0 (free_of s - 1)) s) ∧
  create_page_table s = Ret 0 (set_free (Z.max 0 (free_of s - 1)) s).
Proof.
  intros Hf.
  assert (Hc : ∀ s, 0 <= free_of s < 2 ^ 32 →
    paging_create_address_space s = Ret 0 (set_free (Z.max 0 (free_of s - 1)) s)).
  { intros s' Hf'. unfold paging_create_address_space.
    by rewrite (bind_ret _ _ _ _ _ (alloc_fails s' Hf')). }
  split; [|split; [by apply Hc|]].
  - revert s Hf. induction n as [|n IH]; intros s Hf.
    + cbn. rewrite Z.sub_0_r, Z.max_r by lia. by destruct s as [[]].
    + cbn [spaces]. rewrite (bind_ret _ _ _ _ _ (Hc s Hf)).
      change ((paging_destroy_address_space 0;; spaces n) ?s) with (spaces n s).
      rewrite IH by (cbn; lia). unfold set_free, set_phys, free_of.
      cbn [phys_mem_manager free_pages zones frames total_pages vmm words cr3].
      do 3 f_equal. lia.
  - unfold create_page_table. by rewrite (bind_ret _ _ _ _ _ (alloc_fails s Hf)).
Qed.
End base.

Definition demo_paging : paging := MkPaging (MkPhys 0 0 16 16) (MkVmm 0 0 0) ∅ 0.

Lemma direct_map_inverse_witness :
  0 <= 0xB8000 < 2 ^ 64 ∧
  virt_to_phys 0xFFFF800000000000 (phys_to_virt 0xFFFF800000000000 0xB8000) = 0xB8000 ∧
  phys_to_virt 0xFFFF800000000000 (virt_to_phys 0xFFFF800000000000 0xB8000) = 0xB8000.
Proof. split; [lia|]. apply direct_map_inverse. lia. Defined.

Lemma paging_loses_pages_witness :
  free_of demo_paging = 16 ∧
  spaces 0 20 demo_paging = Ret tt (set_free (Z.max 0 (16 - Z.of_nat 20)) demo_paging) ∧
  paging_create_address_space 0 demo_paging = Ret 0 (set_free (Z.max 0 (16 - 1)) demo_paging) ∧
  create_page_table 0 demo_paging = Ret 0 (set_free (Z.max 0 (16 - 1)) demo_paging).
Proof.
  split; [reflexivity|]. apply (paging_loses_pages 0 20 demo_paging). cbn. lia.
Defined.

(** The free count is not bounded by the number of pages: freeing any non-zero address counts
    it again, up to the wrap of the 32-bit counter. *)
Lemma phys_free_wraps s a :
  a ≠ 0 → free_of s = 2 ^ 32 - 1 → phys_free_page a s = Ret tt (set_free 0 s).
Proof.
  intros Ha E. unfold phys_free_page. rewrite (proj2 (Z.eqb_neq a 0)) by done.
  unfold modify. by rewrite E.
Qed.
