(* ===== verification/Heap.v ===== *)
(** * kernel/mm/heap.c: the first-fit heap

    The heap is a run of adjacent blocks, each headed by a [block_header_t] and linked to its
    neighbours in both directions. Allocation takes the first free block that is large enough
    and splits it when the rest is worth it; freeing merges the block with its free
    neighbours. A header stays in the store after its block has been merged away, as it stays
    in memory; nothing below depends on such remains. *)

From stdpp Require Import base numbers strings gmap list.
From S2P Require Import Prelude.
From S2P Require Import Allocator.

Local Open Scope Z_scope.

Record block_header := BlockHeader {
  bh_size : Z;
  bh_magic : Z;
  bh_is_free : bool;
  bh_next : Z;
  bh_prev : Z;
}.

Definition block_header_fields : list field :=
  [scalar "size" 4; scalar "magic" 4; scalar "is_free" 1; scalar "next" 8; scalar "prev" 8].
Definition HEADER : Z := Eval vm_compute in sizeof block_header_fields.

Definition HEAP_MAGIC : Z := 0x12345678.

Record heap := Heap {
  headers : gmap Z block_header;
  first_block : Z;
  last_block : Z;
  heap_start : Z;
  heap_end : Z;
  heap_size : Z;
  free_size : Z;
}.

Definition set_headers (v : gmap Z block_header) (s : heap) : heap :=
  Heap v (first_block s) (last_block s) (heap_start s) (heap_end s) (heap_size s) (free_size s).
Definition set_last_block (v : Z) (s : heap) : heap :=
  Heap (headers s) (first_block s) v (heap_start s) (heap_end s) (heap_size s) (free_size s).
Definition set_free_size (v : Z) (s : heap) : heap :=
  Heap (headers s) (first_block s) (last_block s) (heap_start s) (heap_end s) (heap_size s) v.

Definition set_bh_size (v : Z) (b : block_header) : block_header :=
  BlockHeader v (bh_magic b) (bh_is_free b) (bh_next b) (bh_prev b).
Definition set_bh_free (v : bool) (b : block_header) : block_header :=
  BlockHeader (bh_size b) (bh_magic b) v (bh_next b) (bh_prev b).
Definition set_bh_next (v : Z) (b : block_header) : block_header :=
  BlockHeader (bh_size b) (bh_magic b) (bh_is_free b) v (bh_prev b).
Definition set_bh_prev (v : Z) (b : block_header) : block_header :=
  BlockHeader (bh_size b) (bh_magic b) (bh_is_free b) (bh_next b) v.

Definition get_hdr (p : Z) : M heap block_header := deref (λ s, headers s !! p).
Definition put_hdr (p : Z) (b : block_header) : M heap unit :=
  modify (λ s, set_headers (<[p := b]> (headers s)) s).
Definition upd_hdr (p : Z) (f : block_header → block_header) : M heap unit :=
  b ← get_hdr p; put_hdr p (f b).

Module Heap.

(** ** Operations *)

Definition heap_init (start size : Z) : heap :=
  let adjust := 16 - Z.land start 0xF in
  let misaligned := negb (Z.land start 0xF =? 0) in
  let size := if misaligned then u64 (size - adjust) else size in
  let start := if misaligned then u64 (start + adjust) else start in
  let size := Z.land size (u64 (Z.lnot 0xF)) in
  Heap {[start := BlockHeader (u32 (size - HEADER)) HEAP_MAGIC true NULL NULL]}
    start start start (u64 (start + size)) size size.

(** [if (next) next->prev = block; else heap_manager.last_block = block;] *)
Definition relink_next (next block : Z) : M heap unit :=
  if next =? NULL then modify (set_last_block block) else upd_hdr next (set_bh_prev block).

(** Cut the block [cur] after [size] bytes. *)
Definition split_block (cur size : Z) : M heap unit :=
  c ← get_hdr cur;
  let new_block := u64 (cur + HEADER + size) in
  put_hdr new_block (BlockHeader (u32 (bh_size c - size - HEADER)) HEAP_MAGIC true (bh_next c) cur);;
  upd_hdr cur (set_bh_size (u32 size));;
  upd_hdr cur (set_bh_next new_block);;
  n ← get_hdr new_block;
  relink_next (bh_next n) new_block.

(** Hand out the free block [cur]. *)
Definition take_block (cur size : Z) : M heap Z :=
  c ← get_hdr cur;
  when (u64 (size + HEADER + 16) <? bh_size c) (split_block cur size);;
  upd_hdr cur (set_bh_free false);;
  c ← get_hdr cur;
  modify (λ s, set_free_size (u64 (free_size s - u64 (bh_size c + HEADER))) s);;
  mret (u64 (cur + HEADER)).

Fixpoint kmalloc_loop (fuel : nat) (size cur : Z) : M heap Z :=
  match fuel with
  | O => nofuel
  | S fuel' =>
      if cur =? NULL then mret NULL
      else
        c ← get_hdr cur;
        if bh_is_free c && (size <=? bh_size c) then take_block cur size
        else kmalloc_loop fuel' size (bh_next c)
  end.

(** The list has at most as many blocks as there are headers. *)
Definition kmalloc (size : Z) : M heap Z :=
  s ← get;
  let size := Z.land (u64 (size + 15)) (u64 (Z.lnot 15)) in
  kmalloc_loop (S (base.size (headers s))) size (first_block s).

(** The text of both merges: the block [left] absorbs its neighbour [right]. *)
Definition join (left right : Z) : M heap unit :=
  l ← get_hdr left;
  r ← get_hdr right;
  upd_hdr left (set_bh_size (u32 (bh_size l + u64 (bh_size r + HEADER))));;
  upd_hdr left (set_bh_next (bh_next r));;
  relink_next (bh_next r) left.

Definition merge_next (block : Z) : M heap unit :=
  b ← get_hdr block;
  if bh_next b =? NULL then mret tt
  else
    n ← get_hdr (bh_next b);
    when (bh_is_free n) (join block (bh_next b)).

Definition merge_prev (block : Z) : M heap unit :=
  b ← get_hdr block;
  if bh_prev b =? NULL then mret tt
  else
    p ← get_hdr (bh_prev b);
    when (bh_is_free p) (join (bh_prev b) block).

Definition kfree (ptr : Z) : M heap unit :=
  if ptr =? NULL then mret tt
  else
    let block := u64 (ptr - HEADER) in
    b ← get_hdr block;
    if negb (bh_magic b =? HEAP_MAGIC) then mret tt
    else
      upd_hdr block (set_bh_free true);;
      modify (λ s, set_free_size (u64 (free_size s + u64 (bh_size b + HEADER))) s);;
      merge_next block;;
      merge_prev block.

(** What is stored through the two pointers, which may be NULL. *)
Definition heap_stats (want_total want_free : bool) : M heap (option Z * option Z) :=
  s ← get;
  mret (if want_total then Some (heap_size s) else None,
        if want_free then Some (free_size s) else None).

(** ** The heap as a list of blocks *)

Record block := Block { b_addr : Z; b_size : Z; b_free : bool }.

(** The specification of the two operations on the list. *)
Fixpoint a_alloc (size : Z) (bs : list block) : option (Z * list block) :=
  match bs with
  | [] => None
  | b :: bs' =>
      if b_free b && (size <=? b_size b) then
        if size + 48 <? b_size b then
          Some (b_addr b, Block (b_addr b) size false ::
            Block (b_addr b + HEADER + size) (b_size b - size - HEADER) true :: bs')
        else Some (b_addr b, Block (b_addr b) (b_size b) false :: bs')
      else
        '(p, bs'') ← a_alloc size bs';
        Some (p, b :: bs'')
  end.

(** Two neighbours, the first of them just freed or free already. *)
Definition absorb (b : block) (bs : list block) : list block :=
  match bs with
  | n :: bs' =>
      if b_free b && b_free n then Block (b_addr b) (b_size b + b_size n + HEADER) true :: bs'
      else b :: bs
  | [] => [b]
  end.

Fixpoint a_free (p : Z) (bs : list block) : list block :=
  match bs with
  | [] => []
  | b :: bs' =>
      if b_addr b =? p then absorb (Block p (b_size b) true) bs'
      else absorb b (a_free p bs')
  end.

(** ** Representation *)

Definition hd_addr (bs : list block) (nx : Z) : Z := match bs with [] => nx | b :: _ => b_addr b end.
Fixpoint last_addr (bs : list block) (pv : Z) : Z :=
  match bs with [] => pv | b :: bs' => last_addr bs' (b_addr b) end.

(** The headers of [bs], linked in both directions between [pv] and [nx]. *)
Fixpoint seg (m : gmap Z block_header) (pv : Z) (bs : list block) (nx : Z) : Prop :=
  match bs with
  | [] => True
  | b :: bs' =>
      m !! b_addr b = Some (BlockHeader (b_size b) HEAP_MAGIC (b_free b) (hd_addr bs' nx) pv) ∧
      seg m (b_addr b) bs' nx
  end.

(** The blocks fill the addresses from [a] to [e] without a gap. *)
Fixpoint contig (a : Z) (bs : list block) (e : Z) : Prop :=
  match bs with
  | [] => a = e
  | b :: bs' => b_addr b = a ∧ 0 <= b_size b ∧ b_size b mod 16 = 0 ∧ contig (a + HEADER + b_size b) bs' e
  end.

Definition free_bytes (bs : list block) : Z :=
  foldr (λ b n, (if b_free b then b_size b + HEADER else 0) + n) 0 bs.

(** No two neighbours are free. *)
Fixpoint coalesced (bs : list block) : Prop :=
  match bs with
  | b :: (n :: _) as bs' => (b_free b = true → b_free n = false) ∧ coalesced bs'
  | _ => True
  end.

(** The invariant: [bs] is what the headers, the manager and the counters describe. *)
Record hbase (s : heap) (bs : list block) : Prop := {
  hi_start : 0 < heap_start s ∧ heap_start s mod 16 = 0;
  hi_end : heap_end s = heap_start s + heap_size s ∧ heap_end s < 2 ^ 64 ∧ 0 < heap_size s <= 2 ^ 32;
  hi_seg : seg (headers s) NULL bs NULL;
  hi_first : first_block s = hd_addr bs NULL;
  hi_last : last_block s = last_addr bs NULL;
  hi_contig : contig (heap_start s) bs (heap_end s);
  hi_free : free_size s = free_bytes bs;
}.

Record hinv (s : heap) (bs : list block) : Prop := {
  hi_base :> hbase s bs;
  hi_coalesced : coalesced bs;
}.

(** [s'] describes the same region. *)
Definition same_region (s s' : heap) : Prop :=
  heap_start s' = heap_start s ∧ heap_size s' = heap_size s.

(** *** Lists of blocks *)

Lemma hd_addr_app l1 l2 nx : hd_addr (l1 ++ l2) nx = hd_addr l1 (hd_addr l2 nx).
Proof. by destruct l1. Qed.

Lemma last_addr_app l1 l2 pv : last_addr (l1 ++ l2) pv = last_addr l2 (last_addr l1 pv).
Proof. revert pv. induction l1 as [|b l1 IH]; intros pv; [done|apply IH]. Qed.

Lemma seg_app m pv l1 l2 nx :
  seg m pv (l1 ++ l2) nx ↔ seg m pv l1 (hd_addr l2 nx) ∧ seg m (last_addr l1 pv) l2 nx.
Proof.
  revert pv. induction l1 as [|b l1 IH]; intros pv; simpl; [tauto|].
  rewrite IH, hd_addr_app. tauto.
Qed.

Lemma contig_app a l1 l2 e : contig a (l1 ++ l2) e ↔ ∃ c, contig a l1 c ∧ contig c l2 e.
Proof.
  revert a. induction l1 as [|b l1 IH]; intros a; simpl.
  - split; [intros H; by exists a|by intros (c & -> & ?)].
  - rewrite IH. naive_solver.
Qed.

Lemma contig_le a bs e : contig a bs e → a <= e.
Proof.
  revert a. induction bs as [|b bs IH]; intros a; simpl; [lia|].
  intros (_ & Hn & _ & H%IH). unfold HEADER in H. lia.
Qed.

Lemma contig_bounds a bs e b :
  contig a bs e → b ∈ bs → a <= b_addr b ∧ b_addr b + HEADER + b_size b <= e.
Proof.
  revert a. induction bs as [|c bs IH]; intros a; simpl; [by intros _ ?%not_elem_of_nil|].
  intros (Ha & Hn & _ & H) [->|Hb]%elem_of_cons.
  - apply contig_le in H. lia.
  - destruct (IH _ H Hb). unfold HEADER in *. lia.
Qed.

Lemma contig_size a bs e b : contig a bs e → b ∈ bs → 0 <= b_size b ∧ b_size b mod 16 = 0.
Proof.
  revert a. induction bs as [|c bs IH]; intros a; simpl; [by intros _ ?%not_elem_of_nil|].
  intros (_ & Hn & Hm & H) [->|Hb]%elem_of_cons; [done|by eapply IH].
Qed.

Lemma free_bytes_app l1 l2 : free_bytes (l1 ++ l2) = free_bytes l1 + free_bytes l2.
Proof. unfold free_bytes. induction l1 as [|b l1 IH]; simpl; lia. Qed.

Lemma free_bytes_bound a bs e : contig a bs e → 0 <= free_bytes bs <= e - a.
Proof.
  revert a. induction bs as [|b bs IH]; intros a; simpl; [unfold free_bytes; simpl; lia|].
  intros (_ & Hn & _ & H). apply IH in H. unfold free_bytes, HEADER in *; simpl.
  destruct (b_free b); lia.
Qed.

(** Blocks on the two sides of a block. *)
Lemma contig_sides a pre b post e :
  contig a (pre ++ b :: post) e →
  a <= b_addr b ∧ b_addr b + HEADER + b_size b <= e ∧ 0 <= b_size b ∧ b_size b mod 16 = 0 ∧
  contig a pre (b_addr b) ∧ contig (b_addr b + HEADER + b_size b) post e ∧
  (∀ c, c ∈ pre → b_addr c + HEADER <= b_addr b) ∧
  (∀ c, c ∈ post → b_addr b + HEADER + b_size b <= b_addr c).
Proof.
  intros (c & Hpre & Hb & Hn & Hm & Hpost)%contig_app. subst c.
  pose proof (contig_le _ _ _ Hpre). pose proof (contig_le _ _ _ Hpost).
  split_and!; try done.
  - intros c Hc. destruct (contig_bounds _ _ _ _ Hpre Hc), (contig_size _ _ _ _ Hpre Hc). lia.
  - intros c Hc. by destruct (contig_bounds _ _ _ _ Hpost Hc).
Qed.

Lemma seg_ext m m' pv bs nx :
  (∀ b, b ∈ bs → m' !! b_addr b = m !! b_addr b) → seg m pv bs nx → seg m' pv bs nx.
Proof.
  revert pv. induction bs as [|b bs IH]; intros pv Hm; simpl; [done|]. intros [Hb Hs]. split.
  - rewrite Hm; [done|by left].
  - apply IH; [|done]. intros c Hc. apply Hm. by right.
Qed.

Lemma seg_lookup m pv bs nx b : seg m pv bs nx → b ∈ bs → is_Some (m !! b_addr b).
Proof.
  revert pv. induction bs as [|c bs IH]; intros pv; simpl; [by intros _ ?%not_elem_of_nil|].
  intros [Hb Hs] [->|Hin]%elem_of_cons; [by eauto|by eapply IH].
Qed.

(** The number of headers bounds the length of the list. *)
Lemma seg_length m pv bs nx a e :
  seg m pv bs nx → contig a bs e → (length bs <= base.size m)%nat.
Proof.
  intros Hs Hc. assert (NoDup (b_addr <$> bs)) as Hnd.
  { clear Hs. revert a Hc. induction bs as [|b bs IH]; intros a Hc; [apply NoDup_nil_2|].
    destruct Hc as (Ha & Hn & _ & Hc). simpl. apply NoDup_cons. split; [|by eapply IH].
    intros (c & E & Hin)%list_elem_of_fmap. destruct (contig_bounds _ _ _ _ Hc Hin).
    unfold HEADER in *. lia. }
  rewrite <- (length_fmap b_addr), <- (size_list_to_set (C := gset Z) _ Hnd), <- size_dom.
  apply subseteq_size. intros x (b & -> & Hb)%elem_of_list_to_set%list_elem_of_fmap.
  apply elem_of_dom. by eapply seg_lookup.
Qed.

(** *** Headers *)

Lemma get_hdr_ret s p b : headers s !! p = Some b → get_hdr p s = Ret b s.
Proof. apply (deref_ret (λ s, headers s !! p)). Qed.

Lemma upd_hdr_ret s p b f :
  headers s !! p = Some b → upd_hdr p f s = Ret tt (set_headers (<[p := f b]> (headers s)) s).
Proof. intros H. unfold upd_hdr. by mstep (get_hdr_ret _ _ _ H). Qed.

(** The members of the manager that the list operations do not write. *)
Definition rest (s : heap) : Z * Z * Z * Z * Z :=
  (first_block s, heap_start s, heap_end s, heap_size s, free_size s).

(** [s'] differs from [s] in the headers of the blocks [bs] and in [last_block] only. *)
Record only_at (bs : list block) (s s' : heap) : Prop := {
  oa_headers q : (∀ b, b ∈ bs → b_addr b ≠ q) → headers s' !! q = headers s !! q;
  oa_rest : rest s' = rest s;
}.

(** After [relink_next] the blocks that follow hang on [x]. *)
Lemma relink_ok s pv post x a e :
  seg (headers s) pv post NULL → contig a post e → 0 < a →
  ∃ s', relink_next (hd_addr post NULL) x s = Ret tt s' ∧
    seg (headers s') x post NULL ∧ only_at post s s' ∧
    last_block s' = match post with [] => x | _ => last_block s end.
Proof.
  intros Hs Hc Ha. unfold relink_next. destruct post as [|b post]; simpl.
  - eexists. split; [done|]. split_and!; [done|by split|done].
  - destruct Hs as [Hb Hs], Hc as (Hba & Hn & _ & Hc).
    rewrite (proj2 (Z.eqb_neq (b_addr b) NULL)) by (unfold NULL; lia).
    eexists. split; [by apply upd_hdr_ret|]. split; [|split; [|done]].
    + split; [by simpl; rewrite lookup_insert_eq|]. eapply seg_ext; [|done]. intros c Hcin. simpl.
      destruct (contig_bounds _ _ _ _ Hc Hcin). rewrite lookup_insert_ne; [done|].
      unfold HEADER in *. lia.
    + split; [|done]. intros q Hq. simpl. rewrite lookup_insert_ne; [done|].
      apply Hq. by left.
Qed.

(** Splitting the block [b] of the list [pre ++ b :: post]. *)
Lemma split_block_ok s a pre b post e size :
  seg (headers s) NULL (pre ++ b :: post) NULL → contig a (pre ++ b :: post) e →
  0 < a → e < 2 ^ 64 → b_size b < 2 ^ 32 → 0 <= size → size + 48 < b_size b →
  let b1 := Block (b_addr b) size (b_free b) in
  let b2 := Block (b_addr b + HEADER + size) (b_size b - size - HEADER) true in
  ∃ s', split_block (b_addr b) size s = Ret tt s' ∧
    seg (headers s') NULL (pre ++ b1 :: b2 :: post) NULL ∧
    rest s' = rest s ∧
    last_block s' = match post with [] => b_addr b2 | _ => last_block s end.
Proof.
  intros Hs Hc Ha He Hb32 Hsz Hbig b1 b2.
  destruct (contig_sides _ _ _ _ _ Hc) as (Hab & Hbe & Hn & _ & Hcpre & Hcpost & Hpre & Hpost).
  apply seg_app in Hs as [Hspre [Hb Hspost]]. simpl in Hspre.
  unfold HEADER in *. change (b_addr b2) with (b_addr b + 32 + size).
  unfold split_block. mstep (get_hdr_ret _ _ _ Hb). cbv zeta. simpl bh_size. simpl bh_next.
  unfold HEADER. rewrite (u64_small (b_addr b + 32 + size)) by lia.
  rewrite (u32_small (b_size b - size - 32)) by lia.
  unfold put_hdr at 1. rewrite bind_modify. set (new := b_addr b + 32 + size).
  set (h2 := BlockHeader (b_size b - size - 32) HEAP_MAGIC true (hd_addr post NULL) (b_addr b)).
  set (s1 := set_headers (<[new := h2]> (headers s)) s).
  assert (headers s1 !! b_addr b = Some (BlockHeader (b_size b) HEAP_MAGIC (b_free b)
    (hd_addr post NULL) (last_addr pre NULL))) as Hb1
    by (unfold s1; simpl; rewrite lookup_insert_ne; [done|unfold new; lia]).
  mstep (upd_hdr_ret _ _ _ (set_bh_size (u32 size)) Hb1). set (s2 := set_headers _ s1).
  assert (headers s2 !! b_addr b = Some (BlockHeader size HEAP_MAGIC (b_free b)
    (hd_addr post NULL) (last_addr pre NULL))) as Hb2.
  { unfold s2. simpl. rewrite lookup_insert_eq. unfold set_bh_size; simpl. by rewrite u32_small by lia. }
  mstep (upd_hdr_ret _ _ _ (set_bh_next new) Hb2). set (s3 := set_headers _ s2).
  assert (headers s3 !! new = Some h2) as Hnew.
  { unfold s3, s2, s1. simpl. rewrite !(lookup_insert_ne _ (b_addr b)) by (unfold new; lia).
    apply lookup_insert_eq. }
  mstep (get_hdr_ret _ _ _ Hnew). simpl bh_next.
  assert (∀ q, q ≠ new → q ≠ b_addr b → headers s3 !! q = headers s !! q) as Hother
    by (intros q Hq1 Hq2; unfold s3, s2, s1; simpl; by rewrite !lookup_insert_ne).
  destruct (relink_ok s3 (b_addr b) post new (b_addr b + 32 + b_size b) e)
    as (s' & E & Hseg & Hoa & Hlast); [|exact Hcpost|lia|].
  { eapply seg_ext; [|exact Hspost]. intros c Hin. apply Hother; specialize (Hpost c Hin); unfold new; lia. }
  exists s'. split; [done|]. split_and!.
  - assert (∀ q, (∀ c, c ∈ post → b_addr c ≠ q) → headers s' !! q = headers s3 !! q) as Hs'
      by apply Hoa.
    apply seg_app. simpl. split; [|split; [|split; [|done]]].
    + eapply seg_ext; [|exact Hspre]. intros c Hin. specialize (Hpre c Hin).
      rewrite Hs' by (intros d Hd; specialize (Hpost d Hd); lia).
      apply Hother; unfold new; lia.
    + rewrite Hs' by (intros d Hd; specialize (Hpost d Hd); lia).
      unfold s3. simpl. by rewrite lookup_insert_eq.
    + rewrite Hs' by (intros d Hd; specialize (Hpost d Hd); unfold new; lia). done.
  - by rewrite (oa_rest _ _ _ Hoa).
  - done.
Qed.

(** *** Allocation *)

(** What is left of the block [b] when [size] bytes of it are handed out. *)
Definition cut (b : block) (size : Z) : list block :=
  if size + 48 <? b_size b then
    [Block (b_addr b) size false; Block (b_addr b + HEADER + size) (b_size b - size - HEADER) true]
  else [Block (b_addr b) (b_size b) false].

Lemma a_alloc_none size pre post :
  Forall (λ b, b_free b && (size <=? b_size b) = false) pre →
  a_alloc size (pre ++ post) = '(p, bs) ← a_alloc size post; Some (p, pre ++ bs).
Proof.
  induction 1 as [|b pre Hb _ IH]; simpl; [by destruct (a_alloc size post) as [[]|]|].
  rewrite Hb, IH. by destruct (a_alloc size post) as [[]|].
Qed.

Lemma a_alloc_hit size pre b post :
  Forall (λ b, b_free b && (size <=? b_size b) = false) pre →
  b_free b && (size <=? b_size b) = true →
  a_alloc size (pre ++ b :: post) = Some (b_addr b, pre ++ cut b size ++ post).
Proof.
  intros Hpre Hb. rewrite a_alloc_none by done. simpl. rewrite Hb. unfold cut.
  by destruct (size + 48 <? b_size b).
Qed.

(** The list stays contiguous, its free bytes shrink by the block handed out, and no two free
    blocks become neighbours. *)
Lemma contig_cut a pre b post e size :
  contig a (pre ++ b :: post) e → 0 <= size → size mod 16 = 0 → contig a (pre ++ cut b size ++ post) e.
Proof.
  rewrite !contig_app. intros (c & Hpre & Hb & Hn & Hm & Hpost) Hsz Hs16. exists c. split; [done|].
  unfold cut. destruct (Z.ltb_spec (size + 48) (b_size b)); simpl; unfold HEADER in *.
  - split_and!; [done..| |lia|lia| |].
    + lia.
    + rewrite <- (Z.mod_add _ 2) by lia. replace (b_size b - size - 32 + 2 * 16) with (b_size b - size) by lia.
      rewrite Zminus_mod, Hm, Hs16. done.
    + by replace (c + 32 + size + 32 + (b_size b - size - 32)) with (c + 32 + b_size b) by lia.
  - split_and!; done.
Qed.

Lemma free_bytes_cut pre b post size :
  b_free b = true → size <= b_size b →
  free_bytes (pre ++ cut b size ++ post) =
    free_bytes (pre ++ b :: post) - ((if size + 48 <? b_size b then size else b_size b) + HEADER).
Proof.
  intros Hb Hle. rewrite !free_bytes_app. unfold cut, free_bytes, HEADER. simpl. rewrite Hb.
  destruct (size + 48 <? b_size b); simpl; lia.
Qed.

Lemma coalesced_app l1 l2 :
  coalesced (l1 ++ l2) ↔ coalesced l1 ∧ coalesced l2 ∧
    (∀ b c, last l1 = Some b → head l2 = Some c → b_free b = true → b_free c = false).
Proof.
  induction l1 as [|b [|c l1] IH]; simpl.
  - split; [|tauto]. intros H. split_and!; done.
  - destruct l2 as [|d l2]; simpl; [naive_solver|]. split.
    + intros [H1 H2]. split_and!; [done..|]. by intros ? ? [= <-] [= <-].
    + intros (_ & H2 & H3). split; [by apply H3|done].
  - simpl in IH. rewrite IH. naive_solver.
Qed.

Lemma coalesced_cut pre b post size :
  coalesced (pre ++ b :: post) → b_free b = true → coalesced (pre ++ cut b size ++ post).
Proof.
  rewrite !coalesced_app. intros (H1 & H2 & H3) Hb.
  assert (coalesced (cut b size) ∧ head (cut b size) = Some (Block (b_addr b)
    (if size + 48 <? b_size b then size else b_size b) false)) as [Hc Hh]
    by (unfold cut; by destruct (size + 48 <? b_size b)).
  split; [done|]. split.
  - split; [done|]. split; [destruct post; [done|apply H2]|].
    intros x y _ Hy _. destruct post as [|c post]; [done|]. injection Hy as <-. by apply H2.
  - intros x y Hx Hy _. unfold cut in Hy. destruct (size + 48 <? b_size b); by injection Hy as <-.
Qed.

(** The headers after the optional split, before the block is marked. *)
Lemma cut_headers s pre b post size :
  hinv s (pre ++ b :: post) → b_free b = true → 0 <= size <= b_size b → size mod 16 = 0 →
  let n1 := if size + 48 <? b_size b then size else b_size b in
  ∃ s1 tl, when (size + 48 <? b_size b) (split_block (b_addr b) size) s = Ret tt s1 ∧
    seg (headers s1) NULL (pre ++ Block (b_addr b) n1 true :: tl ++ post) NULL ∧
    rest s1 = rest s ∧ cut b size = Block (b_addr b) n1 false :: tl ∧
    last_block s1 = last_addr (tl ++ post) (b_addr b).
Proof.
  intros [[[Hst _] (He & He64 & Hhs) Hs Hf Hl Hc _] _] Hb Hsz H16 n1.
  destruct (contig_sides _ _ _ _ _ Hc) as (Hab & Hbe & Hn & _). unfold HEADER in Hbe.
  rewrite last_addr_app in Hl. simpl in Hl. unfold n1, cut, when.
  destruct (Z.ltb_spec (size + 48) (b_size b)) as [Hbig|_]; simpl.
  - destruct (split_block_ok s _ pre b post _ size Hs Hc) as (s1 & E1 & Hs1 & Hr1 & Hl1); try lia.
    rewrite Hb in Hs1. eexists s1, [_]. split_and!; [done..|]. rewrite Hl1. simpl.
    by destruct post.
  - exists s, []. split_and!; [done| |done|done|done]. simpl. by destruct b; simpl in *; subst.
Qed.

(** A write to the header of [b] leaves those before and after it as they were. *)
Lemma seg_update m pre b b' post x nx h :
  seg m NULL (pre ++ b :: post) nx → contig x (pre ++ b' :: post) h → b_addr b' = b_addr b →
  0 <= b_size b' →
  seg (<[b_addr b := BlockHeader (b_size b') HEAP_MAGIC (b_free b') (hd_addr post nx)
          (last_addr pre NULL)]> m) NULL (pre ++ b' :: post) nx.
Proof.
  intros (Hspre & Hhb & Hspost)%seg_app Hc Ea Hn.
  destruct (contig_sides _ _ _ _ _ Hc) as (_ & _ & _ & _ & _ & _ & Hpre & Hpost).
  unfold HEADER in Hpre, Hpost.
  apply seg_app. simpl. rewrite Ea in *. split; [|split; [by rewrite lookup_insert_eq|]].
  - eapply seg_ext; [|exact Hspre]. intros c Hin. rewrite lookup_insert_ne; [done|].
    specialize (Hpre c Hin). lia.
  - eapply seg_ext; [|exact Hspost]. intros c Hin. rewrite lookup_insert_ne; [done|].
    specialize (Hpost c Hin). lia.
Qed.

(** Handing out the block [b]. *)
Lemma take_block_ok s pre b post size :
  hinv s (pre ++ b :: post) → b_free b = true → 0 <= size <= b_size b → size mod 16 = 0 →
  ∃ s', take_block (b_addr b) size s = Ret (b_addr b + HEADER) s' ∧
    hinv s' (pre ++ cut b size ++ post) ∧
    same_region s s'.
Proof.
  intros Hi Hb Hsz H16. pose proof (cut_headers s pre b post size Hi Hb Hsz H16) as Hcut.
  destruct Hi as [[[Hst Hst16] (He & He64 & Hhs) Hs Hf Hl Hc Hfr] Hco].
  destruct (contig_sides _ _ _ _ _ Hc) as (Hab & Hbe & Hn & _).
  pose proof Hs as [_ [Hhb _]]%seg_app. unfold take_block. mstep (get_hdr_ret _ _ _ Hhb). simpl bh_size.
  unfold HEADER in Hbe |- *. rewrite (u64_small (size + 32 + 16)) by lia.
  replace (size + 32 + 16) with (size + 48) by lia. cbv zeta in Hcut.
  assert (0 <= (if size + 48 <? b_size b then size else b_size b) <= b_size b) as Hn1
    by (destruct (size + 48 <? b_size b); lia).
  pose proof (free_bytes_cut pre b post size Hb ltac:(lia)) as Hfb.
  set (n1 := if size + 48 <? b_size b then size else b_size b) in *. clearbody n1.
  destruct Hcut as (s1 & tl & E1 & Hs1 & Hr1 & Ecut & Hl1).
  mstep E1. pose proof Hs1 as [_ [Hhb1 _]]%seg_app.
  mstep (upd_hdr_ret _ _ _ (set_bh_free false) Hhb1). set (s2 := set_headers _ s1).
  mstep (get_hdr_ret s2 _ _ (lookup_insert_eq _ _ _)). rewrite bind_modify. simpl bh_size.
  injection Hr1 as Ef Est Een Esz Efs.
  pose proof (contig_cut _ _ _ _ _ size Hc ltac:(lia) H16) as Hc'. rewrite Ecut in *.
  pose proof (free_bytes_bound _ _ _ Hc'). pose proof (free_bytes_bound _ _ _ Hc).
  rewrite (u64_small (b_addr b + 32)) by lia. eexists. split; [reflexivity|].
  split; [|by split; simpl; rewrite ?Est, ?Esz].
  split; [|by pose proof (coalesced_cut _ _ _ size Hco Hb) as H'; rewrite Ecut in H'].
  constructor; simpl; rewrite ?Est, ?Een, ?Esz, ?Ef; try done.
  - by eapply (seg_update _ pre (Block (b_addr b) n1 true) (Block (b_addr b) n1 false) (tl ++ post));
      [|exact Hc'| |simpl; lia].
  - rewrite Hf, !hd_addr_app. done.
  - by rewrite Hl1, (last_addr_app pre).
  - unfold HEADER in Hfb. simpl app in *. rewrite Efs, Hfr, (u64_small (n1 + 32)), u64_small by lia. lia.
Qed.

Lemma kmalloc_loop_ok fuel s pre post size :
  hinv s (pre ++ post) → 0 <= size → size mod 16 = 0 →
  Forall (λ b, b_free b && (size <=? b_size b) = false) pre → (length post < fuel)%nat →
  match a_alloc size (pre ++ post) with
  | None => kmalloc_loop fuel size (hd_addr post NULL) s = Ret NULL s
  | Some (p, bs') =>
      ∃ s', kmalloc_loop fuel size (hd_addr post NULL) s = Ret (p + HEADER) s' ∧ hinv s' bs' ∧ same_region s s'
  end.
Proof.
  intros Hi Hsz H16. revert fuel pre Hi. induction post as [|b post IH]; intros [|fuel] pre Hi Hpre Hf;
    try (simpl in Hf; lia).
  - rewrite a_alloc_none by done. done.
  - pose proof (hi_seg _ _ Hi) as [_ [Hb _]]%seg_app. cbn [kmalloc_loop hd_addr].
    assert (0 < b_addr b) as Hpos.
    { destruct (contig_sides _ _ _ _ _ (hi_contig _ _ Hi)) as (? & _). pose proof (hi_start _ _ Hi). lia. }
    rewrite (proj2 (Z.eqb_neq (b_addr b) NULL)) by (unfold NULL; lia).
    mstep (get_hdr_ret _ _ _ Hb). cbn [bh_is_free bh_size bh_next].
    destruct (b_free b && (size <=? b_size b)) eqn:Hfit.
    + rewrite a_alloc_hit by done. apply andb_true_iff in Hfit as [Hfree Hle%Z.leb_le].
      by apply take_block_ok.
    + replace (pre ++ b :: post) with ((pre ++ [b]) ++ post) in * by (by rewrite <- app_assoc).
      apply IH; [done|apply Forall_app; split; [done|by constructor]|simpl in Hf; lia].
Qed.

Lemma kmalloc_ok s bs n :
  hinv s bs → 0 <= n < 2 ^ 63 →
  match a_alloc (align_up 4 n) bs with
  | None => kmalloc n s = Ret NULL s
  | Some (p, bs') =>
      ∃ s', kmalloc n s = Ret (p + HEADER) s' ∧ hinv s' bs' ∧ same_region s s'
  end.
Proof.
  intros Hi Hn. unfold kmalloc. rewrite bind_get. cbv zeta.
  change (Z.land (u64 (n + 15)) (u64 (Z.lnot 15))) with (align_up 4 n).
  destruct (align_up_spec 4 n) as [Hr Hm]; [lia|lia|].
  rewrite (hi_first _ _ Hi). apply (kmalloc_loop_ok _ s [] bs); [done|lia|done|by constructor|].
  pose proof (seg_length _ _ _ _ _ _ (hi_seg _ _ Hi) (hi_contig _ _ Hi)). lia.
Qed.

(** *** Release *)

(** Two free neighbours become one block. *)
Lemma join_ok s pre b n post :
  hbase s (pre ++ b :: n :: post) → b_free b = true → b_free n = true →
  ∃ s', join (b_addr b) (b_addr n) s = Ret tt s' ∧
    hbase s' (pre ++ Block (b_addr b) (b_size b + b_size n + HEADER) true :: post) ∧
    same_region s s'.
Proof.
  intros [[Hst Hst16] (He & He64 & Hhs) Hs Hf Hl Hc Hfr] Hb Hn.
  destruct (contig_sides _ _ _ _ _ Hc) as (Hab & Hbe & Hnb & Hmb & Hcpre & Hcn & Hpre & Hpost).
  destruct Hcn as (Han & Hnn & Hmn & Hcpost). pose proof (contig_le _ _ _ Hcpost) as Hle.
  pose proof Hs as (Hspre & Hhb & Hhn & Hspost)%seg_app. unfold join, HEADER in *. simpl in Hhb.
  mstep (get_hdr_ret _ _ _ Hhb). mstep (get_hdr_ret _ _ _ Hhn). cbn [bh_size bh_next].
  rewrite (u64_small (b_size n + 32)), u32_small by lia.
  mstep (upd_hdr_ret _ _ _ (set_bh_size (b_size b + (b_size n + 32))) Hhb).
  set (s1 := set_headers _ s). cbv [set_bh_size bh_size bh_magic bh_is_free bh_next bh_prev] in s1.
  mstep (upd_hdr_ret s1 _ _ (set_bh_next (hd_addr post NULL)) (lookup_insert_eq _ _ _)).
  set (s2 := set_headers _ s1). cbv [set_bh_next bh_size bh_magic bh_is_free bh_next bh_prev] in s2.
  assert (∀ q, q ≠ b_addr b → headers s2 !! q = headers s !! q) as Hother
    by (intros q Hq; unfold s2, s1; simpl; by rewrite !lookup_insert_ne).
  destruct (relink_ok s2 (b_addr n) post (b_addr b) (b_addr b + 32 + b_size b + 32 + b_size n) (heap_end s))
    as (s' & E & Hseg & Hoa & Hlast); [|done|lia|].
  { eapply seg_ext; [|exact Hspost]. intros c Hin. apply Hother.
    specialize (Hpost c ltac:(by right)). lia. }
  exists s'. split; [done|]. pose proof (oa_rest _ _ _ Hoa) as Hr. injection Hr as Ef Est Een Esz Efs.
  split; [|done].
  assert (∀ q, q < b_addr b + 32 → headers s' !! q = headers s2 !! q) as Hs'.
  { intros q Hq. apply (oa_headers _ _ _ Hoa). intros c Hin. specialize (Hpost c ltac:(by right)). lia. }
  constructor; rewrite ?Est, ?Een, ?Esz, ?Ef; try done.
  - apply seg_app. simpl. split; [|split; [|done]].
    + eapply seg_ext; [|exact Hspre]. intros c Hin. specialize (Hpre c Hin). rewrite Hs' by lia. apply Hother. lia.
    + rewrite Hs' by lia. unfold s2. simpl. rewrite lookup_insert_eq, Hb. do 2 f_equal. lia.
  - change (first_block s2) with (first_block s). by rewrite Hf, !hd_addr_app.
  - rewrite Hlast. change (last_block s2) with (last_block s). rewrite Hl, !last_addr_app. by destruct post.
  - apply contig_app. exists (b_addr b). split; [done|]. simpl. unfold HEADER.
    split; [done|]. split; [lia|]. split.
    + replace (b_size b + b_size n + 32) with (b_size b + b_size n + 2 * 16) by lia.
      by rewrite Z.mod_add, Zplus_mod, Hmb, Hmn by lia.
    + by replace (b_addr b + 32 + (b_size b + b_size n + 32))
        with (b_addr b + 32 + b_size b + 32 + b_size n) by lia.
  - change (free_size s2) with (free_size s) in Efs. rewrite Efs, Hfr, !free_bytes_app.
    unfold free_bytes, HEADER; simpl. rewrite Hb, Hn. lia.
Qed.

Lemma block_pos s bs b : hbase s bs → b ∈ bs → 0 < b_addr b.
Proof.
  intros Hb Hin. destruct (contig_bounds _ _ _ _ (hi_contig _ _ Hb) Hin). pose proof (hi_start _ _ Hb). lia.
Qed.

Lemma merge_next_ok s pre b post :
  hbase s (pre ++ b :: post) → b_free b = true →
  ∃ s', merge_next (b_addr b) s = Ret tt s' ∧ hbase s' (pre ++ absorb b post) ∧ same_region s s'.
Proof.
  intros Hi Hb. pose proof (hi_seg _ _ Hi) as (_ & Hhb & Hspost)%seg_app. unfold merge_next.
  mstep (get_hdr_ret _ _ _ Hhb). cbn [bh_next]. destruct post as [|n post]; [by exists s|].
  simpl in Hhb, Hspost |- *. destruct Hspost as [Hhn _].
  assert (0 < b_addr n) by (eapply block_pos; [done|set_solver]).
  rewrite (proj2 (Z.eqb_neq (b_addr n) NULL)) by (unfold NULL; lia).
  mstep (get_hdr_ret _ _ _ Hhn). cbn [bh_is_free]. rewrite Hb. unfold when.
  destruct (b_free n) eqn:Hn; [by apply join_ok|by exists s].
Qed.

Lemma merge_prev_first s b post :
  hbase s (b :: post) → merge_prev (b_addr b) s = Ret tt s.
Proof.
  intros Hi. pose proof (hi_seg _ _ Hi) as [Hhb _]. unfold merge_prev. by mstep (get_hdr_ret _ _ _ Hhb).
Qed.

Lemma merge_prev_ok s pre p b post :
  hbase s (pre ++ p :: b :: post) → b_free b = true →
  ∃ s', merge_prev (b_addr b) s = Ret tt s' ∧ hbase s' (pre ++ absorb p (b :: post)) ∧ same_region s s'.
Proof.
  intros Hi Hb. pose proof (hi_seg _ _ Hi) as (_ & Hhp & Hhb & _)%seg_app. unfold merge_prev.
  mstep (get_hdr_ret _ _ _ Hhb). cbn [bh_prev].
  assert (0 < b_addr p) by (eapply block_pos; [done|set_solver]).
  rewrite (proj2 (Z.eqb_neq (b_addr p) NULL)) by (unfold NULL; lia).
  mstep (get_hdr_ret _ _ _ Hhp). cbn [bh_is_free]. simpl. rewrite Hb. unfold when.
  destruct (b_free p) eqn:Hp; [by apply join_ok|by exists s].
Qed.

(** *** The list specification of [kfree] *)

Lemma coalesced_absorb b bs : coalesced bs → coalesced (absorb b bs).
Proof.
  destruct bs as [|n bs]; [done|]. unfold absorb. intros H.
  destruct (b_free b) eqn:Hb, (b_free n) eqn:Hn; simpl andb; cbv iota.
  - destruct bs as [|m bs]; [done|]. destruct H as [H1 H2]. split; [|done]. intros _. by apply H1.
  - split; [by intros _|done].
  - split; [by rewrite Hb|done].
  - split; [by rewrite Hb|done].
Qed.

Lemma absorb_head b bs : ∃ n rest, absorb b bs = n :: rest ∧ b_free n = b_free b ∧ b_addr n = b_addr b.
Proof.
  destruct bs as [|n bs]; [by exists b, []|]. unfold absorb.
  destruct (b_free b) eqn:Hb, (b_free n); simpl; eauto.
Qed.

Lemma foldr_absorb pre bs : coalesced (pre ++ bs) → foldr absorb bs pre = pre ++ bs.
Proof.
  induction pre as [|b pre IH]; intros H; [done|]. simpl in *.
  rewrite IH by (by destruct (pre ++ bs); [|destruct H]).
  destruct (pre ++ bs) as [|n l]; [done|]. destruct H as [H _]. unfold absorb.
  destruct (b_free b); [|done]. by rewrite H.
Qed.

Lemma a_free_app pre b post :
  (∀ c, c ∈ pre → b_addr c ≠ b_addr b) →
  a_free (b_addr b) (pre ++ b :: post) =
    foldr absorb (absorb (Block (b_addr b) (b_size b) true) post) pre.
Proof.
  induction pre as [|c pre IH]; intros Hne; simpl; [by rewrite Z.eqb_refl|].
  rewrite (proj2 (Z.eqb_neq (b_addr c) (b_addr b))) by (apply Hne; by left).
  rewrite IH; [done|]. intros d Hd. apply Hne. by right.
Qed.

Lemma coalesced_snoc pre p X :
  coalesced (pre ++ [p]) → coalesced X → (∃ n r, X = n :: r ∧ b_free n = b_free p) → coalesced (pre ++ X).
Proof.
  rewrite !coalesced_app. intros (H1 & _ & H3) HX (n & r & -> & Hn). split; [done|]. split; [done|].
  intros x y Hx [= <-] Hf. rewrite Hn. by eapply H3.
Qed.

(** The heap after the block [b] has been marked free and counted, before the merges. *)
Lemma mark_free_base s pre b post :
  hbase s (pre ++ b :: post) → b_free b = false →
  let b' := Block (b_addr b) (b_size b) true in
  hbase (set_free_size (u64 (free_size s + u64 (b_size b + HEADER)))
    (set_headers (<[b_addr b := BlockHeader (b_size b) HEAP_MAGIC true (hd_addr post NULL)
       (last_addr pre NULL)]> (headers s)) s)) (pre ++ b' :: post).
Proof.
  intros [[Hst' H16] He' Hs Hf Hl Hc Hfr] Hb b'.
  assert (contig (heap_start s) (pre ++ b' :: post) (heap_end s)) as Hc'
    by (apply contig_app in Hc; by apply contig_app).
  destruct (contig_sides _ _ _ _ _ Hc) as (_ & _ & Hn & _). constructor; try done.
  - by eapply (seg_update _ pre b b' post); [|exact Hc'| |simpl; lia].
  - simpl. by rewrite Hf, !hd_addr_app.
  - simpl. by rewrite Hl, !last_addr_app.
  - simpl. rewrite Hfr.
    assert (free_bytes (pre ++ b' :: post) = free_bytes (pre ++ b :: post) + (b_size b + HEADER)) as E.
    { rewrite !free_bytes_app. unfold free_bytes. simpl. rewrite Hb. lia. }
    pose proof (free_bytes_bound _ _ _ Hc). pose proof (free_bytes_bound _ _ _ Hc').
    unfold HEADER in *. rewrite E, (u64_small (b_size b + 32)), u64_small by lia. done.
Qed.

(** The second merge of [kfree], at the head of the blocks [n :: r] after [pre]. *)
Lemma merge_prev_absorb s pre n r :
  hbase s (pre ++ n :: r) → b_free n = true → coalesced pre → coalesced (n :: r) →
  ∃ s', merge_prev (b_addr n) s = Ret tt s' ∧ hinv s' (foldr absorb (n :: r) pre) ∧
    same_region s s'.
Proof.
  intros Hi Hnf Hpre Hr. induction pre as [|p pre _] using rev_ind.
  - rewrite (merge_prev_first s n r Hi). by exists s.
  - rewrite <- app_assoc in Hi. simpl in Hi.
    destruct (merge_prev_ok s pre p n r Hi Hnf) as (s3 & E3 & Hi3 & Hr3). exists s3. split; [done|].
    rewrite foldr_app. simpl.
    assert (coalesced (pre ++ absorb p (n :: r))) as Hc3.
    { apply (coalesced_snoc pre p); [done|by apply coalesced_absorb|].
      destruct (absorb_head p (n :: r)) as (x & y & -> & ? & _). by exists x, y. }
    rewrite foldr_absorb by done. split; [by split|done].
Qed.

(** Freeing an allocated block. *)
Lemma kfree_ok s pre b post :
  hinv s (pre ++ b :: post) → b_free b = false →
  ∃ s', kfree (b_addr b + HEADER) s = Ret tt s' ∧
    hinv s' (a_free (b_addr b) (pre ++ b :: post)) ∧ same_region s s'.
Proof.
  intros [Hi Hco] Hb. set (b' := Block (b_addr b) (b_size b) true).
  destruct (contig_sides _ _ _ _ _ (hi_contig _ _ Hi)) as (Hab & Hbe & Hn & _ & _ & _ & Hpre & _).
  pose proof (hi_start _ _ Hi) as [Hst _]. pose proof (hi_end _ _ Hi) as (He & He64 & Hhs).
  pose proof (hi_seg _ _ Hi) as (_ & Hhb & _)%seg_app. unfold HEADER in Hbe.
  unfold kfree. rewrite (proj2 (Z.eqb_neq _ NULL)) by (unfold HEADER, NULL; lia). cbv zeta.
  replace (b_addr b + HEADER - HEADER) with (b_addr b) by lia. rewrite (u64_small (b_addr b)) by lia.
  mstep (get_hdr_ret _ _ _ Hhb). cbn [bh_magic]. rewrite Z.eqb_refl. cbn [negb bh_size].
  mstep (upd_hdr_ret _ _ _ (set_bh_free true) Hhb). rewrite bind_modify. cbn [bh_size].
  pose proof (mark_free_base s pre b post Hi Hb) as Hi1. cbv zeta in Hi1. fold b' in Hi1.
  match type of Hi1 with hbase ?t _ => set (s1 := t) in Hi1; change (set_free_size _ _) with s1 end.
  assert (same_region s s1) as Hr1 by done. clearbody s1.
  rewrite a_free_app by (intros c Hin; specialize (Hpre c Hin); unfold HEADER in Hpre; lia). fold b'.
  destruct (merge_next_ok s1 pre b' post Hi1) as (s2 & E2 & Hi2 & Hr2); [done|].
  change (b_addr b') with (b_addr b) in E2. mstep E2.
  apply coalesced_app in Hco as (Hpre' & Hco & _).
  assert (coalesced (absorb b' post)) as HX
    by (apply coalesced_absorb; destruct post; [done|apply Hco]).
  destruct (absorb_head b' post) as (n & r & EX & Hnf & Hna). rewrite EX in *.
  change (b_addr b') with (b_addr b) in Hna. rewrite <- Hna.
  destruct (merge_prev_absorb s2 pre n r Hi2) as (s3 & E3 & Hi3 & Hr3); [|done|done|].
  { by rewrite Hnf. }
  exists s3. split; [done|]. split; [done|]. destruct Hr1, Hr2, Hr3; split; congruence.
Qed.

Lemma free_bytes_absorb b bs : free_bytes (absorb b bs) = free_bytes (b :: bs).
Proof.
  destruct bs as [|n bs]; [done|]. unfold absorb.
  destruct (b_free b) eqn:Hb, (b_free n) eqn:Hn; try done. unfold free_bytes, HEADER. simpl.
  rewrite Hb, Hn. lia.
Qed.

Lemma free_bytes_foldr bs pre : free_bytes (foldr absorb bs pre) = free_bytes (pre ++ bs).
Proof.
  induction pre as [|b pre IH]; [done|]. simpl. rewrite free_bytes_absorb. unfold free_bytes in *. simpl. lia.
Qed.

(** ** The allocator contract *)

Lemma a_alloc_inv size bs p bs' :
  a_alloc size bs = Some (p, bs') →
  ∃ pre b post, bs = pre ++ b :: post ∧ b_free b = true ∧ size <= b_size b ∧ p = b_addr b ∧
    bs' = pre ++ cut b size ++ post ∧ Forall (λ b, b_free b && (size <=? b_size b) = false) pre.
Proof.
  revert p bs'. induction bs as [|b bs IH]; intros p bs' E; [done|]. cbn [a_alloc] in E.
  destruct (b_free b && (size <=? b_size b)) eqn:Hfit.
  - pose proof (a_alloc_hit size [] b bs (Forall_nil_2 _) Hfit) as E'. cbn [app a_alloc] in E'.
    rewrite Hfit, E in E'. apply andb_true_iff in Hfit as [Hf Hs%Z.leb_le].
    injection E' as -> ->. exists [], b, bs. by split_and!.
  - destruct (a_alloc size bs) as [[p' bs'']|] eqn:E'; [|done]. simplify_eq/=.
    destruct (IH _ _ eq_refl) as (pre & c & post & -> & Hf & Hs & -> & -> & Hpre).
    exists (b :: pre), c, post. split_and!; [done..|]. by constructor.
Qed.

Lemma a_alloc_fail size bs b :
  a_alloc size bs = None → b ∈ bs → b_free b = true → b_size b < size.
Proof.
  induction bs as [|c bs IH]; intros E Hin Hf; [by apply not_elem_of_nil in Hin|]. cbn [a_alloc] in E.
  destruct (b_free c && (size <=? b_size c)) eqn:Hfit; [by destruct (size + 48 <? b_size c)|].
  destruct (a_alloc size bs) as [[]|]; [done|]. apply elem_of_cons in Hin as [->|Hin]; [|by apply IH].
  rewrite Hf in Hfit. by apply Z.leb_gt in Hfit.
Qed.

(** The allocated blocks of the list. *)
Definition taken (bs : list block) (b : block) : Prop := b ∈ bs ∧ b_free b = false.

Lemma taken_cut pre b post size c :
  b_free b = true →
  taken (pre ++ cut b size ++ post) c ↔
    taken (pre ++ b :: post) c ∨
    c = Block (b_addr b) (if size + 48 <? b_size b then size else b_size b) false.
Proof.
  intros Hb. unfold taken, cut. destruct (size + 48 <? b_size b); simpl app;
    rewrite !elem_of_app, !elem_of_cons; (split; [intros [[?|Hc] Hf]|intros [[[?|Hc] Hf]| ->]]); auto.
  - destruct Hc as [-> |[-> |?]]; [by right|done|]. auto.
  - destruct Hc as [-> |?]; [congruence|]. auto.
  - destruct Hc as [-> |?]; [by right|]. auto.
  - destruct Hc as [-> |?]; [congruence|]. auto.
Qed.

Lemma taken_absorb b bs c : taken (absorb b bs) c ↔ taken (b :: bs) c.
Proof.
  unfold taken, absorb. destruct bs as [|n bs]; [done|].
  destruct (b_free b) eqn:Hb, (b_free n) eqn:Hn; simpl; try done.
  rewrite !elem_of_cons. split.
  - intros [[-> |?] Hf]; [done|auto].
  - intros [[-> |[-> |?]] Hf]; [congruence|congruence|auto].
Qed.

Lemma taken_cons b bs c : taken (b :: bs) c ↔ (c = b ∧ b_free b = false) ∨ taken bs c.
Proof. unfold taken. rewrite elem_of_cons. split; [intros [[-> |?] ?]|intros [[-> ?]|[? ?]]]; auto. Qed.

Lemma taken_free pre b post c :
  (∀ d, d ∈ pre → b_addr d ≠ b_addr b) →
  taken (a_free (b_addr b) (pre ++ b :: post)) c ↔ taken (pre ++ post) c.
Proof.
  intros Hne. rewrite a_free_app by done. clear Hne.
  induction pre as [|d pre IH]; cbn [foldr app].
  - rewrite taken_absorb, taken_cons. simpl. split; [by intros [[_ ?]|?]|by right].
  - by rewrite taken_absorb, !taken_cons, IH.
Qed.

Lemma contig_apart a bs e b c :
  contig a bs e → b ∈ bs → c ∈ bs → b_addr b ≠ b_addr c →
  b_addr b + HEADER + b_size b <= b_addr c ∨ b_addr c + HEADER + b_size c <= b_addr b.
Proof.
  revert a. induction bs as [|d bs IH]; intros a Hc Hb Hcin Hne; [by apply not_elem_of_nil in Hb|].
  destruct Hc as (Ha & Hn & _ & Hc).
  apply elem_of_cons in Hb as [->|Hb], Hcin as [->|Hcin]; [done| | |by eapply IH].
  - destruct (contig_bounds _ _ _ _ Hc Hcin). lia.
  - destruct (contig_bounds _ _ _ _ Hc Hb). lia.
Qed.

Lemma contig_inj a bs e b c :
  contig a bs e → b ∈ bs → c ∈ bs → b_addr b = b_addr c → b = c.
Proof.
  revert a. induction bs as [|d bs IH]; intros a Hc Hb Hcin E; [by apply not_elem_of_nil in Hb|].
  destruct Hc as (Ha & Hn & _ & Hc).
  apply elem_of_cons in Hb as [->|Hb], Hcin as [->|Hcin]; [done| | |by eapply IH];
    unfold HEADER in Hc; [destruct (contig_bounds _ _ _ _ Hc Hcin)|destruct (contig_bounds _ _ _ _ Hc Hb)];
    lia.
Qed.

(** What the clients hold are the allocated blocks. *)
Definition heap_rep (s : heap) (m : gmap Z Z) : Prop :=
  ∃ bs, hinv s bs ∧ blocks_ok m ∧
    (∀ p n, m !! p = Some n → ∃ z, taken bs (Block (p - HEADER) z false) ∧ n <= z) ∧
    (∀ b, taken bs b → is_Some (m !! (b_addr b + HEADER))).

(** The heap as an allocator over the region of [sz] bytes from [a]. *)
#[export] Instance heap_allocator (a sz : Z) : Allocator heap :=
  {| al_kmalloc := kmalloc; al_kfree := kfree;
     al_rep s m := heap_rep s m ∧ heap_start s = a ∧ heap_size s = sz |}.

Lemma heap_kmalloc_rep s m n :
  heap_rep s m → request_ok n →
  ∃ p s', kmalloc n s = Ret p s' ∧ same_region s s' ∧
    ((p = NULL ∧ heap_rep s' m) ∨
     (0 < p ∧ m !! p = None ∧ heap_rep s' (<[p := n]> m) ∧
      ∀ q k, m !! q = Some k → disjoint_blocks p n q k)).
Proof.
  intros (bs & Hi & Hm & Hown & Hall) [Hn Hn2].
  pose proof (kmalloc_ok s bs n Hi ltac:(lia)) as H.
  destruct (a_alloc (align_up 4 n) bs) as [[a bs']|] eqn:E.
  2:{ exists NULL, s. split_and!; [done..|]. left. split; [done|]. by exists bs. }
  destruct H as (s' & E' & Hi' & Hr).
  destruct (a_alloc_inv _ _ _ _ E) as (pre & b & post & -> & Hf & Hsz & -> & -> & _).
  destruct (align_up_spec 4 n) as [Hal _]; [lia|lia|].
  set (z := if align_up 4 n + 48 <? b_size b then align_up 4 n else b_size b) in *.
  assert (n <= z) as Hz by (unfold z; destruct (_ <? _); lia).
  assert (0 < b_addr b) as Hpos by (eapply block_pos; [apply Hi|set_solver]).
  assert (taken (pre ++ cut b (align_up 4 n) ++ post) (Block (b_addr b) z false)) as Hnew
    by (apply taken_cut; [done|by right]).
  assert (∀ q k, m !! q = Some k → disjoint_blocks (b_addr b + HEADER) n q k) as Hdis.
  { intros q k Hq. destruct (Hown _ _ Hq) as (zq & [Hin _] & Hk).
    assert (b ∈ pre ++ b :: post) as Hbin by set_solver.
    destruct (contig_apart _ _ _ b (Block (q - HEADER) zq false) (hi_contig _ _ Hi) Hbin Hin) as [H|H];
      [|unfold disjoint_blocks, HEADER in *; simpl in *; lia..].
    intros Ea. apply (contig_inj _ _ _ _ _ (hi_contig _ _ Hi) Hbin Hin) in Ea. by rewrite Ea in Hf. }
  exists (b_addr b + HEADER), s'. split_and!; [done..|]. right.
  assert (m !! (b_addr b + HEADER) = None) as Hfresh
    by exact (blocks_fresh m (b_addr b + HEADER) n Hm Hn Hdis).
  split_and!; [unfold HEADER; lia|done| |done].
  exists (pre ++ cut b (align_up 4 n) ++ post). split; [done|]. split; [|split].
  - apply blocks_ok_insert; [done|unfold HEADER; lia|done|done].
  - intros q k [[<- <-]|[_ Hq]]%lookup_insert_Some.
    + exists z. by replace (b_addr b + HEADER - HEADER) with (b_addr b) by lia.
    + destruct (Hown _ _ Hq) as (zq & Ht & Hk). exists zq. split; [|done]. apply taken_cut; [done|by left].
  - intros c Hc. apply taken_cut in Hc as [Hc| ->]; [| |done].
    + rewrite lookup_insert_is_Some'. right. by apply Hall.
    + simpl. rewrite lookup_insert_eq. eauto.
Qed.

Lemma heap_kfree_rep s m p n :
  heap_rep s m → m !! p = Some n →
  ∃ s', kfree p s = Ret tt s' ∧ same_region s s' ∧ heap_rep s' (delete p m).
Proof.
  intros (bs & Hi & Hm & Hown & Hall) Hp. destruct (Hown _ _ Hp) as (z & [Hin _] & _).
  apply list_elem_of_split in Hin as (pre & post & ->). set (b := Block (p - HEADER) z false) in *.
  destruct (kfree_ok s pre b post Hi eq_refl) as (s' & E & Hi' & Hr).
  replace (b_addr b + HEADER) with p in E by (simpl; lia). exists s'. split_and!; [done..|].
  pose proof (hi_contig _ _ Hi) as Hc. destruct (contig_sides _ _ _ _ _ Hc) as (_ & _ & Hn & _ & _ & _ & Hpre & Hpost).
  assert (∀ d, d ∈ pre → b_addr d ≠ b_addr b) as Hpre'
    by (intros d Hd; specialize (Hpre d Hd); unfold HEADER in Hpre; lia).
  assert (∀ d, d ∈ post → b_addr d ≠ b_addr b) as Hpost'
    by (intros d Hd; specialize (Hpost d Hd); unfold HEADER in Hpost; lia).
  assert (∀ c, taken (a_free (b_addr b) (pre ++ b :: post)) c ↔ taken (pre ++ b :: post) c ∧ b_addr c ≠ b_addr b)
    as Ht.
  { intros c. rewrite taken_free by done. unfold taken. rewrite !elem_of_app, elem_of_cons. split.
    - intros [[Hc'|Hc'] Hf]; auto.
    - intros [[[Hc'|[-> |Hc']] Hf] Hne]; auto. done. }
  eexists. split; [exact Hi'|]. split; [by apply blocks_ok_delete|]. split.
  - intros q k [Hne Hq]%lookup_delete_Some. destruct (Hown _ _ Hq) as (zq & Htq & Hk).
    exists zq. split; [|done]. apply Ht. split; [done|]. simpl. lia.
  - intros c [Hc1 Hc2]%Ht. destruct (Hall c Hc1) as [k Hk]. exists k. apply lookup_delete_Some.
    split; [simpl in Hc2; lia|done].
Qed.

#[export] Instance heap_allocator_laws a sz : AllocatorLaws heap (Allocator0 := heap_allocator a sz).
Proof.
  constructor; simpl.
  - intros s m n (Hs & <- & <-) Hn.
    destruct (heap_kmalloc_rep s m n Hs Hn) as (p & s' & E & [Hr1 Hr2] & H). exists p, s'.
    split; [done|]. destruct H as [[? ?]|(? & ? & ? & ?)]; [by left|by right].
  - intros s m p n (Hs & <- & <-) Hp.
    destruct (heap_kfree_rep s m p n Hs Hp) as (s' & E & [Hr1 Hr2] & H). by exists s'.
  - intros s m p n ((bs & _ & [Hm _] & _) & _) Hp. by destruct (Hm _ _ Hp).
Qed.

(** ** Initialisation *)

Definition region_ok (start size : Z) : Prop :=
  0 < start ∧ 64 <= size <= 2 ^ 32 ∧ start + size + 16 < 2 ^ 64.

Lemma land15 x : 0 <= x → Z.land x 0xF = x mod 16.
Proof. intros. by apply (Z.land_ones x 4). Qed.

Lemma heap_init_ok start size :
  region_ok start size →
  ∃ a n, hinv (heap_init start size) [Block a n true] ∧
    start <= a < start + 16 ∧ size - 63 <= n ∧ a + HEADER + n <= start + size ∧
    heap_start (heap_init start size) = a ∧ heap_size (heap_init start size) = n + HEADER.
Proof.
  intros (Hst & Hsz & Htop). unfold heap_init. cbv zeta. rewrite land15 by lia.
  pose proof (Z.mod_pos_bound start 16 ltac:(lia)) as Hmod. pose proof (Z.div_mod start 16 ltac:(lia)) as Hdm.
  set (mis := negb (start mod 16 =? 0)).
  set (a := if mis then u64 (start + (16 - start mod 16)) else start).
  set (z := if mis then u64 (size - (16 - start mod 16)) else size).
  assert (start <= a < start + 16 ∧ a mod 16 = 0 ∧ size - 15 <= z <= size ∧ a + z <= start + size) as (Ha & Ha16 & Hz & Haz).
  { unfold a, z, mis. destruct (Z.eqb_spec (start mod 16) 0) as [E|E]; simpl; [lia|].
    rewrite !u64_small by lia. split_and!; try lia.
    replace (start + (16 - start mod 16)) with ((start / 16 + 1) * 16) by lia. apply Z.mod_mul. lia. }
  clearbody a z. change (Z.lnot 0xF) with (Z.lnot (2 ^ 4 - 1)). rewrite land_lnot_ones by lia.
  change (2 ^ 4) with 16. pose proof (Z.mod_pos_bound z 16 ltac:(lia)) as Hmz.
  assert ((z - z mod 16) mod 16 = 0) as Hn16 by (rewrite Zminus_mod, Z.mod_mod, Z.sub_diag by lia; done).
  set (w := z - z mod 16) in *. unfold HEADER. rewrite (u32_small (w - 32)), (u64_small (a + w)) by lia.
  exists a, (w - 32). split; [|simpl; lia]. split; [|done].
  constructor; simpl; try done; try lia.
  - split; [by rewrite lookup_singleton_eq|done].
  - unfold HEADER. split_and!; [done|lia| |lia].
    rewrite Zminus_mod, Hn16. done.
  - unfold free_bytes, HEADER. simpl. lia.
Qed.

Lemma heap_init_rep start size :
  region_ok start size →
  ∃ a sz, al_rep (Allocator := heap_allocator a sz) (heap_init start size) ∅ ∧
    start <= a ∧ a + sz <= start + size ∧ a mod 16 = 0.
Proof.
  intros H. destruct (heap_init_ok start size H) as (a & n & Hi & Ha & _ & Ht & E1 & E2).
  exists a, (n + HEADER). split; [|split_and!; [lia|lia|]].
  - split; [|done]. exists [Block a n true]. split; [done|]. split; [apply blocks_ok_empty|]. split.
    + intros p k. by rewrite lookup_empty.
    + intros b [->%list_elem_of_singleton Hf]. done.
  - rewrite <- E1. apply (hi_start _ _ Hi).
Qed.

Lemma contig_aligned a bs e b : contig a bs e → a mod 16 = 0 → b ∈ bs → b_addr b mod 16 = 0.
Proof.
  revert a. induction bs as [|c bs IH]; intros a; [by intros _ _ ?%not_elem_of_nil|].
  intros (Hc & Hn & Hm & Hbs) Ha [->|Hb]%elem_of_cons; [by rewrite Hc|]. eapply IH; [exact Hbs| |done].
  unfold HEADER. replace (a + 32 + b_size c) with (a + b_size c + 2 * 16) by lia.
  by rewrite Z.mod_add, Zplus_mod, Ha, Hm by lia.
Qed.

(** What the contract says of the blocks a client holds. *)
Lemma heap_rep_held s m p n :
  heap_rep s m → m !! p = Some n →
  heap_start s + HEADER <= p ∧ p + n <= heap_start s + heap_size s ∧ p mod 16 = 0.
Proof.
  intros (bs & Hi & _ & Hown & _) Hp. destruct (Hown _ _ Hp) as (z & [Hin _] & Hz).
  destruct (contig_bounds _ _ _ _ (hi_contig _ _ Hi) Hin) as [H1 H2]. simpl in H1, H2.
  pose proof (contig_aligned _ _ _ _ (hi_contig _ _ Hi) (proj2 (hi_start _ _ Hi)) Hin) as H3. simpl in H3.
  destruct (hi_end _ _ Hi) as (He & _). split_and!; [lia|unfold HEADER in *; lia|].
  unfold HEADER in H3. replace p with (p - 32 + 2 * 16) by lia. by rewrite Z.mod_add.
Qed.

(** ** Properties *)

(** C6: On any region of 64 bytes to 4 GiB, and for any client that asks for 1 byte to 2 GiB at a
    time and gives back only blocks it holds: every call of kmalloc and kfree returns (kmalloc
    possibly NULL), none faults or runs for ever, and the blocks the client holds are aligned to 16
    bytes, inside the region and pairwise disjoint. *)
Theorem heap_serves start size rs :
  region_ok start size → Forall areq_ok rs →
  ∃ m s, serve (Allocator0 := heap_allocator start size) rs ∅ (heap_init start size) = Ret m s ∧
    blocks_ok m ∧
    ∀ p n, m !! p = Some n → start + HEADER <= p ∧ p + n <= start + size ∧ p mod 16 = 0.
Proof.
  intros Hreg Hrs. destruct (heap_init_rep start size Hreg) as (a & sz & Hrep & H1 & H2 & _).
  destruct (serve_ok (Allocator0 := heap_allocator a sz) rs ∅ (heap_init start size) Hrep
    blocks_ok_empty Hrs) as (m & s & E & (Hs & E1 & E2) & Hm).
  exists m, s. split; [exact E|]. split; [done|]. intros p n Hp.
  destruct (heap_rep_held s m p n Hs Hp) as (? & ? & ?). split_and!; [lia|lia|done].
Qed.

(** C4: No leak and no fragmentation: when a client has given everything back, in whatever
    order it allocated and freed, the heap is the single free block it was at the start and
    [free_size] is the size of the heap. *)
Theorem heap_no_leak start size rs s :
  region_ok start size → Forall areq_ok rs →
  serve (Allocator0 := heap_allocator start size) rs ∅ (heap_init start size) = Ret ∅ s →
  free_size s = heap_size s ∧ first_block s = heap_start s ∧ last_block s = heap_start s ∧
  headers s !! heap_start s =
    Some (BlockHeader (heap_size s - HEADER) HEAP_MAGIC true NULL NULL).
Proof.
  intros Hreg Hrs E. destruct (heap_init_rep start size Hreg) as (a & sz & Hrep & _).
  destruct (serve_ok (Allocator0 := heap_allocator a sz) rs ∅ (heap_init start size) Hrep
    blocks_ok_empty Hrs) as (m & s' & E' & (Hs & _) & _).
  change (serve (Allocator0 := heap_allocator start size) rs ∅ (heap_init start size) = Ret m s') in E'.
  rewrite E in E'. injection E' as <- <-. destruct Hs as (bs & Hi & _ & _ & Hall).
  assert (∀ b, b ∈ bs → b_free b = true) as Hfree.
  { intros b Hb. destruct (b_free b) eqn:Hf; [done|]. destruct (Hall b (conj Hb Hf)) as [x Hx].
    by rewrite lookup_empty in Hx. }
  pose proof (hi_contig _ _ Hi) as Hc. destruct (hi_end _ _ Hi) as (He & _ & Hpos & _).
  destruct bs as [|b [|c bs]].
  - simpl in Hc. lia.
  - destruct Hc as (Hb & Hn & _ & Hc). simpl in Hc. pose proof (hi_seg _ _ Hi) as [Hh _].
    rewrite (hi_free _ _ Hi), (hi_first _ _ Hi), (hi_last _ _ Hi). unfold free_bytes. simpl in *.
    rewrite (Hfree b) in * by (by left). rewrite Hb in *. unfold HEADER in *.
    split_and!; [lia|done..|]. rewrite Hh. do 2 f_equal. lia.
  - destruct (hi_coalesced _ _ Hi) as [Hco _]. rewrite (Hfree c) in Hco by (right; by left).
    discriminate Hco. apply Hfree. by left.
Qed.

(** C18: First fit, for requests below 2^63 bytes. [kmalloc] fails only when no free block is large enough for the request
    rounded up to 16 bytes; otherwise it hands out the free block of lowest address that is
    large enough, cut when more than 48 bytes would be left over, and the heap stays well
    formed. *)
Theorem kmalloc_first_fit s bs n :
  hinv s bs → 0 <= n < 2 ^ 63 →
  (kmalloc n s = Ret NULL s ∧ ∀ b, b ∈ bs → b_free b = true → b_size b < align_up 4 n) ∨
  ∃ pre b post s', bs = pre ++ b :: post ∧ b_free b = true ∧ align_up 4 n <= b_size b ∧
    (∀ c, c ∈ pre → b_free c = true → b_size c < align_up 4 n) ∧
    kmalloc n s = Ret (b_addr b + HEADER) s' ∧ hinv s' (pre ++ cut b (align_up 4 n) ++ post).
Proof.
  intros Hi Hn. pose proof (kmalloc_ok s bs n Hi Hn) as H.
  destruct (a_alloc (align_up 4 n) bs) as [[p bs']|] eqn:E.
  - right. destruct H as (s' & E' & Hi' & _).
    destruct (a_alloc_inv _ _ _ _ E) as (pre & b & post & -> & Hf & Hsz & -> & -> & Hpre).
    exists pre, b, post, s'. split_and!; try done. intros c Hc Hcf. rewrite Forall_forall in Hpre.
    specialize (Hpre c Hc). rewrite Hcf in Hpre. by apply Z.leb_gt in Hpre.
  - left. split; [done|]. intros b. by apply a_alloc_fail.
Qed.

(** Freeing an allocated block adds its bytes and its header to [free_size], keeps every
    other allocated block, and leaves no two free blocks side by side. *)
Theorem kfree_coalesces s bs b :
  hinv s bs → b ∈ bs → b_free b = false →
  ∃ s' bs', kfree (b_addr b + HEADER) s = Ret tt s' ∧ hinv s' bs' ∧
    free_size s' = free_size s + b_size b + HEADER ∧
    ∀ c, taken bs' c ↔ taken bs c ∧ c ≠ b.
Proof.
  intros Hi Hin Hf. apply list_elem_of_split in Hin as (pre & post & ->).
  destruct (kfree_ok s pre b post Hi Hf) as (s' & E & Hi' & _). eexists s', _. split; [exact E|].
  pose proof (hi_contig _ _ Hi) as Hc.
  destruct (contig_sides _ _ _ _ _ Hc) as (_ & _ & Hn & _ & _ & _ & Hpre & Hpost).
  assert (∀ d, d ∈ pre → b_addr d ≠ b_addr b) as Hpre'
    by (intros d Hd; specialize (Hpre d Hd); unfold HEADER in Hpre; lia).
  assert (∀ d, d ∈ post → b_addr d ≠ b_addr b) as Hpost'
    by (intros d Hd; specialize (Hpost d Hd); unfold HEADER in Hpost; lia).
  split; [exact Hi'|]. split.
  - rewrite (hi_free _ _ Hi), (hi_free _ _ Hi'), a_free_app by done. rewrite free_bytes_foldr.
    rewrite !free_bytes_app, free_bytes_absorb. unfold free_bytes. simpl. rewrite Hf. lia.
  - intros c. rewrite taken_free by done. unfold taken. rewrite !elem_of_app, elem_of_cons. split.
    + intros [[H|H] Hcf]; (split; [auto|]); intros ->; [by apply (Hpre' b)|by apply (Hpost' b)].
    + intros [[[H|[-> |H]] Hcf] Hne]; auto. done.
Qed.

(** The rounding of [kmalloc] wraps at the top of [size_t]: a request within 15 bytes of
    2^64 is treated as a request of 0 bytes and succeeds when any block is free. *)
Theorem kmalloc_huge s bs n b :
  hinv s bs → 2 ^ 64 - 15 <= n < 2 ^ 64 → b ∈ bs → b_free b = true →
  ∃ p s', kmalloc n s = Ret p s' ∧ p ≠ NULL ∧
    ∃ c, p = b_addr c + HEADER ∧ c ∈ bs.
Proof.
  intros Hi Hn Hin Hf. pose proof (kmalloc_ok s bs 0 Hi ltac:(lia)) as H.
  assert (kmalloc n s = kmalloc 0 s) as ->.
  { unfold kmalloc. rewrite !bind_get. cbv zeta.
    assert (Z.land (u64 (n + 15)) (u64 (Z.lnot 15)) = Z.land (u64 (0 + 15)) (u64 (Z.lnot 15))) as ->; [|done].
    replace (u64 (n + 15)) with (n + 15 - 2 ^ 64).
    - assert (n + 15 - 2 ^ 64 = (n + 15 - 2 ^ 64) mod 16) as Em by (rewrite Z.mod_small; lia).
      change (Z.lnot 15) with (Z.lnot (2 ^ 4 - 1)). rewrite land_lnot_ones by lia.
      change (2 ^ 4) with 16. rewrite <- Em. rewrite Z.sub_diag. done.
    - unfold u64, wrap. rewrite <- (Z.mod_small (n + 15 - 2 ^ 64) (2 ^ 64)) by lia.
      rewrite <- (Z.mod_add (n + 15 - 2 ^ 64) 1) by lia. f_equal. lia. }
  change (align_up 4 0) with 0 in H. destruct (a_alloc 0 bs) as [[p bs']|] eqn:E.
  - destruct H as (s' & E' & _). destruct (a_alloc_inv _ _ _ _ E) as (pre & c & post & -> & _ & _ & -> & _).
    assert (c ∈ pre ++ c :: post) as Hc by set_solver.
    pose proof (block_pos _ _ _ (hi_base _ _ Hi) Hc). exists (b_addr c + HEADER), s'. split; [done|].
    split; [unfold HEADER, NULL; lia|]. by exists c.
  - pose proof (a_alloc_fail _ _ _ E Hin Hf). destruct (contig_size _ _ _ _ (hi_contig _ _ Hi) Hin). lia.
Qed.
End Heap.

(** ** Witnesses *)

(** A heap of 4 KiB with one block handed out. *)
Definition demo_heap : heap := Heap.heap_init 0x200000 4096.
Definition demo_heap1 : heap :=
  match Heap.kmalloc 100 demo_heap with Ret _ s => s | _ => demo_heap end.
Definition demo_blocks1 : list Heap.block :=
  [Heap.Block 0x200000 112 false; Heap.Block 0x200090 3920 true].
Definition demo_requests : list areq := [AMalloc 100; AMalloc 8; AFree 0x200020; AFree 0x2000b0].

Lemma demo_heap1_inv : Heap.hinv demo_heap1 demo_blocks1.
Proof. split; [constructor|]; vm_compute; intuition congruence. Qed.

Lemma heap_serves_witness :
  ∃ m s, serve (Allocator0 := Heap.heap_allocator 0x200005 4096) demo_requests ∅
    (Heap.heap_init 0x200005 4096) = Ret m s ∧ blocks_ok m.
Proof.
  destruct (Heap.heap_serves 0x200005 4096 demo_requests) as (m & s & E & Hm & _).
  - vm_compute. intuition congruence.
  - repeat constructor.
  - exists m, s. exact (conj E Hm).
Defined.

Lemma heap_no_leak_witness :
  ∃ s, serve (Allocator0 := Heap.heap_allocator 0x200000 4096) demo_requests ∅ demo_heap = Ret ∅ s ∧
    free_size s = heap_size s.
Proof.
  destruct (serve (Allocator0 := Heap.heap_allocator 0x200000 4096) demo_requests ∅ demo_heap)
    as [m s| | | |] eqn:E; try (vm_compute in E; discriminate).
  assert (m = ∅) as -> by (vm_compute in E; injection E as <- _; reflexivity).
  destruct (Heap.heap_no_leak 0x200000 4096 demo_requests s) as (Hf & _).
  - vm_compute. intuition congruence.
  - repeat constructor.
  - exact E.
  - exists s. exact (conj eq_refl Hf).
Defined.

Lemma kmalloc_first_fit_witness :
  ∃ s', Heap.kmalloc 24 demo_heap1 = Ret 0x2000b0 s'.
Proof.
  destruct (Heap.kmalloc_first_fit demo_heap1 demo_blocks1 24) as [[E _]|(pre & b & post & s' & _ & _ & _ & _ & E & _)].
  - apply demo_heap1_inv.
  - lia.
  - vm_compute in E. discriminate.
  - exists s'. rewrite E. f_equal. vm_compute in E. injection E as E _. exact (eq_sym E).
Defined.

Lemma kfree_coalesces_witness :
  ∃ s' bs', Heap.kfree 0x200020 demo_heap1 = Ret tt s' ∧ Heap.hinv s' bs' ∧
    free_size s' = free_size demo_heap1 + 112 + HEADER.
Proof.
  destruct (Heap.kfree_coalesces demo_heap1 demo_blocks1 (Heap.Block 0x200000 112 false))
    as (s' & bs' & E & Hi & Hf & _).
  - apply demo_heap1_inv.
  - apply list_elem_of_here.
  - reflexivity.
  - exists s', bs'. exact (conj E (conj Hi Hf)).
Defined.

Lemma kmalloc_huge_witness :
  ∃ p s', Heap.kmalloc (2 ^ 64 - 1) demo_heap1 = Ret p s' ∧ p ≠ NULL.
Proof.
  destruct (Heap.kmalloc_huge demo_heap1 demo_blocks1 (2 ^ 64 - 1) (Heap.Block 0x200090 3920 true))
    as (p & s' & E & Hp & _).
  - apply demo_heap1_inv.
  - lia.
  - apply list_elem_of_further, list_elem_of_here.
  - reflexivity.
  - exists p, s'. exact (conj E Hp).
Defined.
