(* ===== verification/HeapErrors.v ===== *)
(** * Misuse of the kernel heap (kernel/mm/heap.c)

    What [kfree] does with pointers it should not get: NULL and a block without the magic number
    are refused without an effect, but a block that is free already passes the only test the
    code makes. *)

From stdpp Require Import base numbers gmap list.
From S2P Require Import Prelude.
From S2P Require Import Allocator Heap.

Local Open Scope Z_scope.

Module HeapErrors.
Import Heap.

Lemma kfree_null s : kfree NULL s = Ret tt s.
Proof. done. Qed.

Lemma kfree_bad_magic s p h :
  p ≠ NULL → headers s !! u64 (p - HEADER) = Some h → bh_magic h ≠ HEAP_MAGIC →
  kfree p s = Ret tt s.
Proof.
  intros Hp Hh Hm. unfold kfree. rewrite (proj2 (Z.eqb_neq p _) Hp). cbv zeta.
  mstep (get_hdr_ret _ _ _ Hh). by rewrite (proj2 (Z.eqb_neq _ _) Hm).
Qed.

(** The neighbours of a free block are not free. *)
Lemma neighbours pre b post :
  coalesced (pre ++ b :: post) → b_free b = true →
  (∀ n r, post = n :: r → b_free n = false) ∧ (∀ l p, pre = l ++ [p] → b_free p = false).
Proof.
  intros Hc Hb. split.
  - intros n r ->. apply coalesced_app in Hc as (_ & [Hn _] & _). by apply Hn.
  - intros l p ->. rewrite <- app_assoc in Hc. apply coalesced_app in Hc as (_ & [Hp _] & _).
    destruct (b_free p) eqn:Ep; [|done]. by rewrite (Hp eq_refl) in Hb.
Qed.

Lemma seg_last m pv l p nx :
  seg m pv (l ++ [p]) nx → ∃ q, m !! b_addr p = Some (BlockHeader (b_size p) HEAP_MAGIC (b_free p) nx q).
Proof. intros (_ & H & _)%seg_app. by eexists. Qed.

(** Without a free neighbour the two merges do nothing. *)
Lemma merge_next_stays s b h :
  headers s !! b = Some h →
  (bh_next h = NULL ∨ ∃ n, headers s !! bh_next h = Some n ∧ bh_is_free n = false) →
  merge_next b s = Ret tt s.
Proof.
  intros Hb Hn. unfold merge_next. mstep (get_hdr_ret _ _ _ Hb).
  destruct (Z.eqb_spec (bh_next h) NULL) as [|Hne]; [done|]. destruct Hn as [|(n & En & Hf)]; [done|].
  mstep (get_hdr_ret _ _ _ En). by rewrite Hf.
Qed.

Lemma merge_prev_stays s b h :
  headers s !! b = Some h →
  (bh_prev h = NULL ∨ ∃ n, headers s !! bh_prev h = Some n ∧ bh_is_free n = false) →
  merge_prev b s = Ret tt s.
Proof.
  intros Hb Hn. unfold merge_prev. mstep (get_hdr_ret _ _ _ Hb).
  destruct (Z.eqb_spec (bh_prev h) NULL) as [|Hne]; [done|]. destruct Hn as [|(n & En & Hf)]; [done|].
  mstep (get_hdr_ret _ _ _ En). by rewrite Hf.
Qed.

(** Kfree does not notice a double free: of a block that is free and still in the list it
    changes nothing but free_size, which grows by the bytes of the block a second time and from
    then on claims more free memory than the free blocks have. *)
Theorem double_free_counted s bs b :
  hinv s bs → b ∈ bs → b_free b = true →
  ∃ s', kfree (b_addr b + HEADER) s = Ret tt s' ∧
    headers s' = headers s ∧ first_block s' = first_block s ∧ last_block s' = last_block s ∧
    free_size s' = free_bytes bs + b_size b + HEADER.
Proof.
  intros [Hi Hco] Hin Hb. apply list_elem_of_split in Hin as (pre & post & ->).
  destruct (neighbours pre b post Hco Hb) as [Hpost Hpre].
  destruct (contig_sides _ _ _ _ _ (hi_contig _ _ Hi)) as (Hab & Hbe & Hn & _).
  pose proof (hi_start _ _ Hi) as [Hst _]. pose proof (hi_end _ _ Hi) as (He & He64 & Hhs).
  pose proof (free_bytes_bound _ _ _ (hi_contig _ _ Hi)) as Hfb.
  pose proof (hi_seg _ _ Hi) as (Hsp & Hhb & Hsn)%seg_app. unfold HEADER in Hbe.
  unfold kfree. rewrite (proj2 (Z.eqb_neq _ NULL)) by (unfold HEADER, NULL; lia). cbv zeta.
  replace (b_addr b + HEADER - HEADER) with (b_addr b) by lia. rewrite (u64_small (b_addr b)) by lia.
  mstep (get_hdr_ret _ _ _ Hhb). cbn [bh_magic]. rewrite Z.eqb_refl. cbn [negb bh_size].
  mstep (upd_hdr_ret _ _ _ (set_bh_free true) Hhb). rewrite bind_modify.
  assert (Eid : set_headers (<[b_addr b := set_bh_free true (BlockHeader (b_size b) HEAP_MAGIC
    (b_free b) (hd_addr post NULL) (last_addr pre NULL))]> (headers s)) s = s).
  { rewrite Hb in *. unfold set_bh_free. cbn. rewrite insert_id by done. by destruct s. }
  rewrite Eid. set (s1 := set_free_size _ s).
  rewrite (bind_ret _ _ _ tt s1); last first.
  { apply (merge_next_stays s1 _ _ Hhb). destruct post as [|n r]; [by left|]. right.
    destruct Hsn as [Hh _]. eexists. split; [exact Hh|]. by apply (Hpost n r). }
  rewrite (merge_prev_stays s1 _ _ Hhb); last first.
  { induction pre as [|p pre _] using rev_ind; [by left|]. right.
    apply seg_last in Hsp as (q & Hq). rewrite last_addr_app. cbn [bh_prev last_addr].
    eexists. split; [exact Hq|]. by apply (Hpre pre p). }
  exists s1. split_and!; [done..|]. cbn. rewrite (hi_free _ _ Hi).
  unfold HEADER in *. rewrite (u64_small (b_size b + 32)), u64_small by lia. lia.
Qed.

(** When the block was merged into the one before it, its header is no longer in the list but
    still in memory, and a second [kfree] merges it once more: the block before it grows over
    its other neighbour, which is in use, and the next request gets memory that is in use. *)
Definition overlap_script : M heap (Z * Z) :=
  p1 ← kmalloc 64;
  p2 ← kmalloc 64;
  p3 ← kmalloc 64;
  kfree p1;;
  kfree p2;;
  kfree p2;;
  p4 ← kmalloc 200;
  mret (p3, p4).

Example double_free_overlaps :
  match overlap_script (heap_init 0x200000 4096) with
  | Ret (p3, p4) _ => p4 <= p3 < p4 + 200
  | _ => False
  end.
Proof. vm_compute. split; [discriminate|reflexivity]. Qed.
End HeapErrors.

Lemma double_free_counted_witness :
  ∃ s', Heap.kfree (0x200000 + HEADER) demo_heap = Ret tt s' ∧ free_size s' = 2 * 4096.
Proof.
  destruct (Heap.heap_init_ok 0x200000 4096) as (a & n & Hi & _ & _ & _ & Ea & En);
    [unfold Heap.region_ok; lia|].
  assert (a = 0x200000) as -> by (rewrite <- Ea; reflexivity).
  assert (n = 4064) as -> by (assert (n + HEADER = 4096) as E by (rewrite <- En; reflexivity);
    unfold HEADER in E; lia).
  destruct (HeapErrors.double_free_counted demo_heap [Heap.Block 0x200000 4064 true]
    (Heap.Block 0x200000 4064 true) Hi) as (s' & E & _ & _ & _ & Hf);
    [by apply list_elem_of_singleton|reflexivity|].
  exists s'. split; [exact E|]. rewrite Hf. reflexivity.
Defined.
