(* ===== verification/Cache.v ===== *)
(** * kernel/fs/cache.c: the block cache

    A table of 256 pointers to cache blocks, found by block id and replaced in LRU order. The
    blocks and their data buffers come from [kmalloc], which the file calls without a declaration:
    its result is taken for an [int]. The development is against the allocator contract of
    [Allocator.v], for every allocator whose blocks lie below 2 GiB ([LowMemory]).

    [Cache.cstate] is the static [cache_mgr] with the store of the [cache_block_t] objects and
    the state of the allocator. The abstract machine [lru] is a list of entries from the most
    to the least recently used; [get_step] and [cop_step] say what each call may do to it. *)

From stdpp Require Import base numbers strings gmap sorting list.
From S2P Require Import Prelude.
From S2P Require Import Allocator.

Local Open Scope Z_scope.

Record cache_block := CacheBlock {
  cb_block_id : Z;
  cb_data : Z;
  cb_size : Z;
  cb_status : Z;
  cb_reference_count : Z;
  cb_last_access : Z;
  cb_next : Z;
  cb_prev : Z;
}.

Definition cache_block_fields : list field :=
  [scalar "block_id" 8; scalar "data" 8; scalar "size" 4; scalar "status" 1;
   scalar "reference_count" 4; scalar "last_access" 8; scalar "next" 8; scalar "prev" 8].
Definition sizeof_cache_block : Z := Eval vm_compute in sizeof cache_block_fields.

Definition MAX_CACHE_BLOCKS : Z := 256.
Definition CACHE_CLEAN : Z := 0.
Definition CACHE_DIRTY : Z := 1.

Definition set_cb_status (v : Z) (x : cache_block) : cache_block :=
  CacheBlock (cb_block_id x) (cb_data x) (cb_size x) v (cb_reference_count x)
    (cb_last_access x) (cb_next x) (cb_prev x).
Definition set_cb_reference_count (v : Z) (x : cache_block) : cache_block :=
  CacheBlock (cb_block_id x) (cb_data x) (cb_size x) (cb_status x) v
    (cb_last_access x) (cb_next x) (cb_prev x).
Definition set_cb_last_access (v : Z) (x : cache_block) : cache_block :=
  CacheBlock (cb_block_id x) (cb_data x) (cb_size x) (cb_status x) (cb_reference_count x)
    v (cb_next x) (cb_prev x).

Module Cache.
Section cache.
Context {St : Type} `{!Allocator St}.

(** [cache_mgr], the blocks it points to and the allocator. *)
Record cstate := CState {
  c_mem : St;
  c_store : gmap Z cache_block;
  blocks : list Z;
  block_count : Z;
  hit_count : Z;
  miss_count : Z;
  access_time : Z;
}.

Definition set_c_mem (v : St) (s : cstate) : cstate :=
  CState v (c_store s) (blocks s) (block_count s) (hit_count s) (miss_count s) (access_time s).
Definition set_c_store (v : gmap Z cache_block) (s : cstate) : cstate :=
  CState (c_mem s) v (blocks s) (block_count s) (hit_count s) (miss_count s) (access_time s).
Definition set_blocks (v : list Z) (s : cstate) : cstate :=
  CState (c_mem s) (c_store s) v (block_count s) (hit_count s) (miss_count s) (access_time s).
Definition set_block_count (v : Z) (s : cstate) : cstate :=
  CState (c_mem s) (c_store s) (blocks s) v (hit_count s) (miss_count s) (access_time s).
Definition set_hit_count (v : Z) (s : cstate) : cstate :=
  CState (c_mem s) (c_store s) (blocks s) (block_count s) v (miss_count s) (access_time s).
Definition set_miss_count (v : Z) (s : cstate) : cstate :=
  CState (c_mem s) (c_store s) (blocks s) (block_count s) (hit_count s) v (access_time s).
Definition set_access_time (v : Z) (s : cstate) : cstate :=
  CState (c_mem s) (c_store s) (blocks s) (block_count s) (hit_count s) (miss_count s) v.

(** [cache_mgr.blocks[i]], [block->member], [block->member = v] *)
Definition get_slot (i : Z) : M cstate Z :=
  if i <? 0 then fault else deref (λ s, blocks s !! Z.to_nat i).
Definition put_slot (i v : Z) : M cstate unit :=
  _ ← get_slot i; modify (λ s, set_blocks (<[Z.to_nat i := v]> (blocks s)) s).
Definition get_block (b : Z) : M cstate cache_block := deref (λ s, c_store s !! b).
Definition upd_block (b : Z) (f : cache_block → cache_block) : M cstate unit :=
  x ← get_block b; modify (λ s, set_c_store (<[b := f x]> (c_store s)) s).

(** [kmalloc(n)] as cache.c calls it. No header it includes declares [kmalloc], so the call has
    type [int]: of the pointer in RAX the low half is kept, and the assignment to a pointer
    sign-extends it. *)
Definition kmalloc (n : Z) : M cstate Z :=
  p ← zoom c_mem set_c_mem (al_kmalloc n); mret (u64 (i32 p)).
Definition kfree (p : Z) : M cstate unit := zoom c_mem set_c_mem (al_kfree p).
(** [++cache_mgr.access_time] *)
Definition tick : M cstate Z :=
  modify (λ s, set_access_time (u64 (access_time s + 1)) s);;
  s ← get; mret (access_time s).

(** The loop writes NULL to each of the 256 entries of the array. *)
Definition cache_init : M cstate unit :=
  modify (set_block_count 0);;
  modify (set_hit_count 0);;
  modify (set_miss_count 0);;
  modify (set_access_time 0);;
  for_range (Z.to_nat MAX_CACHE_BLOCKS) 0 (λ i, put_slot i NULL).

(** [cache_mgr.blocks[i] && cache_mgr.blocks[i]->block_id == block_id] *)
Definition slot_has (block_id i : Z) : M cstate bool :=
  b ← get_slot i;
  if b =? NULL then mret false else x ← get_block b; mret (cb_block_id x =? block_id).

Definition find_cache_block (block_id : Z) : M cstate Z :=
  s ← get;
  r ← find_range (Z.to_nat (block_count s)) 0 (slot_has block_id);
  match r with
  | Some i => get_slot i
  | None => mret NULL
  end.

(** The scan of [allocate_cache_block] for the oldest unreferenced block:
    (oldest_time, oldest_index). *)
Definition oldest_scan : M cstate (Z * Z) :=
  s ← get;
  fold_range (Z.to_nat (block_count s)) 0 (0xFFFFFFFFFFFFFFFF, -1) (λ i '(oldest_time, oldest_index),
    b ← get_slot i;
    if b =? NULL then mret (oldest_time, oldest_index)
    else
      x ← get_block b;
      if (cb_reference_count x =? 0) && (cb_last_access x <? oldest_time)
      then mret (cb_last_access x, i)
      else mret (oldest_time, oldest_index)).

(** Give the block in slot [i] back; a freed object is gone from the store. The test of the
    dirty flag guards an empty statement. *)
Definition evict (i : Z) : M cstate unit :=
  block ← get_slot i;
  x ← get_block block;
  kfree (cb_data x);;
  kfree block;;
  modify (λ s, set_c_store (delete block (c_store s)) s);;
  put_slot i NULL.

(** [cache_mgr.blocks[i] == NULL] *)
Definition slot_empty (i : Z) : M cstate bool := b ← get_slot i; mret (b =? NULL).

(** Enter the block in the first empty slot. *)
Definition publish (block : Z) : M cstate unit :=
  r ← find_range (Z.to_nat MAX_CACHE_BLOCKS) 0 slot_empty;
  match r with
  | Some i =>
      put_slot i block;;
      s ← get;
      when (block_count s <=? i) (modify (set_block_count (i + 1)))
  | None => mret tt
  end.

(** The second half of [allocate_cache_block]. Every member of the new block is assigned
    before it is read. *)
Definition new_block (block_id size : Z) : M cstate Z :=
  block ← kmalloc sizeof_cache_block;
  if block =? NULL then mret NULL
  else
    data ← kmalloc size;
    if data =? NULL then kfree block;; mret NULL
    else
      t ← tick;
      modify (λ s, set_c_store
        (<[block := CacheBlock block_id data size CACHE_CLEAN 1 t NULL NULL]> (c_store s)) s);;
      publish block;;
      mret block.

Definition allocate_cache_block (block_id size : Z) : M cstate Z :=
  s ← get;
  if MAX_CACHE_BLOCKS <=? block_count s then
    '(_, oldest_index) ← oldest_scan;
    if oldest_index =? -1 then mret NULL
    else
      evict oldest_index;;
      new_block block_id size
  else new_block block_id size.

Definition cache_get_block (block_id size : Z) : M cstate Z :=
  block ← find_cache_block block_id;
  if negb (block =? NULL) then
    modify (λ s, set_hit_count (u64 (hit_count s + 1)) s);;
    t ← tick;
    upd_block block (set_cb_last_access t);;
    x ← get_block block;
    upd_block block (set_cb_reference_count (u32 (cb_reference_count x + 1)));;
    mret block
  else
    modify (λ s, set_miss_count (u64 (miss_count s + 1)) s);;
    block ← allocate_cache_block block_id size;
    if block =? NULL then mret NULL else mret block.

Definition cache_release_block (block : Z) : M cstate unit :=
  if block =? NULL then mret tt
  else
    x ← get_block block;
    if 0 <? cb_reference_count x
    then upd_block block (set_cb_reference_count (cb_reference_count x - 1))
    else mret tt.

Definition cache_mark_dirty (block : Z) : M cstate unit :=
  if block =? NULL then mret tt else upd_block block (set_cb_status CACHE_DIRTY).

Definition cache_sync_block (block : Z) : M cstate Z :=
  if block =? NULL then mret 0
  else
    x ← get_block block;
    if negb (cb_status x =? CACHE_DIRTY) then mret 0
    else upd_block block (set_cb_status CACHE_CLEAN);; mret 0.

(** The loop of [cache_sync_all] returns at the first error. *)
Fixpoint sync_loop (n : nat) (i : Z) : M cstate Z :=
  match n with
  | O => mret 0
  | S n' =>
      b ← get_slot i;
      if b =? NULL then sync_loop n' (i + 1)
      else
        x ← get_block b;
        if cb_status x =? CACHE_DIRTY then
          ret ← cache_sync_block b;
          if negb (ret =? 0) then mret ret else sync_loop n' (i + 1)
        else sync_loop n' (i + 1)
  end.

Definition cache_sync_all : M cstate Z :=
  s ← get; sync_loop (Z.to_nat (block_count s)) 0.

(** The object at start-up: static storage is zeroed. *)
Definition cache_boot (m : St) : cstate := CState m ∅ (replicate 256 NULL) 0 0 0 0.

(** ** The abstract machine *)

(** What callers see of a cached block. *)
Record centry := CEntry {
  ce_ptr : Z;
  ce_id : Z;
  ce_data : Z;
  ce_size : Z;
  ce_status : Z;
  ce_refs : Z;
}.

(** The entries from the most to the least recently used; [filled] is set for good once every
    slot of the table has been in use. *)
Record lru := Lru { entries : list centry; filled : bool }.

Definition lru_init : lru := Lru [] false.
Definition referenced (e : centry) : Prop := ce_refs e ≠ 0.
Definition retain (e : centry) : centry :=
  CEntry (ce_ptr e) (ce_id e) (ce_data e) (ce_size e) (ce_status e) (u32 (ce_refs e + 1)).
Definition release (e : centry) : centry :=
  CEntry (ce_ptr e) (ce_id e) (ce_data e) (ce_size e) (ce_status e) (Z.max 0 (ce_refs e - 1)).
Definition with_status (v : Z) (e : centry) : centry :=
  CEntry (ce_ptr e) (ce_id e) (ce_data e) (ce_size e) v (ce_refs e).
Definition on_ptr (p : Z) (f : centry → centry) (es : list centry) : list centry :=
  (λ e, if ce_ptr e =? p then f e else e) <$> es.

(** [get_step a id size p a']: a request for block [id] may answer [p] and leave [a']. *)
Inductive get_step (a : lru) (id size : Z) : Z → lru → Prop :=
| get_hit pre e post :
    entries a = pre ++ e :: post → ce_id e = id →
    get_step a id size (ce_ptr e) (Lru (retain e :: pre ++ post) (filled a))
| get_fresh p d :
    id ∉ ce_id <$> entries a → filled a = false → 0 < p → p ∉ ce_ptr <$> entries a →
    get_step a id size p
      (Lru (CEntry p id d size CACHE_CLEAN 1 :: entries a)
         (bool_decide (S (length (entries a)) = 256%nat)))
| get_no_memory :
    id ∉ ce_id <$> entries a → filled a = false → get_step a id size NULL a
| get_replace p d pre v post :
    id ∉ ce_id <$> entries a → filled a = true → entries a = pre ++ v :: post →
    ce_refs v = 0 → Forall referenced post → 0 < p → p ∉ ce_ptr <$> pre ++ post →
    get_step a id size p (Lru (CEntry p id d size CACHE_CLEAN 1 :: pre ++ post) true)
| get_drop pre v post :
    id ∉ ce_id <$> entries a → filled a = true → entries a = pre ++ v :: post →
    ce_refs v = 0 → Forall referenced post →
    get_step a id size NULL (Lru (pre ++ post) true)
| get_busy :
    id ∉ ce_id <$> entries a → filled a = true → Forall referenced (entries a) →
    get_step a id size NULL a.

(** The calls of the interface, with the value they return (0 for [void]). *)
Inductive cop :=
| CGet (id size : Z)
| CRelease (p : Z)
| CMarkDirty (p : Z)
| CSyncBlock (p : Z)
| CSyncAll.

Inductive cop_step (a : lru) : cop → Z → lru → Prop :=
| step_get id size p a' : get_step a id size p a' → cop_step a (CGet id size) p a'
| step_release p :
    cop_step a (CRelease p) 0 (Lru (on_ptr p release (entries a)) (filled a))
| step_dirty p :
    cop_step a (CMarkDirty p) 0 (Lru (on_ptr p (with_status CACHE_DIRTY) (entries a)) (filled a))
| step_sync p :
    cop_step a (CSyncBlock p) 0 (Lru (on_ptr p (with_status CACHE_CLEAN) (entries a)) (filled a))
| step_sync_all :
    cop_step a CSyncAll 0 (Lru (with_status CACHE_CLEAN <$> entries a) (filled a)).

Definition void0 (c : M cstate unit) : M cstate Z := c;; mret 0.
Definition cop_run (c : cop) : M cstate Z :=
  match c with
  | CGet id size => cache_get_block id size
  | CRelease p => void0 (cache_release_block p)
  | CMarkDirty p => void0 (cache_mark_dirty p)
  | CSyncBlock p => cache_sync_block p
  | CSyncAll => cache_sync_all
  end.

(** ** The representation *)

(** The cached blocks with their addresses, from the most to the least recently used. *)
Implicit Types l : list (Z * cache_block).

Definition entry (e : Z * cache_block) : centry :=
  CEntry e.1 (cb_block_id e.2) (cb_data e.2) (cb_size e.2) (cb_status e.2) (cb_reference_count e.2).

(** The memory a list of blocks owns: each block and its data buffer. *)
Definition owned1 (e : Z * cache_block) : list (Z * Z) :=
  [(e.1, sizeof_cache_block); (cb_data e.2, cb_size e.2)].
Definition owned l : list (Z * Z) := l ≫= owned1.

Definition newer (e f : Z * cache_block) : Prop := cb_last_access f.2 < cb_last_access e.2.
Definition block_ok (now : Z) (e : Z * cache_block) : Prop :=
  0 <= cb_last_access e.2 <= now ∧ 0 <= cb_reference_count e.2 < 2 ^ 32 ∧
  (cb_status e.2 = CACHE_CLEAN ∨ cb_status e.2 = CACHE_DIRTY).

(** [used] is the part of the table below [block_count]: it has no hole before the table has
    been full. *)
Record table (s : cstate) (used : list Z) : Prop := {
  tb_blocks : blocks s = used ++ replicate (256 - length used) NULL;
  tb_count : block_count s = Z.of_nat (length used);
  tb_max : (length used <= 256)%nat;
  tb_dense : (length used < 256)%nat → NULL ∉ used;
}.

(** The allocator has handed out exactly what the cached blocks own, the table points to
    exactly them, their ids differ and the list is in the order of their last access. *)
Record crep (s : cstate) l (used : list Z) : Prop := {
  cr_mem : al_rep (c_mem s) (list_to_map (owned l));
  cr_store : c_store s = list_to_map l;
  cr_table : table s used;
  cr_slots : filter (λ b, b ≠ NULL) used ≡ₚ l.*1;
  cr_owned : NoDup (owned l).*1;
  cr_ids : NoDup ((λ e, cb_block_id e.2) <$> l);
  cr_sorted : StronglySorted newer l;
  cr_blocks : Forall (block_ok (access_time s)) l;
  cr_clock : 0 <= access_time s;
}.

Definition crepresents (s : cstate) (a : lru) : Prop :=
  ∃ l used, crep s l used ∧ entries a = entry <$> l ∧
    filled a = bool_decide (length used = 256%nat).

(** *** Lists of blocks *)

#[export] Instance owned_proper : Proper ((≡ₚ) ==> (≡ₚ)) owned.
Proof. intros l l' H. unfold owned. by rewrite H. Qed.

Lemma owned_cons b x l :
  owned ((b, x) :: l) = (b, sizeof_cache_block) :: (cb_data x, cb_size x) :: owned l.
Proof. done. Qed.

Lemma owned_app l l' : owned (l ++ l') = owned l ++ owned l'.
Proof. apply bind_app. Qed.

Lemma owned_keys l : l.*1 ⊆ (owned l).*1.
Proof. induction l as [|[b x] l IH]; [done|]. rewrite owned_cons. set_solver. Qed.

Lemma nodup_keys l : NoDup (owned l).*1 → NoDup l.*1.
Proof.
  induction l as [|[b x] l IH]; [done|]. rewrite owned_cons. cbn [fmap list_fmap fst].
  rewrite !NoDup_cons. intros (Hb & _ & Hl). split; [|by apply IH].
  intros Hin. apply Hb. apply elem_of_cons. right. by apply owned_keys.
Qed.

(** Two blocks that own the same memory are interchangeable. *)
Lemma owned_middle pre b x x' post :
  cb_data x' = cb_data x → cb_size x' = cb_size x →
  owned (pre ++ (b, x') :: post) = owned (pre ++ (b, x) :: post).
Proof. intros Ed Es. rewrite !owned_app, !owned_cons. by rewrite Ed, Es. Qed.

Lemma crep_keys s l used : crep s l used → NoDup l.*1.
Proof. intros H. apply nodup_keys, (cr_owned _ _ _ H). Qed.

(** *** Reading the cache *)

Section reading.
Context `{!AllocatorLaws St}.
Context (s : cstate) (l : list (Z * cache_block)) (used : list Z) (H : crep s l used).

Lemma crep_lookup b x : (b, x) ∈ l ↔ c_store s !! b = Some x.
Proof using H. rewrite (cr_store _ _ _ H). apply elem_of_list_to_map, (crep_keys _ _ _ H). Qed.

Lemma crep_nonnull b : b ∈ l.*1 → 0 < b.
Proof using All.
  intros ([c x] & -> & Hb)%list_elem_of_fmap. simpl.
  apply (al_rep_pos _ _ c sizeof_cache_block (cr_mem _ _ _ H)).
  apply elem_of_list_to_map; [apply (cr_owned _ _ _ H)|].
  apply list_elem_of_bind. exists (c, x). split; [|done]. left.
Qed.

(** A slot in use is empty or points to a cached block. *)
Lemma slot_cases (i : Z) :
  0 <= i < block_count s →
  ∃ b, get_slot i s = Ret b s ∧ used !! Z.to_nat i = Some b ∧
    (b = NULL ∨ b ≠ NULL ∧ ∃ x, (b, x) ∈ l ∧ get_block b s = Ret x s).
Proof using H.
  intros Hi. destruct (cr_table _ _ _ H) as [Hb Hc _ _]. rewrite Hc in Hi.
  destruct (lookup_lt_is_Some_2 used (Z.to_nat i)) as [b Eb]; [lia|]. exists b.
  assert (get_slot i s = Ret b s) as ->.
  { unfold get_slot. rewrite (proj2 (Z.ltb_ge _ _)) by lia. apply deref_ret.
    rewrite Hb, lookup_app_l; [done|]. by eapply lookup_lt_Some. }
  split; [done|]. split; [done|]. destruct (decide (b = NULL)) as [|Hn]; [by left|right].
  assert (b ∈ l.*1) as ([c x] & Ec & Hx)%list_elem_of_fmap.
  { rewrite <- (cr_slots _ _ _ H). apply list_elem_of_filter. split; [done|].
    by eapply list_elem_of_lookup_2. }
  simpl in Ec. subst c. split; [done|]. exists x. split; [done|]. by apply deref_ret, crep_lookup.
Qed.

(** Every cached block is in a slot in use. *)
Lemma block_slot b x :
  (b, x) ∈ l → ∃ i, 0 <= i < block_count s ∧ used !! Z.to_nat i = Some b.
Proof using H.
  intros Hb. assert (b ∈ l.*1) as Hin by (apply list_elem_of_fmap; by exists (b, x)).
  rewrite <- (cr_slots _ _ _ H) in Hin. apply list_elem_of_filter in Hin as [_ Hin].
  apply list_elem_of_lookup in Hin as [i Hi]. exists (Z.of_nat i).
  rewrite Nat2Z.id. split; [|done]. apply lookup_lt_Some in Hi.
  rewrite (tb_count _ _ (cr_table _ _ _ H)). lia.
Qed.

(** The test of the searching loop. *)
Definition holds_id (id i : Z) : bool :=
  match used !! Z.to_nat i with
  | Some b => negb (b =? NULL) && bool_decide (cb_block_id <$> c_store s !! b = Some id)
  | None => false
  end.

Lemma holds_id_test id i :
  0 <= i < block_count s →
  slot_has id i s = Ret (holds_id id i) s.
Proof using H.
  intros Hi. destruct (slot_cases i Hi) as (b & E & Eu & Hb).
  unfold slot_has, holds_id. mstep E. rewrite Eu. destruct Hb as [->|(Hn & x & Hx & Ex)]; [done|].
  rewrite (proj2 (Z.eqb_neq _ _)) by done. mstep Ex.
  apply crep_lookup in Hx. rewrite Hx. simpl. unfold mret, M_ret. f_equal.
  case_bool_decide; zcase; congruence.
Qed.

Lemma holds_id_false id i b x :
  holds_id id i = false → used !! Z.to_nat i = Some b → (b, x) ∈ l → b ≠ NULL →
  cb_block_id x ≠ id.
Proof using H.
  unfold holds_id. intros Hf Eu Hx Hn. rewrite Eu, (proj2 (Z.eqb_neq _ _)) in Hf by done.
  apply crep_lookup in Hx. rewrite Hx in Hf. simpl in Hf.
  apply bool_decide_eq_false in Hf. naive_solver.
Qed.

Lemma find_cache_block_ok id :
  (∃ b x, (b, x) ∈ l ∧ cb_block_id x = id ∧ find_cache_block id s = Ret b s) ∨
  ((∀ b x, (b, x) ∈ l → cb_block_id x ≠ id) ∧ find_cache_block id s = Ret NULL s).
Proof using All.
  unfold find_cache_block. rewrite bind_get.
  pose proof (tb_count _ _ (cr_table _ _ _ H)) as Hc.
  destruct (find_range_spec (holds_id id) (Z.to_nat (block_count s)) 0 (slot_has id) s) as (r & E & Hr);
    [intros i Hi; apply (holds_id_test id i); lia|].
  mstep E. destruct r as [i|].
  - left. destruct Hr as (Hi & Ht & _). destruct (slot_cases i ltac:(lia)) as (b & Es & Eu & _).
    unfold holds_id in Ht. rewrite Eu in Ht. apply andb_prop in Ht as [Hn Ht%bool_decide_eq_true].
    destruct (c_store s !! b) as [x|] eqn:Ex; [|done]. injection Ht as Ht.
    exists b, x. by rewrite crep_lookup.
  - right. split; [|done]. intros b x Hx. destruct (block_slot b x Hx) as (i & Hi & Eu).
    eapply holds_id_false; [apply (Hr i); lia|done..|].
    apply not_eq_sym, Z.lt_neq, (crep_nonnull b), list_elem_of_fmap. by exists (b, x).
Qed.

(** The eviction scan finds the least recently used block among the unreferenced ones. *)
Definition scanned (i : Z) (r : Z * Z) : Prop :=
  (r.2 = -1 ∧ r.1 = 2 ^ 64 - 1 ∨
   0 <= r.2 < block_count s ∧ ∃ b x, used !! Z.to_nat r.2 = Some b ∧ (b, x) ∈ l ∧ b ≠ NULL ∧
     cb_reference_count x = 0 ∧ cb_last_access x = r.1) ∧
  (∀ j b x, 0 <= j < i → used !! Z.to_nat j = Some b → (b, x) ∈ l →
     cb_reference_count x = 0 → r.1 <= cb_last_access x).

Lemma scanned_empty i r : used !! Z.to_nat i = Some NULL → scanned i r → scanned (i + 1) r.
Proof using All.
  intros Eu [Hs1 Hs2]. split; [done|]. intros j b x Hj Ej Hx H0.
  destruct (decide (j = i)) as [->|]; [|eapply (Hs2 j); [lia|done..]].
  rewrite Eu in Ej. injection Ej as <-. exfalso. apply (Z.lt_irrefl NULL).
  apply crep_nonnull, list_elem_of_fmap. by exists (NULL, x).
Qed.

Lemma scanned_block i b x t k :
  0 <= i < block_count s → used !! Z.to_nat i = Some b → (b, x) ∈ l → b ≠ NULL →
  scanned i (t, k) →
  scanned (i + 1) (if (cb_reference_count x =? 0) && (cb_last_access x <? t)
                   then (cb_last_access x, i) else (t, k)).
Proof using H.
  intros Hi Eu Hx Hn [Hs1 Hs2]. simpl in *.
  assert (∀ j c y, 0 <= j < i + 1 → used !! Z.to_nat j = Some c → (c, y) ∈ l →
    cb_reference_count y = 0 → t <= cb_last_access y ∨ y = x) as Hcase.
  { intros j c y Hj Ej Hy Hy0. destruct (decide (j = i)) as [->|]; [right|left].
    - rewrite Eu in Ej. injection Ej as <-. apply crep_lookup in Hx, Hy. congruence.
    - eapply (Hs2 j); [lia|done..]. }
  destruct (Z.eqb_spec (cb_reference_count x) 0) as [H0|H0];
    [destruct (Z.ltb_spec (cb_last_access x) t)|]; (split; simpl; [try done|]).
  1: by right; split; [lia|exists b, x].
  all: intros j c y Hj Ej Hy Hy0; destruct (Hcase j c y Hj Ej Hy Hy0) as [?| ->]; [lia|lia].
Qed.

Lemma oldest_scan_ok :
  access_time s < 2 ^ 64 - 1 →
  ∃ t i, oldest_scan s = Ret (t, i) s ∧
    ((i = -1 ∧ ∀ b x, (b, x) ∈ l → cb_reference_count x ≠ 0) ∨
     (0 <= i < block_count s ∧ ∃ b x, used !! Z.to_nat i = Some b ∧ (b, x) ∈ l ∧ b ≠ NULL ∧
       cb_reference_count x = 0 ∧
       ∀ c y, (c, y) ∈ l → cb_reference_count y = 0 → cb_last_access x <= cb_last_access y)).
Proof using All.
  intros Ht. unfold oldest_scan. rewrite bind_get.
  pose proof (tb_count _ _ (cr_table _ _ _ H)) as Hc.
  edestruct (fold_range_inv (λ i r s', s' = s ∧ scanned i r) (Z.to_nat (block_count s)) 0
    (0xFFFFFFFFFFFFFFFF, -1)) as ([t k] & s' & E & -> & Hs1 & Hs2); cycle 2.
  - exists t, k. split; [exact E|]. simpl in *.
    assert (∀ b x, (b, x) ∈ l → cb_reference_count x = 0 → t <= cb_last_access x) as Hmin.
    { intros b x Hx H0. destruct (block_slot b x Hx) as (j & Hj & Eu).
      eapply Hs2; [|done..]. lia. }
    destruct Hs1 as [[-> ->]|(Hk & b & x & Eu & Hx & Hn & H0 & <-)].
    + left. split; [done|]. intros b x Hx H0. pose proof (Hmin b x Hx H0).
      pose proof (proj1 (Forall_forall _ _) (cr_blocks _ _ _ H) _ Hx) as [? _]. simpl in *. lia.
    + right. split; [done|]. by exists b, x.
  - split; [done|]. split; [by left|]. intros; lia.
  - intros i [t k] s' Hi (-> & Hs). destruct (slot_cases i ltac:(lia)) as (b & Es & Eu & Hb).
    mstep Es. destruct Hb as [->|(Hn & x & Hx & Ex)].
    + exists (t, k), s. split; [done|]. split; [done|]. by apply scanned_empty.
    + rewrite (proj2 (Z.eqb_neq _ _)) by done. mstep Ex.
      pose proof (scanned_block i b x t k ltac:(lia) Eu Hx Hn Hs).
      destruct (_ && _); eexists _, s; by (split; [done|]).
Qed.
End reading.

(** *** Updating blocks in place *)

(** Replace the contents of every block by [g] of it. *)
Definition rewrite_blocks (g : Z * cache_block → cache_block) l : list (Z * cache_block) :=
  (λ e, (e.1, g e)) <$> l.
Definition at_addr (b : Z) (f : cache_block → cache_block) (e : Z * cache_block) : cache_block :=
  if e.1 =? b then f e.2 else e.2.

(** [g] changes neither what identifies and locates a block nor its place in the order. *)
Definition keeps_identity (g : Z * cache_block → cache_block) : Prop :=
  ∀ e, cb_block_id (g e) = cb_block_id e.2 ∧ cb_data (g e) = cb_data e.2 ∧
    cb_size (g e) = cb_size e.2 ∧ cb_last_access (g e) = cb_last_access e.2.

Lemma rewrite_cons g b x l : rewrite_blocks g ((b, x) :: l) = (b, g (b, x)) :: rewrite_blocks g l.
Proof. done. Qed.

Lemma rewrite_ext g g' l :
  (∀ e, e ∈ l → g e = g' e) → rewrite_blocks g l = rewrite_blocks g' l.
Proof.
  intros Hg. apply list_fmap_ext. intros i e He. f_equal.
  apply Hg. by eapply list_elem_of_lookup_2.
Qed.

Lemma rewrite_compose g g' l :
  rewrite_blocks g' (rewrite_blocks g l) = rewrite_blocks (λ e, g' (e.1, g e)) l.
Proof. unfold rewrite_blocks. by rewrite <- list_fmap_compose. Qed.

Lemma rewrite_keys g l : (rewrite_blocks g l).*1 = l.*1.
Proof. unfold rewrite_blocks. by rewrite <- list_fmap_compose. Qed.

Lemma rewrite_owned g l : keeps_identity g → owned (rewrite_blocks g l) = owned l.
Proof.
  intros Hg. induction l as [|[b x] l IH]; [done|].
  destruct (Hg (b, x)) as (_ & Ed & Es & _). rewrite rewrite_cons, !owned_cons, IH.
  by rewrite Ed, Es.
Qed.

Lemma rewrite_sorted g l :
  keeps_identity g → StronglySorted newer l → StronglySorted newer (rewrite_blocks g l).
Proof.
  intros Hg. induction 1 as [|e l Hs IH Hf]; [constructor|]. constructor; [done|].
  apply Forall_fmap. eapply Forall_impl; [exact Hf|]. intros f Hef. unfold newer. simpl.
  destruct (Hg e) as (_ & _ & _ & ->), (Hg f) as (_ & _ & _ & ->). done.
Qed.

Lemma rewrite_id g l : (∀ e, e ∈ l → g e = e.2) → rewrite_blocks g l = l.
Proof.
  intros Hg. rewrite (rewrite_ext _ snd) by done. clear Hg.
  induction l as [|[c x] l IH]; [done|]. by rewrite rewrite_cons, IH.
Qed.

Lemma rewrite_at_notin b f l : b ∉ l.*1 → rewrite_blocks (at_addr b f) l = l.
Proof.
  intros Hb. apply rewrite_id. intros [c x] He. unfold at_addr. simpl.
  rewrite (proj2 (Z.eqb_neq _ _)); [done|].
  intros ->. apply Hb, list_elem_of_fmap. by exists (b, x).
Qed.

Lemma rewrite_at_map b f l x :
  NoDup l.*1 → (b, x) ∈ l →
  list_to_map (rewrite_blocks (at_addr b f) l) = <[b := f x]> (list_to_map l : gmap Z cache_block).
Proof.
  induction l as [|[c y] l IH]; [by intros _ ?%not_elem_of_nil|].
  cbn [fmap list_fmap fst]. rewrite NoDup_cons. intros [Hc Hl] [[= -> ->]|Hx]%elem_of_cons.
  - rewrite rewrite_cons, rewrite_at_notin by done. unfold at_addr. simpl. rewrite Z.eqb_refl.
    by rewrite insert_insert_eq.
  - assert (c ≠ b) as Hne.
    { intros ->. apply Hc, list_elem_of_fmap. by exists (b, x). }
    rewrite rewrite_cons. unfold at_addr at 1. simpl.
    rewrite (proj2 (Z.eqb_neq _ _)) by done. rewrite IH by done. by rewrite insert_insert_ne.
Qed.

Lemma table_same s s' used :
  blocks s' = blocks s → block_count s' = block_count s → table s used → table s' used.
Proof. intros Hb Hc []. constructor; [congruence|congruence|done|done]. Qed.

Lemma crep_rewrite s s' l used g :
  crep s l used → keeps_identity g →
  c_mem s' = c_mem s → blocks s' = blocks s → block_count s' = block_count s →
  access_time s' = access_time s → c_store s' = list_to_map (rewrite_blocks g l) →
  (∀ e, e ∈ l → block_ok (access_time s) e → block_ok (access_time s) (e.1, g e)) →
  crep s' (rewrite_blocks g l) used.
Proof.
  intros [Hm Hst Ht Hsl Ho Hi Hs Hb Hc] Hg Em Eb Ec Ea Es Hok. constructor.
  - by rewrite Em, rewrite_owned.
  - done.
  - by eapply table_same.
  - by rewrite rewrite_keys.
  - by rewrite rewrite_owned.
  - unfold rewrite_blocks. rewrite <- list_fmap_compose.
    rewrite (list_fmap_ext _ (λ e, cb_block_id e.2)); [done|]. intros i e _. apply Hg.
  - by apply rewrite_sorted.
  - rewrite Ea. apply Forall_fmap, Forall_forall. intros e He. apply Hok; [done|].
    by apply (proj1 (Forall_forall _ _) Hb).
  - by rewrite Ea.
Qed.

Section operations.
Context `{!AllocatorLaws St} `{!LowMemory St}.

Lemma at_addr_keeps b f :
  (∀ x, cb_block_id (f x) = cb_block_id x ∧ cb_data (f x) = cb_data x ∧
     cb_size (f x) = cb_size x ∧ cb_last_access (f x) = cb_last_access x) →
  keeps_identity (at_addr b f).
Proof. intros Hf [c x]. unfold at_addr. simpl. by destruct (c =? b). Qed.

Lemma upd_block_ok s l used b x f :
  crep s l used → (b, x) ∈ l →
  (∀ x, cb_block_id (f x) = cb_block_id x ∧ cb_data (f x) = cb_data x ∧
     cb_size (f x) = cb_size x ∧ cb_last_access (f x) = cb_last_access x) →
  (block_ok (access_time s) (b, x) → block_ok (access_time s) (b, f x)) →
  ∃ s', upd_block b f s = Ret tt s' ∧ crep s' (rewrite_blocks (at_addr b f) l) used.
Proof.
  intros H Hx Hf Hok. pose proof (proj1 (crep_lookup _ _ _ H b x) Hx) as Ex.
  unfold upd_block. mstep (deref_ret (λ s, c_store s !! b) s x Ex).
  eexists. split; [done|]. eapply crep_rewrite; try done.
  - by apply at_addr_keeps.
  - simpl. rewrite (cr_store _ _ _ H). symmetry.
    apply rewrite_at_map; [by eapply crep_keys|done].
  - intros [c y] Hy. unfold at_addr. simpl. zcase; [subst c|done].
    assert (y = x) as ->; [|done].
    apply (crep_lookup _ _ _ H) in Hy. rewrite Ex in Hy. by injection Hy.
Qed.

Lemma on_ptr_notin p g es : p ∉ ce_ptr <$> es → on_ptr p g es = es.
Proof.
  unfold on_ptr. induction es as [|e es IH]; [done|]. cbn [fmap list_fmap]. intros Hp.
  rewrite IH by set_solver. destruct (Z.eqb_spec (ce_ptr e) p); [set_solver|done].
Qed.

Lemma on_ptr_id p g es :
  (∀ e, e ∈ es → ce_ptr e = p → g e = e) → on_ptr p g es = es.
Proof.
  unfold on_ptr. intros Hg. rewrite <- (list_fmap_id es) at 2.
  apply list_fmap_ext. intros i e He. destruct (Z.eqb_spec (ce_ptr e) p); [|done].
  apply Hg; [by eapply list_elem_of_lookup_2|done].
Qed.

Lemma entry_ptrs l : ce_ptr <$> (entry <$> l) = l.*1.
Proof. by rewrite <- list_fmap_compose. Qed.

Lemma entry_ids l : ce_id <$> (entry <$> l) = (λ e, cb_block_id e.2) <$> l.
Proof. by rewrite <- list_fmap_compose. Qed.

Lemma null_unowned s l used g :
  crep s l used → on_ptr NULL g (entry <$> l) = entry <$> l.
Proof.
  intros H. apply on_ptr_notin. rewrite entry_ptrs.
  intros Hn%(crep_nonnull _ _ _ H). by unfold NULL in Hn.
Qed.

(** An operation that stores to one block, as a step of the abstract machine. *)
Lemma upd_represents s l used b x f g :
  crep s l used → (b, x) ∈ l →
  (∀ x, cb_block_id (f x) = cb_block_id x ∧ cb_data (f x) = cb_data x ∧
     cb_size (f x) = cb_size x ∧ cb_last_access (f x) = cb_last_access x) →
  (block_ok (access_time s) (b, x) → block_ok (access_time s) (b, f x)) →
  entry (b, f x) = g (entry (b, x)) →
  ∃ s', upd_block b f s = Ret tt s' ∧
    crepresents s' (Lru (on_ptr b g (entry <$> l)) (bool_decide (length used = 256%nat))).
Proof.
  intros H Hx Hf Hok Hg. destruct (upd_block_ok s l used b x f H Hx Hf Hok) as (s' & E & H').
  exists s'. split; [done|]. exists (rewrite_blocks (at_addr b f) l), used.
  split; [done|]. split; [|done]. simpl. unfold rewrite_blocks, on_ptr.
  rewrite <- !list_fmap_compose. apply list_fmap_ext. intros i [c y] Hy. unfold at_addr. simpl.
  destruct (Z.eqb_spec c b) as [->|]; [|done].
  apply list_elem_of_lookup_2, (crep_lookup _ _ _ H) in Hy.
  apply (crep_lookup _ _ _ H) in Hx. rewrite Hx in Hy. injection Hy as <-. by rewrite Hg.
Qed.

(** The argument of a call on a block: NULL, or a block of the cache. *)
Lemma arg_cases s a p :
  crepresents s a → p = NULL ∨ p ∈ ce_ptr <$> entries a →
  ∃ l used, crep s l used ∧ a = Lru (entry <$> l) (bool_decide (length used = 256%nat)) ∧
    (p = NULL ∨ p ≠ NULL ∧ ∃ x, (p, x) ∈ l ∧ get_block p s = Ret x s ∧
       block_ok (access_time s) (p, x)).
Proof.
  intros (l & used & H & El & Ef) Hp. exists l, used. split; [done|].
  split; [by destruct a; simpl in *; subst|]. destruct Hp as [|Hp]; [by left|right].
  rewrite El, entry_ptrs in Hp. pose proof (crep_nonnull _ _ _ H p Hp).
  split; [unfold NULL; lia|]. apply list_elem_of_fmap in Hp as ([c x] & -> & Hx). exists x.
  split; [done|]. split; [by apply deref_ret, (crep_lookup _ _ _ H)|].
  by apply (proj1 (Forall_forall _ _) (cr_blocks _ _ _ H)).
Qed.

(** An entry that an operation would not change needs no store. *)
Lemma represents_unchanged s l used p x g :
  crep s l used → (p, x) ∈ l → g (entry (p, x)) = entry (p, x) →
  crepresents s (Lru (on_ptr p g (entry <$> l)) (bool_decide (length used = 256%nat))).
Proof.
  intros H Hx Hg. rewrite on_ptr_id; [by exists l, used|].
  intros e ([c y] & -> & Hy)%list_elem_of_fmap Ec. simpl in Ec. subst c.
  apply (crep_lookup _ _ _ H) in Hx, Hy. rewrite Hx in Hy. by injection Hy as <-.
Qed.

Lemma release_represents s a p :
  crepresents s a → p = NULL ∨ p ∈ ce_ptr <$> entries a →
  ∃ s', cache_release_block p s = Ret tt s' ∧
    crepresents s' (Lru (on_ptr p release (entries a)) (filled a)).
Proof.
  intros Ha Hp. destruct (arg_cases s a p Ha Hp) as (l & used & H & -> & Hc). simpl.
  unfold cache_release_block. destruct Hc as [->|(Hn & x & Hx & Ex & Hok)].
  { exists s. split; [done|]. erewrite null_unowned by done. by exists l, used. }
  rewrite (proj2 (Z.eqb_neq _ _)) by done. mstep Ex. destruct Hok as (_ & Hr & _). simpl in Hr.
  zcase.
  - eapply upd_represents; [done|done|done| |].
    + intros (? & ? & ?). split; [done|]. split; [simpl in *; lia|done].
    + unfold entry, release. simpl. f_equal. lia.
  - exists s. split; [done|]. eapply represents_unchanged; [done|done|].
    unfold entry, release. simpl. f_equal. lia.
Qed.

Lemma mark_dirty_represents s a p :
  crepresents s a → p = NULL ∨ p ∈ ce_ptr <$> entries a →
  ∃ s', cache_mark_dirty p s = Ret tt s' ∧
    crepresents s' (Lru (on_ptr p (with_status CACHE_DIRTY) (entries a)) (filled a)).
Proof.
  intros Ha Hp. destruct (arg_cases s a p Ha Hp) as (l & used & H & -> & Hc). simpl.
  unfold cache_mark_dirty. destruct Hc as [->|(Hn & x & Hx & Ex & Hok)].
  { exists s. split; [done|]. erewrite null_unowned by done. by exists l, used. }
  rewrite (proj2 (Z.eqb_neq _ _)) by done. eapply upd_represents; [done|done|done| |done].
  intros (? & ? & ?). split; [done|]. split; [done|by right].
Qed.

Lemma sync_block_represents s a p :
  crepresents s a → p = NULL ∨ p ∈ ce_ptr <$> entries a →
  ∃ s', cache_sync_block p s = Ret 0 s' ∧
    crepresents s' (Lru (on_ptr p (with_status CACHE_CLEAN) (entries a)) (filled a)).
Proof.
  intros Ha Hp. destruct (arg_cases s a p Ha Hp) as (l & used & H & -> & Hc). simpl.
  unfold cache_sync_block. destruct Hc as [->|(Hn & x & Hx & Ex & Hok)].
  { exists s. split; [done|]. erewrite null_unowned by done. by exists l, used. }
  rewrite (proj2 (Z.eqb_neq _ _)) by done. mstep Ex. zcase; simpl.
  - edestruct (upd_represents s l used p x (set_cb_status CACHE_CLEAN)) as (s' & E & H');
      [done|done|done| | |exists s'; mstep E; by split]; [|done].
    intros (? & ? & ?). split; [done|]. split; [done|by left].
  - exists s. split; [done|]. eapply represents_unchanged; [done|done|].
    destruct Hok as (_ & _ & [Es|Es]); [|done]. unfold entry, with_status. by rewrite <- Es.
Qed.

(** The list after the blocks at the addresses of [ps] have been written back. *)
Definition cleaned (ps : list Z) l : list (Z * cache_block) :=
  rewrite_blocks (λ e, if bool_decide (e.1 ∈ ps) then set_cb_status CACHE_CLEAN e.2 else e.2) l.

Lemma cleaned_nil l : cleaned [] l = l.
Proof. apply rewrite_id. done. Qed.

Lemma cleaned_step ps b l :
  cleaned (ps ++ [b]) l = rewrite_blocks (at_addr b (set_cb_status CACHE_CLEAN)) (cleaned ps l).
Proof.
  unfold cleaned. rewrite rewrite_compose. apply rewrite_ext. intros [c x] _. unfold at_addr. simpl.
  destruct (Z.eqb_spec c b) as [->|].
  - rewrite bool_decide_true by set_solver. by case_bool_decide.
  - rewrite (bool_decide_ext (c ∈ ps ++ [b]) (c ∈ ps)) by set_solver. done.
Qed.

(** One iteration of the loop leaves the block of its slot clean. *)
Lemma sync_slot_ok s l used b x :
  crep s l used → (b, x) ∈ l → b ≠ NULL → get_block b s = Ret x s →
  ∃ s', (if cb_status x =? CACHE_DIRTY then cache_sync_block b s = Ret 0 s' else s' = s) ∧
    crep s' (rewrite_blocks (at_addr b (set_cb_status CACHE_CLEAN)) l) used.
Proof.
  intros H Hx Hn Ex.
  destruct (proj1 (Forall_forall _ _) (cr_blocks _ _ _ H) _ Hx) as (_ & _ & Hst). simpl in Hst.
  destruct (Z.eqb_spec (cb_status x) CACHE_DIRTY) as [Hd|Hd].
  - destruct (upd_block_ok s l used b x (set_cb_status CACHE_CLEAN)) as (s' & E & H');
      [done|done|done| |].
    { intros (? & ? & _). split; [done|]. split; [done|by left]. }
    exists s'. split; [|done]. unfold cache_sync_block.
    rewrite (proj2 (Z.eqb_neq b _)) by done. mstep Ex. rewrite (proj2 (Z.eqb_eq _ _) Hd). simpl.
    by mstep E.
  - exists s. split; [done|]. rewrite rewrite_id; [done|]. intros [c y] Hy. unfold at_addr. simpl.
    zcase; [subst c|done]. apply (crep_lookup _ _ _ H) in Hx, Hy. rewrite Hx in Hy.
    injection Hy as <-. destruct Hst as [Hst|]; [|done]. destruct x; simpl in *; by subst.
Qed.

Lemma sync_loop_ok used n i s l :
  (i + n = length used)%nat → crep s (cleaned (take i used) l) used →
  ∃ s', sync_loop n (Z.of_nat i) s = Ret 0 s' ∧ crep s' (cleaned used l) used.
Proof.
  revert i s. induction n as [|n IH]; intros i s Hi H; cbn [sync_loop].
  { exists s. split; [done|]. by rewrite take_ge in H by lia. }
  pose proof (tb_count _ _ (cr_table _ _ _ H)).
  destruct (slot_cases _ _ _ H (Z.of_nat i)) as (b & Es & Eu & Hb); [lia|].
  rewrite Nat2Z.id in Eu. mstep Es.
  pose proof (cleaned_step (take i used) b l) as Hstep. rewrite <- take_S_r in Hstep by done.
  replace (Z.of_nat i + 1) with (Z.of_nat (S i)) by lia.
  destruct Hb as [->|(Hn & x & Hx & Ex)].
  - apply IH; [lia|]. rewrite Hstep, rewrite_at_notin; [done|].
    intros Hin%(crep_nonnull _ _ _ H). by unfold NULL in Hin.
  - rewrite (proj2 (Z.eqb_neq b _)) by done. mstep Ex.
    destruct (sync_slot_ok s _ used b x H Hx Hn Ex) as (s' & E & H'). rewrite <- Hstep in H'.
    destruct (cb_status x =? CACHE_DIRTY).
    + mstep E. by apply IH; [lia|].
    + subst s'. by apply IH; [lia|].
Qed.

Lemma sync_all_ok s l used :
  crep s l used →
  ∃ s', cache_sync_all s = Ret 0 s' ∧
    crep s' (rewrite_blocks (λ e, set_cb_status CACHE_CLEAN e.2) l) used.
Proof.
  intros H. unfold cache_sync_all. rewrite bind_get.
  rewrite (tb_count _ _ (cr_table _ _ _ H)), Nat2Z.id.
  destruct (sync_loop_ok used (length used) 0 s l) as (s' & E & H'); [lia| |].
  { by rewrite take_0, cleaned_nil. }
  exists s'. split; [done|]. unfold cleaned in H'. erewrite rewrite_ext; [exact H'|].
  intros [b x] Hx. simpl. rewrite bool_decide_true; [done|].
  destruct (block_slot _ _ _ H b x Hx) as (j & _ & Hj). by eapply list_elem_of_lookup_2.
Qed.

Lemma sync_all_represents s a :
  crepresents s a →
  ∃ s', cache_sync_all s = Ret 0 s' ∧
    crepresents s' (Lru (with_status CACHE_CLEAN <$> entries a) (filled a)).
Proof.
  intros (l & used & H & El & Ef). destruct (sync_all_ok s l used H) as (s' & E & H').
  exists s'. split; [done|]. eexists _, used. split; [done|]. split; [|done].
  simpl. rewrite El. unfold rewrite_blocks. by rewrite <- !list_fmap_compose.
Qed.

(** *** A hit *)

Lemma sorted_drop_middle pre e post :
  StronglySorted newer (pre ++ e :: post) → StronglySorted newer (pre ++ post).
Proof.
  induction pre as [|f pre IH]; simpl; inversion_clear 1 as [|? ? Hs Hf]; [done|].
  constructor; [by apply IH|]. apply Forall_app in Hf as [H1 H2]. inversion_clear H2.
  by apply Forall_app.
Qed.

(** A block with a later time stamp than every other goes to the front. *)
Lemma sorted_push now l e :
  StronglySorted newer l → Forall (block_ok now) l → now < cb_last_access e.2 →
  StronglySorted newer (e :: l).
Proof.
  intros Hs Hb Hn. constructor; [done|]. eapply Forall_impl; [exact Hb|].
  intros f [? _]. unfold newer. lia.
Qed.

Lemma block_ok_later now now' e : now <= now' → block_ok now e → block_ok now' e.
Proof. intros Hle (? & ? & ?). split; [lia|done]. Qed.

Lemma crep_promote s s' pre b x x' post used :
  crep s (pre ++ (b, x) :: post) used →
  c_mem s' = c_mem s → blocks s' = blocks s → block_count s' = block_count s →
  c_store s' = <[b := x']> (c_store s) → access_time s < access_time s' →
  cb_block_id x' = cb_block_id x → cb_data x' = cb_data x → cb_size x' = cb_size x →
  cb_last_access x' = access_time s' → block_ok (access_time s') (b, x') →
  crep s' ((b, x') :: pre ++ post) used.
Proof.
  intros [Hm Hst Ht Hsl Ho Hi Hs Hb Hc] Em Eb Ec Es Ea Ei Ed Ez El Hok.
  assert (pre ++ (b, x) :: post ≡ₚ (b, x) :: pre ++ post) as Hp
    by (symmetry; apply Permutation_middle).
  assert (owned ((b, x') :: pre ++ post) = owned ((b, x) :: pre ++ post)) as Eo
    by apply (owned_middle [] b x x' (pre ++ post) Ed Ez).
  assert (Forall (block_ok (access_time s)) (pre ++ post)) as Hb'.
  { rewrite Hp in Hb. by inversion Hb. }
  constructor.
  - rewrite Em, Eo. erewrite list_to_map_proper; [exact Hm| |by rewrite Hp].
    by rewrite <- Hp.
  - rewrite Es, Hst, (list_to_map_proper _ _ (nodup_keys _ Ho) Hp). simpl.
    by rewrite insert_insert_eq.
  - by eapply table_same.
  - rewrite Hsl, Hp. done.
  - by rewrite Eo, <- Hp.
  - rewrite Hp in Hi. cbn [fmap list_fmap snd] in *. by rewrite Ei.
  - eapply sorted_push; [by eapply sorted_drop_middle|done|simpl; lia].
  - constructor; [done|]. eapply Forall_impl; [exact Hb'|]. intros e. apply block_ok_later. lia.
  - lia.
Qed.

Definition touched (t : Z) (x : cache_block) : cache_block :=
  set_cb_reference_count (u32 (cb_reference_count x + 1)) (set_cb_last_access t x).

Lemma hit_run s id size b x :
  find_cache_block id s = Ret b s → b ≠ NULL → c_store s !! b = Some x →
  cache_get_block id size s =
    Ret b (set_c_store (<[b := touched (u64 (access_time s + 1)) x]> (c_store s))
      (set_access_time (u64 (access_time s + 1)) (set_hit_count (u64 (hit_count s + 1)) s))).
Proof.
  intros Ef Hn Ex. unfold cache_get_block. mstep Ef. rewrite (proj2 (Z.eqb_neq _ _)) by done.
  unfold tick, upd_block, get_block. mred. unfold deref. simpl. rewrite Ex. simpl.
  rewrite lookup_insert_eq. simpl. rewrite lookup_insert_eq. simpl. rewrite insert_insert_eq.
  done.
Qed.

Lemma hit_represents s l used id size b x :
  crep s l used → (b, x) ∈ l → cb_block_id x = id → find_cache_block id s = Ret b s →
  access_time s < 2 ^ 64 - 2 →
  ∃ s' a', cache_get_block id size s = Ret b s' ∧ crepresents s' a' ∧
    get_step (Lru (entry <$> l) (bool_decide (length used = 256%nat))) id size b a'.
Proof.
  intros H Hx Hid Ef Ht. pose proof (cr_clock _ _ _ H) as Hc.
  assert (0 < b) as Hn by (apply (crep_nonnull _ _ _ H), list_elem_of_fmap; by exists (b, x)).
  pose proof (proj1 (Forall_forall _ _) (cr_blocks _ _ _ H) _ Hx) as (_ & _ & Hst).
  pose proof (proj1 (crep_lookup _ _ _ H b x) Hx) as Ex.
  apply list_elem_of_split in Hx as (pre & post & ->).
  eexists _, (Lru (entry <$> (b, touched (access_time s + 1) x) :: pre ++ post) _).
  split; [apply (hit_run s id size b x Ef); [unfold NULL; lia|done]|].
  rewrite u64_small by lia. split.
  - eexists _, used. split; [|done]. eapply crep_promote; try done; simpl; [lia|].
    split; [simpl; lia|]. split; [apply u32_range|done].
  - rewrite fmap_app, fmap_cons, fmap_cons, fmap_app.
    apply (get_hit (Lru _ _) id size (entry <$> pre) (entry (b, x)) (entry <$> post)); done.
Qed.

(** *** A miss *)

Lemma nonnull_set (used : list Z) i u v :
  used !! i = Some u →
  ∃ r, filter (λ b, b ≠ NULL) used ≡ₚ filter (λ b, b ≠ NULL) [u] ++ r ∧
       filter (λ b, b ≠ NULL) (<[i := v]> used) ≡ₚ filter (λ b, b ≠ NULL) [v] ++ r.
Proof.
  intros Hu. exists (filter (λ b, b ≠ NULL) (take i used ++ drop (S i) used)).
  assert (i < length used)%nat by (by eapply lookup_lt_Some).
  rewrite insert_take_drop by done. rewrite <- (take_drop_middle used i u Hu) at 1.
  rewrite <- !filter_app. split; apply filter_Permutation; simpl; symmetry; apply Permutation_middle.
Qed.

Lemma kfree_ret s m p n :
  al_rep (c_mem s) m → m !! p = Some n →
  ∃ c, kfree p s = Ret tt (set_c_mem c s) ∧ al_rep c (delete p m).
Proof.
  intros Hm Hp. destruct (al_kfree_ok _ _ _ _ Hm Hp) as (c & E & Hc). exists c.
  unfold kfree, zoom. by rewrite E.
Qed.

Lemma put_slot_ret s i v :
  0 <= i → (Z.to_nat i < length (blocks s))%nat →
  put_slot i v s = Ret tt (set_blocks (<[Z.to_nat i := v]> (blocks s)) s).
Proof.
  intros Hi Hl. destruct (lookup_lt_is_Some_2 _ _ Hl) as [b Hb].
  unfold put_slot, get_slot. rewrite (proj2 (Z.ltb_ge _ _)) by lia.
  by mstep (deref_ret (λ s, blocks s !! Z.to_nat i) s b Hb).
Qed.

Lemma table_length s used : table s used → length (blocks s) = 256%nat.
Proof. intros [Hb _ Hm _]. rewrite Hb, length_app, length_replicate. lia. Qed.

(** Overwriting a slot in use of a table that has been full. *)
Lemma table_set s used i v :
  table s used → length used = 256%nat → (i < 256)%nat →
  table (set_blocks (<[i := v]> (blocks s)) s) (<[i := v]> used).
Proof.
  intros [Hb Hc Hm Hd] Hl Hi. constructor; simpl; rewrite ?length_insert; try done; [|lia].
  rewrite Hb. apply insert_app_l. lia.
Qed.

(** What is left of the memory and of the table when a block is given back. *)
Lemma crep_drop s pre b x post used i c :
  crep s (pre ++ (b, x) :: post) used → length used = 256%nat → used !! i = Some b →
  al_rep c (list_to_map (owned (pre ++ post))) →
  crep (set_blocks (<[i := NULL]> (blocks s))
          (set_c_store (delete b (c_store s)) (set_c_mem c s)))
    (pre ++ post) (<[i := NULL]> used).
Proof.
  intros H Hl Hi Hm.
  assert (0 < b) as Hn by (apply (crep_nonnull _ _ _ H); rewrite fmap_app; set_solver).
  destruct H as [_ Hst Ht Hsl Ho Hids Hs Hb Hc].
  assert (pre ++ (b, x) :: post ≡ₚ (b, x) :: pre ++ post) as Hp
    by (symmetry; apply Permutation_middle).
  rewrite Hp in Hids, Hb. pose proof (list_to_map_proper _ _ (nodup_keys _ Ho) Hp) as Es.
  rewrite Hp in Ho. pose proof (nodup_keys _ Ho) as Hk. rewrite owned_cons in Ho. constructor; simpl.
  - done.
  - transitivity (delete b (list_to_map ((b, x) :: pre ++ post) : gmap Z cache_block)).
    { by rewrite Hst, <- Es. }
    apply delete_insert_id.
    apply not_elem_of_list_to_map. by inversion Hk.
  - apply lookup_lt_Some in Hi. rewrite Hl in Hi.
    apply (table_set (set_c_store (delete b (c_store s)) (set_c_mem c s))); [|done|done].
    by eapply (table_same s).
  - destruct (nonnull_set used i b NULL Hi) as (r & E1 & E2).
    rewrite E2, filter_cons_False, filter_nil by (by intros []). simpl.
    rewrite E1, filter_cons_True, filter_nil, Hp in Hsl by (unfold NULL; lia).
    simpl in Hsl. by apply Permutation_cons_inv in Hsl.
  - inversion_clear Ho as [|? ? _ Ho']. by inversion Ho'.
  - by inversion Hids.
  - by eapply sorted_drop_middle.
  - by inversion Hb.
  - done.
Qed.

Lemma evict_ok s pre b x post used i :
  crep s (pre ++ (b, x) :: post) used → length used = 256%nat → 0 <= i →
  used !! Z.to_nat i = Some b →
  ∃ s', evict i s = Ret tt s' ∧ crep s' (pre ++ post) (<[Z.to_nat i := NULL]> used) ∧
    access_time s' = access_time s ∧ block_count s' = block_count s.
Proof.
  intros H Hl Hi Hu. pose proof (lookup_lt_Some _ _ _ Hu) as Hlt.
  pose proof (tb_count _ _ (cr_table _ _ _ H)).
  assert ((b, x) ∈ pre ++ (b, x) :: post) as Hx by set_solver.
  destruct (slot_cases _ _ _ H i) as (b' & Es & Eu & _); [lia|].
  rewrite Hu in Eu. injection Eu as <-. unfold evict. mstep Es.
  mstep (deref_ret (λ s, c_store s !! b) s x (proj1 (crep_lookup _ _ _ H b x) Hx)).
  assert (owned (pre ++ (b, x) :: post) ≡ₚ owned ((b, x) :: pre ++ post)) as Hp
    by (by rewrite Permutation_middle).
  pose proof (cr_mem _ _ _ H) as Hm. pose proof (cr_owned _ _ _ H) as Ho.
  rewrite (list_to_map_proper _ _ Ho Hp) in Hm. rewrite Hp in Ho. rewrite owned_cons in Hm, Ho.
  inversion_clear Ho as [|? ? Hb Ho']. inversion_clear Ho' as [|? ? Hd _].
  apply not_elem_of_list_to_map in Hd. apply not_elem_of_cons in Hb as [Hbd Hb%not_elem_of_list_to_map].
  simpl in Hm, Hb, Hd, Hbd. rewrite insert_insert_ne in Hm by done.
  destruct (kfree_ret s _ (cb_data x) (cb_size x) Hm) as (c1 & E1 & Hm1); [apply lookup_insert_eq|].
  mstep E1. rewrite delete_insert_id in Hm1 by (by rewrite lookup_insert_ne).
  destruct (kfree_ret (set_c_mem c1 s) _ b sizeof_cache_block Hm1) as (c2 & E2 & Hm2);
    [apply lookup_insert_eq|].
  mstep E2. rewrite delete_insert_id in Hm2 by done. rewrite bind_modify.
  eexists. split; [apply put_slot_ret; [done|]|].
  { simpl. rewrite (table_length s used (cr_table _ _ _ H)). lia. }
  split; [|done]. by eapply (crep_drop s).
Qed.

(** A table has room for a block: before it has been full, or when a block was dropped. *)
Definition room (used : list Z) : Prop := (length used < 256)%nat ∨ NULL ∈ used.

Lemma slot_empty_test s used i :
  table s used → 0 <= i < 256 →
  slot_empty i s = Ret (bool_decide (blocks s !! Z.to_nat i = Some NULL)) s.
Proof.
  intros Ht Hi. destruct (lookup_lt_is_Some_2 (blocks s) (Z.to_nat i)) as [b Hb].
  { rewrite (table_length s used Ht). lia. }
  unfold slot_empty, get_slot. rewrite (proj2 (Z.ltb_ge _ _)) by lia.
  mstep (deref_ret (λ s, blocks s !! Z.to_nat i) s b Hb). rewrite Hb.
  unfold mret, M_ret. f_equal. case_bool_decide; zcase; congruence.
Qed.

(** The first empty slot is the one after the slots in use, unless the table has been full. *)
Lemma first_empty s used :
  table s used → room used →
  ∃ k, find_range 256 0 slot_empty s = Ret (Some k) s ∧ 0 <= k < 256 ∧
    blocks s !! Z.to_nat k = Some NULL ∧ ((length used < 256)%nat → k = Z.of_nat (length used)).
Proof.
  intros Ht Hr. pose proof Ht as [Hb Hc Hm Hd].
  destruct (find_range_spec (λ i, bool_decide (blocks s !! Z.to_nat i = Some NULL)) 256 0
    slot_empty s) as (r & E & Hf).
  { intros i Hi. eapply slot_empty_test; [done|lia]. }
  destruct r as [k|].
  - destruct Hf as (Hk & Ek%bool_decide_eq_true & Hmin). exists k. split; [done|].
    split; [lia|]. split; [done|]. intros Hl.
    destruct (Z.lt_trichotomy k (Z.of_nat (length used))) as [Hlt|[|Hgt]]; [|done|].
    + rewrite Hb, lookup_app_l in Ek by lia. by apply list_elem_of_lookup_2, Hd in Ek.
    + pose proof (Hmin (Z.of_nat (length used)) ltac:(lia)) as Hx.
      apply bool_decide_eq_false in Hx. destruct Hx.
      rewrite Nat2Z.id, Hb, lookup_app_r, Nat.sub_diag by lia. apply lookup_replicate. lia.
  - exfalso. assert (NULL ∈ blocks s) as [i Hi]%list_elem_of_lookup.
    { rewrite Hb. apply elem_of_app. destruct Hr as [Hl|]; [right|by left].
      apply elem_of_replicate. lia. }
    pose proof (lookup_lt_Some _ _ _ Hi) as Hl. rewrite (table_length s used Ht) in Hl.
    pose proof (Hf (Z.of_nat i) ltac:(lia)) as Hx. rewrite Nat2Z.id in Hx.
    by apply bool_decide_eq_false in Hx.
Qed.

(** The slot after the slots in use. *)
Lemma table_grow s used p :
  table s used → (length used < 256)%nat → p ≠ NULL →
  table (set_block_count (Z.of_nat (length used) + 1)
           (set_blocks (<[length used := p]> (blocks s)) s)) (used ++ [p]).
Proof.
  intros [Hb Hc Hm Hd] Hl Hp. constructor; simpl; rewrite ?length_app; simpl; try lia.
  - rewrite Hb, insert_app_r_alt, Nat.sub_diag by lia.
    replace (256 - length used)%nat with (S (256 - (length used + 1))) by lia.
    simpl. by rewrite <- app_assoc.
  - intros _. apply not_elem_of_app. split; [apply Hd; lia|]. set_solver.
Qed.

(** The block is entered in a hole of a table that has been full, at the end of one that has
    not. *)
Lemma publish_ok s used p :
  table s used → room used → p ≠ NULL →
  ∃ s' used', publish p s = Ret tt s' ∧ table s' used' ∧
    filter (λ b, b ≠ NULL) used' ≡ₚ p :: filter (λ b, b ≠ NULL) used ∧
    length used' = (if decide (length used = 256%nat) then 256%nat else S (length used)) ∧
    c_mem s' = c_mem s ∧ c_store s' = c_store s ∧ access_time s' = access_time s.
Proof.
  intros Ht Hr Hp. pose proof Ht as [Hb Hc Hm Hd].
  destruct (first_empty s used Ht Hr) as (k & E & Hk & Hn & Hend).
  unfold publish. change (Z.to_nat MAX_CACHE_BLOCKS) with 256%nat. mstep E. clear E.
  mstep (put_slot_ret s k p ltac:(lia) ltac:(rewrite (table_length s used Ht); lia)).
  rewrite bind_get. cbn [block_count set_blocks]. rewrite Hc.
  destruct (decide (length used = 256%nat)) as [Hl|Hl].
  - rewrite (proj2 (Z.leb_gt _ _)) by lia. eexists _, (<[Z.to_nat k := p]> used).
    split; [done|]. split; [apply table_set; [done|done|lia]|]. split; [|by rewrite length_insert].
    rewrite Hb, lookup_app_l in Hn by lia.
    destruct (nonnull_set used (Z.to_nat k) NULL p Hn) as (r & E1 & E2).
    rewrite E1, E2, filter_cons_True by done. rewrite (filter_cons_False _ NULL) by (by intros []).
    done.
  - rewrite Hend by lia. rewrite Nat2Z.id, Z.leb_refl. eexists _, (used ++ [p]).
    split; [done|]. split; [apply table_grow; [done|lia|done]|].
    split; [|by rewrite length_app, Nat.add_comm].
    rewrite filter_app, filter_cons_True, filter_nil by done. by rewrite Permutation_app_comm.
Qed.

Lemma kmalloc_ret s m n :
  al_rep (c_mem s) m → request_ok n →
  ∃ p c, kmalloc n s = Ret p (set_c_mem c s) ∧
    ((p = NULL ∧ al_rep c m) ∨ (0 < p ∧ m !! p = None ∧ al_rep c (<[p := n]> m))).
Proof.
  intros Hm Hn. destruct (al_kmalloc_ok _ _ _ Hm Hn) as (p & c & E & Hp). exists p, c.
  assert (0 <= p < 2 ^ 31) as Hlow.
  { destruct Hp as [[-> _]|(? & _ & Hr & _)]; [done|].
    pose proof (al_low _ _ p n Hr ltac:(apply lookup_insert_eq)). lia. }
  split; [|destruct Hp as [|(? & ? & ? & _)]; [by left|by right]]. unfold kmalloc.
  assert (zoom c_mem set_c_mem (al_kmalloc n) s = Ret p (set_c_mem c s)) as Ez
    by (unfold zoom; by rewrite E).
  mstep Ez. by rewrite low_pointer by done.
Qed.

Lemma crep_set_mem s l used c :
  crep s l used → al_rep c (list_to_map (owned l)) → crep (set_c_mem c s) l used.
Proof. intros [] Hc. constructor; try done. by eapply (table_same s). Qed.

(** A fresh block and its buffer join the cache. *)
Lemma crep_push s s' l used used' p d x :
  crep s l used → table s' used' →
  filter (λ b, b ≠ NULL) used' ≡ₚ p :: filter (λ b, b ≠ NULL) used →
  al_rep (c_mem s') (list_to_map (owned ((p, x) :: l))) →
  (list_to_map (owned l) : gmap Z Z) !! p = None →
  (list_to_map (owned l) : gmap Z Z) !! d = None → p ≠ d → cb_data x = d →
  c_store s' = <[p := x]> (c_store s) → access_time s < access_time s' →
  cb_last_access x = access_time s' → block_ok (access_time s') (p, x) →
  (∀ b y, (b, y) ∈ l → cb_block_id y ≠ cb_block_id x) →
  crep s' ((p, x) :: l) used'.
Proof.
  intros [Hm Hst Ht Hsl Ho Hi Hs Hb Hc] Ht' Hf Hm' Hp Hd Hpd <- Es Ea El Hok Hid. constructor.
  - done.
  - rewrite Es, Hst. done.
  - done.
  - by rewrite Hf, Hsl.
  - apply not_elem_of_list_to_map in Hp, Hd. rewrite owned_cons. cbn [fmap list_fmap fst].
    constructor; [|by constructor]. rewrite not_elem_of_cons. done.
  - constructor; [|done]. intros ([b y] & Ey & Hy)%list_elem_of_fmap. by apply (Hid b y Hy).
  - eapply sorted_push; [done|done|simpl; lia].
  - constructor; [done|]. eapply Forall_impl; [exact Hb|]. intros e. apply block_ok_later. lia.
  - lia.
Qed.

Lemma new_block_ok s l used id size :
  crep s l used → room used → request_ok size → access_time s < 2 ^ 64 - 2 →
  (∀ b y, (b, y) ∈ l → cb_block_id y ≠ id) →
  ∃ p s', new_block id size s = Ret p s' ∧
    ((p = NULL ∧ crep s' l used) ∨
     (0 < p ∧ (p ∉ l.*1) ∧ ∃ x used', entry (p, x) = CEntry p id (cb_data x) size CACHE_CLEAN 1 ∧
        crep s' ((p, x) :: l) used' ∧
        length used' = (if decide (length used = 256%nat) then 256%nat else S (length used)))).
Proof.
  intros H Hr Hsz Hclk Hid. pose proof (cr_clock _ _ _ H) as Hc. unfold new_block.
  destruct (kmalloc_ret s _ sizeof_cache_block (cr_mem _ _ _ H)) as (p & c1 & E1 & Hp);
    [by split|]. mstep E1. destruct Hp as [[-> Hm1]|(Hp & Hpl & Hm1)].
  { exists NULL, (set_c_mem c1 s). split; [done|]. left. split; [done|]. by apply crep_set_mem. }
  rewrite (proj2 (Z.eqb_neq p _)) by (unfold NULL; lia).
  destruct (kmalloc_ret (set_c_mem c1 s) _ size Hm1 Hsz) as (d & c2 & E2 & Hd). mstep E2.
  destruct Hd as [[-> Hm2]|(Hd & Hdl & Hm2)].
  { simpl. destruct (kfree_ret (set_c_mem c2 (set_c_mem c1 s)) _ p sizeof_cache_block Hm2)
      as (c3 & E3 & Hm3); [apply lookup_insert_eq|]. rewrite delete_insert_id in Hm3 by done.
    mstep E3. exists NULL, (set_c_mem c3 s). split; [done|]. left. split; [done|].
    by apply crep_set_mem. }
  rewrite (proj2 (Z.eqb_neq d _)) by (unfold NULL; lia).
  assert (p ≠ d) as Hne by (intros ->; by rewrite lookup_insert_eq in Hdl).
  rewrite lookup_insert_ne in Hdl by done. rewrite insert_insert_ne in Hm2 by done.
  unfold tick. mred. cbn [set_access_time access_time set_c_mem]. rewrite u64_small by lia.
  set (x := CacheBlock id d size CACHE_CLEAN 1 (access_time s + 1) NULL NULL).
  match goal with |- context [publish p ?t] => set (s1 := t) end.
  destruct (publish_ok s1 used p) as (s' & used' & E & Ht' & Hf & Hl & Em & Es & Ea);
    [by eapply (table_same s), (cr_table _ _ _ H)|done|unfold NULL; lia|].
  exists p, s'. rewrite E. split; [done|]. right. split; [done|]. split.
  { apply not_elem_of_list_to_map in Hpl. intros Hin. by apply Hpl, owned_keys. }
  exists x, used'. split; [done|]. split; [|done].
  eapply (crep_push s s' l used used' p d); try done; rewrite ?Em, ?Es, ?Ea; simpl; try done; [lia|].
  split; [simpl; lia|]. split; [simpl; lia|by left].
Qed.

Lemma ids_fresh l id :
  (∀ b y, (b, y) ∈ l → cb_block_id y ≠ id) → id ∉ ce_id <$> (entry <$> l).
Proof.
  intros Hid. rewrite entry_ids. intros ([b y] & Ey & Hy)%list_elem_of_fmap. by apply (Hid b y Hy).
Qed.

Lemma referenced_entries l :
  (∀ b x, (b, x) ∈ l → cb_reference_count x ≠ 0) → Forall referenced (entry <$> l).
Proof. intros Hr. apply Forall_fmap, Forall_forall. intros [b x]. apply Hr. Qed.

(** The blocks behind the victim of the scan are older, so they are referenced. *)
Lemma victim_oldest pre b x post :
  StronglySorted newer (pre ++ (b, x) :: post) →
  (∀ c y, (c, y) ∈ pre ++ (b, x) :: post → cb_reference_count y = 0 →
     cb_last_access x <= cb_last_access y) →
  Forall referenced (entry <$> post).
Proof.
  intros Hs Hmin. apply referenced_entries. intros c y Hy H0.
  pose proof (Hmin c y ltac:(set_solver) H0).
  induction pre as [|e pre IH]; simpl in Hs; inversion_clear Hs as [|? ? Hs' Hf].
  - apply (proj1 (Forall_forall _ _) Hf) in Hy. unfold newer in Hy. simpl in Hy. lia.
  - apply IH; [done|]. intros c' y' Hy'. apply (Hmin c' y'). by right.
Qed.

Lemma filled_true (used : list Z) : length used = 256%nat → true = bool_decide (length used = 256%nat).
Proof. intros. by rewrite bool_decide_true. Qed.

(** A miss when the table has been full: the least recently used unreferenced block goes. *)
Lemma miss_filled s l used id size :
  crep s l used → length used = 256%nat → request_ok size → access_time s < 2 ^ 64 - 2 →
  (∀ b y, (b, y) ∈ l → cb_block_id y ≠ id) →
  ∃ p s' a', allocate_cache_block id size s = Ret p s' ∧ crepresents s' a' ∧
    get_step (Lru (entry <$> l) true) id size p a'.
Proof.
  intros H Hl Hsz Hclk Hid. pose proof (ids_fresh l id Hid) as Hids.
  unfold allocate_cache_block. rewrite bind_get, (tb_count _ _ (cr_table _ _ _ H)), Hl.
  cbn [Z.leb Z.of_nat]. change (MAX_CACHE_BLOCKS <=? Z.of_nat 256) with true. cbv iota.
  destruct (oldest_scan_ok s l used H ltac:(lia)) as (t & i & E & Hi). mstep E.
  destruct Hi as [[-> Href]|(Hi & b & x & Hu & Hx & Hn & H0 & Hmin)].
  { exists NULL, s, (Lru (entry <$> l) true). split; [done|]. split.
    - exists l, used. split; [done|]. split; [done|by apply filled_true].
    - apply get_busy; [done|done|by apply referenced_entries]. }
  rewrite (proj2 (Z.eqb_neq i _)) by lia. apply list_elem_of_split in Hx as (pre & post & ->).
  pose proof (victim_oldest pre b x post (cr_sorted _ _ _ H) Hmin) as Hpost.
  destruct (evict_ok s pre b x post used i H Hl ltac:(lia) Hu) as (s1 & E1 & H1 & Ht1 & _).
  mstep E1. destruct (new_block_ok s1 (pre ++ post) (<[Z.to_nat i:=NULL]> used) id size)
    as (p & s2 & E2 & Hp); [done| |done|lia|intros c y Hy; apply (Hid c); set_solver|].
  { right. apply list_elem_of_lookup. exists (Z.to_nat i). apply list_lookup_insert_eq.
    by eapply lookup_lt_Some. }
  rewrite length_insert, Hl in Hp. rewrite fmap_app, fmap_cons in Hids |- *.
  destruct Hp as [[-> H2]|(Hp & Hpn & x' & used' & Ex & H2 & Hl2)].
  - exists NULL, s2, (Lru (entry <$> pre ++ post) true). split; [done|]. split.
    + exists (pre ++ post), (<[Z.to_nat i:=NULL]> used). split; [done|]. split; [done|].
      apply filled_true. by rewrite length_insert.
    + rewrite fmap_app. by eapply get_drop.
  - exists p, s2, (Lru (entry <$> (p, x') :: pre ++ post) true). split; [done|]. split.
    + exists ((p, x') :: pre ++ post), used'. split; [done|]. split; [done|by apply filled_true].
    + rewrite fmap_cons, Ex, fmap_app. eapply get_replace; try done.
      by rewrite <- fmap_app, entry_ptrs.
Qed.

(** Before the table has been full every slot in use holds a block. *)
Lemma dense_length s l used :
  crep s l used → (length used < 256)%nat → length used = length l.
Proof.
  intros H Hl. pose proof (Permutation_length (cr_slots _ _ _ H)) as Hlen.
  rewrite length_fmap in Hlen. rewrite <- Hlen. f_equal.
  pose proof (tb_dense _ _ (cr_table _ _ _ H) Hl) as Hd. clear -Hd.
  induction used as [|b used IH]; [done|].
  rewrite filter_cons_True by set_solver. f_equal. apply IH. set_solver.
Qed.

(** A miss before the table has been full. *)
Lemma miss_unfilled s l used id size :
  crep s l used → (length used < 256)%nat → request_ok size → access_time s < 2 ^ 64 - 2 →
  (∀ b y, (b, y) ∈ l → cb_block_id y ≠ id) →
  ∃ p s' a', allocate_cache_block id size s = Ret p s' ∧ crepresents s' a' ∧
    get_step (Lru (entry <$> l) false) id size p a'.
Proof.
  intros H Hl Hsz Hclk Hid. pose proof (ids_fresh l id Hid) as Hids.
  unfold allocate_cache_block. rewrite bind_get, (tb_count _ _ (cr_table _ _ _ H)).
  unfold MAX_CACHE_BLOCKS. rewrite (proj2 (Z.leb_gt _ _)) by lia.
  destruct (new_block_ok s l used id size) as (p & s2 & E2 & Hp); [done|by left|done..|].
  destruct (decide (length used = 256%nat)) as [|_]; [lia|].
  destruct Hp as [[-> H2]|(Hp & Hpn & x' & used' & Ex & H2 & Hl2)].
  - exists NULL, s2, (Lru (entry <$> l) false). split; [done|]. split; [|by apply get_no_memory].
    exists l, used. split; [done|]. split; [done|]. symmetry. apply bool_decide_eq_false. lia.
  - eexists p, s2, _. split; [done|]. split; [|apply get_fresh; try done; simpl; by rewrite entry_ptrs].
    exists ((p, x') :: l), used'. split; [done|]. rewrite fmap_cons, Ex. split; [done|].
    cbn [filled entries]. by rewrite Hl2, (dense_length s l used), length_fmap.
Qed.

Lemma get_represents s a id size :
  crepresents s a → request_ok size → access_time s < 2 ^ 64 - 2 →
  ∃ p s' a', cache_get_block id size s = Ret p s' ∧ crepresents s' a' ∧ get_step a id size p a'.
Proof.
  intros (l & used & H & El & Ef) Hsz Hclk. destruct a as [es f]. simpl in *. subst.
  destruct (find_cache_block_ok s l used H id) as [(b & x & Hx & Hid & E)|[Hid E]].
  { exists b. by apply hit_represents with x. }
  set (s1 := set_miss_count (u64 (miss_count s + 1)) s).
  assert (crep s1 l used) as H1.
  { destruct H. constructor; try done. by eapply (table_same s). }
  assert (∃ p s' a', allocate_cache_block id size s1 = Ret p s' ∧ crepresents s' a' ∧
    get_step (Lru (entry <$> l) (bool_decide (length used = 256%nat))) id size p a')
    as (p & s' & a' & E1 & Ha & Hstep).
  { pose proof (tb_max _ _ (cr_table _ _ _ H)). case_bool_decide.
    - by apply (miss_filled s1 l used).
    - apply (miss_unfilled s1 l used); try done. lia. }
  exists p, s', a'. split; [|done]. unfold cache_get_block. mstep E. cbn [negb Z.eqb NULL].
  rewrite bind_modify. fold s1. mstep E1. by zcase; subst.
Qed.

(** *** Initialisation and sequences of calls *)

(** Before [cache_init] no cache block has been allocated. *)
Definition unused (s : cstate) : Prop :=
  length (blocks s) = 256%nat ∧ c_store s = ∅ ∧ al_rep (c_mem s) ∅.

Lemma cache_init_ok s :
  unused s → ∃ s', cache_init s = Ret tt s' ∧ crepresents s' lru_init.
Proof.
  intros (Hb & Hst & Hm). unfold cache_init. rewrite !bind_modify.
  match goal with |- context [for_range _ _ _ ?t] => set (s1 := t) end.
  destruct (for_range_inv (λ i s', c_mem s' = c_mem s ∧ c_store s' = ∅ ∧ block_count s' = 0 ∧
    access_time s' = 0 ∧ blocks s' = replicate (Z.to_nat i) NULL ++ drop (Z.to_nat i) (blocks s))
    256 0 (λ i, put_slot i NULL) s1) as (s' & E & Em & Es & Ec & Ea & Eb).
  - done.
  - intros i s' Hi (Em & Es & Ec & Ea & Eb).
    assert (length (blocks s') = 256%nat) as Hl.
    { rewrite Eb, length_app, length_replicate, length_drop. lia. }
    eexists. split; [apply put_slot_ret; lia|]. split; [done|]. split; [done|]. split; [done|].
    split; [done|]. simpl. rewrite Eb. replace (Z.to_nat (i + 1)) with (S (Z.to_nat i)) by lia.
    rewrite insert_app_r_alt, length_replicate, Nat.sub_diag by (rewrite length_replicate; lia).
    destruct (drop (Z.to_nat i) (blocks s)) as [|b r] eqn:Ed.
    { apply (f_equal length) in Ed. rewrite length_drop in Ed. simpl in Ed. lia. }
    rewrite replicate_S_end, <- app_assoc. simpl. do 2 f_equal.
    replace (S (Z.to_nat i)) with (Z.to_nat i + 1)%nat by lia. rewrite <- drop_drop, Ed. done.
  - exists s'. split; [exact E|]. exists [], []. split; [|done]. constructor; simpl.
    + by rewrite Em.
    + done.
    + constructor; simpl; [|done|lia|]; [|intros _; apply not_elem_of_nil].
      rewrite Eb, drop_ge, app_nil_r by (rewrite Hb; simpl; lia). done.
    + done.
    + constructor.
    + constructor.
    + constructor.
    + constructor.
    + lia.
Qed.

(** Callers pass NULL or a block that has not been evicted, ask for 1 byte to 2 GiB, and there
    are fewer than 2^64 requests. *)
Definition cop_allowed (s : cstate) (c : cop) : Prop :=
  match c with
  | CGet _ size => request_ok size ∧ access_time s < 2 ^ 64 - 2
  | CRelease p | CMarkDirty p | CSyncBlock p => p = NULL ∨ is_Some (c_store s !! p)
  | CSyncAll => True
  end.

(** Calls with the values they returned. *)
Inductive cruns : cstate → list (cop * Z) → cstate → Prop :=
| cruns_nil s : cruns s [] s
| cruns_cons s c r s1 tr s2 :
    cop_allowed s c → cop_run c s = Ret r s1 → cruns s1 tr s2 → cruns s ((c, r) :: tr) s2.

Inductive lruns : lru → list (cop * Z) → lru → Prop :=
| lruns_nil a : lruns a [] a
| lruns_cons a c r a1 tr a2 :
    cop_step a c r a1 → lruns a1 tr a2 → lruns a ((c, r) :: tr) a2.

Lemma represents_live s a p : crepresents s a → is_Some (c_store s !! p) → p ∈ ce_ptr <$> entries a.
Proof.
  intros (l & used & H & El & _) [x Hx%(crep_lookup _ _ _ H)]. rewrite El, entry_ptrs.
  apply list_elem_of_fmap. by exists (p, x).
Qed.

(** Every allowed call returns and is a step of the abstract machine. *)
Lemma cop_represents s a c :
  crepresents s a → cop_allowed s c →
  ∃ r s' a', cop_run c s = Ret r s' ∧ cop_step a c r a' ∧ crepresents s' a'.
Proof.
  intros Ha Hc.
  assert (∀ p, p = NULL ∨ is_Some (c_store s !! p) → p = NULL ∨ p ∈ ce_ptr <$> entries a) as Harg.
  { intros p [|Hp]; [by left|right]. by eapply represents_live. }
  destruct c as [id size|p|p|p|]; simpl in *.
  - destruct Hc as [Hsz Hclk].
    destruct (get_represents s a id size Ha Hsz Hclk) as (p & s' & a' & E & H' & Hstep).
    exists p, s', a'. split; [done|]. split; [by constructor|done].
  - destruct (release_represents s a p Ha (Harg p Hc)) as (s' & E & H'). eexists 0, s', _.
    split; [unfold void0; by mstep E|]. split; [constructor|done].
  - destruct (mark_dirty_represents s a p Ha (Harg p Hc)) as (s' & E & H'). eexists 0, s', _.
    split; [unfold void0; by mstep E|]. split; [constructor|done].
  - destruct (sync_block_represents s a p Ha (Harg p Hc)) as (s' & E & H'). eexists 0, s', _.
    split; [done|]. split; [constructor|done].
  - destruct (sync_all_represents s a Ha) as (s' & E & H'). eexists 0, s', _.
    split; [done|]. split; [constructor|done].
Qed.

Lemma cruns_represents s tr s' a :
  cruns s tr s' → crepresents s a → ∃ a', lruns a tr a' ∧ crepresents s' a'.
Proof.
  intros Hr. revert a. induction Hr as [s|s c r s1 tr s2 Hc E _ IH]; intros a Ha.
  { exists a. split; [constructor|done]. }
  destruct (cop_represents s a c Ha Hc) as (r' & s1' & a1 & E' & Hstep & H1).
  rewrite E in E'. injection E' as <- <-. destruct (IH a1 H1) as (a' & Hl & H').
  exists a'. split; [by econstructor|done].
Qed.

Definition creachable (s : cstate) : Prop :=
  ∃ s0 s1 tr, unused s0 ∧ cache_init s0 = Ret tt s1 ∧ cruns s1 tr s.

Lemma creachable_represents s : creachable s → ∃ a, crepresents s a.
Proof.
  intros (s0 & s1 & tr & H0 & E & Hr). destruct (cache_init_ok s0 H0) as (s1' & E' & H1).
  rewrite E in E'. injection E' as <-. destruct (cruns_represents _ _ _ _ Hr H1) as (a & _ & Ha).
  by exists a.
Qed.
End operations.
End cache.
Arguments cstate St : clear implicits.
End Cache.
