(* ===== verification/CacheProps.v ===== *)
(** * The block cache: properties

    What the callers of kernel/fs/cache.c rely on, from [cache_init] on and for any sequence of
    calls, over every allocator that keeps the contract of [Allocator.v] and whose blocks lie
    below 2 GiB. *)

From stdpp Require Import base numbers strings gmap sorting list.
From S2P Require Import Prelude.
From S2P Require Import Allocator.
From S2P Require Import Memory.
From S2P Require Import Cache.
Import Cache.

Local Open Scope Z_scope.

Section props.
Context {St : Type} `{!Allocator St} `{!AllocatorLaws St} `{!LowMemory St}.
Implicit Types s : cstate St.

(** The store is the list of the representation. *)
Lemma store_entry s a b x :
  crepresents s a → c_store s !! b = Some x → entry (b, x) ∈ entries a.
Proof.
  intros (l & used & H & -> & _) Hx%(crep_lookup _ _ _ H). by apply list_elem_of_fmap_2.
Qed.

Lemma entry_store s a e :
  crepresents s a → e ∈ entries a → ∃ x, c_store s !! ce_ptr e = Some x ∧ e = entry (ce_ptr e, x).
Proof.
  intros (l & used & H & -> & _) ([b x] & -> & Hx)%list_elem_of_fmap. exists x.
  split; [by apply (crep_lookup _ _ _ H)|done].
Qed.

(** C5: Refinement, over any allocator that keeps the contract and whose blocks lie below 2 GiB.
    Every sequence of allowed calls after [cache_init] (requests of 1 byte to 2 GiB, pointers that
    are NULL or cached blocks), with the pointers it returns, is a behaviour of the abstract LRU
    machine: a hit moves the block to the front and counts a reference, a miss enters a new clean
    block, and once the table has been full a miss drops the least recently used of the
    unreferenced blocks. And the sequence can go on: every allowed call returns, so no empty slot
    and no freed block is dereferenced and the table is never indexed out of bounds. *)
Theorem cache_refines_lru s0 s1 tr s :
  unused s0 → cache_init s0 = Ret tt s1 → cruns s1 tr s →
  (∃ a, lruns lru_init tr a ∧ crepresents s a) ∧
  ∀ c, cop_allowed s c → ∃ r s', cop_run c s = Ret r s'.
Proof.
  intros H0 E Hr. destruct (cache_init_ok s0 H0) as (s1' & E' & H1).
  rewrite E in E'. injection E' as <-.
  destruct (cruns_represents _ _ _ _ Hr H1) as (a & Ha & Hs).
  split; [by exists a|]. intros c Hc.
  destruct (cop_represents s a c Hs Hc) as (r & s' & a' & Ec & _ & _). by exists r, s'.
Qed.

(** Safety. In every reachable state every allowed call returns: no empty slot and no freed
    block is dereferenced and the table is never indexed out of bounds. *)
Theorem cache_safe s c :
  creachable s → cop_allowed s c → ∃ r s', cop_run c s = Ret r s' ∧ creachable s'.
Proof.
  intros Hs Hc. destruct (creachable_represents s Hs) as [a Ha].
  destruct (cop_represents s a c Ha Hc) as (r & s' & a' & E & _ & _). exists r, s'.
  split; [done|]. destruct Hs as (s0 & s1 & tr & H0 & E0 & Hr).
  exists s0, s1, (tr ++ [(c, r)]). split; [done|]. split; [done|].
  clear -Hr Hc E. induction Hr; simpl.
  - econstructor; [done|done|constructor].
  - econstructor; [done|done|]. by apply IHHr.
Qed.

(** The ids of the entries are different. *)
Lemma entries_nodup s a : crepresents s a → NoDup (ce_id <$> entries a).
Proof. intros (l & used & H & -> & _). rewrite entry_ids. apply (cr_ids _ _ _ H). Qed.

Lemma get_step_keeps a id size p a' e :
  get_step a id size p a' → NoDup (ce_id <$> entries a) → e ∈ entries a → referenced e →
  (if decide (ce_id e = id) then retain e else e) ∈ entries a'.
Proof.
  intros Hg Hn He Hr.
  assert (id ∉ ce_id <$> entries a → ce_id e ≠ id) as Hmiss.
  { intros Hid <-. by apply Hid, list_elem_of_fmap_2. }
  assert (∀ v pre post, entries a = pre ++ v :: post → ce_refs v = 0 → e ∈ pre ++ post) as Hdrop.
  { intros v pre post Ea Hv. rewrite Ea in He. assert (e ≠ v) by (by intros ->). set_solver. }
  destruct Hg as [pre e0 post Ea Hid|p d Hid ?|Hid ?|p d pre v post Hid ? Ea Hv|pre v post Hid ? Ea Hv|Hid ? ?];
    simpl; try (rewrite decide_False by auto); try done.
  - rewrite Ea in He, Hn. rewrite fmap_app, fmap_cons, <- Permutation_middle in Hn.
    apply NoDup_cons in Hn as [Hn _]. rewrite <- fmap_app, Hid in Hn.
    assert (e = e0 ∨ e ∈ pre ++ post) as [->|Hin] by set_solver.
    + rewrite decide_True by done. left.
    + rewrite decide_False; [by right|]. intros <-. by apply Hn, list_elem_of_fmap_2.
  - by right.
  - right. by eapply Hdrop.
  - by eapply Hdrop.
Qed.

(** C20: A block that callers hold references to is never evicted: whatever block is asked for
    next, it stays in the cache with its id, buffer, size and status, and its count changes
    only when the block itself is asked for. *)
Theorem cache_keeps_referenced s b x id size p s' :
  creachable s → c_store s !! b = Some x → cb_reference_count x ≠ 0 →
  request_ok size → access_time s < 2 ^ 64 - 2 → cache_get_block id size s = Ret p s' →
  ∃ x', c_store s' !! b = Some x' ∧ cb_block_id x' = cb_block_id x ∧ cb_data x' = cb_data x ∧
    cb_size x' = cb_size x ∧ cb_status x' = cb_status x ∧
    cb_reference_count x' =
      if decide (cb_block_id x = id) then u32 (cb_reference_count x + 1) else cb_reference_count x.
Proof.
  intros Hs Hx Hr Hsz Hclk E. destruct (creachable_represents s Hs) as [a Ha].
  destruct (get_represents s a id size Ha Hsz Hclk) as (p' & s'' & a' & E' & Ha' & Hg).
  rewrite E in E'. injection E' as <- <-.
  pose proof (get_step_keeps _ _ _ _ _ _ Hg (entries_nodup s a Ha) (store_entry s a b x Ha Hx) Hr)
    as He. apply (entry_store s' a' _ Ha') in He as (x' & Hx' & Ex). simpl in *.
  destruct (decide (cb_block_id x = id)); simpl in *; exists x'; by injection Ex.
Qed.

(** C21: No leak and no double free. In every state the cache reaches from cache_init on, over any
    allocator that keeps the contract and whose blocks lie below 2 GiB, the allocator has handed
    out exactly the cached blocks and their buffers, at most 256 of each, and the table points to
    each of them once. *)
Theorem cache_memory_exact s :
  creachable s →
  al_rep (c_mem s) (list_to_map (owned (map_to_list (c_store s)))) ∧
  (size (c_store s) <= 256)%nat ∧
  filter (λ b, b ≠ NULL) (blocks s) ≡ₚ (map_to_list (c_store s)).*1.
Proof.
  intros Hs. destruct (creachable_represents s Hs) as (a & l & used & H & _ & _).
  assert (map_to_list (c_store s) ≡ₚ l) as Hl.
  { rewrite (cr_store _ _ _ H). apply map_to_list_to_map. by eapply crep_keys. }
  split; [|split].
  - erewrite list_to_map_proper; [exact (cr_mem _ _ _ H)| |by rewrite Hl].
    rewrite Hl. apply (cr_owned _ _ _ H).
  - rewrite <- length_map_to_list, Hl, <- (length_fmap fst l), <- (cr_slots _ _ _ H).
    etrans; [apply length_filter|]. apply (tb_max _ _ (cr_table _ _ _ H)).
  - rewrite Hl, (tb_blocks _ _ (cr_table _ _ _ H)), filter_app, (cr_slots _ _ _ H).
    rewrite <- (app_nil_r l.*1) at 2. f_equiv.
    induction (256 - length used)%nat as [|n IH]; [done|]. simpl.
    by rewrite filter_cons_False by (by intros []).
Qed.

(** A hit returns the cached block whatever size is asked for: only its time stamp, its
    reference count (modulo 2^32) and the two counters of the manager change. *)
Theorem cache_hit s b x size :
  creachable s → c_store s !! b = Some x → access_time s < 2 ^ 64 - 2 →
  ∃ s', cache_get_block (cb_block_id x) size s = Ret b s' ∧
    c_store s' = <[b := touched (access_time s + 1) x]> (c_store s) ∧
    access_time s' = access_time s + 1 ∧ hit_count s' = u64 (hit_count s + 1) ∧
    miss_count s' = miss_count s ∧ blocks s' = blocks s ∧ block_count s' = block_count s ∧
    c_mem s' = c_mem s.
Proof.
  intros Hs Hx Hclk. destruct (creachable_represents s Hs) as (a & l & used & H & _ & _).
  pose proof (proj2 (crep_lookup _ _ _ H b x) Hx) as Hin. pose proof (cr_clock _ _ _ H).
  destruct (find_cache_block_ok s l used H (cb_block_id x)) as [(b' & x' & Hx' & Hid & E)|[Hid _]];
    [|by destruct (Hid b x Hin)].
  assert (b' = b ∧ x' = x) as [-> ->].
  { pose proof (cr_ids _ _ _ H) as Hn. apply list_elem_of_lookup in Hin as [i Hi], Hx' as [j Hj].
    assert (i = j) as ->; [|rewrite Hi in Hj; by injection Hj].
    eapply (NoDup_lookup _ _ _ (cb_block_id x) Hn); rewrite list_lookup_fmap, ?Hi, ?Hj; simpl; congruence. }
  assert (0 < b) by (apply (crep_nonnull _ _ _ H), list_elem_of_fmap; by exists (b, x)).
  eexists. split; [apply (hit_run s _ size b x E); [unfold NULL; lia|done]|].
  by rewrite u64_small by lia.
Qed.

(** [cache_sync_all] returns 0 and leaves every cached block clean and otherwise as it
    was. *)
Theorem cache_sync_all_clean s :
  creachable s →
  ∃ s', cache_sync_all s = Ret 0 s' ∧ c_store s' = set_cb_status CACHE_CLEAN <$> c_store s.
Proof.
  intros Hs. destruct (creachable_represents s Hs) as (a & l & used & H & _ & _).
  destruct (sync_all_ok s l used H) as (s' & E & H'). exists s'. split; [done|].
  rewrite (cr_store _ _ _ H'), (cr_store _ _ _ H), <- list_to_map_fmap. done.
Qed.

(** A miss on a filled table with an unreferenced block takes one entry out. *)
Lemma get_step_filled a id size p a' e :
  get_step a id size p a' → filled a = true → id ∉ ce_id <$> entries a →
  e ∈ entries a → ce_refs e = 0 →
  ∃ pre v post, entries a = pre ++ v :: post ∧
    (ce_id <$> entries a') ⊆ id :: (ce_id <$> pre ++ post).
Proof.
  intros Hg Hf Hid He Hr.
  destruct Hg as [pre e0 post Ea Hid0|p d|?|p d pre v post _ _ Ea|pre v post _ _ Ea|_ _ Hall];
    try congruence.
  - destruct Hid. rewrite Ea, fmap_app, fmap_cons, Hid0. set_solver.
  - exists pre, v, post. by split.
  - exists pre, v, post. split; [done|]. set_solver.
  - apply (proj1 (Forall_forall _ _) Hall) in He. done.
Qed.

(** Once the table has been full, a miss evicts a block even when a slot is empty (a slot
    that an allocation failure left behind): some cached block is gone after it. *)
Theorem cache_evicts_beside_hole s id size p s' :
  creachable s → block_count s = 256 → NULL ∈ blocks s →
  (∀ b x, c_store s !! b = Some x → cb_block_id x ≠ id) →
  (∃ b x, c_store s !! b = Some x ∧ cb_reference_count x = 0) →
  request_ok size → access_time s < 2 ^ 64 - 2 → cache_get_block id size s = Ret p s' →
  ∃ b x, c_store s !! b = Some x ∧
    ∀ c y, c_store s' !! c = Some y → cb_block_id y ≠ cb_block_id x.
Proof.
  intros Hs Hbc _ Hmiss (b0 & x0 & Hx0 & Hr0) Hsz Hclk E.
  destruct (creachable_represents s Hs) as [a Ha].
  destruct (get_represents s a id size Ha Hsz Hclk) as (p' & s'' & a' & E' & Ha' & Hg).
  rewrite E in E'. injection E' as <- <-.
  destruct (get_step_filled a id size p a' (entry (b0, x0))) as (pre & v & post & Ea & Hsub); [done| | | |done|].
  { destruct Ha as (l & used & H & _ & ->). apply bool_decide_eq_true.
    pose proof (tb_count _ _ (cr_table _ _ _ H)). lia. }
  { intros (e & -> & (x & Hx & Ee)%(entry_store s a e Ha))%list_elem_of_fmap.
    apply (Hmiss _ _ Hx). by rewrite Ee. }
  { by apply store_entry with s. }
  destruct (entry_store s a v Ha) as (x & Hx & Ev); [rewrite Ea; set_solver|].
  exists (ce_ptr v), x. split; [done|]. intros c y Hy Ey.
  apply (store_entry s' _ c y Ha'), (list_elem_of_fmap_2 ce_id), Hsub in Hy.
  simpl in Hy. rewrite Ey in Hy. apply elem_of_cons in Hy as [Hy|Hy]; [by apply (Hmiss _ _ Hx)|].
  pose proof (entries_nodup s a Ha) as Hn.
  rewrite Ea, fmap_app, fmap_cons, <- Permutation_middle, <- fmap_app in Hn.
  apply NoDup_cons in Hn as [Hn _]. apply Hn. by rewrite Ev.
Qed.
End props.

(** ** A concrete cache for the examples

    The cache over the allocator of kernel/process/memory.c. *)

#[local] Existing Instance heap_at_1M.
#[local] Existing Instance Memory.memory_allocator.
#[local] Existing Instance Memory.memory_allocator_laws.

(** The array of 1 MiB that starts at 1 MiB ends below 2 GiB. *)
#[local] Instance memory_low : LowMemory mem.
Proof.
  intros s m p n (Hok & [Hm _] & Hin) Hp. destruct (Hin _ _ Hp), (Hm _ _ Hp), Hok as [? _].
  cbn [heap_addr heap_at_1M] in *. unfold HEAP_SIZE in *. lia.
Qed.

(** The state of the cache over that allocator. *)
Definition cache : Type := cstate mem.

#[export] Instance cop_allowed_dec {St} (s : cstate St) c : Decision (cop_allowed s c).
Proof. destruct c; simpl; unfold request_ok; apply _. Defined.

(** Run a list of calls, keeping what they return. *)
Fixpoint drive (cs : list cop) (s : cache) : option (list (cop * Z) * cache) :=
  match cs with
  | [] => Some ([], s)
  | c :: cs' =>
      if decide (cop_allowed s c) then
        match cop_run c s with
        | Ret r s1 => '(tr, s2) ← drive cs' s1; Some ((c, r) :: tr, s2)
        | _ => None
        end
      else None
  end.

Lemma drive_cruns cs s tr s' : drive cs s = Some (tr, s') → cruns s tr s'.
Proof.
  revert s tr. induction cs as [|c cs IH]; intros s tr E; simpl in E.
  { injection E as <- <-. constructor. }
  destruct (decide (cop_allowed s c)) as [Hc|]; [|done].
  destruct (cop_run c s) as [r s1| | | |] eqn:E1; try done.
  destruct (drive cs s1) as [[tr1 s2]|] eqn:E2; [|done]. injection E as <- <-.
  econstructor; [done|done|by apply IH].
Qed.

Definition cboot : cache := cache_boot mem_init.
Definition cdemo0 : cache :=
  match cache_init cboot with Ret _ s => s | _ => cboot end.
Definition cdemo (cs : list cop) : cache := default cdemo0 (snd <$> drive cs cdemo0).
Definition ctrace (cs : list cop) : list (cop * Z) := default [] (fst <$> drive cs cdemo0).

Lemma cboot_unused : unused cboot.
Proof.
  split; [done|]. split; [done|]. split; [split; [vm_compute; split; congruence|done]|].
  split; [apply blocks_ok_empty|]. intros p n. by rewrite lookup_empty.
Qed.

Lemma cdemo0_init : cache_init cboot = Ret tt cdemo0.
Proof. vm_compute. reflexivity. Qed.

Lemma cdemo_cruns cs : bool_decide (is_Some (drive cs cdemo0)) = true → cruns cdemo0 (ctrace cs) (cdemo cs).
Proof.
  intros H%bool_decide_eq_true. unfold ctrace, cdemo. destruct (drive cs cdemo0) as [[tr s]|] eqn:E; [|by destruct H].
  by apply (drive_cruns cs).
Qed.

Lemma cdemo_reachable cs : bool_decide (is_Some (drive cs cdemo0)) = true → creachable (cdemo cs).
Proof.
  intros H. exists cboot, cdemo0, (ctrace cs). split; [apply cboot_unused|].
  split; [apply cdemo0_init|by apply cdemo_cruns].
Qed.

Ltac cdemo_run := apply cdemo_reachable; vm_compute; reflexivity.
Ltac cdemo_decide := refine (bool_decide_unpack _ _); vm_compute; exact I.

(** Two blocks: the first was written to and is held, the second was released. *)
Definition cdemo_two : list cop :=
  [CGet 7 512; CGet 8 512; CMarkDirty 0x100000; CRelease 0x100238].
(** A full table, one block of which was dropped for a request that does not fit. *)
Definition cdemo_hole : list cop :=
  ((λ i, CGet (Z.of_nat i) 4000) <$> seq 0 256) ++
  [CRelease 0x100000; CGet 1000 20000; CRelease 0x100FD8].

(** ** Witnesses *)

Lemma cache_refines_lru_witness :
  ctrace cdemo_two = [(CGet 7 512, 0x100000); (CGet 8 512, 0x100238);
                      (CMarkDirty 0x100000, 0); (CRelease 0x100238, 0)] ∧
  (∃ a, lruns lru_init (ctrace cdemo_two) a ∧ crepresents (cdemo cdemo_two) a) ∧
  ∀ c, cop_allowed (cdemo cdemo_two) c → ∃ r s', cop_run c (cdemo cdemo_two) = Ret r s'.
Proof.
  split; [vm_compute; reflexivity|].
  apply (cache_refines_lru cboot cdemo0); [apply cboot_unused|apply cdemo0_init|].
  apply cdemo_cruns. vm_compute. reflexivity.
Defined.

Lemma cache_safe_witness :
  ∃ r s', cop_run (CGet 9 64) (cdemo cdemo_two) = Ret r s' ∧ creachable s'.
Proof. apply (cache_safe (cdemo cdemo_two) (CGet 9 64)); [cdemo_run|cdemo_decide]. Defined.

Lemma cache_keeps_referenced_witness :
  ∃ p s' x', cache_get_block 9 64 (cdemo cdemo_two) = Ret p s' ∧
    c_store s' !! 0x100000 = Some x' ∧ cb_status x' = CACHE_DIRTY ∧ cb_reference_count x' = 1.
Proof.
  destruct (returns_ret (cache_get_block 9 64 (cdemo cdemo_two))) as (p & s' & E);
    [vm_compute; reflexivity|].
  destruct (cache_keeps_referenced (cdemo cdemo_two) 0x100000
    (CacheBlock 7 0x100038 512 CACHE_DIRTY 1 1 0 0) 9 64 p s')
    as (x' & Hx & _ & _ & _ & Hst & Hr);
    [cdemo_run|vm_compute; reflexivity|discriminate|split; reflexivity|cdemo_decide|exact E|].
  exists p, s', x'. exact (conj E (conj Hx (conj Hst Hr))).
Defined.

Lemma cache_memory_exact_witness :
  size (c_store (cdemo cdemo_hole)) = 255%nat ∧ (size (c_store (cdemo cdemo_hole)) <= 256)%nat.
Proof.
  split; [vm_compute; reflexivity|]. apply (cache_memory_exact (cdemo cdemo_hole)). cdemo_run.
Defined.

Lemma cache_hit_witness :
  ∃ s', cache_get_block 7 4096 (cdemo cdemo_two) = Ret 0x100000 s' ∧
    c_store s' !! 0x100000 = Some (CacheBlock 7 0x100038 512 CACHE_DIRTY 2 3 0 0).
Proof.
  destruct (cache_hit (cdemo cdemo_two) 0x100000 (CacheBlock 7 0x100038 512 CACHE_DIRTY 1 1 0 0) 4096)
    as (s' & E & Hs & _); [cdemo_run|vm_compute; reflexivity|cdemo_decide|].
  exists s'. split; [exact E|]. rewrite Hs. vm_compute. reflexivity.
Defined.

Lemma cache_sync_all_clean_witness :
  ∃ s', cache_sync_all (cdemo cdemo_two) = Ret 0 s' ∧
    c_store s' !! 0x100000 = Some (CacheBlock 7 0x100038 512 CACHE_CLEAN 1 1 0 0).
Proof.
  destruct (cache_sync_all_clean (cdemo cdemo_two)) as (s' & E & Hs); [cdemo_run|].
  exists s'. split; [exact E|]. rewrite Hs. vm_compute. reflexivity.
Defined.

Lemma cache_evicts_beside_hole_witness :
  ∃ p s' b x, cache_get_block 2000 16 (cdemo cdemo_hole) = Ret p s' ∧
    c_store (cdemo cdemo_hole) !! b = Some x ∧
    ∀ c y, c_store s' !! c = Some y → cb_block_id y ≠ cb_block_id x.
Proof.
  destruct (returns_ret (cache_get_block 2000 16 (cdemo cdemo_hole))) as (p & s' & E);
    [vm_compute; reflexivity|].
  destruct (cache_evicts_beside_hole (cdemo cdemo_hole) 2000 16 p s') as (b & x & Hx & Hg);
    [cdemo_run|vm_compute; reflexivity|cdemo_decide| | |split; reflexivity|cdemo_decide|exact E|].
  - apply (map_Forall_lookup (λ (_ : Z) x, cb_block_id x ≠ 2000)). cdemo_decide.
  - exists 0x100FD8, (CacheBlock 1 0x101010 4000 CACHE_CLEAN 0 2 0 0).
    split; vm_compute; reflexivity.
  - exists p, s', b, x. exact (conj E (conj Hx Hg)).
Defined.
