(* ===== verification/CacheHeap.v ===== *)
(** * The block cache over the kernel heap

    kernel/fs/cache.c calls [kmalloc] and [kfree]; here they are those of kernel/mm/heap.c, so the
    theorems on the cache and those on the heap are put together through the allocator class. *)

From stdpp Require Import base numbers strings gmap list.
From S2P Require Import Prelude.
From S2P Require Import Allocator Heap Cache CacheProps.
Import Cache.

Local Open Scope Z_scope.

#[local] Existing Instance Heap.heap_allocator_laws.

(** The blocks of a heap region that ends at or below 2 GiB start below it. *)
Lemma heap_low a sz : a + sz <= 2 ^ 31 → LowMemory heap (Allocator0 := Heap.heap_allocator a sz).
Proof.
  intros Ha s m p n (Hs & <- & <-) Hp. destruct (Heap.heap_rep_held s m p n Hs Hp) as (_ & ? & _).
  destruct Hs as (_ & _ & [Hm _] & _). destruct (Hm _ _ Hp). lia.
Qed.

Section on_heap.
Context (a sz : Z).

(** The descriptors and the buffers of the cached blocks, with their sizes. *)
Definition cached (s : cstate heap) : list (Z * Z) := owned (map_to_list (c_store s)).

Lemma cached_rep (s : cstate heap) a0 :
  crepresents (Allocator0 := Heap.heap_allocator a sz) s a0 →
  NoDup (cached s).*1 ∧ Heap.heap_rep (c_mem s) (list_to_map (cached s)) ∧
  heap_start (c_mem s) = a ∧ heap_size (c_mem s) = sz.
Proof.
  intros (l & used & H & _ & _). destruct (cr_mem _ _ _ H) as (Hrep & E1 & E2).
  assert (map_to_list (c_store s) ≡ₚ l) as Hl
    by (rewrite (cr_store _ _ _ H); by apply map_to_list_to_map, (crep_keys _ _ _ H)).
  pose proof (cr_owned _ _ _ H) as Hnd. unfold cached.
  assert (NoDup (owned (map_to_list (c_store s))).*1) as Hnd' by (by rewrite Hl).
  split; [done|]. split; [|done]. erewrite list_to_map_proper; [exact Hrep|done|by rewrite Hl].
Qed.

(** Pieces of a map of disjoint blocks. *)
Lemma pieces_disjoint (o : list (Z * Z)) i j p n q k :
  NoDup o.*1 → blocks_ok (list_to_map o) → o !! i = Some (p, n) → o !! j = Some (q, k) → i ≠ j →
  disjoint_blocks p n q k.
Proof.
  intros Hnd [_ Hd] Hi Hj Hne.
  assert (Hm : ∀ i e, o !! i = Some e → (list_to_map o : gmap Z Z) !! e.1 = Some e.2).
  { intros h [u v] Hh. apply elem_of_list_to_map; [done|]. by apply list_elem_of_lookup_2 in Hh. }
  apply (Hd p n q k (Hm i (p, n) Hi) (Hm j (q, k) Hj)). intros ->. apply Hne.
  eapply (NoDup_lookup _ _ _ q Hnd); rewrite list_lookup_fmap, ?Hi, ?Hj; done.
Qed.
End on_heap.

(** The code does not depend on the region the contract is stated for. *)
Lemma cruns_region a sz (s : cstate heap) tr s' :
  cruns (Allocator0 := Heap.heap_allocator a sz) s tr s' →
  ∀ a' sz', cruns (Allocator0 := Heap.heap_allocator a' sz') s tr s'.
Proof. intros H a' sz'. induction H; [constructor|by econstructor]. Qed.

(** C19: on any region of 64 bytes or more that ends at or below 2 GiB, and after any sequence of
    allowed calls of the cache from cache_init on, with kmalloc and kfree those of heap.c: the
    descriptors and the buffers of the cached blocks lie inside the region, aligned to 16 bytes,
    and no two of them share a byte. *)
Theorem cache_on_heap start size (s1 s : cstate heap) tr :
  Heap.region_ok start size → start + size <= 2 ^ 31 →
  cache_init (cache_boot (Heap.heap_init start size)) = Ret tt s1 →
  cruns (Allocator0 := Heap.heap_allocator start size) s1 tr s →
  (∀ p n, (p, n) ∈ cached s → start + HEADER <= p ∧ p + n <= start + size ∧ p mod 16 = 0) ∧
  ∀ i j p n q k, cached s !! i = Some (p, n) → cached s !! j = Some (q, k) → i ≠ j →
    disjoint_blocks p n q k.
Proof.
  intros Hreg Htop E Hr. pose proof (cruns_region start size _ _ _ Hr) as Hr'.
  destruct (Heap.heap_init_rep start size Hreg) as (a & sz & Hrep & H1 & H2 & _).
  pose proof (heap_low a sz ltac:(lia)) as Hlow.
  destruct (cache_init_ok (Allocator0 := Heap.heap_allocator a sz)
    (cache_boot (Heap.heap_init start size))) as (s1' & E' & Hc); [by split_and!|].
  rewrite E in E'. injection E' as <-.
  destruct (cruns_represents (Allocator0 := Heap.heap_allocator a sz) s1 tr s _ (Hr' a sz) Hc) as (l & _ & Hs).
  destruct (cached_rep a sz s l Hs) as (Hnd & Hm & E1 & E2). split.
  - intros p n Hp. apply elem_of_list_to_map in Hp; [|done].
    destruct (Heap.heap_rep_held _ _ p n Hm Hp) as (? & ? & ?). split_and!; [lia|lia|done].
  - intros i j p n q k. destruct Hm as (_ & _ & Hok & _). by apply pieces_disjoint.
Qed.

(** ** Witness *)

(** Calls of the cache over a heap of 4096 bytes, with what they return. *)
Definition heap_cache_calls : list (cop * Z) :=
  [(CGet 7 512, 0x200020); (CGet 8 1024, 0x2002a0); (CMarkDirty 0x200020, 0);
   (CRelease 0x2002a0, 0); (CGet 9 8192, 0)].

Fixpoint replay (tr : list (cop * Z)) (s : cstate heap) : option (cstate heap) :=
  match tr with
  | [] => Some s
  | (c, r) :: tr' =>
      match cop_run (Allocator0 := Heap.heap_allocator 0x200000 4096) c s with
      | Ret r' s' => if bool_decide (cop_allowed s c ∧ r' = r) then replay tr' s' else None
      | _ => None
      end
  end.

Lemma replay_cruns tr s s' :
  replay tr s = Some s' → cruns (Allocator0 := Heap.heap_allocator 0x200000 4096) s tr s'.
Proof.
  revert s. induction tr as [|[c r] tr IH]; intros s E; [injection E as <-; constructor|].
  cbn [replay] in E. destruct (cop_run c s) as [r' s1| | | |] eqn:E1; try done.
  case_bool_decide as Hb; [|done]. destruct Hb as [Hc ->]. econstructor; [done|done|by apply IH].
Qed.

Definition heap_cache_boot : cstate heap := cache_boot (Heap.heap_init 0x200000 4096).

Lemma cache_on_heap_witness :
  ∃ s1 s, cache_init heap_cache_boot = Ret tt s1 ∧
    cruns (Allocator0 := Heap.heap_allocator 0x200000 4096) s1 heap_cache_calls s ∧
    ∀ p n, (p, n) ∈ cached s → 0x200000 + HEADER <= p ∧ p + n <= 0x200000 + 4096 ∧ p mod 16 = 0.
Proof.
  destruct (returns_ret (cache_init heap_cache_boot)) as ([] & s1 & E1); [vm_compute; reflexivity|].
  assert (∃ s, replay heap_cache_calls s1 = Some s) as [s E].
  { assert (match cache_init heap_cache_boot with Ret _ t => bool_decide (is_Some (replay
      heap_cache_calls t)) | _ => false end = true) as H by (vm_compute; reflexivity).
    rewrite E1 in H. exact (bool_decide_unpack _ (Is_true_true_2 _ H)). }
  apply replay_cruns in E. exists s1, s. split; [exact E1|]. split; [exact E|].
  assert (Heap.region_ok 0x200000 4096) as Hreg by (unfold Heap.region_ok; lia).
  exact (proj1 (cache_on_heap 0x200000 4096 s1 s heap_cache_calls Hreg ltac:(lia) E1 E)).
Defined.
