(* ===== verification/Vfs.v ===== *)
(** * kernel/fs/vfs.c and kernel/fs/fs_ops.c: the virtual file system

    The list of registered file system types, mounting, and the table of open files. A file
    system is reached through function pointers; the code behind them is not part of the
    kernel, so a call through a pointer is a call of the parameter [Driver], and what the
    kernel relies on is stated as a law of its own.

    fs_ops.c uses the table and the structs vfs.c defines; the two are one module here. Error
    codes are the macros of include/types.h, which are negative already: [-E_INVAL] is 1. *)

From stdpp Require Import base numbers strings gmap list.
From S2P Require Import Prelude.
From S2P Require Import Chain.

Local Open Scope Z_scope.

Definition E_INVAL : Z := -1.
Definition E_IO : Z := -3.
Definition E_NOTFOUND : Z := -4.
Definition E_EXIST : Z := -5.
Definition E_NOTSUP : Z := -6.

Definition FS_MOUNTED : Z := 1.
Definition SEEK_SET : Z := 0.
Definition SEEK_CUR : Z := 1.
Definition SEEK_END : Z := 2.

(** A [const char *] is [None] for NULL and otherwise the string it points to; a function
    pointer is an address. *)
Record file_operations := FileOps {
  fo_open : Z; fo_read : Z; fo_write : Z; fo_close : Z; fo_lseek : Z; fo_ioctl : Z; fo_fsync : Z;
}.

Record file_system_type := FsType {
  ft_name : option string;
  ft_fs_flags : Z;
  ft_mount : Z;
  ft_unmount : Z;
  ft_next : Z;
}.

Record file_system := FileSystem {
  fs_dev_name : option string;
  fs_mount_point : option string;
  fs_fs_type : Z;
  fs_s_op : Z;
  fs_private_data : Z;
  fs_root : Z;
  fs_flags : Z;
}.

Record inode := Inode {
  i_ino : Z; i_mode : Z; i_uid : Z; i_gid : Z; i_nlink : Z; i_size : Z; i_atime : Z;
  i_mtime : Z; i_ctime : Z; i_op : Z; i_f_op : Z; i_fs : Z; i_private_data : Z;
}.

Record file := File {
  f_dentry : Z;
  f_inode : Z;
  f_mode : Z;
  f_flags : Z;
  f_pos : Z;
  f_op : Z;
  f_private_data : Z;
}.

Definition set_ft_next (v : Z) (t : file_system_type) : file_system_type :=
  FsType (ft_name t) (ft_fs_flags t) (ft_mount t) (ft_unmount t) v.
Definition set_fs_flags (v : Z) (f : file_system) : file_system :=
  FileSystem (fs_dev_name f) (fs_mount_point f) (fs_fs_type f) (fs_s_op f) (fs_private_data f)
    (fs_root f) v.
Definition set_fs_type (v : Z) (f : file_system) : file_system :=
  FileSystem (fs_dev_name f) (fs_mount_point f) v (fs_s_op f) (fs_private_data f)
    (fs_root f) (fs_flags f).
Definition set_f_pos (v : Z) (f : file) : file :=
  File (f_dentry f) (f_inode f) (f_mode f) (f_flags f) v (f_op f) (f_private_data f).

(** The static variables of vfs.c and the objects they lead to. *)
Record vstate := VState {
  fs_types : gmap Z file_system_type;
  file_systems : gmap Z file_system;
  inodes : gmap Z inode;
  files : gmap Z file;
  file_ops : gmap Z file_operations;
  registered_fs_types : Z;
  mounted_fs_list : Z;
  open_files : list Z;
}.

Definition set_fs_types (v : gmap Z file_system_type) (s : vstate) : vstate :=
  VState v (file_systems s) (inodes s) (files s) (file_ops s) (registered_fs_types s)
    (mounted_fs_list s) (open_files s).
Definition set_file_systems (v : gmap Z file_system) (s : vstate) : vstate :=
  VState (fs_types s) v (inodes s) (files s) (file_ops s) (registered_fs_types s)
    (mounted_fs_list s) (open_files s).
Definition set_files (v : gmap Z file) (s : vstate) : vstate :=
  VState (fs_types s) (file_systems s) (inodes s) v (file_ops s) (registered_fs_types s)
    (mounted_fs_list s) (open_files s).
Definition set_registered (v : Z) (s : vstate) : vstate :=
  VState (fs_types s) (file_systems s) (inodes s) (files s) (file_ops s) v
    (mounted_fs_list s) (open_files s).
Definition set_mounted (v : Z) (s : vstate) : vstate :=
  VState (fs_types s) (file_systems s) (inodes s) (files s) (file_ops s)
    (registered_fs_types s) v (open_files s).
Definition set_open_files (v : list Z) (s : vstate) : vstate :=
  VState (fs_types s) (file_systems s) (inodes s) (files s) (file_ops s)
    (registered_fs_types s) (mounted_fs_list s) v.

(** The code behind the function pointers: the address called and its arguments. *)
Class Driver := {
  call_mount : Z → option string → option string → option string → Z → M vstate Z;
  call_close : Z → Z → M vstate Z;
  call_read : Z → Z → Z → Z → M vstate Z;
  call_write : Z → Z → Z → Z → M vstate Z;
  call_lseek : Z → Z → Z → Z → M vstate Z;
}.

(** What [fs_close] relies on: closing a file leaves the table of open files alone. *)
Class ClosesFile `{!Driver} := call_close_ok fn f s :
  ∃ r s', call_close fn f s = Ret r s' ∧ open_files s' = open_files s.

Module Vfs.

(** [strcmp(a, b) == 0]; NULL is dereferenced. *)
Definition streq (a b : option string) : M vstate bool :=
  match a, b with
  | Some x, Some y => mret (bool_decide (x = y))
  | _, _ => fault
  end.

Definition get_type (p : Z) : M vstate file_system_type := deref (λ s, fs_types s !! p).

(** The loops of [register_filesystem] and [find_filesystem]: the first type of that name from
    [p] on, or NULL. *)
Fixpoint find_loop (fuel : nat) (name : option string) (p : Z) : M vstate Z :=
  match fuel with
  | O => nofuel
  | S fuel' =>
      if p =? NULL then mret NULL
      else
        t ← get_type p;
        eq ← streq (ft_name t) name;
        if eq : bool then mret p else find_loop fuel' name (ft_next t)
  end.

(** The list has no more elements than there are objects. *)
Definition find_filesystem (name : option string) : M vstate Z :=
  s ← get;
  find_loop (S (size (fs_types s))) name (registered_fs_types s).

Definition register_filesystem (fs_type : Z) : M vstate Z :=
  if fs_type =? NULL then mret (- E_INVAL)
  else
    t ← get_type fs_type;
    match ft_name t with
    | None => mret (- E_INVAL)
    | Some _ =>
        p ← find_filesystem (ft_name t);
        if negb (p =? NULL) then mret (- E_EXIST)
        else
          s ← get;
          modify (set_fs_types (<[fs_type := set_ft_next (registered_fs_types s) t]> (fs_types s)));;
          modify (set_registered fs_type);;
          mret 0
    end.

(** [open_files[i] = v] *)
Definition put_open_file (i v : Z) : M vstate unit :=
  _ ← deref (λ s, open_files s !! Z.to_nat i);
  modify (λ s, set_open_files (<[Z.to_nat i := v]> (open_files s)) s).

Definition vfs_init : M vstate unit :=
  modify (set_registered NULL);;
  modify (set_mounted NULL);;
  for_range 256 0 (λ i, put_open_file i NULL).

(** Not implemented: the paths are ignored. *)
Definition fs_open (path : option string) (flags mode : Z) : M vstate Z := mret (- E_NOTFOUND).
Definition fs_mkdir (path : option string) (mode : Z) : M vstate Z := mret (- E_NOTFOUND).
Definition fs_unlink (path : option string) : M vstate Z := mret (- E_NOTFOUND).

(** [fd < 0 || fd >= 256 || !open_files[fd]]: NULL for a bad descriptor, the file otherwise. *)
Definition file_of (fd : Z) : M vstate Z :=
  if (fd <? 0) || (256 <=? fd) then mret NULL
  else deref (λ s, open_files s !! Z.to_nat fd).

Definition get_file (f : Z) : M vstate file := deref (λ s, files s !! f).

(** [file->f_op && file->f_op->op]: the address of the operation, or NULL. *)
Definition file_op (f : Z) (op : file_operations → Z) : M vstate Z :=
  x ← get_file f;
  if f_op x =? NULL then mret NULL
  else o ← deref (λ s, file_ops s !! f_op x); mret (op o).

Section ops.
Context `{!Driver}.

(** A call through a function pointer the code does not test: NULL faults. *)
Definition call_pointer {A} (fn : Z) (call : M vstate A) : M vstate A :=
  if fn =? NULL then fault else call.

Definition mount_fs (fs_type_name dev mount_point : option string) (flags data : Z) : M vstate Z :=
  fs_type ← find_filesystem fs_type_name;
  if fs_type =? NULL then mret (- E_NOTFOUND)
  else
    t ← get_type fs_type;
    fs ← call_pointer (ft_mount t) (call_mount (ft_mount t) fs_type_name dev mount_point data);
    if fs =? NULL then mret (- E_IO)
    else
      x ← deref (λ s, file_systems s !! fs);
      modify (λ s, set_file_systems
        (<[fs := set_fs_type fs_type (set_fs_flags (Z.lor FS_MOUNTED flags) x)]> (file_systems s)) s);;
      mret 0.

Definition fs_close (fd : Z) : M vstate Z :=
  f ← file_of fd;
  if f =? NULL then mret (- E_INVAL)
  else
    op ← file_op f fo_close;
    let clear : M vstate Z := put_open_file fd NULL;; mret 0 in
    if op =? NULL then clear
    else
      ret ← call_close op f;
      if ret <? 0 then mret ret else clear.

Definition fs_read (fd buf count : Z) : M vstate Z :=
  f ← file_of fd;
  if f =? NULL then mret (- E_INVAL)
  else if buf =? NULL then mret (- E_INVAL)
  else
    op ← file_op f fo_read;
    if op =? NULL then mret (- E_NOTSUP) else call_read op f buf count.

Definition fs_write (fd buf count : Z) : M vstate Z :=
  f ← file_of fd;
  if f =? NULL then mret (- E_INVAL)
  else if buf =? NULL then mret (- E_INVAL)
  else
    op ← file_op f fo_write;
    if op =? NULL then mret (- E_NOTSUP) else call_write op f buf count.

(** The switch of [fs_lseek]: [off_t] is a signed, [f_pos] and [i_size] an unsigned 64-bit
    integer, so the sums are computed modulo 2^64 and converted back. [None] is an error. *)
Definition seek_target (x : file) (offset whence : Z) : M vstate (option Z) :=
  if whence =? SEEK_SET then mret (Some offset)
  else if whence =? SEEK_CUR then mret (Some (i64 (u64 (f_pos x + u64 offset))))
  else if whence =? SEEK_END then
    if f_inode x =? NULL then mret None
    else i ← deref (λ s, inodes s !! f_inode x); mret (Some (i64 (u64 (i_size i + u64 offset))))
  else mret None.

Definition fs_lseek (fd offset whence : Z) : M vstate Z :=
  f ← file_of fd;
  if f =? NULL then mret (- E_INVAL)
  else
    op ← file_op f fo_lseek;
    if negb (op =? NULL) then call_lseek op f offset whence
    else
      x ← get_file f;
      t ← seek_target x offset whence;
      match t with
      | None => mret (- E_INVAL)
      | Some new_pos =>
          if new_pos <? 0 then mret (- E_INVAL)
          else
            modify (λ s, set_files (<[f := set_f_pos (u64 new_pos) x]> (files s)) s);;
            mret new_pos
      end.
End ops.

(** ** The registry *)

(** The types and their names from the head of the list on. *)
Implicit Types r : list (Z * string).

Definition registry (s : vstate) r : Prop :=
  linked ft_next (fs_types s) r.*1 ∧ registered_fs_types s = hd NULL r.*1 ∧
  Forall (λ e, ft_name <$> fs_types s !! e.1 = Some (Some e.2)) r ∧ NoDup r.*2.

(** The address registered under a name, NULL when there is none. *)
Fixpoint registered_as r (n : string) : Z :=
  match r with
  | [] => NULL
  | (p, m) :: r' => if decide (m = n) then p else registered_as r' n
  end.

Lemma registered_as_null r n : NULL ∉ r.*1 → registered_as r n = NULL ↔ n ∉ r.*2.
Proof.
  induction r as [|[p m] r IH]; cbn [registered_as fmap list_fmap fst snd].
  { intros _. split; [intros _; apply not_elem_of_nil|done]. }
  rewrite !not_elem_of_cons. intros [Hp Hr]. case_decide as E.
  - split; [congruence|]. intros [? _]. congruence.
  - rewrite IH by done. split; [|tauto]. intros. split; [congruence|done].
Qed.

Lemma find_loop_ok s r n fuel :
  linked ft_next (fs_types s) r.*1 →
  Forall (λ e, ft_name <$> fs_types s !! e.1 = Some (Some e.2)) r →
  (length r < fuel)%nat →
  find_loop fuel (Some n) (hd NULL r.*1) s = Ret (registered_as r n) s.
Proof.
  revert fuel. induction r as [|[p m] r IH]; intros [|fuel] Hl Hn Hf; try (simpl in Hf; lia); [done|].
  cbn [fmap list_fmap fst] in Hl. destruct Hl as (Hp & (t & Ht & Hnx) & Hl).
  inversion_clear Hn as [|? ? Hm Hn']. cbn [fst snd] in Hm. rewrite Ht in Hm. injection Hm as Hm.
  cbn [find_loop fmap list_fmap fst hd registered_as]. rewrite (proj2 (Z.eqb_neq p _)) by done.
  mstep (deref_ret (λ s, fs_types s !! p) s t Ht). rewrite Hm. unfold streq.
  rewrite bind_mret. destruct (decide (m = n)) as [->|].
  - by rewrite bool_decide_true.
  - rewrite bool_decide_false by done. rewrite Hnx. apply IH; [done|done|simpl in Hf; lia].
Qed.

Lemma find_filesystem_ok s r n :
  registry s r → find_filesystem (Some n) s = Ret (registered_as r n) s.
Proof.
  intros (Hl & Eh & Hn & _). unfold find_filesystem. rewrite bind_get, Eh.
  apply find_loop_ok; [done|done|]. apply linked_length in Hl. rewrite length_fmap in Hl. lia.
Qed.

Lemma registry_not_null s r : registry s r → NULL ∉ r.*1.
Proof. intros (Hl & _) Hin. by apply (linked_not_null _ _ _ _ Hl Hin). Qed.

(** A type of an unused name is entered at the head. *)
Definition entered (p : Z) (t : file_system_type) (s : vstate) : vstate :=
  set_registered p
    (set_fs_types (<[p := set_ft_next (registered_fs_types s) t]> (fs_types s)) s).

Lemma register_ok s r p t n :
  registry s r → p ≠ NULL → fs_types s !! p = Some t → ft_name t = Some n → n ∉ r.*2 →
  register_filesystem p s = Ret 0 (entered p t s) ∧ registry (entered p t s) ((p, n) :: r).
Proof.
  intros Hr Hp Ht Hn Hfresh. unfold register_filesystem. rewrite (proj2 (Z.eqb_neq p _)) by done.
  mstep (deref_ret (λ s, fs_types s !! p) s t Ht). rewrite Hn.
  mstep (find_filesystem_ok s r n Hr).
  rewrite (proj2 (registered_as_null r n (registry_not_null s r Hr))) by done.
  split; [reflexivity|]. destruct Hr as (Hl & Eh & Hns & Hnd). unfold entered.
  assert (p ∉ r.*1) as Hpr.
  { intros ([p' m] & -> & Hin)%list_elem_of_fmap. apply Hfresh, list_elem_of_fmap. exists (p', m).
    split; [|done]. apply (proj1 (Forall_forall _ _) Hns) in Hin. simpl in *.
    rewrite Ht in Hin. simpl in Hin. congruence. }
  split; [|split; [done|split]].
  - cbn [fmap list_fmap fst]. split; [done|]. split.
    + eexists. split; [apply lookup_insert_eq|exact Eh].
    + by apply linked_insert_notin.
  - constructor; [cbn [fst snd fs_types set_registered set_fs_types];
      rewrite lookup_insert_eq; simpl; by rewrite Hn|].
    apply Forall_forall. intros e He. cbn [fs_types set_registered set_fs_types].
    rewrite lookup_insert_ne; [by apply (proj1 (Forall_forall _ _) Hns)|].
    intros ->. by apply Hpr, list_elem_of_fmap_2.
  - by constructor.
Qed.

(** ** Properties *)

(** Registering a file system type under an unused name succeeds; from then on
    [find_filesystem] finds it under that name and every other name as before. *)
Theorem register_then_find s r p t n :
  registry s r → p ≠ NULL → fs_types s !! p = Some t → ft_name t = Some n → n ∉ r.*2 →
  ∃ s', register_filesystem p s = Ret 0 s' ∧ registry s' ((p, n) :: r) ∧
    find_filesystem (Some n) s' = Ret p s' ∧
    ∀ n', n' ≠ n → find_filesystem (Some n') s' = Ret (registered_as r n') s' ∧
                   find_filesystem (Some n') s = Ret (registered_as r n') s.
Proof.
  intros Hr Hp Ht Hn Hfresh. destruct (register_ok s r p t n) as (E & Hr'); [done..|].
  set (s' := entered p t s) in *. exists s'. split; [done|]. split; [done|]. split.
  - rewrite (find_filesystem_ok s' _ n Hr'). simpl. by rewrite decide_True.
  - intros n' Hne. rewrite (find_filesystem_ok s' _ n' Hr'). simpl.
    rewrite decide_False by done. split; [done|]. by apply find_filesystem_ok.
Qed.

(** Registering a name twice is refused. *)
Lemma register_duplicate s r p t n :
  registry s r → p ≠ NULL → fs_types s !! p = Some t → ft_name t = Some n → n ∈ r.*2 →
  register_filesystem p s = Ret 5 s.
Proof.
  intros Hr Hp Ht Hn Hin. unfold register_filesystem. rewrite (proj2 (Z.eqb_neq p _)) by done.
  mstep (deref_ret (λ s, fs_types s !! p) s t Ht). rewrite Hn.
  mstep (find_filesystem_ok s r n Hr).
  rewrite (proj2 (Z.eqb_neq (registered_as r n) _)); [done|].
  rewrite (registered_as_null r n (registry_not_null s r Hr)). tauto.
Qed.

Section descriptors.
Context `{!Driver}.

Definition bad_fd (s : vstate) (fd : Z) : Prop :=
  fd < 0 ∨ 256 <= fd ∨ open_files s !! Z.to_nat fd = Some NULL.

Lemma file_of_bad s fd : bad_fd s fd → file_of fd s = Ret NULL s.
Proof.
  intros Hb. unfold file_of. destruct (Z.ltb_spec fd 0); [done|].
  destruct (Z.leb_spec 256 fd); [done|]. destruct Hb as [|[|Hb]]; [lia|lia|].
  by apply deref_ret.
Qed.

Lemma file_of_ok s fd f :
  0 <= fd < 256 → open_files s !! Z.to_nat fd = Some f → file_of fd s = Ret f s.
Proof.
  intros Hfd Hf. unfold file_of. rewrite (proj2 (Z.ltb_ge _ _)), (proj2 (Z.leb_gt _ _)) by lia.
  by apply deref_ret.
Qed.

Lemma close_bad s fd : bad_fd s fd → fs_close fd s = Ret 1 s.
Proof. intros Hb%file_of_bad. unfold fs_close. by mstep Hb. Qed.

(** Every operation on a bad descriptor returns the positive number 1 and changes nothing:
    [-E_INVAL] negates a code that is negative already, so that a failed read or write cannot
    be told from one of a single byte, and a failed seek from one to position 1. *)
Theorem bad_descriptor s fd buf count offset whence :
  bad_fd s fd →
  fs_close fd s = Ret 1 s ∧ fs_read fd buf count s = Ret 1 s ∧
  fs_write fd buf count s = Ret 1 s ∧ fs_lseek fd offset whence s = Ret 1 s.
Proof.
  intros Hb. split; [by apply close_bad|]. apply file_of_bad in Hb.
  unfold fs_read, fs_write, fs_lseek. rewrite !(bind_ret _ _ _ _ _ Hb). done.
Qed.

(** A conversion to a signed 64-bit integer keeps the lower half of the range and makes the upper
    one negative. *)
Lemma i64_u64 z : i64 z = if decide (u64 z < 2 ^ 63) then u64 z else u64 z - 2 ^ 64.
Proof.
  unfold u64, wrap, i64, swrap. change (2 ^ (64 - 1)) with (2 ^ 63).
  rewrite <- (Zplus_mod_idemp_l z). pose proof (Z.mod_pos_bound z (2 ^ 64) ltac:(done)).
  set (m := z mod 2 ^ 64) in *. case_decide.
  - rewrite Z.mod_small by lia. lia.
  - rewrite <- (Z.mod_add _ (-1)) by lia. rewrite Z.mod_small by lia. lia.
Qed.

(** Adding a signed offset to an unsigned position wraps once. *)
Lemma seek_sum a offset : i64 (u64 (a + u64 offset)) = i64 (a + offset).
Proof.
  unfold u64, wrap. rewrite Zplus_mod_idemp_r. unfold i64, swrap. by rewrite Zplus_mod_idemp_l.
Qed.

(** The position a seek asks for. *)
Definition seek_from (s : vstate) (x : file) (whence : Z) : option Z :=
  if whence =? SEEK_SET then Some 0
  else if whence =? SEEK_CUR then Some (f_pos x)
  else if whence =? SEEK_END then i_size <$> inodes s !! f_inode x
  else None.

Lemma seek_target_ok s x offset whence base :
  seek_from s x whence = Some base → - 2 ^ 63 <= offset < 2 ^ 63 → inodes s !! NULL = None →
  seek_target x offset whence s = Ret (Some (i64 (base + offset))) s.
Proof.
  intros Hs Ho Hn. unfold seek_from in Hs. unfold seek_target.
  destruct (whence =? SEEK_SET).
  { injection Hs as <-. unfold i64. by rewrite swrap_small by (change (64 - 1) with 63; lia). }
  destruct (whence =? SEEK_CUR).
  { injection Hs as <-. by rewrite seek_sum. }
  destruct (whence =? SEEK_END); [|done].
  destruct (inodes s !! f_inode x) as [i|] eqn:Ei; [|done]. injection Hs as <-.
  rewrite (proj2 (Z.eqb_neq (f_inode x) _)) by congruence.
  mstep (deref_ret (λ s, inodes s !! f_inode x) s i Ei). by rewrite seek_sum.
Qed.

(** The state after a seek to [pos]. *)
Definition seeked (f : Z) (x : file) (pos : Z) (s : vstate) : vstate :=
  set_files (<[f := set_f_pos pos x]> (files s)) s.

Lemma lseek_run s fd f x base offset whence :
  0 <= fd < 256 → open_files s !! Z.to_nat fd = Some f → f ≠ NULL → files s !! f = Some x →
  f_op x = NULL → inodes s !! NULL = None →
  seek_from s x whence = Some base → - 2 ^ 63 <= offset < 2 ^ 63 →
  fs_lseek fd offset whence s =
    if decide (u64 (base + offset) < 2 ^ 63)
    then Ret (u64 (base + offset)) (seeked f x (u64 (base + offset)) s) else Ret 1 s.
Proof.
  intros Hfd Hf Hn Hx Hop Hni Hb Ho. unfold fs_lseek.
  mstep (file_of_ok s fd f Hfd Hf). rewrite (proj2 (Z.eqb_neq f _)) by done.
  assert (file_op f fo_lseek s = Ret NULL s) as E.
  { unfold file_op. mstep (deref_ret (λ s, files s !! f) s x Hx). by rewrite Hop. }
  mstep E. cbn [negb Z.eqb NULL]. mstep (deref_ret (λ s, files s !! f) s x Hx).
  mstep (seek_target_ok s x offset whence base Hb Ho Hni). cbv beta iota.
  rewrite i64_u64. pose proof (u64_range (base + offset)). case_decide.
  - rewrite (proj2 (Z.ltb_ge _ _)) by lia. by rewrite (u64_small (u64 _)) by lia.
  - by rewrite (proj2 (Z.ltb_lt _ _)) by lia.
Qed.

(** C23: The default seek, from every unsigned 64-bit position and with every signed 64-bit
    offset. The sum is taken modulo 2^64: below 2^63 it is stored and returned, and otherwise the
    call returns 1 and changes nothing. From a position below 2^63 this is exact: base plus
    offset is stored and returned when it lies between 0 and 2^63 - 1, and 1 is returned when it
    does not. (The 1 is -E_INVAL; the comment of fs_lseek announces a negative code, and a caller
    takes 1 for the position.) *)
Theorem lseek_exact s fd f x base offset whence :
  0 <= fd < 256 → open_files s !! Z.to_nat fd = Some f → f ≠ NULL → files s !! f = Some x →
  f_op x = NULL → inodes s !! NULL = None →
  seek_from s x whence = Some base → 0 <= base < 2 ^ 64 → - 2 ^ 63 <= offset < 2 ^ 63 →
  fs_lseek fd offset whence s =
    (if decide ((base + offset) mod 2 ^ 64 < 2 ^ 63)
     then Ret ((base + offset) mod 2 ^ 64) (seeked f x ((base + offset) mod 2 ^ 64) s)
     else Ret 1 s) ∧
  (base < 2 ^ 63 →
   fs_lseek fd offset whence s =
     if decide (0 <= base + offset < 2 ^ 63)
     then Ret (base + offset) (seeked f x (base + offset) s) else Ret 1 s).
Proof.
  intros Hfd Hf Hn Hx Hop Hni Hb Hbase Ho. erewrite lseek_run by done. split; [done|].
  intros Hlow. destruct (decide (0 <= base + offset)).
  - rewrite u64_small by lia. destruct (decide (base + offset < 2 ^ 63)).
    + by rewrite decide_True by lia.
    + by rewrite decide_False by lia.
  - rewrite (decide_False (P := 0 <= base + offset < 2 ^ 63)) by lia.
    unfold u64, wrap. rewrite <- (Z.mod_add _ 1), Z.mod_small by lia. by rewrite decide_False by lia.
Qed.

(** Closing an open descriptor returns the error of the driver and keeps the descriptor,
    or returns 0 and frees it; a second close is then refused, and no other descriptor is
    affected. *)
Theorem close_once `{!ClosesFile} s fd f x :
  0 <= fd < 256 → length (open_files s) = 256%nat → open_files s !! Z.to_nat fd = Some f →
  f ≠ NULL → files s !! f = Some x → (f_op x = NULL ∨ is_Some (file_ops s !! f_op x)) →
  ∃ ret s', fs_close fd s = Ret ret s' ∧
    ((ret < 0 ∧ open_files s' = open_files s) ∨
     (ret = 0 ∧ open_files s' = <[Z.to_nat fd := NULL]> (open_files s) ∧ fs_close fd s' = Ret 1 s')).
Proof.
  intros Hfd Hlen Hf Hn Hx Hop. unfold fs_close at 1.
  mstep (file_of_ok s fd f Hfd Hf). rewrite (proj2 (Z.eqb_neq f _)) by done.
  assert (∃ op, file_op f fo_close s = Ret op s) as [op E].
  { unfold file_op. rewrite (bind_ret _ _ _ _ _ (deref_ret (λ s, files s !! f) s x Hx)).
    destruct (Z.eqb_spec (f_op x) NULL); [by eexists|]. destruct Hop as [|[o Ho]]; [done|].
    rewrite (bind_ret _ _ _ _ _ (deref_ret (λ s, file_ops s !! f_op x) s o Ho)). by eexists. }
  mstep E.
  assert (∀ s1, open_files s1 = open_files s → put_open_file fd NULL s1 =
    Ret tt (set_open_files (<[Z.to_nat fd := NULL]> (open_files s1)) s1)) as Hput.
  { intros s1 Es. unfold put_open_file. rewrite <- Es in Hf.
    by rewrite (bind_ret _ _ _ _ _ (deref_ret (λ s, open_files s !! Z.to_nat fd) s1 f Hf)). }
  assert (∀ s1, open_files s1 = open_files s → fs_close fd
    (set_open_files (<[Z.to_nat fd := NULL]> (open_files s1)) s1) =
    Ret 1 (set_open_files (<[Z.to_nat fd := NULL]> (open_files s1)) s1)) as Hagain.
  { intros s1 Es. apply close_bad. right. right. simpl. rewrite Es.
    apply list_lookup_insert_eq. lia. }
  destruct (op =? NULL).
  - mstep (Hput s eq_refl). eexists 0, _. split; [done|]. right. split; [done|].
    split; [done|]. by apply Hagain.
  - destruct (call_close_ok op f s) as (ret & s1 & E1 & Es). mstep E1.
    destruct (Z.ltb_spec ret 0).
    + exists ret, s1. split; [done|]. by left.
    + mstep (Hput s1 Es). eexists 0, _. split; [done|]. right. split; [done|]. simpl.
      rewrite <- Es. split; [done|]. by apply Hagain.
Qed.
End descriptors.
End Vfs.

(** ** Witnesses *)

(** A driver whose calls return 0 and change nothing. *)
#[local] Instance null_driver : Driver :=
  {| call_mount := λ _ _ _ _ _, mret 0; call_close := λ _ _, mret 0;
     call_read := λ _ _ _ _, mret 0; call_write := λ _ _ _ _, mret 0;
     call_lseek := λ _ _ _ _, mret 0 |}.
#[local] Instance null_driver_closes : ClosesFile.
Proof. intros fn f s. by exists 0, s. Qed.

Definition ext2 : file_system_type := FsType (Some "ext2"%string) 0 0x9000 0x9100 0.
Definition proc : file_system_type := FsType (Some "proc"%string) 0 0x9200 0x9300 0.

(** "proc" is registered, "ext2" is not; descriptor 3 is open at position 100 of a file of 4096
    bytes. *)
Definition demo_vfs : vstate :=
  VState {[0x5000 := proc; 0x5100 := ext2]} ∅
    {[0x6000 := Inode 7 0 0 0 1 4096 0 0 0 0 0 0 0]}
    {[0x7000 := File 0 0x6000 0 0 100 0 0]} ∅ 0x5000 0 (<[3%nat := 0x7000]> (replicate 256 NULL)).

Lemma demo_registry : Vfs.registry demo_vfs [(0x5000, "proc"%string)].
Proof.
  split; [split; [done|]; split; [by eexists|done]|]. split; [done|].
  split; [repeat constructor|]. apply NoDup_singleton.
Qed.

(** [vfs_init] empties the registry and the table. *)
Example vfs_init_empties :
  match Vfs.vfs_init demo_vfs with
  | Ret _ s => registered_fs_types s = NULL ∧ open_files s = replicate 256 NULL
  | _ => False
  end.
Proof. vm_compute. split; reflexivity. Qed.

Lemma register_then_find_witness :
  ∃ s', Vfs.register_filesystem 0x5100 demo_vfs = Ret 0 s' ∧
    Vfs.find_filesystem (Some "ext2"%string) s' = Ret 0x5100 s'.
Proof.
  destruct (Vfs.register_then_find demo_vfs [(0x5000, "proc"%string)] 0x5100 ext2 "ext2")
    as (s' & E & _ & Hf & _);
    [apply demo_registry|discriminate|reflexivity|reflexivity| |].
  - by intros Hin%list_elem_of_singleton.
  - exists s'. exact (conj E Hf).
Defined.

Lemma bad_descriptor_witness : Vfs.fs_read 300 0x8000 64 demo_vfs = Ret 1 demo_vfs.
Proof. apply (Vfs.bad_descriptor demo_vfs 300 0x8000 64 0 0). right. left. lia. Defined.

Lemma lseek_exact_witness :
  ∃ s', Vfs.fs_lseek 3 (-96) SEEK_END demo_vfs = Ret 4000 s'.
Proof.
  eexists. apply (Vfs.lseek_exact demo_vfs 3 0x7000 (File 0 0x6000 0 0 100 0 0) 4096 (-96) SEEK_END);
    try reflexivity; try lia; try discriminate.
Defined.

Lemma close_once_witness :
  ∃ ret s', Vfs.fs_close 3 demo_vfs = Ret ret s' ∧
    ((ret < 0 ∧ open_files s' = open_files demo_vfs) ∨
     (ret = 0 ∧ open_files s' = <[3%nat := NULL]> (open_files demo_vfs) ∧
      Vfs.fs_close 3 s' = Ret 1 s')).
Proof.
  apply (Vfs.close_once demo_vfs 3 0x7000 (File 0 0x6000 0 0 100 0 0));
    [lia|reflexivity|reflexivity|discriminate|reflexivity|by left].
Defined.
