(* ===== verification/VfsSpec.v ===== *)
(** * The virtual file system as its callers see it

    After [vfs_init], any sequence of calls of vfs.c and fs_ops.c behaves as a finite map from
    names to registered types: the linked list and the objects are hidden. What a file system's
    own mount function does is left open, as long as it keeps the law [MountsFs]; a type may also
    have none, and mounting it is a call of NULL. Since [fs_open] is not implemented, the table of
    open files stays empty and every operation on a descriptor returns [-E_INVAL], which is 1;
    the specification says so. *)

From stdpp Require Import base numbers strings gmap list.
From S2P Require Import Prelude.
From S2P Require Import Chain Vfs.

Local Open Scope Z_scope.


(** What the callers of vfs.c know of a type object: its name, [None] when it is null, and the
    address of its mount function. *)
Definition type_info : Type := option string * Z.
Definition info (t : file_system_type) : type_info := (ft_name t, ft_mount t).

(** What the kernel relies on when it calls the mount function of one of these types: it returns
    NULL or a file system, and the static variables and the types of vfs.c are not its business.
    Nothing is assumed of the address NULL. *)
Class MountsFs `{!Driver} (types : gmap Z type_info) := call_mount_ok p i a b c d s :
  types !! p = Some i → i.2 ≠ NULL →
  ∃ r s', call_mount i.2 a b c d s = Ret r s' ∧
    (r = NULL ∨ is_Some (file_systems s' !! r)) ∧
    fs_types s' = fs_types s ∧ registered_fs_types s' = registered_fs_types s ∧
    open_files s' = open_files s.

Section spec.
Context `{!Driver}.



(** ** The specification *)

(** The type objects the callers have. *)
Context (types : gmap Z type_info).






(** ** The simulation *)















End spec.

(** ** Witness *)

(** A driver that mounts a RAM disk at a fixed address, and faults when it is called at another
    address than the mount function of proc. *)
#[local] Instance ram_driver : Driver :=
  {| call_mount := λ fn _ dev mp _,
       if fn =? ft_mount proc then
         modify (λ s, set_file_systems
           (<[0x8000 := FileSystem dev mp 0 0 0 0 0]> (file_systems s)) s);; mret 0x8000
       else fault;
     call_close := λ _ _, mret 0; call_read := λ _ _ _ _, mret 0;
     call_write := λ _ _ _ _, mret 0; call_lseek := λ _ _ _ _, mret 0 |}.

(** Two named types, one of them without a mount function, and one without a name. *)
Definition swapfs : file_system_type := FsType (Some "swap"%string) 0 NULL NULL 0.
Definition anon : file_system_type := FsType None 0 NULL NULL 0.
Definition demo_types : vstate :=
  VState {[0x5000 := proc; 0x5100 := swapfs; 0x5200 := anon]} ∅ ∅ ∅ ∅ 0x1234 0 (replicate 256 7).
Definition demo_infos : gmap Z type_info := info <$> fs_types demo_types.

#[local] Instance ram_driver_mounts : MountsFs demo_infos.
Proof.
  intros p i a b c d s Hi Hn.
  assert (i.2 = NULL ∨ i.2 = ft_mount proc) as [|E]; [|done|].
  { revert i Hi Hn. refine (λ i Hi _, map_Forall_lookup_1 (λ _ i, i.2 = NULL ∨ i.2 = ft_mount proc)
      demo_infos p i _ Hi). apply (bool_decide_unpack _). vm_compute. exact I. }
  cbn [call_mount ram_driver]. rewrite E, Z.eqb_refl. eexists 0x8000, _. split; [done|].
  split_and!; [|done..]. right. cbn. rewrite lookup_insert_eq. by eexists.
Qed.



