(* ===== verification/Context.v ===== *)
(** * kernel/process/context.c: CPU contexts

    A [context] is the C struct of include/context.h; the register file of the CPU has the
    same fields, so the CPU is a [context] too. [context_save] only stores registers and is
    modelled by what it stores: the register file is the one its assembly finds, the register
    that holds the operand included. The assembly of [context_restore] overwrites the register
    it addresses the context with; it is treated instruction by instruction in Restore.v. *)

From stdpp Require Import base numbers strings gmap list.
From S2P Require Import Prelude.

Local Open Scope Z_scope.

Record context := Context {
  rax : Z; rbx : Z; rcx : Z; rdx : Z; rsi : Z; rdi : Z; rbp : Z; rsp : Z;
  r8 : Z; r9 : Z; r10 : Z; r11 : Z; r12 : Z; r13 : Z; r14 : Z; r15 : Z;
  cs : Z; ds : Z; es : Z; fs : Z; gs : Z; ss : Z;
  rip : Z; rflags : Z;
}.

Definition context_fields : list field :=
  [scalar "rax" 8; scalar "rbx" 8; scalar "rcx" 8; scalar "rdx" 8;
   scalar "rsi" 8; scalar "rdi" 8; scalar "rbp" 8; scalar "rsp" 8;
   scalar "r8" 8; scalar "r9" 8; scalar "r10" 8; scalar "r11" 8;
   scalar "r12" 8; scalar "r13" 8; scalar "r14" 8; scalar "r15" 8;
   scalar "cs" 2; scalar "ds" 2; scalar "es" 2; scalar "fs" 2; scalar "gs" 2; scalar "ss" 2;
   scalar "rip" 8; scalar "rflags" 8].

Definition sizeof_context : Z := Eval vm_compute in sizeof context_fields.

(** [memset(context, 0, sizeof(context_t))] *)
Definition context_zero : context :=
  Context 0 0 0 0 0 0 0 0 0 0 0 0 0 0 0 0 0 0 0 0 0 0 0 0.

(** The context that [context_init] leaves behind the pointer, whatever was there before. *)
Definition context_init (entry arg stack_top : Z) : context :=
  {| rax := 0; rbx := 0; rcx := 0; rdx := 0; rsi := 0; rdi := u64 arg; rbp := 0;
     rsp := u64 stack_top;
     r8 := 0; r9 := 0; r10 := 0; r11 := 0; r12 := 0; r13 := 0; r14 := 0; r15 := 0;
     cs := 0x08; ds := 0x10; es := 0x10; fs := 0x10; gs := 0x10; ss := 0x10;
     rip := u64 entry; rflags := 0x202 |}.

(** [context_save]: the sixteen general registers, the six segment registers and the flags of
    the CPU are stored; the member [rip] is not written. *)
Definition context_save (cpu old : context) : context :=
  {| rax := rax cpu; rbx := rbx cpu; rcx := rcx cpu; rdx := rdx cpu;
     rsi := rsi cpu; rdi := rdi cpu; rbp := rbp cpu; rsp := rsp cpu;
     r8 := r8 cpu; r9 := r9 cpu; r10 := r10 cpu; r11 := r11 cpu;
     r12 := r12 cpu; r13 := r13 cpu; r14 := r14 cpu; r15 := r15 cpu;
     cs := cs cpu; ds := ds cpu; es := es cpu; fs := fs cpu; gs := gs cpu; ss := ss cpu;
     rip := rip old; rflags := rflags cpu |}.

Definition set_rip (a : Z) (cpu : context) : context :=
  {| rax := rax cpu; rbx := rbx cpu; rcx := rcx cpu; rdx := rdx cpu;
     rsi := rsi cpu; rdi := rdi cpu; rbp := rbp cpu; rsp := rsp cpu;
     r8 := r8 cpu; r9 := r9 cpu; r10 := r10 cpu; r11 := r11 cpu;
     r12 := r12 cpu; r13 := r13 cpu; r14 := r14 cpu; r15 := r15 cpu;
     cs := cs cpu; ds := ds cpu; es := es cpu; fs := fs cpu; gs := gs cpu; ss := ss cpu;
     rip := a; rflags := rflags cpu |}.
