(* ===== verification/ProcState.v ===== *)
(** * Process control blocks and the state of the process subsystem

    include/process.h, include/types.h and the globals of kernel/process/process.c and
    kernel/process/scheduler.c. Objects are kept in one store per C type, keyed by address;
    [kmalloc] hands out disjoint blocks, so objects of different stores never overlap. *)

From stdpp Require Import base numbers strings pretty gmap list.
From S2P Require Import Prelude.
From S2P Require Import Memory.
From S2P Require Import Context.

Local Open Scope Z_scope.

Inductive process_state :=
| PROCESS_CREATED
| PROCESS_READY
| PROCESS_RUNNING
| PROCESS_BLOCKED
| PROCESS_TERMINATED.

#[export] Instance process_state_eq_dec : EqDecision process_state.
Proof. solve_decision. Defined.

Record process := Process {
  p_pid : Z;
  p_state : process_state;
  p_priority : Z;
  p_counter : Z;
  p_stack : Z;
  p_stack_size : Z;
  p_context : Z;
  p_mm : Z;
  p_user_stack : Z;
  p_user_stack_top : Z;
  p_sscratch : Z;
  p_pt_regs : Z;
  p_parent : Z;
  p_next : Z;
  p_creation_time : Z;
  p_cpu_time : Z;
  p_exit_code : Z;
  p_name : string;
  p_kernel_stack : Z;
  p_flags : Z;
}.

Definition process_fields : list field :=
  [scalar "pid" 4; scalar "state" 4; scalar "priority" 4; scalar "counter" 4;
   scalar "stack" 8; scalar "stack_size" 8; scalar "context" 8; scalar "mm" 8;
   scalar "user_stack" 8; scalar "user_stack_top" 8; scalar "sscratch" 8; scalar "pt_regs" 8;
   scalar "parent" 8; scalar "next" 8; scalar "creation_time" 4; scalar "cpu_time" 8;
   scalar "exit_code" 4; array "name" 1 32; scalar "kernel_stack" 8; scalar "flags" 4].

Definition sizeof_process : Z := Eval vm_compute in sizeof process_fields.

(** [memset(proc, 0, sizeof(process_t))]: the enumerator 0 is PROCESS_CREATED. *)
Definition process_zero : process :=
  Process 0 PROCESS_CREATED 0 0 0 0 0 0 0 0 0 0 0 0 0 0 0 "" 0 0.

(** Member assignments. *)
Definition set_p_state (v : process_state) (p : process) : process :=
  Process (p_pid p) v (p_priority p) (p_counter p) (p_stack p) (p_stack_size p) (p_context p)
    (p_mm p) (p_user_stack p) (p_user_stack_top p) (p_sscratch p) (p_pt_regs p) (p_parent p)
    (p_next p) (p_creation_time p) (p_cpu_time p) (p_exit_code p) (p_name p)
    (p_kernel_stack p) (p_flags p).
Definition set_p_pid (v : Z) (p : process) : process :=
  Process v (p_state p) (p_priority p) (p_counter p) (p_stack p) (p_stack_size p) (p_context p)
    (p_mm p) (p_user_stack p) (p_user_stack_top p) (p_sscratch p) (p_pt_regs p) (p_parent p)
    (p_next p) (p_creation_time p) (p_cpu_time p) (p_exit_code p) (p_name p)
    (p_kernel_stack p) (p_flags p).
Definition set_p_priority (v : Z) (p : process) : process :=
  Process (p_pid p) (p_state p) v (p_counter p) (p_stack p) (p_stack_size p) (p_context p)
    (p_mm p) (p_user_stack p) (p_user_stack_top p) (p_sscratch p) (p_pt_regs p) (p_parent p)
    (p_next p) (p_creation_time p) (p_cpu_time p) (p_exit_code p) (p_name p)
    (p_kernel_stack p) (p_flags p).
Definition set_p_counter (v : Z) (p : process) : process :=
  Process (p_pid p) (p_state p) (p_priority p) v (p_stack p) (p_stack_size p) (p_context p)
    (p_mm p) (p_user_stack p) (p_user_stack_top p) (p_sscratch p) (p_pt_regs p) (p_parent p)
    (p_next p) (p_creation_time p) (p_cpu_time p) (p_exit_code p) (p_name p)
    (p_kernel_stack p) (p_flags p).
Definition set_p_context (v : Z) (p : process) : process :=
  Process (p_pid p) (p_state p) (p_priority p) (p_counter p) (p_stack p) (p_stack_size p) v
    (p_mm p) (p_user_stack p) (p_user_stack_top p) (p_sscratch p) (p_pt_regs p) (p_parent p)
    (p_next p) (p_creation_time p) (p_cpu_time p) (p_exit_code p) (p_name p)
    (p_kernel_stack p) (p_flags p).
Definition set_p_mm (v : Z) (p : process) : process :=
  Process (p_pid p) (p_state p) (p_priority p) (p_counter p) (p_stack p) (p_stack_size p)
    (p_context p) v (p_user_stack p) (p_user_stack_top p) (p_sscratch p) (p_pt_regs p)
    (p_parent p) (p_next p) (p_creation_time p) (p_cpu_time p) (p_exit_code p) (p_name p)
    (p_kernel_stack p) (p_flags p).
Definition set_p_pt_regs (v : Z) (p : process) : process :=
  Process (p_pid p) (p_state p) (p_priority p) (p_counter p) (p_stack p) (p_stack_size p)
    (p_context p) (p_mm p) (p_user_stack p) (p_user_stack_top p) (p_sscratch p) v (p_parent p)
    (p_next p) (p_creation_time p) (p_cpu_time p) (p_exit_code p) (p_name p)
    (p_kernel_stack p) (p_flags p).
Definition set_p_parent (v : Z) (p : process) : process :=
  Process (p_pid p) (p_state p) (p_priority p) (p_counter p) (p_stack p) (p_stack_size p)
    (p_context p) (p_mm p) (p_user_stack p) (p_user_stack_top p) (p_sscratch p) (p_pt_regs p)
    v (p_next p) (p_creation_time p) (p_cpu_time p) (p_exit_code p) (p_name p)
    (p_kernel_stack p) (p_flags p).
Definition set_p_next (v : Z) (p : process) : process :=
  Process (p_pid p) (p_state p) (p_priority p) (p_counter p) (p_stack p) (p_stack_size p)
    (p_context p) (p_mm p) (p_user_stack p) (p_user_stack_top p) (p_sscratch p) (p_pt_regs p)
    (p_parent p) v (p_creation_time p) (p_cpu_time p) (p_exit_code p) (p_name p)
    (p_kernel_stack p) (p_flags p).
Definition set_p_creation_time (v : Z) (p : process) : process :=
  Process (p_pid p) (p_state p) (p_priority p) (p_counter p) (p_stack p) (p_stack_size p)
    (p_context p) (p_mm p) (p_user_stack p) (p_user_stack_top p) (p_sscratch p) (p_pt_regs p)
    (p_parent p) (p_next p) v (p_cpu_time p) (p_exit_code p) (p_name p)
    (p_kernel_stack p) (p_flags p).
Definition set_p_cpu_time (v : Z) (p : process) : process :=
  Process (p_pid p) (p_state p) (p_priority p) (p_counter p) (p_stack p) (p_stack_size p)
    (p_context p) (p_mm p) (p_user_stack p) (p_user_stack_top p) (p_sscratch p) (p_pt_regs p)
    (p_parent p) (p_next p) (p_creation_time p) v (p_exit_code p) (p_name p)
    (p_kernel_stack p) (p_flags p).
Definition set_p_exit_code (v : Z) (p : process) : process :=
  Process (p_pid p) (p_state p) (p_priority p) (p_counter p) (p_stack p) (p_stack_size p)
    (p_context p) (p_mm p) (p_user_stack p) (p_user_stack_top p) (p_sscratch p) (p_pt_regs p)
    (p_parent p) (p_next p) (p_creation_time p) (p_cpu_time p) v (p_name p)
    (p_kernel_stack p) (p_flags p).
Definition set_p_name (v : string) (p : process) : process :=
  Process (p_pid p) (p_state p) (p_priority p) (p_counter p) (p_stack p) (p_stack_size p)
    (p_context p) (p_mm p) (p_user_stack p) (p_user_stack_top p) (p_sscratch p) (p_pt_regs p)
    (p_parent p) (p_next p) (p_creation_time p) (p_cpu_time p) (p_exit_code p) v
    (p_kernel_stack p) (p_flags p).
Definition set_p_kernel_stack (v : Z) (p : process) : process :=
  Process (p_pid p) (p_state p) (p_priority p) (p_counter p) (p_stack p) (p_stack_size p)
    (p_context p) (p_mm p) (p_user_stack p) (p_user_stack_top p) (p_sscratch p) (p_pt_regs p)
    (p_parent p) (p_next p) (p_creation_time p) (p_cpu_time p) (p_exit_code p) (p_name p)
    v (p_flags p).

(** The register save area of include/types.h, only ever zeroed. *)
Record pt_regs := PtRegs {
  pt_rax : Z; pt_rbx : Z; pt_rcx : Z; pt_rdx : Z; pt_rsi : Z; pt_rdi : Z; pt_rbp : Z;
  pt_rsp : Z; pt_r8 : Z; pt_r9 : Z; pt_r10 : Z; pt_r11 : Z; pt_r12 : Z; pt_r13 : Z;
  pt_r14 : Z; pt_r15 : Z; pt_rip : Z; pt_rflags : Z; pt_cs : Z; pt_ds : Z; pt_es : Z;
  pt_fs : Z; pt_gs : Z; pt_ss : Z;
}.
Definition pt_regs_fields : list field :=
  ((λ n, scalar n 8) <$>
     ["rax"; "rbx"; "rcx"; "rdx"; "rsi"; "rdi"; "rbp"; "rsp"; "r8"; "r9"; "r10"; "r11"; "r12";
      "r13"; "r14"; "r15"; "rip"; "rflags"]%string) ++
  ((λ n, scalar n 2) <$> ["cs"; "ds"; "es"; "fs"; "gs"; "ss"]%string).
Definition sizeof_pt_regs : Z := Eval vm_compute in sizeof pt_regs_fields.
Definition pt_regs_zero : pt_regs :=
  PtRegs 0 0 0 0 0 0 0 0 0 0 0 0 0 0 0 0 0 0 0 0 0 0 0 0.

(** The kernel state the process subsystem works on: the allocator, the object stores, the
    globals of process.c ([next_pid], [current], [task], [task_count]), the ready queue of
    scheduler.c, the registers of the CPU and the context that was last resumed. *)
Record kstate := KState {
  kmem : mem;
  procs : gmap Z process;
  ctxs : gmap Z context;
  ptregs : gmap Z pt_regs;
  next_pid : Z;
  current : Z;
  task : list Z;
  task_count : Z;
  rq_head : Z;
  rq_tail : Z;
  cpu : context;     (** the registers [context_save] finds *)
  resumed : Z;       (** the context last handed to the assembly of [context_restore] *)
}.

Definition set_kmem (v : mem) (s : kstate) : kstate :=
  KState v (procs s) (ctxs s) (ptregs s) (next_pid s) (current s) (task s) (task_count s)
    (rq_head s) (rq_tail s) (cpu s) (resumed s).
Definition set_procs (v : gmap Z process) (s : kstate) : kstate :=
  KState (kmem s) v (ctxs s) (ptregs s) (next_pid s) (current s) (task s) (task_count s)
    (rq_head s) (rq_tail s) (cpu s) (resumed s).
Definition set_ctxs (v : gmap Z context) (s : kstate) : kstate :=
  KState (kmem s) (procs s) v (ptregs s) (next_pid s) (current s) (task s) (task_count s)
    (rq_head s) (rq_tail s) (cpu s) (resumed s).
Definition set_ptregs (v : gmap Z pt_regs) (s : kstate) : kstate :=
  KState (kmem s) (procs s) (ctxs s) v (next_pid s) (current s) (task s) (task_count s)
    (rq_head s) (rq_tail s) (cpu s) (resumed s).
Definition set_next_pid (v : Z) (s : kstate) : kstate :=
  KState (kmem s) (procs s) (ctxs s) (ptregs s) v (current s) (task s) (task_count s)
    (rq_head s) (rq_tail s) (cpu s) (resumed s).
Definition set_current (v : Z) (s : kstate) : kstate :=
  KState (kmem s) (procs s) (ctxs s) (ptregs s) (next_pid s) v (task s) (task_count s)
    (rq_head s) (rq_tail s) (cpu s) (resumed s).
Definition set_task (v : list Z) (s : kstate) : kstate :=
  KState (kmem s) (procs s) (ctxs s) (ptregs s) (next_pid s) (current s) v (task_count s)
    (rq_head s) (rq_tail s) (cpu s) (resumed s).
Definition set_task_count (v : Z) (s : kstate) : kstate :=
  KState (kmem s) (procs s) (ctxs s) (ptregs s) (next_pid s) (current s) (task s) v
    (rq_head s) (rq_tail s) (cpu s) (resumed s).
Definition set_rq_head (v : Z) (s : kstate) : kstate :=
  KState (kmem s) (procs s) (ctxs s) (ptregs s) (next_pid s) (current s) (task s)
    (task_count s) v (rq_tail s) (cpu s) (resumed s).
Definition set_rq_tail (v : Z) (s : kstate) : kstate :=
  KState (kmem s) (procs s) (ctxs s) (ptregs s) (next_pid s) (current s) (task s)
    (task_count s) (rq_head s) v (cpu s) (resumed s).
Definition set_cpu (v : context) (s : kstate) : kstate :=
  KState (kmem s) (procs s) (ctxs s) (ptregs s) (next_pid s) (current s) (task s)
    (task_count s) (rq_head s) (rq_tail s) v (resumed s).
Definition set_resumed (v : Z) (s : kstate) : kstate :=
  KState (kmem s) (procs s) (ctxs s) (ptregs s) (next_pid s) (current s) (task s)
    (task_count s) (rq_head s) (rq_tail s) (cpu s) v.

Lemma set_procs_id s : set_procs (procs s) s = s.
Proof. by destruct s. Qed.
Lemma set_kmem_id s : set_kmem (kmem s) s = s.
Proof. by destruct s. Qed.

(** The static initialisers: everything is zero but [next_pid]. *)
Definition kstate_boot : kstate :=
  KState mem_init ∅ ∅ ∅ 1 NULL (replicate 64 NULL) 0 NULL NULL context_zero NULL.

(** [proc->member] and [proc->member = v] *)
Definition get_proc (p : Z) : M kstate process := deref (λ s, procs s !! p).
Definition upd_proc (p : Z) (f : process → process) : M kstate unit :=
  x ← get_proc p; modify (λ s, set_procs (<[p := f x]> (procs s)) s).

(** [task[i]] on the 64-entry array *)
Definition get_task (i : Z) : M kstate Z :=
  if i <? 0 then fault else deref (λ s, task s !! Z.to_nat i).
Definition put_task (i v : Z) : M kstate unit :=
  _ ← get_task i; modify (λ s, set_task (<[Z.to_nat i := v]> (task s)) s).

(** A call of the allocator. *)
Definition in_mem {A} (c : M mem A) : M kstate A := zoom kmem set_kmem c.

(** The context functions of context.c on the stores. [context_restore] is left for good: its
    assembly gets the context and the C code ends there ([Jump]). What the assembly does to the
    CPU depends on the registers the compiler gives to its operands and is not part of this
    model; Restore.v treats the instructions. *)
Definition context_save_at (c : Z) : M kstate unit :=
  old ← deref (λ s, ctxs s !! c);
  modify (λ s, set_ctxs (<[c := context_save (cpu s) old]> (ctxs s)) s).
Definition context_restore_at {A} (c : Z) : M kstate A :=
  _ ← deref (λ s, ctxs s !! c);
  modify (set_resumed c);;
  jump.
Definition context_switch {A} (from to : Z) : M kstate A :=
  context_save_at from;;
  context_restore_at to.
