(* ===== verification/Scheduler.v ===== *)
(** * kernel/process/scheduler.c: the FIFO ready queue and the dispatcher

    The queue is an intrusive list through [p_next] with [rq_head] and [rq_tail]. Every
    operation is translated with each dereference the C code makes, those of the arguments of
    [printf] included; the printed text itself is not part of the state. *)

From stdpp Require Import base numbers strings gmap list.
From S2P Require Import Prelude.
From S2P Require Import Chain.
From S2P Require Import Memory.
From S2P Require Import Context.
From S2P Require Import ProcState.

Local Open Scope Z_scope.

(** ** Operations *)

Definition process_get_current : M kstate Z := s ← get; mret (current s).
Definition process_set_current (proc : Z) : M kstate unit := modify (set_current proc).

Definition scheduler_init : M kstate unit :=
  modify (set_rq_head NULL);;
  modify (set_rq_tail NULL).

Definition scheduler_add (proc : Z) : M kstate unit :=
  if proc =? NULL then mret tt
  else
    upd_proc proc (set_p_next NULL);;
    s ← get;
    (if rq_head s =? NULL then
       modify (set_rq_head proc);;
       modify (set_rq_tail proc)
     else
       upd_proc (rq_tail s) (set_p_next proc);;
       modify (set_rq_tail proc));;
    _ ← get_proc proc;
    mret tt.

(** The search loop of [scheduler_remove]; [cur] is its local [current]. *)
Fixpoint remove_loop (fuel : nat) (proc cur : Z) : M kstate unit :=
  match fuel with
  | O => nofuel
  | S fuel' =>
      c ← get_proc cur;
      if p_next c =? NULL then mret tt
      else if p_next c =? proc then
        p ← get_proc proc;
        upd_proc cur (set_p_next (p_next p));;
        s ← get;
        when (rq_tail s =? proc) (modify (set_rq_tail cur));;
        _ ← get_proc proc;
        mret tt
      else remove_loop fuel' proc (p_next c)
  end.

Definition scheduler_remove_fuel (fuel : nat) (proc : Z) : M kstate unit :=
  s ← get;
  if (proc =? NULL) || (rq_head s =? NULL) then mret tt
  else if rq_head s =? proc then
    p ← get_proc proc;
    modify (set_rq_head (p_next p));;
    when (p_next p =? NULL) (modify (set_rq_tail NULL));;
    _ ← get_proc proc;
    mret tt
  else remove_loop fuel proc (rq_head s).

(** A queue has no more elements than there are PCBs, so their number is enough fuel. *)
Definition scheduler_remove (proc : Z) : M kstate unit :=
  s ← get;
  scheduler_remove_fuel (S (size (procs s))) proc.

Definition scheduler_next : M kstate Z :=
  s ← get;
  next ← (if rq_head s =? NULL then process_get_current else mret (rq_head s));
  (if next =? NULL then mret tt else _ ← get_proc next; mret tt);;
  mret next.

(** The second half of [schedule]: make [next] the running process and switch to it. *)
Definition dispatch (cur next : Z) : M kstate unit :=
  if next =? NULL then mret tt
  else
    upd_proc next (set_p_state PROCESS_RUNNING);;
    process_set_current next;;
    scheduler_remove next;;
    (* the arguments of the last printf: current->pid, next->pid *)
    c ← get_proc cur;
    n ← get_proc next;
    if negb (cur =? NULL) && negb (p_context c =? NULL)
    then context_switch (p_context c) (p_context n)
    else context_restore_at (p_context n).

Definition schedule : M kstate unit :=
  cur ← process_get_current;
  next ← scheduler_next;
  if cur =? next then mret tt
  else
    (if cur =? NULL then mret tt
     else
       c ← get_proc cur;
       when (bool_decide (p_state c = PROCESS_RUNNING))
         (upd_proc cur (set_p_state PROCESS_READY);; scheduler_add cur));;
    dispatch cur next.

Definition scheduler_tick : M kstate unit := mret tt.

Definition scheduler_block : M kstate unit :=
  cur ← process_get_current;
  if cur =? NULL then mret tt
  else
    _ ← get_proc cur;
    upd_proc cur (set_p_state PROCESS_BLOCKED);;
    schedule.

Definition scheduler_wake (proc : Z) : M kstate unit :=
  if proc =? NULL then mret tt
  else
    p ← get_proc proc;
    when (bool_decide (p_state p = PROCESS_BLOCKED))
      (upd_proc proc (set_p_state PROCESS_READY);; scheduler_add proc).

(** ** Abstraction

    The client's view of the scheduler is a list [q] of PCB addresses together with the kernel
    state in which the links of the queue have been erased. *)

Definition strip (m : gmap Z process) : gmap Z process := set_p_next NULL <$> m.

Definition erase (s : kstate) : kstate :=
  KState (kmem s) (strip (procs s)) (ctxs s) (ptregs s) (next_pid s) (current s) (task s)
    (task_count s) NULL NULL (cpu s) (resumed s).

Definition queue_rep (s : kstate) (q : list Z) : Prop :=
  linked p_next (procs s) q ∧ rq_head s = hd NULL q ∧ rq_tail s = tail_of q.

Definition rep (s : kstate) (q : list Z) (k : kstate) : Prop := queue_rep s q ∧ erase s = k.

(** Updates of a PCB that neither read nor write its link. *)
Class LinkFree (f : process → process) := {
  lf_next x : p_next (f x) = p_next x;
  lf_erase x : set_p_next NULL (f x) = f (set_p_next NULL x);
}.

#[export] Instance link_free_state v : LinkFree (set_p_state v).
Proof. done. Qed.
#[export] Instance link_free_counter v : LinkFree (set_p_counter v).
Proof. done. Qed.
#[export] Instance link_free_cpu_time v : LinkFree (set_p_cpu_time v).
Proof. done. Qed.
#[export] Instance link_free_exit_code v : LinkFree (set_p_exit_code v).
Proof. done. Qed.
#[export] Instance link_free_mm v : LinkFree (set_p_mm v).
Proof. done. Qed.
#[export] Instance link_free_pt_regs v : LinkFree (set_p_pt_regs v).
Proof. done. Qed.

Lemma get_proc_ret s p x : procs s !! p = Some x → get_proc p s = Ret x s.
Proof. apply (deref_ret (λ s, procs s !! p)). Qed.

Lemma get_proc_fault s p : procs s !! p = None → get_proc p s = Fault.
Proof. unfold get_proc, deref. by intros ->. Qed.

Lemma upd_proc_ret s p x f :
  procs s !! p = Some x → upd_proc p f s = Ret tt (set_procs (<[p := f x]> (procs s)) s).
Proof. intros H. unfold upd_proc. by mstep (get_proc_ret _ _ _ H). Qed.

Lemma strip_lookup m p : strip m !! p = set_p_next NULL <$> m !! p.
Proof. apply lookup_fmap. Qed.

Lemma strip_insert m p x : strip (<[p := x]> m) = <[p := set_p_next NULL x]> (strip m).
Proof. apply fmap_insert. Qed.

(** Relinking an object is invisible after erasure. *)
Lemma strip_relink m p x v : m !! p = Some x → strip (<[p := set_p_next v x]> m) = strip m.
Proof.
  intros H. rewrite strip_insert. apply insert_id. by rewrite strip_lookup, H.
Qed.

Lemma rep_lookup s q k p y :
  rep s q k → procs k !! p = Some y →
  ∃ x, procs s !! p = Some x ∧ y = set_p_next NULL x.
Proof.
  intros [_ <-] H. simpl in H. rewrite strip_lookup in H.
  destruct (procs s !! p) as [x|]; naive_solver.
Qed.

Lemma rep_queue_lookup s q k p : rep s q k → p ∈ q → is_Some (procs k !! p).
Proof.
  intros [[Hl _] <-] Hp. destruct (linked_lookup _ _ _ _ Hl Hp) as [x Hx].
  simpl. rewrite strip_lookup, Hx. eauto.
Qed.

Lemma rep_queue_not_null s q k p : rep s q k → p ∈ q → p ≠ NULL.
Proof. intros [[Hl _] _]. by eapply linked_not_null. Qed.

Lemma rep_NoDup s q k : rep s q k → NoDup q.
Proof. intros [[Hl _] _]. by eapply linked_NoDup. Qed.

Lemma rep_get_proc s q k p y :
  rep s q k → procs k !! p = Some y →
  ∃ x, get_proc p s = Ret x s ∧ y = set_p_next NULL x.
Proof.
  intros Hr H. destruct (rep_lookup _ _ _ _ _ Hr H) as (x & Hx & ->).
  exists x. by rewrite (get_proc_ret _ _ _ Hx).
Qed.

Lemma rep_upd_proc s q k p y f `{!LinkFree f} :
  rep s q k → procs k !! p = Some y →
  ∃ s', upd_proc p f s = Ret tt s' ∧ rep s' q (set_procs (<[p := f y]> (procs k)) k).
Proof.
  intros Hr H. destruct (rep_lookup _ _ _ _ _ Hr H) as (x & Hx & ->).
  eexists. split; [by apply upd_proc_ret|]. destruct Hr as [(Hl & Hh & Ht) <-].
  split; [|by unfold erase; simpl; rewrite strip_insert, lf_erase].
  split; [|done]. eapply linked_insert_same; [done|apply lf_next|done].
Qed.

(** The other members of the state are the same before and after erasure. *)
Lemma rep_set_current s q k v : rep s q k → rep (set_current v s) q (set_current v k).
Proof. by intros [? <-]. Qed.
Lemma rep_set_resumed s q k v : rep s q k → rep (set_resumed v s) q (set_resumed v k).
Proof. by intros [H <-]. Qed.
Lemma rep_set_cpu s q k v : rep s q k → rep (set_cpu v s) q (set_cpu v k).
Proof. by intros [? <-]. Qed.
Lemma rep_set_ctxs s q k v : rep s q k → rep (set_ctxs v s) q (set_ctxs v k).
Proof. by intros [? <-]. Qed.
Lemma rep_set_kmem s q k v : rep s q k → rep (set_kmem v s) q (set_kmem v k).
Proof. by intros [? <-]. Qed.
Lemma rep_set_ptregs s q k v : rep s q k → rep (set_ptregs v s) q (set_ptregs v k).
Proof. by intros [? <-]. Qed.
Lemma rep_set_next_pid s q k v : rep s q k → rep (set_next_pid v s) q (set_next_pid v k).
Proof. by intros [? <-]. Qed.
Lemma rep_set_task s q k v : rep s q k → rep (set_task v s) q (set_task v k).
Proof. by intros [? <-]. Qed.
Lemma rep_set_task_count s q k v : rep s q k → rep (set_task_count v s) q (set_task_count v k).
Proof. by intros [? <-]. Qed.

#[export] Hint Resolve rep_set_current rep_set_cpu rep_set_resumed rep_set_ctxs rep_set_kmem
  rep_set_ptregs
  rep_set_next_pid rep_set_task rep_set_task_count : kernel.

(** ** The queue operations implement list operations *)

Lemma rep_relink s q k q' p x v h t :
  rep s q k → procs s !! p = Some x →
  linked p_next (<[p := set_p_next v x]> (procs s)) q' → h = hd NULL q' → t = tail_of q' →
  rep (set_rq_tail t (set_rq_head h (set_procs (<[p := set_p_next v x]> (procs s)) s))) q' k.
Proof.
  intros [_ <-] Hx Hl -> ->. split; [done|].
  unfold erase; simpl. by rewrite strip_relink.
Qed.

Lemma scheduler_add_ok s q k p :
  rep s q k → p ≠ NULL → p ∉ q → is_Some (procs k !! p) →
  ∃ s', scheduler_add p s = Ret tt s' ∧ rep s' (q ++ [p]) k.
Proof.
  intros Hr Hp Hpq [y Hy]. destruct (rep_lookup _ _ _ _ _ Hr Hy) as (x & Hx & _).
  unfold scheduler_add. rewrite (proj2 (Z.eqb_neq _ _)) by done.
  mstep (upd_proc_ret _ _ _ (set_p_next NULL) Hx). set (s1 := set_procs _ s).
  assert (rep s1 q k) as Hr1.
  { destruct Hr as [(Hl & Hh & Ht) <-]. split; [split; [|done]|].
    - by apply linked_insert_notin.
    - unfold erase; simpl. by rewrite strip_relink. }
  assert (procs s1 !! p = Some (set_p_next NULL x)) as Hx1 by apply lookup_insert_eq.
  clearbody s1. clear Hr Hx. mred.
  destruct (decide (q = [])) as [->|Hq].
  - destruct Hr1 as [(_ & Hh & _) <-]. rewrite Hh. simpl.
    rewrite (get_proc_ret _ p (set_p_next NULL x)) by exact Hx1.
    eexists. split; [done|]. split; [|done].
    split; [|done]. simpl. eauto.
  - destruct (exists_last Hq) as (q0 & t & ->).
    assert (rq_tail s1 = t) as Ht by (destruct Hr1 as [(_ & _ & ->) _]; apply tail_of_snoc).
    destruct (rep_queue_lookup _ _ _ t Hr1) as [yt Hyt]; [set_solver|].
    destruct (rep_lookup _ _ _ _ _ Hr1 Hyt) as (xt & Hxt & _).
    assert (rq_head s1 ≠ NULL) as Hh.
    { destruct Hr1 as [(Hl & -> & _) _]. intros Hz%(linked_hd_null _ _ _ Hl). by destruct q0. }
    rewrite (proj2 (Z.eqb_neq _ _)) by done. rewrite Ht, (upd_proc_ret _ _ _ _ Hxt).
    assert (p ≠ t) by set_solver.
    rewrite (get_proc_ret _ p (set_p_next NULL x))
      by (simpl; by rewrite lookup_insert_ne).
    eexists. split; [done|].
    apply (rep_relink s1 (q0 ++ [t]) k _ t xt p (rq_head s1) p);
      [done|done| | |by rewrite tail_of_snoc].
    + destruct Hr1 as [(Hl & _) _]. by eapply linked_snoc.
    + destruct Hr1 as [(_ & -> & _) _]. by destruct q0.
Qed.

Lemma remove_loop_ok fuel s q1 x q2 k p :
  rep s (q1 ++ x :: q2) k → p ∉ q1 ++ [x] → p ≠ NULL → (length q2 < fuel)%nat →
  ∃ s', remove_loop fuel p x s = Ret tt s' ∧ rep s' (q1 ++ x :: remove_elem p q2) k.
Proof.
  revert fuel q1 x. induction q2 as [|y q2 IH]; intros [|fuel] q1 x Hr Hp Hnull Hf;
    try (simpl in Hf; lia); cbn [remove_loop].
  - destruct Hr as [(Hl & Hh & Ht) <-].
    destruct (linked_app _ _ _ _ Hl) as (_ & (c & Hc & Hn) & _). simpl in Hn.
    mstep (get_proc_ret _ _ _ Hc). rewrite Hn. simpl. by exists s.
  - destruct Hr as [(Hl & Hh & Ht) <-].
    destruct (linked_app _ _ _ _ Hl) as (_ & (c & Hc & Hn) & Hy & (d & Hd & Hnd) & _).
    simpl in Hn. mstep (get_proc_ret _ _ _ Hc). rewrite Hn.
    rewrite (proj2 (Z.eqb_neq y NULL)) by done. destruct (Z.eqb_spec y p) as [->|Hyp].
    + pose proof (linked_NoDup _ _ _ Hl) as Hdup.
      assert ((p ∉ q2) ∧ x ≠ p) as [Hpq Hxp].
      { apply NoDup_app in Hdup as (_ & _ & Hdup). rewrite !NoDup_cons in Hdup. set_solver. }
      rewrite remove_elem_cons_eq by done.
      mstep (get_proc_ret _ _ _ Hd). mstep (upd_proc_ret _ _ _ (set_p_next (p_next d)) Hc).
      mred. simpl. rewrite Ht.
      assert (linked p_next (<[x := set_p_next (p_next d) c]> (procs s)) (q1 ++ x :: q2))
        by (by eapply linked_unlink).
      assert (tail_of (q1 ++ x :: p :: q2) = tail_of (p :: q2)) as ->
        by (by rewrite tail_of_app).
      assert (∀ t, t = tail_of (q1 ++ x :: q2) →
        rep (set_rq_tail t (set_procs (<[x := set_p_next (p_next d) c]> (procs s)) s))
          (q1 ++ x :: q2) (erase s)) as Hrep.
      { intros t ->. eapply (rep_relink s _ _ _ x c (p_next d) (rq_head s));
          [by split|done|done| |done]. rewrite Hh. by destruct q1. }
      destruct (Z.eqb_spec (tail_of (p :: q2)) p) as [E|E]; simpl;
        rewrite (get_proc_ret _ p d) by (simpl; by rewrite lookup_insert_ne);
        (eexists; split; [done|]).
      * apply tail_of_self in E as ->; [|done]. apply Hrep. by rewrite tail_of_app.
      * apply (Hrep (rq_tail s)). rewrite Ht, tail_of_app. destruct q2 as [|z q2]; [done|].
        by rewrite tail_of_app.
    + rewrite remove_elem_cons_ne by done.
      assert (∀ l, q1 ++ x :: l = (q1 ++ [x]) ++ l) as Hassoc
        by (intros; by rewrite <- app_assoc).
      rewrite Hassoc in *. apply IH; [by split|set_solver|done|simpl in Hf; lia].
Qed.

Lemma scheduler_remove_ok s q k p :
  rep s q k → p ≠ NULL →
  ∃ s', scheduler_remove p s = Ret tt s' ∧ rep s' (remove_elem p q) k.
Proof.
  intros Hr Hp. unfold scheduler_remove, scheduler_remove_fuel. mred.
  rewrite (proj2 (Z.eqb_neq p NULL)) by done. cbn [orb].
  destruct q as [|x q].
  { assert (rq_head s = NULL) as -> by (by destruct Hr as [(_ & -> & _) _]). by exists s. }
  pose proof (rep_NoDup _ _ _ Hr) as [Hxq _]%NoDup_cons.
  assert (rq_head s = x) as Hh by (by destruct Hr as [(_ & -> & _) _]).
  assert (x ≠ NULL) by (eapply rep_queue_not_null; [done|set_solver]).
  rewrite Hh, (proj2 (Z.eqb_neq x NULL)) by done.
  destruct (Z.eqb_spec x p) as [->|Hxp].
  - rewrite remove_elem_cons_eq by done.
    destruct Hr as [(Hl & _ & Ht) <-]. destruct Hl as (_ & (c & Hc & Hn) & Hl).
    rewrite (get_proc_ret _ _ _ Hc). mred. rewrite Hn.
    destruct (Z.eqb_spec (hd NULL q) NULL) as [E|E];
      rewrite (get_proc_ret _ p c) by done; (eexists; split; [done|]; split; [|done]).
    + apply (linked_hd_null _ _ _ Hl) in E as ->. done.
    + split; [done|]. split; [done|]. simpl. rewrite Ht. by destruct q.
  - rewrite remove_elem_cons_ne by done.
    apply (remove_loop_ok _ s [] x q k p); [done|set_solver|done|].
    destruct Hr as [(Hl & _) _]. pose proof (linked_length _ _ _ Hl). simpl in *. lia.
Qed.

Lemma scheduler_next_ok s q k :
  rep s q k → is_Some (procs k !! current k) →
  scheduler_next s = Ret (hd (current k) q) s.
Proof.
  intros Hr [y Hy]. unfold scheduler_next. mred.
  destruct q as [|x q].
  - destruct (rep_get_proc _ _ _ _ _ Hr Hy) as (c & Hc & _).
    destruct Hr as [(_ & -> & _) <-]. simpl in *. unfold process_get_current. mred.
    destruct (current s =? NULL); [done|]. by rewrite Hc.
  - assert (x ≠ NULL) by (eapply rep_queue_not_null; [done|set_solver]).
    destruct (rep_queue_lookup _ _ _ x Hr) as [z Hz]; [set_solver|].
    destruct (rep_get_proc _ _ _ _ _ Hr Hz) as (c & Hc & _).
    destruct Hr as [(_ & -> & _) <-]. simpl.
    rewrite (proj2 (Z.eqb_neq x NULL)) by done. mred.
    rewrite (proj2 (Z.eqb_neq x NULL)) by done. by rewrite Hc.
Qed.

(** ** The dispatcher

    [a_schedule] is the FIFO policy on the abstract state: the head of the queue becomes
    current, a current process that was still running goes to the back. *)

Definition a_upd (p : Z) (f : process → process) (k : kstate) : kstate :=
  match procs k !! p with
  | Some x => set_procs (<[p := f x]> (procs k)) k
  | None => k
  end.

Definition a_state (k : kstate) (p : Z) : option process_state := p_state <$> procs k !! p.
Definition ctx_of (k : kstate) (p : Z) : Z := default NULL (p_context <$> procs k !! p).

Definition a_switch (from to : Z) (k : kstate) : kstate :=
  let k1 :=
    match ctxs k !! from with
    | Some old => set_ctxs (<[from := context_save (cpu k) old]> (ctxs k)) k
    | None => k
    end in
  set_resumed to k1.

Definition a_schedule (q : list Z) (k : kstate) : option (list Z * kstate) :=
  match q with
  | [] => None
  | n :: q' =>
      let c := current k in
      if n =? c then None
      else
        let running := bool_decide (a_state k c = Some PROCESS_RUNNING) in
        let q1 := if running then q' ++ [c] else q' in
        let k1 := if running then a_upd c (set_p_state PROCESS_READY) k else k in
        let k2 := set_current n (a_upd n (set_p_state PROCESS_RUNNING) k1) in
        Some (q1, a_switch (ctx_of k c) (ctx_of k n) k2)
  end.

(** A process the dispatcher can switch from or to. *)
Definition dispatchable (k : kstate) (p : Z) : Prop :=
  p ≠ NULL ∧ ∃ x, procs k !! p = Some x ∧ p_context x ≠ NULL ∧ is_Some (ctxs k !! p_context x).

Lemma a_upd_some p f k x :
  procs k !! p = Some x → a_upd p f k = set_procs (<[p := f x]> (procs k)) k.
Proof. unfold a_upd. by intros ->. Qed.

Lemma rep_a_upd s q k p f `{!LinkFree f} :
  rep s q k → is_Some (procs k !! p) →
  ∃ s', upd_proc p f s = Ret tt s' ∧ rep s' q (a_upd p f k).
Proof.
  intros Hr [x Hx]. rewrite (a_upd_some _ _ _ _ Hx). by apply rep_upd_proc.
Qed.

(** Updates that leave the context pointer alone keep processes dispatchable. *)
Lemma dispatchable_upd k p r f :
  (∀ x, p_context (f x) = p_context x) →
  dispatchable k p → dispatchable (a_upd r f k) p ∧ ctx_of (a_upd r f k) p = ctx_of k p.
Proof.
  intros Hf (Hp & x & Hx & Hc & Hctx). unfold a_upd, ctx_of, dispatchable.
  destruct (procs k !! r) as [y|] eqn:Hr; simpl; [|rewrite Hx; eauto 10].
  destruct (decide (r = p)) as [->|].
  - simplify_eq. rewrite lookup_insert_eq, Hx. simpl. rewrite Hf.
    split; [|done]. split; [done|]. exists (f x). by rewrite Hf.
  - rewrite lookup_insert_ne, Hx by done. eauto 10.
Qed.

Lemma context_switch_ok {A} s q k from to :
  rep s q k → is_Some (ctxs k !! from) → is_Some (ctxs k !! to) →
  ∃ s', (context_switch from to : M kstate A) s = Jump s' ∧ rep s' q (a_switch from to k).
Proof.
  intros Hr [o Ho] [t Ht].
  assert (ctxs s = ctxs k ∧ cpu s = cpu k) as [Ec Eu] by (by destruct Hr as [_ <-]).
  unfold context_switch, context_save_at, context_restore_at, deref, a_switch. mred.
  rewrite Ec, Ho, Eu. simpl. rewrite Ec.
  assert (is_Some (<[from := context_save (cpu k) o]> (ctxs k) !! to)) as [u Hu].
  { destruct (decide (from = to)) as [->|]; [rewrite lookup_insert_eq|
      rewrite lookup_insert_ne by done]; eauto. }
  rewrite Hu. eexists. split; [done|]. auto with kernel.
Qed.

Lemma dispatch_ok s q k c n :
  rep s q k → dispatchable k c → dispatchable k n →
  ∃ s', dispatch c n s = Jump s' ∧
    rep s' (remove_elem n q)
      (a_switch (ctx_of k c) (ctx_of k n)
         (set_current n (a_upd n (set_p_state PROCESS_RUNNING) k))).
Proof.
  intros Hr Hc Hn. unfold dispatch.
  rewrite (proj2 (Z.eqb_neq n NULL)) by apply Hn.
  destruct (rep_a_upd s q k n (set_p_state PROCESS_RUNNING) Hr) as (s1 & E1 & Hr1).
  { destruct Hn as (_ & x & -> & _). eauto. }
  mstep E1. unfold process_set_current. mstep (eq_refl : modify (set_current n) s1 = Ret tt _).
  apply (rep_set_current _ _ _ n) in Hr1.
  destruct (scheduler_remove_ok _ _ _ n Hr1) as (s2 & E2 & Hr2); [apply Hn|]. mstep E2.
  destruct (dispatchable_upd k c n (set_p_state PROCESS_RUNNING)) as [Hc' <-]; [done..|].
  destruct (dispatchable_upd k n n (set_p_state PROCESS_RUNNING)) as [Hn' <-]; [done..|].
  set (k1 := a_upd n _ k) in *.
  destruct Hc' as (Hc0 & x & Hx & Hxc & Hxctx), Hn' as (Hn0 & y & Hy & Hyc & Hyctx).
  destruct (rep_get_proc _ _ (set_current n k1) _ _ Hr2 Hx) as (x0 & Ex & ->). mstep Ex.
  destruct (rep_get_proc _ _ (set_current n k1) _ _ Hr2 Hy) as (y0 & Ey & ->). mstep Ey.
  simpl in *. rewrite (proj2 (Z.eqb_neq c NULL)), (proj2 (Z.eqb_neq (p_context x0) NULL)) by done.
  unfold ctx_of. rewrite Hx, Hy. by apply context_switch_ok.
Qed.

Lemma schedule_ok s q k :
  rep s q k → dispatchable k (current k) → (∀ p, p ∈ q → dispatchable k p) →
  (a_state k (current k) = Some PROCESS_RUNNING → current k ∉ q) →
  match a_schedule q k with
  | None => schedule s = Ret tt s
  | Some (q', k') => ∃ s', schedule s = Jump s' ∧ rep s' q' k'
  end.
Proof.
  intros Hr Hc Hq Hrun. assert (current s = current k) as Ecur by (by destruct Hr as [_ <-]).
  unfold schedule, process_get_current. mred. rewrite Ecur.
  destruct Hc as (Hc0 & x & Hx & Hxc & Hxctx).
  rewrite (scheduler_next_ok _ _ _ Hr) by eauto.
  destruct q as [|n q]; simpl; [by rewrite Z.eqb_refl|]. rewrite (Z.eqb_sym n).
  destruct (Z.eqb_spec (current k) n) as [|Hne]; [done|].
  pose proof (rep_NoDup _ _ _ Hr) as [Hnq _]%NoDup_cons.
  rewrite (proj2 (Z.eqb_neq (current k) NULL)) by done.
  destruct (rep_get_proc _ _ _ _ _ Hr Hx) as (x0 & Ex & ->). rewrite Ex. mred.
  unfold a_state in *. rewrite Hx in *. simpl in *.
  assert (bool_decide (Some (p_state x0) = Some PROCESS_RUNNING) =
    bool_decide (p_state x0 = PROCESS_RUNNING)) as ->
    by (apply bool_decide_ext; split; congruence).
  destruct (bool_decide_reflect (p_state x0 = PROCESS_RUNNING)) as [Hst|Hst].
  - destruct (rep_a_upd s _ k (current k) (set_p_state PROCESS_READY) Hr) as (s1 & E1 & Hr1);
      [by eauto|]. rewrite E1.
    destruct (scheduler_add_ok _ _ _ (current k) Hr1) as (s2 & E2 & Hr2);
      [done|apply Hrun; congruence| |].
    { rewrite (a_upd_some _ _ _ _ Hx). simpl. rewrite lookup_insert_eq. eauto. }
    rewrite E2. cbv beta iota.
    destruct (dispatchable_upd k (current k) (current k) (set_p_state PROCESS_READY))
      as [Hc' <-]; [done|unfold dispatchable; by eauto 10|].
    destruct (dispatchable_upd k n (current k) (set_p_state PROCESS_READY))
      as [Hn' <-]; [done|apply Hq; set_solver|].
    destruct (dispatch_ok _ _ _ _ _ Hr2 Hc' Hn') as (s3 & -> & Hr3).
    exists s3. split; [done|]. simpl in Hr3. rewrite remove_elem_cons_eq in Hr3; [done|set_solver].
  - destruct (dispatch_ok _ _ _ (current k) n Hr) as (s3 & E3 & Hr3);
      [unfold dispatchable; by eauto 10|apply Hq; set_solver|].
    exists s3. split; [done|]. by rewrite remove_elem_cons_eq in Hr3.
Qed.

(** ** The queue as a client can read it off a kernel state *)

Fixpoint walk (fuel : nat) (m : gmap Z process) (p : Z) : list Z :=
  match fuel with
  | O => []
  | S fuel' =>
      if p =? NULL then []
      else match m !! p with Some x => p :: walk fuel' m (p_next x) | None => [] end
  end.

Definition ready_list (s : kstate) : list Z := walk (size (procs s)) (procs s) (rq_head s).

Lemma walk_linked fuel m q :
  linked p_next m q → (length q <= fuel)%nat → walk fuel m (hd NULL q) = q.
Proof.
  revert fuel. induction q as [|x q IH]; intros [|fuel] Hl Hf; simpl in *; try done; try lia.
  destruct Hl as (Hx & (v & Hv & Hnx) & Hl). rewrite Hv, (proj2 (Z.eqb_neq x NULL)) by done.
  rewrite Hnx. f_equal. apply IH; [done|lia].
Qed.

Lemma rep_ready_list s q k : rep s q k → ready_list s = q.
Proof.
  intros [(Hl & Hh & _) _]. unfold ready_list. rewrite Hh.
  apply walk_linked; [done|]. by apply (linked_length p_next).
Qed.

(** ** Properties of the queue *)

(** [scheduler_add] of a process that is not queued appends it: the queue is the old one
    followed by the process, head and tail pointers included, and nothing but links changes. *)
Theorem scheduler_add_spec s q p :
  queue_rep s q → p ≠ NULL → p ∉ q → is_Some (procs s !! p) →
  ∃ s', scheduler_add p s = Ret tt s' ∧ queue_rep s' (q ++ [p]) ∧ erase s' = erase s.
Proof.
  intros Hq Hp Hpq [x Hx]. destruct (scheduler_add_ok s q (erase s) p) as (s' & E & Hq' & Ee).
  - by split.
  - done.
  - done.
  - simpl. rewrite strip_lookup, Hx. eauto.
  - by exists s'.
Qed.

(** [scheduler_remove] unlinks a process wherever it stands in the queue (at the head, in
    the middle, at the end) and keeps the order of the others; a process that is not queued
    leaves the queue as it is. Its loop terminates. *)
Theorem scheduler_remove_spec s q p :
  queue_rep s q → p ≠ NULL →
  ∃ s', scheduler_remove p s = Ret tt s' ∧ queue_rep s' (remove_elem p q) ∧ erase s' = erase s.
Proof.
  intros Hq Hp. destruct (scheduler_remove_ok s q (erase s) p) as (s' & E & Hq' & Ee); [by split|done|].
  by exists s'.
Qed.

(** With processes in the queue and no current process, [schedule] makes the head of the
    queue current and then dereferences the null pointer it still holds in its local variable,
    in the arguments of a [printf]. *)
Theorem schedule_null_current s n q :
  queue_rep s (n :: q) → current s = NULL → procs s !! NULL = None → schedule s = Fault.
Proof.
  intros Hq Hc Hn. assert (rep s (n :: q) (erase s)) as Hr by (by split).
  assert (n ≠ NULL) as Hn0 by (eapply rep_queue_not_null; [done|by left]).
  destruct (rep_queue_lookup _ _ _ n Hr) as [y Hy]; [by left|].
  destruct (rep_get_proc _ _ _ _ _ Hr Hy) as (x & Ex & _).
  assert (rq_head s = n) as Eh by apply Hq.
  assert (scheduler_next s = Ret n s) as E.
  { unfold scheduler_next. rewrite bind_get, Eh, (proj2 (Z.eqb_neq n NULL)), bind_mret by done.
    rewrite (proj2 (Z.eqb_neq n NULL)) by done. unfold mbind, M_bind. by rewrite Ex. }
  unfold schedule. mstep (eq_refl : process_get_current s = Ret (current s) s). rewrite Hc.
  mstep E. rewrite (proj2 (Z.eqb_neq NULL n)) by done. rewrite Z.eqb_refl, bind_mret.
  unfold dispatch. rewrite (proj2 (Z.eqb_neq n NULL)) by done.
  destruct (rep_a_upd s (n :: q) (erase s) n (set_p_state PROCESS_RUNNING) Hr) as (s1 & E1 & Hr1);
    [by eauto|]. mstep E1. unfold process_set_current. rewrite bind_modify.
  apply (rep_set_current _ _ _ n) in Hr1.
  destruct (scheduler_remove_ok _ _ _ n Hr1 Hn0) as (s2 & E2 & Hr2). mstep E2.
  rewrite bind_fault; [done|]. apply get_proc_fault.
  assert (strip (procs s2) !! NULL = None) as H2.
  { destruct Hr2 as [_ H2]. apply (f_equal procs) in H2. simpl in H2. rewrite H2.
    rewrite (a_upd_some _ _ _ _ Hy). simpl. rewrite lookup_insert_ne by done. by rewrite strip_lookup, Hn. }
  rewrite strip_lookup in H2. by destruct (procs s2 !! NULL).
Qed.

(** ** Witnesses *)

(** Three PCBs, the second queued before the first; nothing running. *)
Definition three_pcbs : kstate :=
  let x := set_p_state PROCESS_READY process_zero in
  set_rq_tail 0x1000 (set_rq_head 0x2000
    (set_procs {[0x1000 := x; 0x2000 := set_p_next 0x1000 x; 0x3000 := x]} kstate_boot)).

Lemma three_pcbs_queue : queue_rep three_pcbs [0x2000; 0x1000].
Proof.
  split; [|done]. cbn [linked hd].
  split; [discriminate|]. split; [by eexists|]. split; [discriminate|]. split; [by eexists|exact I].
Qed.

Lemma scheduler_add_spec_witness :
  ∃ s', scheduler_add 0x3000 three_pcbs = Ret tt s' ∧ queue_rep s' [0x2000; 0x1000; 0x3000].
Proof.
  destruct (scheduler_add_spec three_pcbs [0x2000; 0x1000] 0x3000) as (s' & E & Hq & _).
  - apply three_pcbs_queue.
  - discriminate.
  - rewrite !not_elem_of_cons. split_and!; [discriminate..|apply not_elem_of_nil].
  - vm_compute. by eexists.
  - exists s'. exact (conj E Hq).
Defined.

Lemma scheduler_remove_spec_witness :
  ∃ s', scheduler_remove 0x1000 three_pcbs = Ret tt s' ∧ queue_rep s' [0x2000].
Proof.
  destruct (scheduler_remove_spec three_pcbs [0x2000; 0x1000] 0x1000) as (s' & E & Hq & _).
  - apply three_pcbs_queue.
  - discriminate.
  - exists s'. exact (conj E Hq).
Defined.

Lemma schedule_null_current_witness : schedule three_pcbs = Fault.
Proof. apply (schedule_null_current three_pcbs 0x2000 [0x1000] three_pcbs_queue); reflexivity. Defined.
