(* ===== verification/Process.v ===== *)
(** * kernel/process/process.c: the process life cycle

    Creation, termination, waiting, the timer tick and the two ways of switching, translated
    call by call. A C function that may leave through a context switch has outcome [Jump];
    [process_exit] ends in [Hang] when it falls into its final [while (1)]. *)

From stdpp Require Import base numbers strings pretty gmap list.
From S2P Require Import Prelude.
From S2P Require Import Chain.
From S2P Require Import Memory.
From S2P Require Import Context.
From S2P Require Import ProcState.
From S2P Require Import Scheduler.

Local Open Scope Z_scope.

Definition COUNTER_INIT_VALUES : list Z := [0; 4; 3; 2; 1].

(** An index into the table; out of bounds is undefined. *)
Definition counter_init (i : Z) : M kstate Z := deref (λ _, COUNTER_INIT_VALUES !! Z.to_nat i).

(** [v++] on an [int32_t]; overflow is undefined. *)
Definition incr_i32 (v : Z) : M kstate Z := if v =? 2 ^ 31 - 1 then fault else mret (v + 1).

Definition process_state_to_string (st : process_state) : string :=
  match st with
  | PROCESS_CREATED => "CREATED"
  | PROCESS_READY => "READY"
  | PROCESS_RUNNING => "RUNNING"
  | PROCESS_BLOCKED => "BLOCKED"
  | PROCESS_TERMINATED => "TERMINATED"
  end.

Definition process_is_alive (proc : Z) : M kstate bool :=
  if proc =? NULL then mret false
  else p ← get_proc proc; mret (negb (bool_decide (p_state p = PROCESS_TERMINATED))).

Definition process_set_state (proc : Z) (new_state : process_state) : M kstate unit :=
  if proc =? NULL then mret tt
  else
    _ ← get_proc proc;
    upd_proc proc (set_p_state new_state).

Section process.
Context `{L : Linkage}.

(** The block at [p] becomes a zeroed object of its type. *)
Definition new_process (p : Z) : M kstate unit :=
  modify (λ s, set_procs (<[p := process_zero]> (procs s)) s).
Definition new_context (c : Z) (v : context) : M kstate unit :=
  modify (λ s, set_ctxs (<[c := v]> (ctxs s)) s).
Definition new_pt_regs (r : Z) : M kstate unit :=
  modify (λ s, set_ptregs (<[r := pt_regs_zero]> (ptregs s)) s).

Definition process_init : M kstate unit :=
  idle ← in_mem (Memory.kmalloc sizeof_process);
  if idle =? NULL then mret tt
  else
    new_process idle;;
    (* pid, priority, ..., exit_code are assigned the zeros memset has put there *)
    upd_proc idle (set_p_state PROCESS_RUNNING);;
    stack ← in_mem (Memory.kmalloc 4096);
    upd_proc idle (set_p_kernel_stack stack);;
    if stack =? NULL then in_mem (Memory.kfree idle)
    else
      upd_proc idle (set_p_name "idle");;
      ctx ← in_mem (Memory.kmalloc sizeof_context);
      upd_proc idle (set_p_context ctx);;
      if ctx =? NULL then
        in_mem (Memory.kfree stack);;
        in_mem (Memory.kfree idle)
      else
        new_context ctx context_zero;;
        modify (set_current idle);;
        put_task 0 idle;;
        modify (set_task_count 1);;
        scheduler_init.

(** [for (i = 0; i < 64; i++) if (task[i] == NULL) { ...; break; }] *)
Definition add_task (proc : Z) : M kstate unit :=
  r ← find_range 64 0 (λ i, t ← get_task i; mret (t =? NULL));
  match r with
  | Some i =>
      put_task i proc;;
      s ← get;
      when (task_count s <=? i) (modify (set_task_count (i + 1)))
  | None => mret tt
  end.

(** The last part of [process_create]: name the finished PCB and publish it in the task table
    and the ready queue. *)
Definition create_publish (proc : Z) : M kstate Z :=
  s ← get;
  upd_proc proc (set_p_parent (current s));;
  p ← get_proc proc;
  (* snprintf keeps at most 31 characters; "proc-" and an int are fewer *)
  upd_proc proc (set_p_name ("proc-" +:+ pretty (p_pid p)));;
  upd_proc proc (set_p_creation_time 0);;
  process_set_state proc PROCESS_READY;;
  add_task proc;;
  scheduler_add proc;;
  p ← get_proc proc;
  mret (p_pid p).

(** The idiom of [process_create] for the three blocks a PCB points to: allocate, store the
    pointer in the PCB, and on failure print the pid, free what was allocated, return -1. *)
Definition attach (proc size : Z) (member : Z → process → process) (undo : list Z)
    (rest : Z → M kstate Z) : M kstate Z :=
  ptr ← in_mem (Memory.kmalloc size);
  upd_proc proc (member ptr);;
  if ptr =? NULL then
    _ ← get_proc proc;
    in_mem (foldr (λ b c, Memory.kfree b;; c) (mret tt) undo);;
    mret (-1)
  else rest ptr.

(** The part of [process_create] that allocates the kernel stack, the context and the user
    registers. *)
Definition create_alloc (entry arg proc : Z) : M kstate Z :=
  attach proc 4096 set_p_kernel_stack [proc] (λ stack,
  attach proc sizeof_context set_p_context [stack; proc] (λ ctx,
  new_context ctx (context_init entry arg (stack + 4096));;
  attach proc sizeof_pt_regs set_p_pt_regs [ctx; stack; proc] (λ regs,
  new_pt_regs regs;;
  create_publish proc))).

(** The initialisation of the PCB in [process_create]. *)
Definition create_pcb (proc priority : Z) : M kstate unit :=
  new_process proc;;
  s ← get;
  upd_proc proc (set_p_pid (next_pid s));;
  pid' ← incr_i32 (next_pid s);
  modify (set_next_pid pid');;
  upd_proc proc (set_p_state PROCESS_CREATED);;
  let prio := if priority <? 5 then priority else 4 in
  upd_proc proc (set_p_priority prio);;
  cnt ← counter_init prio;
  upd_proc proc (set_p_counter cnt).

Definition process_create (entry arg priority : Z) : M kstate Z :=
  if entry =? NULL then mret (-1)
  else
    s ← get;
    if 64 <=? task_count s then mret (-1)
    else
      proc ← in_mem (Memory.kmalloc sizeof_process);
      if proc =? NULL then mret (-1)
      else
        create_pcb proc priority;;
        create_alloc entry arg proc.

(** The body of the loop of [process_exit] that wakes every blocked process but idle. *)
Definition wake_slot (i : Z) : M kstate unit :=
  t ← get_task i;
  if t =? NULL then mret tt
  else
    p ← get_proc t;
    when (bool_decide (p_state p = PROCESS_BLOCKED) && (0 <? p_pid p)) (scheduler_wake t).

Definition wake_blocked : M kstate unit :=
  s ← get;
  for_range (Z.to_nat (task_count s)) 0 wake_slot.

(** The part of [process_exit] that records the exit and releases what the process owns. *)
Definition exit_release (cur exit_code : Z) : M kstate unit :=
  upd_proc cur (set_p_exit_code exit_code);;
  process_set_state cur PROCESS_TERMINATED;;
  c ← get_proc cur;
  (if p_mm c =? NULL then mret tt
   else
     in_mem (Memory.mm_destroy (p_mm c));;
     upd_proc cur (set_p_mm NULL));;
  c ← get_proc cur;
  if p_pt_regs c =? NULL then mret tt
  else
    in_mem (Memory.kfree (p_pt_regs c));;
    upd_proc cur (set_p_pt_regs NULL).

Definition process_exit (exit_code : Z) : M kstate unit :=
  s ← get;
  let cur := current s in
  if cur =? NULL then mret tt
  else
    c ← get_proc cur;
    if p_pid c =? 0 then mret tt
    else
      exit_release cur exit_code;;
      scheduler_remove cur;;
      wake_blocked;;
      _ ← get_proc cur;
      schedule;;
      hang.

(** The searching loop of [process_wait]: the PCB with that pid, or NULL. *)
Definition find_pid (pid : Z) : M kstate Z :=
  s ← get;
  r ← find_range (Z.to_nat (task_count s)) 0 (λ i,
        t ← get_task i;
        if t =? NULL then mret false else p ← get_proc t; mret (p_pid p =? pid));
  match r with
  | Some i => get_task i
  | None => mret NULL
  end.

(** The index of the last used slot plus one. *)
Definition count_tasks : M kstate Z :=
  s ← get;
  fold_range (Z.to_nat (task_count s)) 0 0 (λ i new_count,
    t ← get_task i;
    mret (if t =? NULL then new_count else i + 1)).

(** The last part of [process_wait]: release the terminated [target]. *)
Definition reap (target : Z) : M kstate unit :=
  p ← get_proc target;
  (if p_context p =? NULL then mret tt else in_mem (Memory.kfree (p_context p)));;
  (if p_kernel_stack p =? NULL then mret tt
   else in_mem (Memory.free_kernel_stack (p_kernel_stack p)));;
  s ← get;
  r ← find_range (Z.to_nat (task_count s)) 0 (λ i, t ← get_task i; mret (t =? target));
  (match r with Some i => put_task i NULL | None => mret tt end);;
  in_mem (Memory.kfree target);;
  new_count ← count_tasks;
  modify (set_task_count (if 0 <? new_count then new_count else 1)).

(** The result is the returned [int] and what is stored through the pointer [exit_code],
    which is NULL when [want] is false. *)
Definition process_wait (pid : Z) (want : bool) : M kstate (Z * option Z) :=
  s ← get;
  let cur := current s in
  if cur =? NULL then mret (-1, None)
  else
    c ← get_proc cur;
    if p_pid c =? 0 then mret (-1, None)
    else if p_pid c =? pid then mret (-1, None)
    else
      target ← find_pid pid;
      if target =? NULL then mret (-1, None)
      else
        t ← get_proc target;
        let finish (target : Z) : M kstate (Z * option Z) :=
          t ← get_proc target;
          reap target;;
          mret (0, if want then Some (p_exit_code t) else None) in
        if bool_decide (p_state t = PROCESS_TERMINATED) then finish target
        else
          upd_proc cur (set_p_state PROCESS_BLOCKED);;
          schedule;;
          target ← find_pid pid;
          if target =? NULL then mret (-1, None)
          else
            t ← get_proc target;
            if bool_decide (p_state t = PROCESS_TERMINATED) then finish target
            else mret (-1, None).

Definition do_timer : M kstate unit :=
  s ← get;
  let cur := current s in
  if cur =? NULL then mret tt
  else
    c ← get_proc cur;
    upd_proc cur (set_p_cpu_time (u64 (p_cpu_time c + 1)));;
    (if 0 <? p_counter c then upd_proc cur (set_p_counter (p_counter c - 1)) else mret tt);;
    c ← get_proc cur;
    when (p_counter c =? 0) schedule.

Definition switch_to (next : Z) : M kstate unit :=
  if next =? NULL then mret tt
  else
    s ← get;
    let prev := current s in
    if prev =? NULL then mret tt
    else if prev =? next then _ ← get_proc prev; mret tt
    else
      process_set_current next;;
      c ← get_proc prev;
      when (bool_decide (p_state c = PROCESS_RUNNING))
        (upd_proc prev (set_p_state PROCESS_READY));;
      upd_proc next (set_p_state PROCESS_RUNNING);;
      c ← get_proc prev;
      n ← get_proc next;
      if (p_context c =? NULL) || (p_context n =? NULL) then mret tt
      else context_switch (p_context c) (p_context n).

(** The scan of [schedule_sjf] over the slots from 1: (index, smallest counter). *)
Definition sjf_scan : M kstate (Z * Z) :=
  s ← get;
  fold_range (Z.to_nat (task_count s - 1)) 1 (0, 0xFFFFFFFF) (λ i '(next, min_counter),
    t ← get_task i;
    if t =? NULL then mret (next, min_counter)
    else
      p ← get_proc t;
      if bool_decide (p_state p = PROCESS_READY) && (0 <? p_counter p) &&
         (p_counter p <? min_counter)
      then mret (i, p_counter p)
      else mret (next, min_counter)).

(** The refresh of the time slices; the number of ready processes. *)
Definition sjf_refresh : M kstate Z :=
  s ← get;
  fold_range (Z.to_nat (task_count s - 1)) 1 0 (λ i ready_count,
    t ← get_task i;
    if t =? NULL then mret ready_count
    else
      p ← get_proc t;
      if bool_decide (p_state p = PROCESS_READY) then
        v ← counter_init (p_priority p mod 5);
        upd_proc t (set_p_counter v);;
        mret (ready_count + 1)
      else mret ready_count).

(** The recursion of [schedule_sjf] is bounded by fuel. *)
Fixpoint schedule_sjf (fuel : nat) : M kstate unit :=
  match fuel with
  | O => nofuel
  | S fuel' =>
      s ← get;
      if current s =? NULL then mret tt
      else
        '(next, _) ← sjf_scan;
        if next =? 0 then
          ready_count ← sjf_refresh;
          if 0 <? ready_count then schedule_sjf fuel'
          else
            c ← get_proc (current s);
            if p_pid c =? 0 then mret tt
            else t ← get_task 0; switch_to t
        else
          t ← get_task next;
          _ ← get_proc t;
          switch_to t
  end.

End process.
