(* ===== verification/KernelInv.v ===== *)
(** * The invariant of the process subsystem

    [Wf] is the static part: the task table, the PCBs it refers to and the memory they live
    in. [Sched] is the dynamic part: the ready queue holds exactly the ready processes of the
    table and only the current process can be running. Both are stated on the abstract state
    (queue and erased kernel state) of the scheduler. *)

From stdpp Require Import base numbers strings pretty gmap list.
From S2P Require Import Prelude.
From S2P Require Import Chain.
From S2P Require Import Memory.
From S2P Require Import Context.
From S2P Require Import ProcState.
From S2P Require Import Scheduler.
From S2P Require Import Process.

Local Open Scope Z_scope.

(** The PCBs the task table refers to. *)
Definition live (k : kstate) (p : Z) : Prop := p ∈ task k ∧ p ≠ NULL.

#[export] Instance live_dec k p : Decision (live k p).
Proof. unfold live. apply _. Defined.

(** The members of a PCB that never change once it is in the table. *)
Definition sig (x : process) : Z * Z * Z := (p_pid x, p_context x, p_mm x).

Definition psig (k : kstate) (p : Z) : option (Z * Z * Z) := sig <$> procs k !! p.

Section inv.
Context `{L : Linkage}.

Definition heap_top (k : kstate) : Z := heap_addr + heap_used (kmem k).

Record Wf (k : kstate) : Prop := {
  wf_bump : Memory.bump_ok (kmem k);
  wf_len : length (task k) = 64%nat;
  wf_count : 1 <= task_count k <= 64;
  wf_above i t : task k !! i = Some t → task_count k <= Z.of_nat i → t = NULL;
  wf_slots i j t : task k !! i = Some t → task k !! j = Some t → t ≠ NULL → i = j;
  wf_pcb p : live k p →
    ∃ pid c, psig k p = Some (pid, c, NULL) ∧ 0 <= pid < next_pid k ∧
             c ≠ NULL ∧ is_Some (ctxs k !! c);
  wf_inj p p' pid c m pid' c' m' : live k p → live k p' →
    psig k p = Some (pid, c, m) → psig k p' = Some (pid', c', m') →
    pid = pid' ∨ c = c' → p = p';
  wf_idle : ∃ i c, task k !! 0%nat = Some i ∧ i ≠ NULL ∧ psig k i = Some (0, c, NULL);
  wf_fresh_procs p : is_Some (procs k !! p) → p < heap_top k;
  wf_fresh_ctxs c : is_Some (ctxs k !! c) → c < heap_top k;
  wf_next_pid : 1 <= next_pid k ∧ sizeof_process * (next_pid k - 1) <= heap_used (kmem k);
}.

Record Sched (q : list Z) (k : kstate) : Prop := {
  sc_nodup : NoDup q;
  sc_current : live k (current k);
  sc_offqueue : current k ∉ q;
  sc_queue p : p ∈ q ↔ live k p ∧ a_state k p = Some PROCESS_READY;
  sc_running p : live k p → a_state k p = Some PROCESS_RUNNING → p = current k;
  sc_created p : live k p → a_state k p ≠ Some PROCESS_CREATED;
  sc_idle i : task k !! 0%nat = Some i →
    a_state k i = Some PROCESS_READY ∨ a_state k i = Some PROCESS_RUNNING;
}.

Record Inv (q : list Z) (k : kstate) : Prop := {
  inv_wf :> Wf k;
  inv_sched :> Sched q k;
}.

(** Priorities and time slices are in the range of the table of initial counters. *)
Definition slice (x : process) : Z * Z := (p_priority x, p_counter x).
Definition slice_ok (v : Z * Z) : Prop := 0 <= v.1 <= 4 ∧ 0 <= v.2 <= 4.
Definition pslice (k : kstate) (p : Z) : option (Z * Z) := slice <$> procs k !! p.
Definition Slices (k : kstate) : Prop := ∀ p v, live k p → pslice k p = Some v → slice_ok v.

(** The invariant of a concrete kernel state between two calls: the current process runs. *)
Record KInvAt (q : list Z) (k : kstate) : Prop := {
  ki_inv :> Inv q k;
  ki_slices : Slices k;
  ki_running : a_state k (current k) = Some PROCESS_RUNNING;
}.

Definition KInv (s : kstate) : Prop := ∃ q k, rep s q k ∧ KInvAt q k.

(** ** States with the same static part

    [Wf] does not see scheduling: it is invariant under an equivalence coarser than equality
    that every operation on live processes respects. *)

Definition shape_equiv : relation kstate := λ k k',
  kmem k = kmem k' ∧ task k = task k' ∧ task_count k = task_count k' ∧
  next_pid k = next_pid k' ∧ (∀ p, psig k p = psig k' p) ∧
  ∀ c, is_Some (ctxs k !! c) ↔ is_Some (ctxs k' !! c).

#[export] Instance shape_equiv_equivalence : Equivalence shape_equiv.
Proof.
  split.
  - by intros k.
  - intros k k' (E1 & E2 & E3 & E4 & Hp & Hc).
    split_and!; [done..| |]; intros; [done|]. by rewrite Hc.
  - intros k1 k2 k3 (E1 & E2 & E3 & E4 & Hp & Hc) (F1 & F2 & F3 & F4 & Hp' & Hc').
    split_and!; [congruence..| |]; intros; [by rewrite Hp|by rewrite Hc].
Qed.

Lemma psig_is_some k p : is_Some (psig k p) ↔ is_Some (procs k !! p).
Proof. apply fmap_is_Some. Qed.

#[export] Instance Wf_proper : Proper (shape_equiv ==> iff) Wf.
Proof.
  assert (∀ k k', shape_equiv k k' → Wf k → Wf k') as H.
  { intros k k' (Em & Et & En & Ep & Hp & Hc) [].
    assert (∀ p, live k p ↔ live k' p) as Hl by (unfold live; by rewrite Et).
    constructor; unfold heap_top; rewrite <- ?Em, <- ?Et, <- ?En, <- ?Ep; try done.
    - intros p Hp'%Hl. destruct (wf_pcb0 p Hp') as (pid & c & ? & ? & ? & ?).
      exists pid, c. rewrite <- Hp. by rewrite <- Hc.
    - intros p p' pid c m pid' c' m' ?%Hl ?%Hl. rewrite <- !Hp. by eapply wf_inj0.
    - destruct wf_idle0 as (i & c & ? & ? & ?). exists i, c. by rewrite <- Hp.
    - intros p. rewrite <- psig_is_some, <- Hp, psig_is_some. apply wf_fresh_procs0.
    - intros c. rewrite <- Hc. apply wf_fresh_ctxs0. }
  intros k k' E. split; apply H; [done|by symmetry].
Qed.

(** Updates of a PCB that keep its signature. *)
Class Benign (f : process → process) := benign x : sig (f x) = sig x.

#[export] Instance benign_state v : Benign (set_p_state v).
Proof. done. Qed.
#[export] Instance benign_counter v : Benign (set_p_counter v).
Proof. done. Qed.
#[export] Instance benign_cpu_time v : Benign (set_p_cpu_time v).
Proof. done. Qed.
#[export] Instance benign_exit_code v : Benign (set_p_exit_code v).
Proof. done. Qed.
#[export] Instance benign_pt_regs v : Benign (set_p_pt_regs v).
Proof. done. Qed.

Lemma shape_upd p f k `{!Benign f} : shape_equiv (a_upd p f k) k.
Proof.
  unfold a_upd. destruct (procs k !! p) as [x|] eqn:Hx; [|done].
  repeat split; try done. intros r. unfold psig. simpl.
  destruct (decide (p = r)) as [->|].
  - rewrite lookup_insert_eq, Hx. simpl. by rewrite benign.
  - by rewrite lookup_insert_ne.
Qed.

Lemma shape_set_current n k : shape_equiv (set_current n k) k.
Proof. done. Qed.

Lemma shape_switch a b k : shape_equiv (a_switch a b k) k.
Proof.
  unfold a_switch. destruct (ctxs k !! a) as [o|] eqn:Ho; simpl.
  - assert (shape_equiv (set_ctxs (<[a := context_save (cpu k) o]> (ctxs k)) k) k).
    { repeat split; try done; simpl; intros H;
        (destruct (decide (a = c)) as [->|];
         [rewrite ?lookup_insert_eq in *|rewrite ?lookup_insert_ne in * by done]; by eauto). }
    done.
  - done.
Qed.

Lemma live_shape k k' p : shape_equiv k k' → live k p ↔ live k' p.
Proof. intros (_ & E & _). unfold live. by rewrite E. Qed.

Lemma task_shape k k' : shape_equiv k k' → task k = task k'.
Proof. by intros (_ & E & _). Qed.

Lemma wf_lookup k p : Wf k → live k p → is_Some (procs k !! p).
Proof.
  intros H Hp. destruct (wf_pcb _ H _ Hp) as (? & ? & E & _). apply psig_is_some. eauto.
Qed.

Lemma wf_dispatchable k p : Wf k → live k p → dispatchable k p.
Proof.
  intros H Hp. destruct (wf_pcb _ H _ Hp) as (pid & c & E & _ & Hc & Hctx).
  unfold psig in E. destruct (procs k !! p) as [x|] eqn:Hx; [|done].
  unfold sig in E; simpl in E. injection E as <- <- _.
  split; [apply Hp|]. eauto.
Qed.

(** ** The states of processes *)

Lemma a_state_upd p st k r :
  is_Some (procs k !! p) →
  a_state (a_upd p (set_p_state st) k) r = if decide (p = r) then Some st else a_state k r.
Proof.
  intros [x Hx]. rewrite (a_upd_some _ _ _ _ Hx). unfold a_state. simpl.
  case_decide as E; [subst; by rewrite lookup_insert_eq|by rewrite lookup_insert_ne].
Qed.

(** Updates that keep the scheduling state. *)
Class Quiet (f : process → process) := quiet x : p_state (f x) = p_state x.

#[export] Instance quiet_counter v : Quiet (set_p_counter v).
Proof. done. Qed.
#[export] Instance quiet_cpu_time v : Quiet (set_p_cpu_time v).
Proof. done. Qed.
#[export] Instance quiet_exit_code v : Quiet (set_p_exit_code v).
Proof. done. Qed.
#[export] Instance quiet_pt_regs v : Quiet (set_p_pt_regs v).
Proof. done. Qed.

Lemma a_state_quiet p f k r `{!Quiet f} : a_state (a_upd p f k) r = a_state k r.
Proof.
  unfold a_upd, a_state. destruct (procs k !! p) as [x|] eqn:Hx; [|done]. simpl.
  destruct (decide (p = r)) as [->|]; [rewrite lookup_insert_eq, Hx|by rewrite lookup_insert_ne].
  simpl. by rewrite quiet.
Qed.

Lemma a_state_switch a b k r : a_state (a_switch a b k) r = a_state k r.
Proof. unfold a_switch. by repeat case_match. Qed.

Lemma current_switch a b k : current (a_switch a b k) = current k.
Proof. unfold a_switch. by repeat case_match. Qed.

Lemma current_upd p f k : current (a_upd p f k) = current k.
Proof. unfold a_upd. by case_match. Qed.

Lemma sched_quiet q k p f `{!Benign f, !Quiet f} : Sched q k → Sched q (a_upd p f k).
Proof.
  intros []. pose proof (λ r, live_shape _ _ r (shape_upd p f k)) as Hl.
  pose proof (task_shape _ _ (shape_upd p f k)) as Et.
  constructor; rewrite ?current_upd, ?Et; try done; intros *;
    rewrite ?Hl, ?current_upd, ?a_state_quiet by apply _; auto.
Qed.

Lemma inv_quiet q k p f `{!Benign f, !Quiet f} : Inv q k → Inv q (a_upd p f k).
Proof.
  intros [Hw Hs]. split; [by rewrite shape_upd|by apply sched_quiet].
Qed.

(** Same PCBs but for their scheduling state. *)
Definition upto_state (k k' : kstate) : Prop := ∀ r,
  set_p_state PROCESS_CREATED <$> procs k !! r = set_p_state PROCESS_CREATED <$> procs k' !! r.

Lemma upto_state_upd k k' p st :
  upto_state k k' → upto_state k (a_upd p (set_p_state st) k').
Proof.
  intros H r. rewrite (H r). unfold a_upd. destruct (procs k' !! p) as [x|] eqn:Hx; [|done].
  simpl. destruct (decide (p = r)) as [->|].
  - by rewrite lookup_insert_eq, Hx.
  - by rewrite lookup_insert_ne.
Qed.

Lemma upto_state_slice k k' r : upto_state k k' → pslice k' r = pslice k r.
Proof.
  intros H. specialize (H r). unfold pslice, slice.
  destruct (procs k !! r), (procs k' !! r); simplify_eq/=; congruence.
Qed.

Lemma slices_mono k k' :
  Slices k → (∀ p, live k' p → live k p ∧ pslice k' p = pslice k p) → Slices k'.
Proof. intros H Hp p v Hl. destruct (Hp p Hl) as [Hl' ->]. by apply H. Qed.

(** ** The FIFO policy preserves the invariant *)

Lemma a_schedule_effect q k q' k' :
  Inv q k → a_schedule q k = Some (q', k') →
  ∃ n q0, q = n :: q0 ∧ n ≠ current k ∧ current k' = n ∧ shape_equiv k' k ∧ upto_state k k' ∧
    (∀ r, a_state k' r =
       if decide (n = r) then Some PROCESS_RUNNING
       else if bool_decide (a_state k (current k) = Some PROCESS_RUNNING) &&
               bool_decide (current k = r) then Some PROCESS_READY
       else a_state k r) ∧
    q' = if bool_decide (a_state k (current k) = Some PROCESS_RUNNING)
         then q0 ++ [current k] else q0.
Proof.
  intros [Hw Hs] E. unfold a_schedule in E.
  destruct q as [|n q]; [done|]. destruct (Z.eqb_spec n (current k)) as [|Hne]; [done|].
  assert (live k n) as Hn by (apply (sc_queue _ _ Hs); set_solver).
  pose proof (sc_current _ _ Hs) as Hc.
  exists n, q. split; [done|]. split; [done|].
  set (c := current k) in *. set (run := bool_decide _) in *.
  set (k1 := if run then a_upd c _ k else k) in E. injection E as <- <-.
  assert (shape_equiv k1 k) as H1 by (unfold k1; destruct run; [apply shape_upd, _|done]).
  split_and!.
  - by rewrite current_switch.
  - etrans; [apply shape_switch|]. etrans; [apply shape_set_current|].
    etrans; [apply shape_upd, _|done].
  - assert (upto_state k k1) as Hu by (unfold k1; destruct run; [by apply upto_state_upd|done]).
    intros r. rewrite (upto_state_upd _ _ n PROCESS_RUNNING Hu r).
    unfold a_switch. by repeat case_match.
  - intros r. rewrite a_state_switch.
    change (a_state (set_current n ?k) r) with (a_state k r).
    rewrite a_state_upd by (apply wf_lookup; [by rewrite H1|by rewrite live_shape]).
    case_decide; [done|]. unfold k1. destruct run; [|done]. simpl.
    rewrite a_state_upd by (by apply wf_lookup). by case_decide; case_bool_decide.
  - done.
Qed.

Lemma a_schedule_inv q k q' k' : Inv q k → a_schedule q k = Some (q', k') → Inv q' k'.
Proof.
  intros HI E.
  destruct (a_schedule_effect _ _ _ _ HI E) as (n & q0 & -> & Hne & Hcur & Hk' & _ & Hst & ->).
  clear E. destruct HI as [Hw [Hnd Hc Hoff Hq Hr Hcr Hid]]. rename q0 into q.
  apply NoDup_cons in Hnd as [Hnq Hnd].
  destruct (proj1 (Hq n)) as [Hn Hns]; [set_solver|].
  set (c := current k) in *. set (run := bool_decide (a_state k c = _)) in *.
  assert (run = true ↔ a_state k c = Some PROCESS_RUNNING) as Hrun
    by apply bool_decide_eq_true.
  clearbody run c.
  split; [by rewrite Hk'|]. constructor.
  - destruct run; [|done]. apply NoDup_app. split_and!; [done| |apply NoDup_singleton].
    intros x Hx ->%list_elem_of_singleton.
    destruct (proj1 (Hq c)) as [_ Hc']; [set_solver|]. rewrite (proj1 Hrun) in Hc'; done.
  - rewrite Hcur. by rewrite live_shape.
  - rewrite Hcur. destruct run; [|done]. rewrite elem_of_app, list_elem_of_singleton. by intros [].
  - intros p. rewrite (live_shape _ _ p Hk'), Hst. specialize (Hq p).
    rewrite elem_of_cons in Hq. case_decide as E.
    + subst p. split; [|by intros []]. intros Hx. destruct Hnq.
      destruct run; [|done]. by apply elem_of_app in Hx as [Hx| ->%list_elem_of_singleton].
    + assert (p ∈ q ↔ live k p ∧ a_state k p = Some PROCESS_READY) as Hq'
        by (rewrite <- Hq; split; [by right|by intros [->|]]).
      destruct run; simpl; [|done]. rewrite elem_of_app, list_elem_of_singleton.
      case_bool_decide as E'; [subst p|rewrite <- Hq'].
      * split; [done|]. intros _. by right.
      * split; [by intros [?| ->]|by left].
  - intros p. rewrite (live_shape _ _ p Hk'), Hst, Hcur. specialize (Hr p).
    case_decide; [done|]. intros Hl Hs.
    destruct run; simpl in Hs; [case_bool_decide as E'; [done|]|]; pose proof (Hr Hl Hs) as ->;
      [done|]. by apply Hrun in Hs.
  - intros p. rewrite (live_shape _ _ p Hk'), Hst. specialize (Hcr p).
    case_decide; [done|]. destruct run; simpl; [|done]. by case_bool_decide.
  - intros i. rewrite (task_shape _ _ Hk'), Hst. intros Hi%Hid.
    case_decide; [by right|]. destruct run; simpl; [|done]. case_bool_decide; [by left|done].
Qed.
(** ** Other changes of state *)

(** The current process leaves the CPU for good or until it is woken. *)
Lemma sched_stop q k st :
  Wf k → Sched q k → st = PROCESS_BLOCKED ∨ st = PROCESS_TERMINATED →
  task k !! 0%nat ≠ Some (current k) →
  Sched q (a_upd (current k) (set_p_state st) k).
Proof.
  intros Hw [Hnd Hc Hoff Hq Hr Hcr Hid] Hst Hni. set (c := current k) in *.
  pose proof (λ r, live_shape _ _ r (shape_upd c (set_p_state st) k)) as Hl.
  pose proof (task_shape _ _ (shape_upd c (set_p_state st) k)) as Et.
  constructor; rewrite ?current_upd, ?Et; try done.
  - by apply Hl.
  - intros r. rewrite Hl, a_state_upd by (by apply wf_lookup).
    rewrite Hq. case_decide as E; [subst r|done].
    rewrite <- Hq. split; [done|]. intros [_ ?]; destruct Hst; simplify_eq.
  - intros r. rewrite Hl, a_state_upd by (by apply wf_lookup). case_decide; [|auto].
    intros _ ?; destruct Hst; simplify_eq.
  - intros r. rewrite Hl, a_state_upd by (by apply wf_lookup). case_decide; [|auto].
    intros _ ?; destruct Hst; simplify_eq.
  - intros i Hi. rewrite a_state_upd by (by apply wf_lookup). case_decide; [congruence|auto].
Qed.

(** A blocked process goes to the back of the queue. *)
Lemma sched_wake q k p :
  Wf k → Sched q k → live k p → a_state k p = Some PROCESS_BLOCKED → p ≠ current k →
  Sched (q ++ [p]) (a_upd p (set_p_state PROCESS_READY) k).
Proof.
  intros Hw [Hnd Hc Hoff Hq Hr Hcr Hid] Hp Hst Hne.
  assert (p ∉ q) as Hpq by (intros [_ E]%Hq; congruence).
  pose proof (λ r, live_shape _ _ r (shape_upd p (set_p_state PROCESS_READY) k)) as Hl.
  pose proof (task_shape _ _ (shape_upd p (set_p_state PROCESS_READY) k)) as Et.
  constructor; rewrite ?current_upd, ?Et; try done.
  - apply NoDup_app. split_and!; [done| |apply NoDup_singleton].
    by intros x Hx ->%list_elem_of_singleton.
  - by apply Hl.
  - rewrite elem_of_app, list_elem_of_singleton. by intros [|E].
  - intros r. rewrite Hl, a_state_upd by (by apply wf_lookup).
    rewrite elem_of_app, list_elem_of_singleton, Hq. case_decide as E; [subst r|].
    + split; [done|]. by right.
    + split; [by intros [?| ->]|by left].
  - intros r. rewrite Hl, a_state_upd by (by apply wf_lookup). case_decide; [done|auto].
  - intros r. rewrite Hl, a_state_upd by (by apply wf_lookup). case_decide; [done|auto].
  - intros i Hi. rewrite a_state_upd by (by apply wf_lookup). case_decide; [by left|auto].
Qed.
End inv.
