(* ===== verification/ProcessOps.v ===== *)
(** * The operations of the process subsystem keep its invariant

    One lemma per operation: in a state that satisfies the invariant the operation faults
    nowhere, runs out of no fuel, and leaves a state that satisfies the invariant; the lemma
    also says which of the outcomes happens and what the operation has changed. *)

From stdpp Require Import base numbers strings pretty gmap list.
From S2P Require Import Prelude.
From S2P Require Import Chain.
From S2P Require Import Memory.
From S2P Require Import Context.
From S2P Require Import ProcState.
From S2P Require Import Scheduler.
From S2P Require Import Process.
From S2P Require Import KernelInv.

Local Open Scope Z_scope.

Section ops.
Context `{L : Linkage}.

(** ** Dispatching *)

Lemma inv_idle_ready q k :
  Inv q k → task k !! 0%nat ≠ Some (current k) → ∃ i, task k !! 0%nat = Some i ∧ i ∈ q.
Proof.
  intros [Hw Hs] Hni. destruct (wf_idle _ Hw) as (i & c & Hi & Hn & _).
  exists i. split; [done|]. assert (live k i) as Hl by (split; [by eapply list_elem_of_lookup_2|done]).
  apply (sc_queue _ _ Hs). split; [done|].
  destruct (sc_idle _ _ Hs i Hi) as [|Hr]; [done|].
  apply (sc_running _ _ Hs) in Hr; [|done]. congruence.
Qed.

Lemma a_schedule_some q k : Inv q k → q ≠ [] → is_Some (a_schedule q k).
Proof.
  intros [_ Hs] Hq. pose proof (sc_offqueue _ _ Hs) as Hoff. destruct q as [|n q]; [done|].
  unfold a_schedule. rewrite (proj2 (Z.eqb_neq n _)) by set_solver. eauto.
Qed.

Lemma schedule_inv s q k :
  rep s q k → Inv q k →
  (q = [] ∧ schedule s = Ret tt s) ∨
  ∃ s' q' k', a_schedule q k = Some (q', k') ∧ schedule s = Jump s' ∧ rep s' q' k' ∧ Inv q' k'.
Proof.
  intros Hr [Hw Hs]. pose proof (schedule_ok s q k Hr) as H.
  destruct (a_schedule q k) as [[q' k']|] eqn:E.
  - right. destruct H as (s' & E' & Hr').
    + by eapply wf_dispatchable, sc_current.
    + intros p Hp. apply wf_dispatchable; [done|]. by apply (sc_queue _ _ Hs).
    + intros _. by apply sc_offqueue.
    + exists s', q', k'. split_and!; [done..|]. by eapply a_schedule_inv.
  - left. destruct (decide (q = [])) as [->|Hq].
    + split; [done|]. apply H; [by eapply wf_dispatchable, sc_current|set_solver|set_solver].
    + destruct (a_schedule_some q k) as [x Hx]; [done|done|congruence].
Qed.

(** Off the idle process there is always somebody to switch to. *)
Lemma schedule_jumps s q k :
  rep s q k → Inv q k → task k !! 0%nat ≠ Some (current k) →
  ∃ s' q' k', a_schedule q k = Some (q', k') ∧ schedule s = Jump s' ∧ rep s' q' k' ∧ Inv q' k'.
Proof.
  intros Hr HI Hni. destruct (inv_idle_ready _ _ HI Hni) as (i & _ & Hi).
  destruct (schedule_inv _ _ _ Hr HI) as [[-> _]|H]; [set_solver|done].
Qed.

Lemma inv_current_lookup q k : Inv q k → is_Some (procs k !! current k).
Proof. intros [Hw Hs]. by eapply wf_lookup, sc_current. Qed.

Lemma rep_current s q k : rep s q k → current s = current k.
Proof. by intros [_ <-]. Qed.

Lemma inv_current_not_null q k : Inv q k → current k ≠ NULL.
Proof. intros [_ Hs]. apply (sc_current _ _ Hs). Qed.

Lemma inv_stop q k st :
  Inv q k → st = PROCESS_BLOCKED ∨ st = PROCESS_TERMINATED →
  task k !! 0%nat ≠ Some (current k) → Inv q (a_upd (current k) (set_p_state st) k).
Proof. intros [Hw Hs] Hst Hni. split; [by rewrite shape_upd|by apply sched_stop]. Qed.

Lemma inv_wake q k p :
  Inv q k → live k p → a_state k p = Some PROCESS_BLOCKED → p ≠ current k →
  Inv (q ++ [p]) (a_upd p (set_p_state PROCESS_READY) k).
Proof. intros [Hw Hs] ???. split; [by rewrite shape_upd|by apply sched_wake]. Qed.

Lemma task_upd p f k : task (a_upd p f k) = task k.
Proof. unfold a_upd. by case_match. Qed.

(** [scheduler_block] on a process other than idle always switches away. *)
Lemma scheduler_block_inv s q k :
  rep s q k → Inv q k → task k !! 0%nat ≠ Some (current k) →
  ∃ s' q' k', a_schedule q (a_upd (current k) (set_p_state PROCESS_BLOCKED) k) = Some (q', k') ∧
    scheduler_block s = Jump s' ∧ rep s' q' k' ∧ Inv q' k'.
Proof.
  intros Hr HI Hni. unfold scheduler_block, process_get_current. mred.
  rewrite (rep_current _ _ _ Hr), (proj2 (Z.eqb_neq _ _)) by (by eapply inv_current_not_null).
  destruct (inv_current_lookup _ _ HI) as [y Hy].
  destruct (rep_get_proc _ _ _ _ _ Hr Hy) as (x & -> & _).
  destruct (rep_a_upd s q k (current k) (set_p_state PROCESS_BLOCKED) Hr) as (s1 & -> & Hr1);
    [by eauto|].
  destruct (schedule_jumps _ _ _ Hr1) as (s' & q' & k' & ? & ? & ? & ?).
  - apply inv_stop; auto.
  - by rewrite task_upd, current_upd.
  - by exists s', q', k'.
Qed.

(** The dispatch that follows when the current process has blocked. *)
Lemma park_effect q k q' k' :
  Inv q k → task k !! 0%nat ≠ Some (current k) →
  a_schedule q (a_upd (current k) (set_p_state PROCESS_BLOCKED) k) = Some (q', k') →
  ∃ n, q = n :: q' ∧ n ≠ current k ∧ current k' = n ∧
    ∀ r, a_state k' r = if decide (n = r) then Some PROCESS_RUNNING
                        else if decide (current k = r) then Some PROCESS_BLOCKED
                        else a_state k r.
Proof.
  intros HI Hni Ea. pose proof (inv_stop q k PROCESS_BLOCKED HI ltac:(by left) Hni) as HI1.
  destruct (a_schedule_effect _ _ _ _ HI1 Ea) as (n & q0 & -> & Hne & Hc & _ & _ & Hs & ->).
  pose proof (λ r, a_state_upd (current k) PROCESS_BLOCKED k r (inv_current_lookup _ _ HI)) as Hs1.
  rewrite current_upd in *. exists n.
  assert (bool_decide (a_state (a_upd (current k) (set_p_state PROCESS_BLOCKED) k) (current k) =
    Some PROCESS_RUNNING) = false) as Eb by (by rewrite Hs1, decide_True).
  rewrite Eb in *. split_and!; [done..|]. intros r. rewrite Hs. simpl. by rewrite Hs1.
Qed.

(** [scheduler_wake] enqueues a blocked process and ignores every other. *)
Definition a_wake (p : Z) (q : list Z) (k : kstate) : list Z * kstate :=
  if bool_decide (a_state k p = Some PROCESS_BLOCKED)
  then (q ++ [p], a_upd p (set_p_state PROCESS_READY) k) else (q, k).

Lemma scheduler_wake_inv s q k p :
  rep s q k → Inv q k → live k p → p ≠ current k →
  ∃ s', scheduler_wake p s = Ret tt s' ∧
    rep s' (a_wake p q k).1 (a_wake p q k).2 ∧ Inv (a_wake p q k).1 (a_wake p q k).2.
Proof.
  intros Hr HI Hp Hne. unfold scheduler_wake, a_wake.
  rewrite (proj2 (Z.eqb_neq _ _)) by apply Hp.
  destruct (wf_lookup k p) as [y Hy]; [apply HI|done|].
  destruct (rep_get_proc _ _ _ _ _ Hr Hy) as (x & E & ->). mstep E.
  unfold a_state. rewrite Hy. simpl.
  destruct (bool_decide_reflect (p_state x = PROCESS_BLOCKED)) as [Hst|Hst]; simpl.
  - rewrite bool_decide_true by congruence. simpl.
    destruct (rep_a_upd s q k p (set_p_state PROCESS_READY) Hr) as (s1 & E1 & Hr1);
      [by eauto|]. mstep E1.
    assert (a_state k p = Some PROCESS_BLOCKED) as Hb
      by (unfold a_state; rewrite Hy; simpl; congruence).
    destruct (scheduler_add_ok s1 _ _ p Hr1) as (s2 & -> & Hr2); [apply Hp| | |].
    + intros [_ ?]%(sc_queue _ _ HI). congruence.
    + rewrite (a_upd_some _ _ _ _ Hy). simpl. rewrite lookup_insert_eq. eauto.
    + exists s2. split_and!; [done..|]. by apply inv_wake.
  - rewrite bool_decide_false by congruence. by exists s.
Qed.

(** ** The timer *)

Lemma do_timer_inv s q k :
  rep s q k → Inv q k →
  ∃ x k1, procs k !! current k = Some x ∧
    k1 = a_upd (current k) (set_p_counter (Z.max 0 (p_counter x - 1)))
           (a_upd (current k) (set_p_cpu_time (u64 (p_cpu_time x + 1))) k) ∧
    (0 <= p_counter x →
     if decide (p_counter x <= 1) then
       (q = [] ∧ ∃ s', do_timer s = Ret tt s' ∧ rep s' q k1 ∧ Inv q k1) ∨
       ∃ s' q' k', a_schedule q k1 = Some (q', k') ∧ do_timer s = Jump s' ∧
         rep s' q' k' ∧ Inv q' k'
     else ∃ s', do_timer s = Ret tt s' ∧ rep s' q k1 ∧ Inv q k1).
Proof.
  intros Hr HI. destruct (inv_current_lookup _ _ HI) as [y Hy].
  exists y. eexists. split; [done|]. split; [done|]. intros Hpos.
  unfold do_timer. rewrite bind_get. cbv zeta.
  rewrite (rep_current _ _ _ Hr), (proj2 (Z.eqb_neq _ _)) by (by eapply inv_current_not_null).
  destruct (rep_get_proc _ _ _ _ _ Hr Hy) as (x & Ex & ->). mstep Ex. simpl in Hpos |- *.
  set (k0 := a_upd (current k) (set_p_cpu_time _) k).
  destruct (rep_a_upd s q k (current k) (set_p_cpu_time (u64 (p_cpu_time x + 1))) Hr)
    as (s1 & E1 & Hr1); [by eauto|]. mstep E1.
  assert (procs k0 !! current k =
    Some (set_p_cpu_time (u64 (p_cpu_time x + 1)) (set_p_next NULL x))) as Hy0
    by (unfold k0; rewrite (a_upd_some _ _ _ _ Hy); apply lookup_insert_eq).
  assert (Inv q k0) as HI0 by (by apply inv_quiet; try apply _).
  set (k1 := a_upd (current k) (set_p_counter _) k0).
  assert (Inv q k1) as HI1 by (by apply inv_quiet; try apply _).
  assert (∃ s2, (if 0 <? p_counter x then upd_proc (current k) (set_p_counter (p_counter x - 1))
    else mret tt) s1 = Ret tt s2 ∧ rep s2 q k1) as (s2 & E2 & Hr2).
  { destruct (Z.ltb_spec 0 (p_counter x)) as [Hx|Hx].
    - unfold k1. rewrite Z.max_r by lia. eapply rep_a_upd; [apply _|done|by eauto].
    - exists s1. split; [done|]. unfold k1. rewrite (a_upd_some _ _ _ _ Hy0).
      replace (set_p_counter _ _) with (set_p_cpu_time (u64 (p_cpu_time x + 1)) (set_p_next NULL x))
        by (destruct x; unfold set_p_counter, set_p_cpu_time, set_p_next; simpl in *; f_equal; lia).
      rewrite insert_id by done. by rewrite set_procs_id. }
  mstep E2.
  assert (procs k1 !! current k = Some (set_p_counter (Z.max 0 (p_counter x - 1))
    (set_p_cpu_time (u64 (p_cpu_time x + 1)) (set_p_next NULL x)))) as Hy1
    by (unfold k1; rewrite (a_upd_some _ _ _ _ Hy0); apply lookup_insert_eq).
  destruct (rep_get_proc _ _ _ _ _ Hr2 Hy1) as (z & Ez0 & Ez). mstep Ez0.
  apply (f_equal p_counter) in Ez. simpl in Ez. rewrite <- Ez.
  unfold when. case_decide as Hc.
  - rewrite (proj2 (Z.eqb_eq _ _)) by lia.
    destruct (schedule_inv _ _ _ Hr2 HI1) as [[-> ->]|H]; [left; by eauto|by right].
  - rewrite (proj2 (Z.eqb_neq _ _)) by lia. by eauto.
Qed.

(** ** The task table *)

Definition slot (k : kstate) (i : Z) : Z := default NULL (task k !! Z.to_nat i).
Definition pid_of (k : kstate) (p : Z) : Z := default 0 (p_pid <$> procs k !! p).

Lemma get_task_ret s q k i :
  rep s q k → length (task k) = 64%nat → 0 <= i < 64 → get_task i s = Ret (slot k i) s.
Proof.
  intros [_ <-] Hlen Hi. unfold get_task. rewrite (proj2 (Z.ltb_ge _ _)) by lia.
  apply (deref_ret (λ s, task s !! Z.to_nat i)). unfold slot. simpl in *.
  destruct (lookup_lt_is_Some_2 (task s) (Z.to_nat i)) as [t Ht]; [lia|]. by rewrite Ht.
Qed.

Lemma put_task_ok s q k i v :
  rep s q k → length (task k) = 64%nat → 0 <= i < 64 →
  ∃ s', put_task i v s = Ret tt s' ∧ rep s' q (set_task (<[Z.to_nat i := v]> (task k)) k).
Proof.
  intros Hr Hlen Hi. unfold put_task. mstep (get_task_ret s q k i Hr Hlen Hi).
  eexists. split; [done|]. destruct Hr as [Hr <-]. by split.
Qed.

Lemma slot_live k i : slot k i ≠ NULL → live k (slot k i).
Proof.
  unfold slot, live. intros H. split; [|done].
  destruct (task k !! Z.to_nat i) eqn:E; [|done]. by eapply list_elem_of_lookup_2.
Qed.

Lemma live_slot k p : Wf k → live k p → ∃ i, 0 <= i < task_count k ∧ slot k i = p.
Proof.
  intros Hw [[i Hi]%list_elem_of_lookup Hp]. exists (Z.of_nat i).
  unfold slot. rewrite Nat2Z.id, Hi. split; [|done].
  destruct (Z.lt_ge_cases (Z.of_nat i) (task_count k)) as [|Hge]; [lia|].
  by apply (wf_above _ Hw _ _ Hi) in Hge.
Qed.

Lemma pid_of_sig k p pid c m : psig k p = Some (pid, c, m) → pid_of k p = pid.
Proof. unfold psig, pid_of. destruct (procs k !! p); simpl; [|done]. by intros [= -> _ _]. Qed.

Lemma idle_pid k p : Wf k → live k p → pid_of k p = 0 ↔ task k !! 0%nat = Some p.
Proof.
  intros Hw Hp. destruct (wf_idle _ Hw) as (i & c & Hi & Hn & Hs).
  assert (live k i) as Hl by (split; [by eapply list_elem_of_lookup_2|done]).
  destruct (wf_pcb _ Hw _ Hp) as (pid & c' & Hs' & _). split.
  - rewrite (pid_of_sig _ _ _ _ _ Hs'). intros ->.
    rewrite (wf_inj _ Hw i p _ _ _ _ _ _ Hl Hp Hs Hs') in Hi by (by left). done.
  - rewrite Hi. intros [= ->]. by eapply pid_of_sig.
Qed.

Lemma current_not_idle q k :
  Inv q k → pid_of k (current k) ≠ 0 → task k !! 0%nat ≠ Some (current k).
Proof. intros [Hw Hs] Hp E. apply Hp. apply idle_pid; [done|apply (sc_current _ _ Hs)|done]. Qed.

Lemma in_mem_kfree p s : in_mem (Memory.kfree p) s = Ret tt s.
Proof. unfold in_mem, zoom. simpl. by rewrite set_kmem_id. Qed.

(** ** Waking every blocked process *)

Lemma upto_state_pid k k' r : upto_state k k' → pid_of k' r = pid_of k r.
Proof.
  intros H. specialize (H r). unfold pid_of.
  destruct (procs k !! r), (procs k' !! r); by simplify_eq/=.
Qed.

(** [k'] is [k] with some blocked processes made ready. *)
Definition woken (k k' : kstate) : Prop :=
  upto_state k k' ∧ shape_equiv k' k ∧ current k' = current k ∧
  ∀ r, a_state k' r = a_state k r ∨
       (a_state k r = Some PROCESS_BLOCKED ∧ a_state k' r = Some PROCESS_READY).

Lemma woken_refl k : woken k k.
Proof. split_and!; try done. by left. Qed.

Lemma woken_wake k k' p :
  woken k k' → Wf k → live k p → a_state k' p = Some PROCESS_BLOCKED →
  woken k (a_upd p (set_p_state PROCESS_READY) k').
Proof.
  intros (Hu & Hsh & Hc & Hst) Hw Hp Hb. split_and!.
  - by apply upto_state_upd.
  - by rewrite shape_upd.
  - by rewrite current_upd.
  - intros r. rewrite a_state_upd by (apply wf_lookup; [by rewrite Hsh|by rewrite live_shape]).
    case_decide as E; [|done]. subst r. right. destruct (Hst p) as [E|[? E]]; [|congruence].
    by rewrite <- E.
Qed.

(** The loop of [wake_blocked] before slot [i]: the slots below hold no blocked process but
    possibly idle. *)
Definition waking (q : list Z) (k : kstate) (i : Z) (s : kstate) : Prop :=
  ∃ ws k', rep s (q ++ ws) k' ∧ Inv (q ++ ws) k' ∧ woken k k' ∧
    ∀ j, 0 <= j < i → slot k j ≠ NULL → 0 < pid_of k (slot k j) →
         a_state k' (slot k j) ≠ Some PROCESS_BLOCKED.

(** A slot with nobody to wake. *)
Lemma waking_skip q k i s ws k' :
  rep s (q ++ ws) k' → Inv (q ++ ws) k' → woken k k' →
  (∀ j, 0 <= j < i → slot k j ≠ NULL → 0 < pid_of k (slot k j) →
     a_state k' (slot k j) ≠ Some PROCESS_BLOCKED) →
  (slot k i ≠ NULL → 0 < pid_of k (slot k i) → a_state k' (slot k i) ≠ Some PROCESS_BLOCKED) →
  waking q k (i + 1) s.
Proof.
  intros Hr HI Hwk Hdone Hi. exists ws, k'. split_and!; [done..|].
  intros j Hj. destruct (decide (j = i)) as [->|]; [done|apply Hdone; lia].
Qed.

Lemma wake_slot_inv q k i s :
  Inv q k → a_state k (current k) ≠ Some PROCESS_BLOCKED → 0 <= i < 64 →
  waking q k i s → ∃ s', wake_slot i s = Ret tt s' ∧ waking q k (i + 1) s'.
Proof.
  intros HI Hcur Hi (ws & k1 & Hr1 & HI1 & Hwk & Hdone). unfold wake_slot.
  pose proof Hwk as (Hu & Hsh & Hc & Hst).
  assert (slot k1 i = slot k i) as Eslot by (unfold slot; by rewrite (task_shape _ _ Hsh)).
  mstep (get_task_ret s _ _ i Hr1 (wf_len _ HI1) ltac:(lia)). rewrite Eslot.
  destruct (Z.eqb_spec (slot k i) NULL) as [Ez|Hnz].
  { exists s. split; [done|]. by eapply waking_skip. }
  pose proof (slot_live _ _ Hnz) as Hl.
  assert (live k1 (slot k i)) as Hl1 by (by rewrite live_shape).
  destruct (wf_lookup k1 (slot k i)) as [y Hy]; [apply HI1|done|].
  destruct (rep_get_proc _ _ _ _ _ Hr1 Hy) as (x & Ex & ->). mstep Ex.
  assert (a_state k1 (slot k i) = Some (p_state x)) as Hax by (unfold a_state; by rewrite Hy).
  assert (pid_of k (slot k i) = p_pid x) as Hpx
    by (rewrite <- (upto_state_pid _ _ _ Hu); unfold pid_of; by rewrite Hy).
  destruct (bool_decide_reflect (p_state x = PROCESS_BLOCKED)) as [Hb|Hb]; simpl;
    [|exists s; split; [done|]; eapply waking_skip; [done..|congruence]].
  destruct (Z.ltb_spec 0 (p_pid x)) as [Hpid|Hpid]; simpl;
    [|exists s; split; [done|]; eapply waking_skip; [done..|lia]].
  destruct (scheduler_wake_inv _ _ _ _ Hr1 HI1 Hl1) as (s2 & -> & Hr2 & HI2).
  { intros Ecur. destruct (Hst (slot k i)) as [E|[_ E]]; [|congruence].
    rewrite Ecur, Hc in *. congruence. }
  exists s2. split; [done|]. unfold a_wake in Hr2, HI2.
  rewrite bool_decide_true in Hr2, HI2 by congruence. simpl in Hr2, HI2.
  rewrite <- app_assoc in Hr2, HI2. eapply waking_skip; [exact Hr2|exact HI2| | |].
  - apply woken_wake; [done|apply HI|done|congruence].
  - intros j Hj. rewrite a_state_upd by eauto. case_decide as E; [done|]. by apply Hdone.
  - intros _ _. by rewrite a_state_upd, decide_True by eauto.
Qed.

Lemma wake_blocked_inv s q k :
  rep s q k → Inv q k → a_state k (current k) ≠ Some PROCESS_BLOCKED →
  ∃ s' ws k', wake_blocked s = Ret tt s' ∧ rep s' (q ++ ws) k' ∧ Inv (q ++ ws) k' ∧
    woken k k' ∧ ∀ r, live k r → a_state k' r ≠ Some PROCESS_BLOCKED.
Proof.
  intros Hr HI Hcur. unfold wake_blocked. rewrite bind_get.
  assert (task_count s = task_count k) as -> by (by destruct Hr as [_ <-]).
  pose proof (wf_count _ HI) as Htc.
  destruct (for_range_inv (waking q k) (Z.to_nat (task_count k)) 0 wake_slot s)
    as (s' & E & ws & k' & Hr' & HI' & Hwk & Hdone).
  - exists [], k. rewrite app_nil_r. split_and!; [done..|apply woken_refl|lia].
  - intros i s1 Hi. apply wake_slot_inv; [done|done|lia].
  - exists s', ws, k'. split_and!; [done..|].
    intros r Hl. destruct (live_slot k r) as (j & Hj & <-); [apply HI|done|].
    destruct (wf_pcb k (inv_wf _ _ HI) _ Hl) as (pid & c & Hs & Hp & _).
    pose proof (pid_of_sig _ _ _ _ _ Hs) as Hpid.
    destruct (decide (pid = 0)) as [->|].
    + apply idle_pid in Hpid; [|apply HI|done]. destruct Hwk as (_ & Hsh & _).
      rewrite <- (task_shape _ _ Hsh) in Hpid.
      destruct (sc_idle _ _ HI' _ Hpid) as [->| ->]; done.
    + apply Hdone; [lia|apply Hl|lia].
Qed.

(** ** Termination *)

(** What a call changes of the PCBs of the kernel [k]: nothing but the scheduling states, the
    exit code of [c] and the saved user registers. *)
Record exit_effect (c code : Z) (k k' : kstate) : Prop := {
  ee_shape : shape_equiv k' k;
  ee_exit r : p_exit_code <$> procs k' !! r =
    if decide (c = r) then Some code else p_exit_code <$> procs k !! r;
  ee_slice r : pslice k' r = pslice k r;
}.

Lemma upto_state_exit_code k k' r :
  upto_state k k' → p_exit_code <$> procs k' !! r = p_exit_code <$> procs k !! r.
Proof.
  intros H. specialize (H r). destruct (procs k !! r), (procs k' !! r); simplify_eq/=; congruence.
Qed.

Lemma exit_effect_state c code k k' k'' :
  exit_effect c code k k' → upto_state k' k'' → shape_equiv k'' k' → exit_effect c code k k''.
Proof.
  intros [Hsh Hex Hsl] Hu Hsh'. split.
  - by rewrite Hsh'.
  - intros r. by rewrite (upto_state_exit_code _ _ _ Hu).
  - intros r. by rewrite (upto_state_slice _ _ _ Hu).
Qed.

(** What [exit_release] has done to the kernel [k]. *)
Definition released (code : Z) (k k' : kstate) : Prop :=
  current k' = current k ∧ exit_effect (current k) code k k' ∧
  ∀ r, a_state k' r = if decide (current k = r) then Some PROCESS_TERMINATED else a_state k r.

(** Recording the exit code and the final state. *)
Lemma mark_exit_ok s q k code :
  rep s q k → Inv q k → task k !! 0%nat ≠ Some (current k) →
  ∃ s' k', (upd_proc (current k) (set_p_exit_code code);;
            process_set_state (current k) PROCESS_TERMINATED) s = Ret tt s' ∧
    rep s' q k' ∧ Inv q k' ∧ released code k k'.
Proof.
  intros Hr HI Hni. set (c := current k) in *.
  pose proof (inv_current_not_null _ _ HI) as Hnull. fold c in Hnull.
  destruct (inv_current_lookup _ _ HI) as [y Hy]. fold c in Hy.
  destruct (rep_a_upd s q k c (set_p_exit_code code) Hr) as (s1 & E1 & Hr1); [by eauto|]. mstep E1.
  rewrite (a_upd_some _ _ _ _ Hy) in Hr1.
  assert (Inv q (a_upd c (set_p_exit_code code) k)) as HI1 by (by apply inv_quiet; try apply _).
  rewrite (a_upd_some _ _ _ _ Hy) in HI1. set (k1 := set_procs _ k) in Hr1, HI1.
  assert (procs k1 !! c = Some (set_p_exit_code code y)) as Hy1 by apply lookup_insert_eq.
  unfold process_set_state. rewrite (proj2 (Z.eqb_neq c NULL)) by done.
  destruct (rep_get_proc _ _ _ _ _ Hr1 Hy1) as (x1 & Ex1 & _). mstep Ex1.
  destruct (rep_upd_proc s1 q k1 c _ (set_p_state PROCESS_TERMINATED) Hr1 Hy1) as (s2 & E2 & Hr2).
  pose proof (inv_stop q k1 PROCESS_TERMINATED HI1 ltac:(by right) Hni) as HI2.
  change (current k1) with c in HI2. rewrite (a_upd_some _ _ _ _ Hy1) in HI2.
  set (y2 := set_p_state PROCESS_TERMINATED (set_p_exit_code code y)) in Hr2, HI2.
  set (k2 := set_procs _ k1) in Hr2, HI2.
  assert (∀ r, procs k2 !! r = if decide (c = r) then Some y2 else procs k !! r) as Hk2.
  { intros r. destruct (decide (c = r)) as [<-|]; [apply lookup_insert_eq|].
    simpl. by rewrite !lookup_insert_ne. }
  exists s2, k2. split_and!; [done..|]. unfold released. fold c. split; [done|]. split.
  - split; [|intros r..]; [|unfold pslice; rewrite Hk2; destruct (decide (c = r)) as [<-|];
      rewrite ?Hy; done..].
    transitivity k1; [rewrite <- (shape_upd c (set_p_state PROCESS_TERMINATED) k1)
      |rewrite <- (shape_upd c (set_p_exit_code code) k)]; by erewrite a_upd_some.
  - intros r. unfold a_state. rewrite Hk2. by destruct (decide (c = r)).
Qed.

(** Forgetting the saved user registers shows in none of it. *)
Lemma released_pt_regs code k k' :
  is_Some (procs k' !! current k) → released code k k' →
  released code k (a_upd (current k) (set_p_pt_regs NULL) k').
Proof.
  intros [y Hy] (Hc & [Hsh Hex Hsl] & Hst). split; [|split].
  - by rewrite current_upd.
  - split; [by rewrite shape_upd|intros r..]; rewrite <- ?Hex, <- ?Hsl; unfold pslice;
      rewrite (a_upd_some _ _ _ _ Hy); simpl; destruct (decide (current k = r)) as [<-|];
      by rewrite ?lookup_insert_eq, ?lookup_insert_ne, ?Hy.
  - intros r. by rewrite a_state_quiet by apply _.
Qed.

Lemma exit_release_ok s q k code :
  rep s q k → Inv q k → task k !! 0%nat ≠ Some (current k) →
  ∃ s' k', exit_release (current k) code s = Ret tt s' ∧ rep s' q k' ∧ Inv q k' ∧
    released code k k'.
Proof.
  intros Hr HI Hni.
  destruct (mark_exit_ok s q k code Hr HI Hni) as (s2 & k2 & E2 & Hr2 & HI2 & Hrel).
  unfold exit_release. rewrite assoc_seq, (bind_ret _ _ _ _ _ E2).
  set (c := current k) in *. pose proof Hrel as (Hc & _).
  destruct (inv_current_lookup _ _ HI2) as [y2 Hy2]. rewrite Hc in Hy2. fold c in Hy2.
  assert (p_mm y2 = NULL) as Hmm.
  { destruct (wf_pcb k2 (inv_wf _ _ HI2) c) as (pid & cx & Hs & _).
    { unfold c. rewrite <- Hc. apply (sc_current _ _ HI2). }
    unfold psig in Hs. rewrite Hy2 in Hs. by injection Hs. }
  destruct (rep_get_proc _ _ _ _ _ Hr2 Hy2) as (x2 & Ex2 & Hx2). mstep Ex2.
  replace (p_mm x2) with NULL by (by rewrite <- Hmm, Hx2). rewrite Z.eqb_refl, bind_mret. mstep Ex2.
  destruct (p_pt_regs x2 =? NULL); [exists s2, k2; by split_and!|].
  mstep (in_mem_kfree (p_pt_regs x2) s2).
  destruct (rep_a_upd s2 q k2 c (set_p_pt_regs NULL) Hr2) as (s3 & -> & Hr3); [by eauto|].
  eexists _, _. split; [done|]. split; [exact Hr3|]. split; [by apply inv_quiet; try apply _|].
  apply released_pt_regs; [by eauto|done].
Qed.

(** A process other than idle that exits never returns: its exit code and its state are
    recorded, every blocked process is woken, and the head of the queue is dispatched. *)
Lemma process_exit_inv s q k code :
  rep s q k → Inv q k → pid_of k (current k) ≠ 0 →
  ∃ s' n q0 ws k', process_exit code s = Jump s' ∧ q = n :: q0 ∧
    rep s' (q0 ++ ws) k' ∧ Inv (q0 ++ ws) k' ∧
    current k' = n ∧ exit_effect (current k) code k k' ∧
    ∀ r, live k r → a_state k' r =
      if decide (current k = r) then Some PROCESS_TERMINATED
      else if decide (n = r) then Some PROCESS_RUNNING
      else if decide (a_state k r = Some PROCESS_BLOCKED) then Some PROCESS_READY
      else a_state k r.
Proof.
  intros Hr HI Hpid. pose proof (current_not_idle _ _ HI Hpid) as Hni.
  set (c := current k) in *. destruct (inv_current_lookup _ _ HI) as [y Hy]. fold c in Hy.
  unfold process_exit. rewrite bind_get. cbv zeta. rewrite (rep_current _ _ _ Hr). fold c.
  pose proof (inv_current_not_null _ _ HI) as Hnull. fold c in Hnull.
  rewrite (proj2 (Z.eqb_neq c NULL)) by done.
  destruct (rep_get_proc _ _ _ _ _ Hr Hy) as (x & Ex & Eyx). mstep Ex.
  assert (p_pid x = pid_of k c) as -> by (unfold pid_of; by rewrite Hy, Eyx).
  rewrite (proj2 (Z.eqb_neq (pid_of k c) 0)) by done.
  destruct (exit_release_ok s q k code Hr HI Hni) as (s3 & k3 & E3 & Hr3 & HI3 & Hc3 & Heff3 & Hst3).
  fold c in E3, Hc3, Heff3, Hst3. mstep E3.
  assert (a_state k3 c = Some PROCESS_TERMINATED) as Hct by (by rewrite Hst3, decide_True).
  destruct (scheduler_remove_ok s3 q k3 c Hr3 Hnull) as (s4 & E4 & Hr4). mstep E4.
  rewrite remove_elem_notin in Hr4 by (rewrite <- Hc3; apply (sc_offqueue _ _ HI3)).
  destruct (wake_blocked_inv s4 q k3 Hr4 HI3) as (s5 & ws & k5 & E5 & Hr5 & HI5 & Hwk & Hnb);
    [rewrite Hc3; congruence|]. mstep E5.
  pose proof Hwk as (Hu5 & Hsh5 & Hc5 & Hst5). rewrite Hc3 in Hc5.
  destruct (inv_current_lookup _ _ HI5) as [y5 Hy5]. rewrite Hc5 in Hy5.
  destruct (rep_get_proc _ _ _ _ _ Hr5 Hy5) as (x5 & Ex5 & _). mstep Ex5.
  pose proof (exit_effect_state _ _ _ _ _ Heff3 Hu5 Hsh5) as Heff5.
  pose proof (ee_shape _ _ _ _ Heff5) as Hsh5'.
  destruct (schedule_jumps _ _ _ Hr5 HI5) as (s6 & q6 & k6 & Ea & E6 & Hr6 & HI6).
  { by rewrite (task_shape _ _ Hsh5'), Hc5. }
  rewrite (bind_jump _ _ _ _ E6).
  destruct (a_schedule_effect _ _ _ _ HI5 Ea) as (n & q5 & Eq & Hn & Hcn & Hsh6 & Hu6 & Hst6 & ->).
  rewrite Hc5 in *.
  assert (a_state k5 c = Some PROCESS_TERMINATED) as Hct5
    by (destruct (Hst5 c) as [E|[? ?]]; congruence).
  rewrite bool_decide_false in Hr6, HI6 by congruence.
  destruct (inv_idle_ready q k HI Hni) as (i & _ & Hi).
  destruct q as [|n' q0]; [by apply not_elem_of_nil in Hi|]. simpl in Eq. injection Eq as -> <-.
  exists s6, n, q0, ws, k6. split_and!; [done..| |].
  - by eapply exit_effect_state.
  - intros r Hl. rewrite Hst6. destruct (decide (n = r)) as [<-|].
    { by rewrite decide_False. }
    rewrite bool_decide_false by congruence. simpl. specialize (Hst3 r).
    destruct (decide (c = r)) as [<-|]; [done|]. rewrite <- Hst3.
    assert (live k3 r) as Hl3 by (by rewrite (live_shape _ _ r (ee_shape _ _ _ _ Heff3))).
    destruct (Hst5 r) as [E|[E1 E2]].
    + rewrite E. rewrite decide_False; [done|]. rewrite <- E. by apply Hnb.
    + by rewrite decide_True.
Qed.

Lemma process_exit_idle s q k code :
  rep s q k → Inv q k → pid_of k (current k) = 0 → process_exit code s = Ret tt s.
Proof.
  intros Hr HI Hp. unfold process_exit. rewrite bind_get. cbv zeta.
  rewrite (rep_current _ _ _ Hr). destruct (inv_current_lookup _ _ HI) as [y Hy].
  destruct (Z.eqb_spec (current k) NULL); [done|].
  destruct (rep_get_proc _ _ _ _ _ Hr Hy) as (x & Ex & ->). mstep Ex.
  unfold pid_of in Hp. rewrite Hy in Hp. simpl in Hp. by rewrite Hp.
Qed.

(** ** Waiting *)

Lemma find_pid_ok s q k pid :
  rep s q k → Wf k →
  ∃ t, find_pid pid s = Ret t s ∧
    ((t = NULL ∧ ∀ p, live k p → pid_of k p ≠ pid) ∨ (live k t ∧ pid_of k t = pid)).
Proof.
  intros Hr Hw. unfold find_pid. rewrite bind_get.
  assert (task_count s = task_count k) as -> by (by destruct Hr as [_ <-]).
  pose proof (wf_count _ Hw) as Htc. pose proof (wf_len _ Hw) as Hlen.
  destruct (find_range_spec (λ i, negb (slot k i =? NULL) && (pid_of k (slot k i) =? pid))
    (Z.to_nat (task_count k)) 0 (λ i,
        t ← get_task i;
        if t =? NULL then mret false else p ← get_proc t; mret (p_pid p =? pid)) s)
    as (r & E & Hres).
  { intros i Hi. mstep (get_task_ret s q k i Hr Hlen ltac:(lia)).
    destruct (Z.eqb_spec (slot k i) NULL) as [|Hn]; [done|]. simpl.
    destruct (wf_lookup k (slot k i) Hw) as [y Hy]; [by apply slot_live|].
    destruct (rep_get_proc _ _ _ _ _ Hr Hy) as (x & Ex & ->). mstep Ex.
    unfold pid_of. by rewrite Hy. }
  mstep E. destruct r as [i|].
  - exists (slot k i). split; [apply (get_task_ret s q k i Hr Hlen); lia|]. right.
    destruct Hres as (_ & [Hn Hp]%andb_true_iff & _).
    apply negb_true_iff, Z.eqb_neq in Hn. apply Z.eqb_eq in Hp.
    split; [by apply slot_live|done].
  - exists NULL. split; [done|]. left. split; [done|]. intros p Hp Epid.
    destruct (live_slot k p Hw Hp) as (i & Hi & Es).
    specialize (Hres i ltac:(lia)). simpl in Hres. rewrite Es, Epid in Hres.
    rewrite (proj2 (Z.eqb_neq p NULL)), Z.eqb_refl in Hres by apply Hp. done.
Qed.

Lemma count_tasks_ok s q k :
  rep s q k → length (task k) = 64%nat → 0 <= task_count k <= 64 →
  ∃ n, count_tasks s = Ret n s ∧ 0 <= n <= task_count k ∧
    ∀ j, n <= j < task_count k → slot k j = NULL.
Proof.
  intros Hr Hlen Htc. unfold count_tasks. rewrite bind_get.
  assert (task_count s = task_count k) as -> by (by destruct Hr as [_ <-]).
  destruct (fold_range_inv (λ i n s', s' = s ∧ 0 <= n <= i ∧ ∀ j, n <= j < i → slot k j = NULL)
    (Z.to_nat (task_count k)) 0 0
    (λ i new_count, t ← get_task i; mret (if t =? NULL then new_count else i + 1)) s)
    as (n & s' & E & -> & Hn & Hs).
  - split; [done|]. split; [lia|]. intros; lia.
  - intros i n s' Hi (-> & Hn & Hs). mstep (get_task_ret s q k i Hr Hlen ltac:(lia)).
    eexists _, _. split; [done|]. split; [done|].
    destruct (Z.eqb_spec (slot k i) NULL) as [En|En]; (split; [lia|]); intros j Hj; [|lia].
    destruct (decide (j = i)) as [->|]; [done|]. apply Hs; lia.
  - exists n. split; [done|]. split; [lia|]. intros; apply Hs; lia.
Qed.

(** Dropping a terminated process from the table. *)
Lemma inv_drop q k i t n :
  Inv q k → task k !! i = Some t → t ≠ NULL → a_state k t = Some PROCESS_TERMINATED →
  t ≠ current k → 1 <= n <= task_count k →
  let T := <[i := NULL]> (task k) in
  (∀ j x, T !! j = Some x → n <= Z.of_nat j → x = NULL) →
  let k' := set_task_count n (set_task T k) in
  Inv q k' ∧ ∀ p, live k' p ↔ live k p ∧ p ≠ t.
Proof.
  intros [Hw Hs] Hi Ht Hst Hne Hn T Habove k'.
  assert (∀ p, live k' p ↔ live k p ∧ p ≠ t) as Hl.
  { intros p. unfold live, k', T. simpl. rewrite !list_elem_of_lookup. split.
    - intros [[j Hj] Hp]. apply list_lookup_insert_Some in Hj as [(-> & <- & _)|[Hij Hj]]; [done|].
      split; [by eauto|]. intros ->. by apply Hij, (wf_slots _ Hw _ _ t).
    - intros [[[j Hj] Hp] Hpt]. split; [|done]. exists j. rewrite list_lookup_insert_ne; [done|].
      intros ->. congruence. }
  assert (i ≠ 0%nat) as Hi0.
  { intros ->. destruct (sc_idle _ _ Hs _ Hi); congruence. }
  split; [|done]. split.
  - constructor; unfold k'; simpl.
    + apply (wf_bump _ Hw).
    + unfold T. rewrite length_insert. apply (wf_len _ Hw).
    + pose proof (wf_count _ Hw). lia.
    + done.
    + intros j j' x Hj Hj' Hx. unfold T in Hj, Hj'.
      apply list_lookup_insert_Some in Hj as [(-> & <- & _)|[_ Hj]]; [done|].
      apply list_lookup_insert_Some in Hj' as [(-> & <- & _)|[_ Hj']]; [done|].
      by eapply (wf_slots _ Hw).
    + intros p [Hp _]%Hl. apply (wf_pcb _ Hw p Hp).
    + intros p p' pid c m pid' c' m' [Hp _]%Hl [Hp' _]%Hl. by apply (wf_inj _ Hw).
    + destruct (wf_idle _ Hw) as (j & c & ? & ? & ?). exists j, c.
      unfold T. by rewrite list_lookup_insert_ne.
    + apply (wf_fresh_procs _ Hw).
    + apply (wf_fresh_ctxs _ Hw).
    + apply (wf_next_pid _ Hw).
  - destruct Hs as [Hnd Hc Hoff Hq Hr Hcr Hid]. constructor.
    + done.
    + apply Hl. split; [done|]. intros E. apply Hne. by symmetry.
    + done.
    + intros p. rewrite Hl. change (a_state k' p) with (a_state k p). rewrite Hq.
      split; [|naive_solver]. intros [? E]. split_and!; [done| |done].
      intros ->. rewrite Hst in E. done.
    + intros p [Hp _]%Hl. by apply Hr.
    + intros p [Hp _]%Hl. by apply Hcr.
    + intros j. change (task k') with T. unfold T.
      rewrite list_lookup_insert_ne by done. apply Hid.
Qed.

Lemma reap_inv s q k t :
  rep s q k → Inv q k → live k t → a_state k t = Some PROCESS_TERMINATED → t ≠ current k →
  ∃ s' k', reap t s = Ret tt s' ∧ rep s' q k' ∧ Inv q k' ∧
    (∀ p, live k' p ↔ live k p ∧ p ≠ t) ∧ procs k' = procs k ∧ ctxs k' = ctxs k ∧
    current k' = current k ∧ kmem k' = kmem k ∧ next_pid k' = next_pid k.
Proof.
  intros Hr HI Hl Hst Hne. unfold reap.
  pose proof (inv_wf _ _ HI) as Hw. pose proof (wf_len _ Hw) as Hlen.
  pose proof (wf_count _ Hw) as Htc.
  destruct (wf_lookup k t Hw Hl) as [y Hy].
  destruct (rep_get_proc _ _ _ _ _ Hr Hy) as (x & Ex & _). mstep Ex.
  assert (∀ p, (if p =? NULL then mret tt else in_mem (Memory.kfree p)) s = Ret tt s) as Hfree
    by (intros p; destruct (p =? NULL); [done|apply in_mem_kfree]).
  mstep (Hfree (p_context x)). unfold Memory.free_kernel_stack. mstep (Hfree (p_kernel_stack x)).
  rewrite bind_get. assert (task_count s = task_count k) as -> by (by destruct Hr as [_ <-]).
  destruct (find_range_spec (λ i, slot k i =? t) (Z.to_nat (task_count k)) 0
    (λ i, r ← get_task i; mret (r =? t)) s) as (r & E & Hres).
  { intros i Hi. by mstep (get_task_ret s q k i Hr Hlen ltac:(lia)). }
  mstep E. destruct r as [i|].
  2:{ destruct (live_slot k t Hw Hl) as (i & Hi & Es). specialize (Hres i ltac:(lia)).
      simpl in Hres. rewrite Es, Z.eqb_refl in Hres. done. }
  destruct Hres as (Hi & Es%Z.eqb_eq & _).
  destruct (put_task_ok s q k i NULL Hr Hlen) as (s1 & E1 & Hr1); [lia|]. mstep E1.
  mstep (in_mem_kfree t s1). set (T := <[Z.to_nat i := NULL]> (task k)) in *.
  destruct (count_tasks_ok s1 q _ Hr1) as (n & E2 & Hn & Hnull);
    [simpl; unfold T; by rewrite length_insert|simpl; lia|]. mstep E2. simpl in Hn, Hnull.
  assert (task k !! Z.to_nat i = Some t) as Hti.
  { unfold slot in Es. destruct (task k !! Z.to_nat i) eqn:Et; [simpl in Es; congruence|].
    destruct Hl as [_ []]. done. }
  assert (Z.to_nat i ≠ 0%nat) as Hi0.
  { intros E0. rewrite E0 in Hti. destruct (sc_idle _ _ HI _ Hti); congruence. }
  assert (0 < n) as Hpos.
  { destruct (Z.lt_ge_cases 0 n) as [|Hn0]; [done|]. exfalso.
    destruct (wf_idle _ Hw) as (j & c & Hj & Hj0 & _). apply Hj0.
    specialize (Hnull 0 ltac:(lia)). unfold slot, T in Hnull. simpl in Hnull.
    change (Z.to_nat 0) with 0%nat in Hnull.
    rewrite list_lookup_insert_ne in Hnull by done. by rewrite Hj in Hnull. }
  rewrite (proj2 (Z.ltb_lt 0 n)) by done.
  destruct (inv_drop q k (Z.to_nat i) t n HI Hti) as [HI' Hl']; [apply Hl|done|done|lia| |].
  { fold T. intros j z Hj Hz. destruct (Z.lt_ge_cases (Z.of_nat j) (task_count k)) as [Hjt|Hjt].
    - specialize (Hnull (Z.of_nat j) ltac:(lia)). unfold slot in Hnull. simpl in Hnull.
      by rewrite Nat2Z.id, Hj in Hnull.
    - unfold T in Hj. apply list_lookup_insert_Some in Hj as [(_ & <- & _)|[_ Hj]]; [done|].
      by eapply (wf_above _ Hw). }
  eexists _, _. split; [done|]. split; [by apply rep_set_task_count|]. by split_and!.
Qed.

(** The three ways a wait can go: it is refused, it reaps a terminated process, or the caller
    blocks and the next ready process runs. *)
Lemma process_wait_inv s q k pid want :
  rep s q k → Inv q k →
  (process_wait pid want s = Ret (-1, None) s ∧
   (pid_of k (current k) = 0 ∨ pid_of k (current k) = pid ∨ ∀ p, live k p → pid_of k p ≠ pid)) ∨
  ∃ t x, live k t ∧ pid_of k t = pid ∧ t ≠ current k ∧ pid_of k (current k) ≠ 0 ∧
    procs k !! t = Some x ∧
    if bool_decide (p_state x = PROCESS_TERMINATED) then
      ∃ s' k', process_wait pid want s =
          Ret (0, if want then Some (p_exit_code x) else None) s' ∧
        rep s' q k' ∧ Inv q k' ∧ (∀ p, live k' p ↔ live k p ∧ p ≠ t) ∧ procs k' = procs k ∧
        current k' = current k ∧ next_pid k' = next_pid k
    else
      ∃ s' q' k', a_schedule q (a_upd (current k) (set_p_state PROCESS_BLOCKED) k) =
          Some (q', k') ∧
        process_wait pid want s = Jump s' ∧ rep s' q' k' ∧ Inv q' k'.
Proof.
  intros Hr HI. unfold process_wait. rewrite bind_get. cbv zeta.
  rewrite (rep_current _ _ _ Hr).
  pose proof (inv_current_not_null _ _ HI) as Hnull.
  rewrite (proj2 (Z.eqb_neq _ NULL)) by done.
  destruct (inv_current_lookup _ _ HI) as [y Hy].
  destruct (rep_get_proc _ _ _ _ _ Hr Hy) as (c & Ec & Eyc). mstep Ec.
  assert (p_pid c = pid_of k (current k)) as -> by (unfold pid_of; rewrite Hy; by subst y).
  destruct (Z.eqb_spec (pid_of k (current k)) 0) as [|Hnz]; [left; by auto|].
  destruct (Z.eqb_spec (pid_of k (current k)) pid) as [|Hself]; [left; by auto|].
  destruct (find_pid_ok s q k pid Hr (inv_wf _ _ HI)) as (t & Et & [[-> Hno]|[Hl Hp]]); mstep Et.
  { left. by auto. }
  rewrite (proj2 (Z.eqb_neq t NULL)) by apply Hl. right.
  destruct (wf_lookup k t (inv_wf _ _ HI) Hl) as [x Hx].
  destruct (rep_get_proc _ _ _ _ _ Hr Hx) as (z & Ez & ->). mstep Ez.
  assert (t ≠ current k) as Hne by congruence.
  exists t, (set_p_next NULL z). split_and!; [done..|]. simpl.
  destruct (bool_decide_reflect (p_state z = PROCESS_TERMINATED)) as [Hst|Hst].
  - mstep Ez. destruct (reap_inv s q k t Hr HI Hl) as (s1 & k1 & E1 & Hr1 & HI1 & Hl1 & Hp1 & _ & Hc1 & _ & Hn1).
    { unfold a_state. rewrite Hx. simpl. congruence. } { done. }
    mstep E1. by exists s1, k1.
  - destruct (rep_a_upd s q k (current k) (set_p_state PROCESS_BLOCKED) Hr) as (s1 & E1 & Hr1);
      [by eauto|]. mstep E1.
    pose proof (current_not_idle _ _ HI Hnz) as Hni.
    destruct (schedule_jumps s1 q _ Hr1) as (s2 & q2 & k2 & Ea & E2 & Hr2 & HI2).
    { apply inv_stop; auto. } { by rewrite task_upd, current_upd. }
    exists s2, q2, k2. split_and!; [done| |done|done]. by rewrite (bind_jump _ _ _ _ E2).
Qed.
End ops.
