(* ===== verification/ProcessCreate.v ===== *)
(** * Creating processes

    [process_create] builds a PCB outside the task table, object by object, and publishes it
    in the table and the queue only when every allocation has succeeded; [process_init] sets
    up the idle process. *)

From stdpp Require Import base numbers strings pretty gmap list.
From S2P Require Import Prelude.
From S2P Require Import Chain.
From S2P Require Import Memory.
From S2P Require Import Context.
From S2P Require Import ProcState.
From S2P Require Import Scheduler.
From S2P Require Import Process.
From S2P Require Import KernelInv.
From S2P Require Import ProcessOps.

Local Open Scope Z_scope.

#[export] Instance link_free_pid v : LinkFree (set_p_pid v).
Proof. done. Qed.
#[export] Instance link_free_priority v : LinkFree (set_p_priority v).
Proof. done. Qed.
#[export] Instance link_free_context v : LinkFree (set_p_context v).
Proof. done. Qed.
#[export] Instance link_free_parent v : LinkFree (set_p_parent v).
Proof. done. Qed.
#[export] Instance link_free_name v : LinkFree (set_p_name v).
Proof. done. Qed.
#[export] Instance link_free_creation_time v : LinkFree (set_p_creation_time v).
Proof. done. Qed.
#[export] Instance link_free_kernel_stack v : LinkFree (set_p_kernel_stack v).
Proof. done. Qed.

Section create.
Context `{L : Linkage}.

(** A call of [kmalloc] for an object whose size is a multiple of four. *)
Lemma inv_kmalloc s q k n :
  rep s q k → Memory.bump_ok (kmem k) → 0 <= n < 2 ^ 63 → n mod 4 = 0 →
  (HEAP_SIZE < heap_used (kmem k) + n ∧ in_mem (Memory.kmalloc n) s = Ret NULL s) ∨
  (heap_used (kmem k) + n <= HEAP_SIZE ∧
   ∃ s' m', in_mem (Memory.kmalloc n) s = Ret (heap_top k) s' ∧ rep s' q (set_kmem m' k) ∧
     Memory.bump_ok m' ∧ heap_used m' = heap_used (kmem k) + n).
Proof.
  intros Hr Hb Hn H4. assert (kmem s = kmem k) as Em by (by destruct Hr as [_ <-]).
  unfold in_mem, zoom. rewrite Em.
  destruct (Memory.kmalloc_cases (kmem k) n Hb Hn) as [[Hf ->]|(Hf & m' & -> & Hb' & Hu & _)].
  - left. rewrite <- Em, set_kmem_id, Em. done.
  - right. split; [done|]. exists (set_kmem m' s), m'. split_and!; [done|auto with kernel|done|].
    destruct Hb as [_ Hb], Hb' as [_ Hb']. pose proof (Z.div_mod (heap_used m') 4).
    pose proof (Z.div_mod (heap_used (kmem k)) 4). pose proof (Z.div_mod n 4). lia.
Qed.

(** Objects outside the table may appear and change: a state that agrees with [k] below its
    heap top satisfies the invariant too. *)
Lemma inv_extend q k k' :
  Inv q k → task k' = task k → task_count k' = task_count k → current k' = current k →
  (∀ p, p < heap_top k → procs k' !! p = procs k !! p) →
  (∀ c, c < heap_top k → ctxs k' !! c = ctxs k !! c) →
  Memory.bump_ok (kmem k') → heap_used (kmem k) <= heap_used (kmem k') →
  (∀ p, is_Some (procs k' !! p) → p < heap_top k') →
  (∀ c, is_Some (ctxs k' !! c) → c < heap_top k') →
  next_pid k <= next_pid k' →
  sizeof_process * (next_pid k' - 1) <= heap_used (kmem k') →
  Inv q k'.
Proof.
  intros [Hw Hs] Et En Ec Hp Hc Hb Hu Hfp Hfc Hn Hsz.
  assert (∀ p, live k' p ↔ live k p) as Hl by (unfold live; by rewrite Et).
  assert (∀ p, live k p → procs k' !! p = procs k !! p) as Hsame.
  { intros p Hp'. apply Hp, (wf_fresh_procs _ Hw), wf_lookup; done. }
  assert (∀ p, live k p → psig k' p = psig k p) as Hsig
    by (intros p Hp'; unfold psig; by rewrite Hsame).
  assert (∀ p, live k p → a_state k' p = a_state k p) as Hst
    by (intros p Hp'; unfold a_state; by rewrite Hsame).
  pose proof (wf_idle _ Hw) as (i & ci & Hi & Hi0 & Hsi).
  assert (live k i) as Hli by (split; [by eapply list_elem_of_lookup_2|done]).
  split; constructor; rewrite ?Et, ?En, ?Ec; try done.
  - apply (wf_len _ Hw).
  - apply (wf_count _ Hw).
  - apply (wf_above _ Hw).
  - apply (wf_slots _ Hw).
  - intros p Hp'%Hl. destruct (wf_pcb _ Hw _ Hp') as (pid & c & E & Hpid & Hc0 & Hctx).
    exists pid, c. rewrite Hsig by done. split_and!; [done|lia|lia|done|].
    rewrite Hc; [done|]. by apply (wf_fresh_ctxs _ Hw).
  - intros p p' pid c m pid' c' m' H1%Hl H2%Hl. rewrite !Hsig by done. by apply (wf_inj _ Hw).
  - exists i, ci. by rewrite Hsig.
  - split; [|done]. pose proof (wf_next_pid _ Hw). lia.
  - apply (sc_nodup _ _ Hs).
  - apply Hl, (sc_current _ _ Hs).
  - apply (sc_offqueue _ _ Hs).
  - intros p. rewrite (sc_queue _ _ Hs), Hl. split; intros [? ?]; split; rewrite ?Hst in *; auto.
  - intros p Hp'%Hl. rewrite Hst by done. by apply (sc_running _ _ Hs).
  - intros p Hp'%Hl. rewrite Hst by done. by apply (sc_created _ _ Hs).
  - intros j Hj. assert (j = i) as -> by congruence.
    rewrite Hst by done. by apply (sc_idle _ _ Hs).
Qed.

(** The state [k] with an additional PCB [x] at [p]. *)
Definition with_pcb (p : Z) (x : process) (k : kstate) : kstate :=
  set_procs (<[p := x]> (procs k)) k.

Lemma new_process_ok s q k p :
  rep s q k → procs k !! p = None →
  ∃ s', new_process p s = Ret tt s' ∧ rep s' q (with_pcb p process_zero k).
Proof.
  intros Hr Hp. assert (p ∉ q) as Hpq.
  { intros Hin. destruct (rep_queue_lookup _ _ _ _ Hr Hin). congruence. }
  eexists. split; [done|]. destruct Hr as [(Hl & Hh & Ht) <-]. split.
  - split; [|done]. by apply linked_insert_notin.
  - unfold with_pcb, erase. simpl. by rewrite strip_insert.
Qed.

Lemma with_pcb_upd s q k p x f `{!LinkFree f} :
  rep s q (with_pcb p x k) →
  ∃ s', upd_proc p f s = Ret tt s' ∧ rep s' q (with_pcb p (f x) k).
Proof.
  intros Hr. destruct (rep_upd_proc s q (with_pcb p x k) p x f Hr) as (s' & E & Hr');
    [apply lookup_insert_eq|]. exists s'. split; [done|].
  unfold with_pcb in *. simpl in Hr'. by rewrite insert_insert_eq in Hr'.
Qed.

(** A finished PCB: ready, owning its context, with a pid of its own. *)
Record Publishable (k : kstate) (p : Z) : Prop := {
  pu_null : p ≠ NULL;
  pu_off : p ∉ task k;
  pu_ready : a_state k p = Some PROCESS_READY;
  pu_sig : ∃ pid c, psig k p = Some (pid, c, NULL) ∧ 0 <= pid < next_pid k ∧ c ≠ NULL ∧
             is_Some (ctxs k !! c) ∧
             ∀ p' pid' c' m', live k p' → psig k p' = Some (pid', c', m') → pid' ≠ pid ∧ c' ≠ c;
}.

(** The kernel with [p] entered in slot [i]. *)
Definition entered (p : Z) (i : nat) (k : kstate) : kstate :=
  set_task_count (Z.max (task_count k) (Z.of_nat i + 1)) (set_task (<[i := p]> (task k)) k).

Section publish.
Context (q : list Z) (k : kstate) (p : Z) (i : nat).
Context (HI : Inv q k) (Hpub : Publishable k p) (Hi : task k !! i = Some NULL).

Lemma entered_lookup j t :
  <[i:=p]> (task k) !! j = Some t ↔ (j = i ∧ t = p) ∨ (j ≠ i ∧ task k !! j = Some t).
Proof using All.
  assert (i < 64)%nat as Hi64 by (rewrite <- (wf_len _ (inv_wf _ _ HI)); by eapply lookup_lt_Some).
  rewrite list_lookup_insert_Some, (wf_len _ (inv_wf _ _ HI)). naive_solver.
Qed.

Lemma entered_live r : live (entered p i k) r ↔ live k r ∨ r = p.
Proof using All.
  pose proof (pu_null _ _ Hpub) as Hp.
  unfold live, entered. simpl. rewrite !list_elem_of_lookup. setoid_rewrite entered_lookup. split.
  - intros [[j [[-> ->]|[_ Hj]]] Hr]; [by right|left; by eauto].
  - intros [[[j Hj] Hr]| ->]; [|by eauto]. split; [|done]. exists j. right. split; [|done].
    intros ->. congruence.
Qed.

Lemma entered_wf : Wf (entered p i k).
Proof using All.
  destruct Hpub as [Hp Hoff Hready (pid & c & Hsig & Hpid & Hc & Hctx & Huniq)].
  pose proof (inv_wf _ _ HI) as Hw.
  assert (i < 64)%nat as Hi64 by (rewrite <- (wf_len _ Hw); by eapply lookup_lt_Some).
  constructor; unfold entered; cbn [kmem task task_count set_task set_task_count].
  - apply (wf_bump _ Hw).
  - rewrite length_insert. apply (wf_len _ Hw).
  - pose proof (wf_count _ Hw). lia.
  - intros j t [[-> ->]|[_ Hj]]%entered_lookup Hge; [lia|]. eapply (wf_above _ Hw); [done|lia].
  - intros j j' t [[-> ->]|[_ Hj]]%entered_lookup [[-> E]|[_ Hj']]%entered_lookup Ht; [done| | |].
    + destruct Hoff. by eapply list_elem_of_lookup_2.
    + subst t. destruct Hoff. by eapply list_elem_of_lookup_2.
    + by eapply (wf_slots _ Hw).
  - intros r [Hr| ->]%entered_live; [apply (wf_pcb _ Hw r Hr)|by exists pid, c].
  - intros r r' pid1 c1 m1 pid2 c2 m2 [Hr| ->]%entered_live [Hr'| ->]%entered_live E1 E2 Heq;
      [|exfalso..|done].
    + by eapply (wf_inj _ Hw).
    + destruct (Huniq _ _ _ _ Hr E1). change (psig k p = Some (pid2, c2, m2)) in E2.
      rewrite Hsig in E2. injection E2 as <- <- _. tauto.
    + destruct (Huniq _ _ _ _ Hr' E2). change (psig k p = Some (pid1, c1, m1)) in E1.
      rewrite Hsig in E1. injection E1 as <- <- _. destruct Heq; congruence.
  - destruct (wf_idle _ Hw) as (j & cj & Hj & Hj0 & Hjs). exists j, cj. split; [|done].
    apply entered_lookup. right. split; [|done]. intros <-. congruence.
  - apply (wf_fresh_procs _ Hw).
  - apply (wf_fresh_ctxs _ Hw).
  - apply (wf_next_pid _ Hw).
Qed.

Lemma entered_sched : Sched (q ++ [p]) (entered p i k).
Proof using All.
  pose proof (pu_ready _ _ Hpub) as Hready. pose proof (inv_sched _ _ HI) as Hs.
  assert (¬ live k p) as Hnl by (intros [? _]; by apply (pu_off _ _ Hpub)).
  assert (p ∉ q) as Hpq by (by intros [? _]%(sc_queue _ _ Hs)).
  constructor.
  - apply NoDup_app. split_and!; [apply (sc_nodup _ _ Hs)| |apply NoDup_singleton].
    by intros x Hx ->%list_elem_of_singleton.
  - apply entered_live. left. apply (sc_current _ _ Hs).
  - rewrite elem_of_app, list_elem_of_singleton. intros [H|H]; [by apply (sc_offqueue _ _ Hs)|].
    apply Hnl. rewrite <- H. apply (sc_current _ _ Hs).
  - intros r. rewrite elem_of_app, list_elem_of_singleton, entered_live, (sc_queue _ _ Hs).
    change (a_state (entered p i k) r) with (a_state k r). split; [|naive_solver].
    intros [[? ?]| ->]; auto.
  - intros r [Hr| ->]%entered_live; [by apply (sc_running _ _ Hs)|].
    change (a_state (entered p i k) p) with (a_state k p). congruence.
  - intros r [Hr| ->]%entered_live; [by apply (sc_created _ _ Hs)|].
    change (a_state (entered p i k) p) with (a_state k p). congruence.
  - intros j [[<- ->]|[_ Hj]]%entered_lookup; [by left|]. by apply (sc_idle _ _ Hs).
Qed.
End publish.

Lemma inv_publish q k p i :
  Inv q k → Publishable k p → task k !! i = Some NULL →
  Inv (q ++ [p]) (entered p i k) ∧ ∀ r, live (entered p i k) r ↔ live k r ∨ r = p.
Proof.
  intros HI Hp Hi. split; [split|].
  - by apply (entered_wf q).
  - by apply entered_sched.
  - intros r. by apply (entered_live q).
Qed.

(** The first free slot of the table is at most [task_count]. *)
Lemma add_task_ok s q k p :
  rep s q k → Wf k → task_count k < 64 →
  ∃ s' i, add_task p s = Ret tt s' ∧ task k !! i = Some NULL ∧ Z.of_nat i <= task_count k ∧
    (∀ j, (j < i)%nat → task k !! j ≠ Some NULL) ∧
    rep s' q (set_task_count (Z.max (task_count k) (Z.of_nat i + 1))
                (set_task (<[i := p]> (task k)) k)).
Proof.
  intros Hr Hw Htc. unfold add_task. pose proof (wf_len _ Hw) as Hlen.
  pose proof (wf_count _ Hw) as Hc.
  destruct (find_range_spec (λ i, slot k i =? NULL) 64 0 (λ i, t ← get_task i; mret (t =? NULL)) s)
    as (r & E & Hres).
  { intros i Hi. by mstep (get_task_ret s q k i Hr Hlen ltac:(lia)). }
  assert (slot k (task_count k) = NULL) as Hfree.
  { unfold slot. destruct (task k !! Z.to_nat (task_count k)) as [t|] eqn:Et; [|done].
    apply (wf_above _ Hw _ _ Et). lia. }
  mstep E. destruct r as [i|].
  2:{ specialize (Hres (task_count k) ltac:(lia)). simpl in Hres.
      by rewrite Hfree in Hres. }
  destruct Hres as (Hi & Es%Z.eqb_eq & Hfirst).
  assert (i <= task_count k) as Hle.
  { destruct (Z.le_gt_cases i (task_count k)) as [|Hgt]; [done|].
    specialize (Hfirst (task_count k) ltac:(lia)). simpl in Hfirst. by rewrite Hfree in Hfirst. }
  destruct (put_task_ok s q k i p Hr Hlen) as (s1 & E1 & Hr1); [lia|]. mstep E1.
  rewrite bind_get.
  assert (task_count s1 = task_count k) as -> by exact (f_equal task_count (proj2 Hr1)).
  assert (task k !! Z.to_nat i = Some NULL) as Hti.
  { unfold slot in Es. destruct (lookup_lt_is_Some_2 (task k) (Z.to_nat i)) as [t Ht]; [lia|].
    rewrite Ht in Es. simpl in Es. congruence. }
  assert (∀ j, (j < Z.to_nat i)%nat → task k !! j ≠ Some NULL) as Hbefore.
  { intros j Hj Ej. specialize (Hfirst (Z.of_nat j) ltac:(lia)). unfold slot in Hfirst.
    simpl in Hfirst. by rewrite Nat2Z.id, Ej in Hfirst. }
  unfold when. destruct (Z.leb_spec (task_count k) i).
  - eexists _, (Z.to_nat i). rewrite Z2Nat.id by lia. split_and!; [done..|].
    rewrite Z.max_r by lia. by apply rep_set_task_count.
  - eexists _, (Z.to_nat i). rewrite Z2Nat.id by lia. split_and!; [done..|].
    rewrite Z.max_l by lia. by destruct k.
Qed.

(** A PCB under construction is invisible: whatever it holds, the invariant of the rest of
    the kernel stands. *)
Lemma inv_partial q k x m C R :
  Inv q k → Memory.bump_ok m → heap_used (kmem k) + sizeof_process <= heap_used m →
  (∀ c, c < heap_top k → C !! c = ctxs k !! c) →
  (∀ c, is_Some (C !! c) → c < heap_addr + heap_used m) →
  Inv q (with_pcb (heap_top k) x
           (set_ptregs R (set_ctxs C (set_kmem m (set_next_pid (next_pid k + 1) k))))).
Proof.
  intros HI Hm Hu HC HCf. pose proof (wf_next_pid _ HI) as [Hn Hsz].
  assert (0 < sizeof_process) by done.
  apply (inv_extend q k); simpl; try done; try lia.
  - intros r Hr. rewrite lookup_insert_ne; [done|lia].
  - intros r [y [[<- _]|[_ Hy]]%lookup_insert_Some]; unfold heap_top in *; simpl; [lia|].
    apply Z.lt_le_trans with (heap_top k); [apply (wf_fresh_procs _ HI); eauto|].
    unfold heap_top. lia.
Qed.

Definition published (k : kstate) (x : process) : process :=
  set_p_state PROCESS_READY (set_p_creation_time 0
    (set_p_name ("proc-" +:+ pretty (p_pid x)) (set_p_parent (current k) x))).

Lemma create_publish_ok s q k p x :
  rep s q (with_pcb p x k) → (∀ y, Inv q (with_pcb p y k)) → task_count k < 64 →
  Publishable (with_pcb p (published k x) k) p →
  ∃ s' i, create_publish p s = Ret (p_pid x) s' ∧
    task k !! i = Some NULL ∧ Z.of_nat i <= task_count k ∧
    (∀ j, (j < i)%nat → task k !! j ≠ Some NULL) ∧
    rep s' (q ++ [p]) (set_task_count (Z.max (task_count k) (Z.of_nat i + 1))
      (set_task (<[i := p]> (task k)) (with_pcb p (published k x) k))).
Proof.
  intros Hr HI Htc Hpu. unfold create_publish. rewrite bind_get.
  assert (current s = current k) as -> by (by rewrite (rep_current _ _ _ Hr)).
  destruct (with_pcb_upd _ _ _ _ _ (set_p_parent (current k)) Hr) as (s1 & E1 & Hr1). mstep E1.
  destruct (rep_get_proc _ _ _ p _ Hr1 (lookup_insert_eq _ _ _)) as (x1 & Ex1 & Hx1). mstep Ex1.
  apply (f_equal p_pid) in Hx1. simpl in Hx1. rewrite <- Hx1.
  destruct (with_pcb_upd _ _ _ _ _ (set_p_name ("proc-" +:+ pretty (p_pid x))) Hr1)
    as (s2 & E2 & Hr2). mstep E2.
  destruct (with_pcb_upd _ _ _ _ _ (set_p_creation_time 0) Hr2) as (s3 & E3 & Hr3). mstep E3.
  unfold process_set_state. rewrite (proj2 (Z.eqb_neq p NULL)) by apply Hpu.
  destruct (rep_get_proc _ _ _ p _ Hr3 (lookup_insert_eq _ _ _)) as (x3 & Ex3 & _).
  destruct (with_pcb_upd _ _ _ _ _ (set_p_state PROCESS_READY) Hr3) as (s4 & E4 & Hr4).
  rewrite (bind_ret (get_proc p ≫= λ _, upd_proc p (set_p_state PROCESS_READY)) _ _ _ _
    (eq_trans (bind_ret _ _ _ _ _ Ex3) E4)).
  fold (published k x) in Hr4.
  destruct (add_task_ok _ _ _ p Hr4) as (s5 & i & E5 & Hi & Hile & Hfirst & Hr5);
    [apply HI|done|]. mstep E5. simpl in Hi, Hile, Hfirst, Hr5.
  destruct (scheduler_add_ok _ _ _ p Hr5) as (s6 & E6 & Hr6).
  { apply Hpu. }
  { intros [[Hin _] _]%(sc_queue _ _ (HI (published k x))). by destruct Hpu. }
  { simpl. rewrite lookup_insert_eq. eauto. }
  mstep E6. destruct (rep_get_proc _ _ _ p _ Hr6 (lookup_insert_eq _ _ _)) as (x6 & Ex6 & Hx6).
  mstep Ex6. apply (f_equal p_pid) in Hx6. simpl in Hx6. rewrite <- Hx6. by exists s6, i.
Qed.

(** ** The allocations of [process_create] *)

(** The kernel [k] with a PCB [x] under construction at the old heap top. *)
Definition building (k : kstate) (x : process) (m : mem) (C : gmap Z context)
    (R : gmap Z pt_regs) : kstate :=
  with_pcb (heap_top k) x
    (set_ptregs R (set_ctxs C (set_kmem m (set_next_pid (next_pid k + 1) k)))).

(** What a failed creation leaves alone. *)
Definition untouched (k k' : kstate) : Prop :=
  task k' = task k ∧ task_count k' = task_count k ∧ current k' = current k ∧
  cpu k' = cpu k ∧ next_pid k <= next_pid k' ∧ ∀ r, r < heap_top k → procs k' !! r = procs k !! r ∧ ctxs k' !! r = ctxs k !! r.

Lemma building_kmalloc s q k x m C R n :
  rep s q (building k x m C R) → Memory.bump_ok m → 0 <= n < 2 ^ 63 → n mod 4 = 0 →
  (HEAP_SIZE < heap_used m + n ∧ in_mem (Memory.kmalloc n) s = Ret NULL s) ∨
  (heap_used m + n <= HEAP_SIZE ∧
   ∃ s' m', in_mem (Memory.kmalloc n) s = Ret (heap_addr + heap_used m) s' ∧
     rep s' q (building k x m' C R) ∧ Memory.bump_ok m' ∧ heap_used m' = heap_used m + n).
Proof.
  intros Hr Hm Hn H4. destruct (inv_kmalloc _ _ _ n Hr Hm Hn H4) as [?|(? & s' & m' & ? & ? & ?)];
    [by left|right]. split; [done|]. by exists s', m'.
Qed.

Definition building_ok (k : kstate) (m : mem) (C : gmap Z context) : Prop :=
  Memory.bump_ok m ∧ heap_used (kmem k) + sizeof_process <= heap_used m ∧
  (∀ c, c < heap_top k → C !! c = ctxs k !! c) ∧
  (∀ c, is_Some (C !! c) → c < heap_addr + heap_used m).

Lemma building_inv q k x m C R :
  Inv q k → building_ok k m C → Inv q (building k x m C R) ∧ untouched k (building k x m C R).
Proof.
  intros HI (Hm & Hu & HC & HCf). split; [by apply inv_partial|].
  split_and!; [done..|simpl; lia|]. intros r Hr. split; [|by apply HC].
  unfold building. simpl. rewrite lookup_insert_ne; [done|lia].
Qed.

Lemma building_ok_grow k m m' C :
  building_ok k m C → Memory.bump_ok m' → heap_used m <= heap_used m' → building_ok k m' C.
Proof.
  intros (Hm & Hu & HC & HCf) Hm' Hle. split_and!; [done|lia|done|].
  intros c Hc%HCf. lia.
Qed.

Lemma building_ok_ctx k m m' C v :
  building_ok k m C → Memory.bump_ok m' → heap_used m < heap_used m' →
  building_ok k m' (<[heap_addr + heap_used m := v]> C).
Proof.
  intros (Hm & Hu & HC & HCf) Hm' Hlt. assert (0 < sizeof_process) by done.
  split_and!; [done|lia| |].
  - intros c Hc. unfold heap_top in *. rewrite lookup_insert_ne; [by apply HC|lia].
  - intros c [y [[<- _]|[_ Hy]]%lookup_insert_Some]; [lia|].
    assert (c < heap_addr + heap_used m) by (apply HCf; eauto). lia.
Qed.

Lemma building_set_ctxs s q k x m C R C' :
  rep s q (building k x m C R) → rep (set_ctxs C' s) q (building k x m C' R).
Proof. by intros H%(rep_set_ctxs _ _ _ C'). Qed.

(** Offsets of the four objects from the old heap top. *)
Definition stack_at (k : kstate) : Z := heap_top k + sizeof_process.
Definition context_at (k : kstate) : Z := stack_at k + 4096.
Definition pt_regs_at (k : kstate) : Z := context_at k + sizeof_context.
Definition create_size : Z := sizeof_process + 4096 + sizeof_context + sizeof_pt_regs.

Lemma kfree_all_ret undo s :
  in_mem (foldr (λ b c, Memory.kfree b;; c) (mret tt) undo) s = Ret tt s.
Proof.
  assert (∀ m, foldr (λ b c, Memory.kfree b;; c) (mret tt) undo m = Ret tt m) as H
    by (intros m; induction undo as [|b undo IH]; [done|exact IH]).
  unfold in_mem, zoom. by rewrite H, set_kmem_id.
Qed.

(** One [attach]: either the heap is exhausted, the creation fails and nothing visible has
    changed, or it goes on with the block at the heap top. *)
Lemma attach_ok s q k x m C R n f undo rest :
  (∀ v, LinkFree (f v)) → Inv q k → rep s q (building k x m C R) → building_ok k m C →
  0 <= n < 2 ^ 63 → n mod 4 = 0 →
  (HEAP_SIZE < heap_used m + n ∧
   ∃ s' k', attach (heap_top k) n f undo rest s = Ret (-1) s' ∧
     rep s' q k' ∧ Inv q k' ∧ untouched k k') ∨
  (heap_used m + n <= HEAP_SIZE ∧
   ∃ s' m', attach (heap_top k) n f undo rest s = rest (heap_addr + heap_used m) s' ∧
     rep s' q (building k (f (heap_addr + heap_used m) x) m' C R) ∧
     Memory.bump_ok m' ∧ heap_used m' = heap_used m + n).
Proof.
  intros Hf HI Hr Hok Hn H4. pose proof heap_addr_pos. unfold attach.
  assert (Memory.bump_ok m) as Hm by apply Hok. pose proof (proj1 Hm) as Hpos.
  destruct (building_kmalloc _ _ _ _ _ _ _ n Hr Hm Hn H4)
    as [[Hfull E]|(Hfit & s1 & m1 & E & Hr1 & Hm1 & Hu1)]; mstep E.
  - left. split; [done|].
    destruct (with_pcb_upd _ _ _ _ _ (f NULL) Hr) as (s2 & E2 & Hr2). mstep E2. simpl.
    destruct (rep_get_proc _ _ _ (heap_top k) _ Hr2 (lookup_insert_eq _ _ _)) as (y & Ey & _).
    mstep Ey.
    mstep (kfree_all_ret undo s2). eexists _, _. split; [done|]. split; [exact Hr2|]. by apply building_inv.
  - right. split; [done|].
    destruct (with_pcb_upd _ _ _ _ _ (f (heap_addr + heap_used m)) Hr1) as (s2 & E2 & Hr2). mstep E2.
    rewrite (proj2 (Z.eqb_neq _ NULL)) by (unfold NULL; lia). by exists s2, m1.
Qed.

Lemma create_alloc_ok s q k x m entry arg :
  Inv q k → rep s q (building k x m (ctxs k) (ptregs k)) → Memory.bump_ok m →
  heap_used m = heap_used (kmem k) + sizeof_process →
  (HEAP_SIZE < heap_used (kmem k) + create_size ∧
   ∃ s' k', create_alloc entry arg (heap_top k) s = Ret (-1) s' ∧
     rep s' q k' ∧ Inv q k' ∧ untouched k k') ∨
  (heap_used (kmem k) + create_size <= HEAP_SIZE ∧
   ∃ s' m' R, create_alloc entry arg (heap_top k) s = create_publish (heap_top k) s' ∧
     let C := <[context_at k := context_init entry arg (stack_at k + 4096)]> (ctxs k) in
     rep s' q (building k (set_p_pt_regs (pt_regs_at k) (set_p_context (context_at k)
       (set_p_kernel_stack (stack_at k) x))) m' C R) ∧ building_ok k m' C).
Proof.
  intros HI Hr Hm Hu.
  assert (create_size = 4584 ∧ sizeof_process = 168 ∧ sizeof_context = 160 ∧ sizeof_pt_regs = 160)
    as (Hcs & Hsp & Hsc & Hsr) by done.
  assert (building_ok k m (ctxs k)) as Hok.
  { split_and!; [done|lia|done|]. intros c Hc%(wf_fresh_ctxs _ HI). unfold heap_top in Hc. lia. }
  unfold create_alloc.
  match goal with |- context [attach _ 4096 _ _ ?r] => set (rest1 := r) end.
  destruct (attach_ok _ _ _ _ _ _ _ 4096 set_p_kernel_stack [heap_top k] rest1 _ HI Hr Hok)
    as [[Hf H]|(Hf & s1 & m1 & -> & Hr1 & Hm1 & Hu1)]; [done|done|left; split; [lia|done]|].
  apply building_ok_grow with (m' := m1) in Hok; [|done|lia].
  replace (heap_addr + heap_used m) with (stack_at k) in * by (unfold stack_at, heap_top; lia).
  unfold rest1. clear rest1.
  match goal with |- context [attach _ sizeof_context _ _ ?r] => set (rest2 := r) end.
  destruct (attach_ok _ _ _ _ _ _ _ sizeof_context set_p_context [stack_at k; heap_top k] rest2
    _ HI Hr1 Hok) as [[Hf2 H]|(Hf2 & s2 & m2 & -> & Hr2 & Hm2 & Hu2)];
    [done|done|left; split; [lia|done]|].
  set (cx := context_init entry arg (stack_at k + 4096)).
  apply (building_ok_ctx _ _ m2 _ cx) in Hok; [|done|lia].
  replace (heap_addr + heap_used m1) with (context_at k) in *
    by (unfold context_at, stack_at, heap_top; lia).
  unfold rest2, new_context. clear rest2. rewrite bind_modify. fold cx.
  rewrite (f_equal ctxs (proj2 Hr2) : ctxs s2 = ctxs k).
  apply (building_set_ctxs _ _ _ _ _ _ _ (<[context_at k:=cx]> (ctxs k))) in Hr2.
  match goal with |- context [attach _ sizeof_pt_regs _ _ ?r] => set (rest3 := r) end.
  destruct (attach_ok _ _ _ _ _ _ _ sizeof_pt_regs set_p_pt_regs
    [context_at k; stack_at k; heap_top k] rest3 _ HI Hr2 Hok)
    as [[Hf3 H]|(Hf3 & s3 & m3 & -> & Hr3 & Hm3 & Hu3)];
    [done|done|left; split; [lia|done]|].
  right. split; [lia|].
  replace (heap_addr + heap_used m2) with (pt_regs_at k) in *
    by (unfold pt_regs_at, context_at, stack_at, heap_top; lia).
  unfold rest3, new_pt_regs. rewrite bind_modify.
  eexists _, m3, (<[pt_regs_at k := pt_regs_zero]> (ptregs s3)).
  split; [reflexivity|]. split.
  - exact (rep_set_ptregs _ _ _ (<[pt_regs_at k := pt_regs_zero]> (ptregs s3)) Hr3).
  - eapply building_ok_grow; [done|done|lia].
Qed.

(** ** [process_create] *)

Definition clamp_priority (priority : Z) : Z := if priority <? 5 then priority else 4.

(** The PCB a successful creation publishes. *)
Definition fresh_pcb (k : kstate) (priority : Z) : process :=
  let prio := clamp_priority priority in
  Process (next_pid k) PROCESS_READY prio (default 0 (COUNTER_INIT_VALUES !! Z.to_nat prio))
    0 0 (context_at k) 0 0 0 0 (pt_regs_at k) (current k) NULL 0 0 0
    ("proc-" +:+ pretty (next_pid k)) (stack_at k) 0.

Definition can_create (k : kstate) (entry : Z) : Prop :=
  entry ≠ NULL ∧ task_count k < 64 ∧ heap_used (kmem k) + create_size <= HEAP_SIZE.

#[export] Instance can_create_dec k entry : Decision (can_create k entry).
Proof. unfold can_create. apply _. Defined.

(** The new PCB has a pid and a context no live process has. *)
Lemma fresh_publishable q k x m C R :
  Inv q k → building_ok k m C → is_Some (C !! context_at k) →
  p_state x = PROCESS_READY → sig x = (next_pid k, context_at k, NULL) →
  Publishable (building k x m C R) (heap_top k).
Proof.
  intros HI Hok HC Hst Hsig. pose proof heap_addr_pos. pose proof (proj1 (wf_bump _ HI)).
  assert (0 < sizeof_process) by done.
  assert (procs (building k x m C R) !! heap_top k = Some x) as Hx by apply lookup_insert_eq.
  assert (¬ live k (heap_top k)) as Hnl.
  { intros Hl. pose proof (wf_fresh_procs _ HI _ (wf_lookup _ _ (inv_wf _ _ HI) Hl)). lia. }
  assert (heap_top k ≠ NULL) as Hnull by (unfold heap_top, NULL; lia).
  constructor; [done| | |].
  - intros Hin. by apply Hnl.
  - unfold a_state. rewrite Hx. simpl. congruence.
  - exists (next_pid k), (context_at k). split_and!.
    + unfold psig. rewrite Hx. simpl. congruence.
    + pose proof (wf_next_pid _ HI). lia.
    + simpl. lia.
    + unfold context_at, stack_at, heap_top, NULL. lia.
    + done.
    + intros p' pid' c' m' Hl E. change (live k p') in Hl.
      assert (p' ≠ heap_top k) by congruence.
      unfold psig in E. simpl in E. rewrite lookup_insert_ne in E by done.
      destruct (wf_pcb _ HI p' Hl) as (pid & c & Es & Hpid & _ & Hctx).
      unfold psig in Es. rewrite E in Es. injection Es as -> -> _.
      apply (wf_fresh_ctxs _ HI) in Hctx. split; [lia|].
      unfold context_at, stack_at. lia.
Qed.

(** The PCB after its scalar members are set. *)
Definition blank_pcb (k : kstate) (priority : Z) : process :=
  let prio := clamp_priority priority in
  set_p_counter (default 0 (COUNTER_INIT_VALUES !! Z.to_nat prio)) (set_p_priority prio
    (set_p_state PROCESS_CREATED (set_p_pid (next_pid k) process_zero))).

Lemma counter_init_ok prio (s : kstate) :
  0 <= prio < 5 → counter_init prio s = Ret (default 0 (COUNTER_INIT_VALUES !! Z.to_nat prio)) s.
Proof.
  intros Hp. apply (deref_ret (λ _, COUNTER_INIT_VALUES !! Z.to_nat prio)).
  destruct (lookup_lt_is_Some_2 COUNTER_INIT_VALUES (Z.to_nat prio)) as [v ->]; [simpl; lia|done].
Qed.

Lemma create_pcb_ok s q k m priority :
  rep s q (set_kmem m k) → Inv q k → 0 <= priority →
  ∃ s', create_pcb (heap_top k) priority s = Ret tt s' ∧
    rep s' q (building k (blank_pcb k priority) m (ctxs k) (ptregs k)).
Proof.
  intros Hr HI Hp. unfold create_pcb. set (p := heap_top k).
  assert (procs (set_kmem m k) !! p = None) as Hfresh.
  { destruct (procs k !! p) eqn:E; [|done].
    assert (p < heap_top k) by (apply (wf_fresh_procs _ HI); eauto). unfold p in *. lia. }
  destruct (new_process_ok _ _ _ _ Hr Hfresh) as (s1 & E1 & Hr1). mstep E1. rewrite bind_get.
  rewrite (f_equal next_pid (proj2 Hr1) : next_pid s1 = next_pid k).
  destruct (with_pcb_upd _ _ _ _ _ (set_p_pid (next_pid k)) Hr1) as (s2 & E2 & Hr2). mstep E2.
  pose proof (wf_next_pid _ HI) as [_ Hn]. pose proof (wf_bump _ HI) as [Hb _].
  change sizeof_process with 168 in Hn. unfold HEAP_SIZE in Hb.
  unfold incr_i32. rewrite (proj2 (Z.eqb_neq (next_pid k) _)) by lia.
  rewrite bind_mret, bind_modify. apply (rep_set_next_pid _ _ _ (next_pid k + 1)) in Hr2.
  change (set_next_pid (next_pid k + 1) (with_pcb p ?x (set_kmem m k))) with
    (building k x m (ctxs k) (ptregs k)) in Hr2.
  destruct (with_pcb_upd _ _ _ _ _ (set_p_state PROCESS_CREATED) Hr2) as (s3 & E3 & Hr3). mstep E3.
  cbv zeta. fold (clamp_priority priority).
  destruct (with_pcb_upd _ _ _ _ _ (set_p_priority (clamp_priority priority)) Hr3)
    as (s4 & E4 & Hr4). mstep E4.
  assert (0 <= clamp_priority priority < 5) as Hc
    by (unfold clamp_priority; destruct (Z.ltb_spec priority 5); lia).
  mstep (counter_init_ok _ s4 Hc). by apply with_pcb_upd.
Qed.

Lemma process_create_inv s q k entry arg priority :
  rep s q k → Inv q k → 0 <= priority →
  (¬ can_create k entry ∧ ∃ s' k', process_create entry arg priority s = Ret (-1) s' ∧
     rep s' q k' ∧ Inv q k' ∧ untouched k k') ∨
  (can_create k entry ∧ ∃ s' k' i, process_create entry arg priority s = Ret (next_pid k) s' ∧
     rep s' (q ++ [heap_top k]) k' ∧ Inv (q ++ [heap_top k]) k' ∧
     (∀ r, live k' r ↔ live k r ∨ r = heap_top k) ∧
     procs k' = <[heap_top k := fresh_pcb k priority]> (procs k) ∧
     ctxs k' = <[context_at k := context_init entry arg (stack_at k + 4096)]> (ctxs k) ∧
     next_pid k' = next_pid k + 1 ∧ current k' = current k ∧
     task k !! i = Some NULL ∧ (∀ j, (j < i)%nat → task k !! j ≠ Some NULL) ∧
     task k' = <[i := heap_top k]> (task k)).
Proof.
  intros Hr HI Hprio. unfold process_create, can_create.
  assert (untouched k k) as Hsame by (by split_and!).
  destruct (Z.eqb_spec entry NULL) as [->|Hentry].
  { left. split; [by intros []|]. by exists s, k. }
  rewrite bind_get. rewrite (f_equal task_count (proj2 Hr) : task_count s = task_count k).
  destruct (Z.leb_spec 64 (task_count k)) as [Htc|Htc].
  { left. split; [lia|]. by exists s, k. }
  destruct (inv_kmalloc s q k sizeof_process Hr (wf_bump _ HI))
    as [[Hf E]|(Hf & s1 & m1 & E & Hr1 & Hm1 & Hu1)]; [done|done| |]; mstep E.
  { left. split; [unfold create_size; change sizeof_process with 168 in *;
      change sizeof_context with 160; change sizeof_pt_regs with 160; lia|]. by exists s, k. }
  pose proof heap_addr_pos. pose proof (proj1 (wf_bump _ HI)).
  rewrite (proj2 (Z.eqb_neq (heap_top k) NULL)) by (unfold heap_top, NULL; lia).
  destruct (create_pcb_ok s1 q k m1 priority Hr1 HI Hprio) as (s2 & E2 & Hr2). mstep E2.
  destruct (create_alloc_ok _ _ _ _ _ entry arg HI Hr2 Hm1 Hu1)
    as [[Hfull H']|(Hfits & s3 & m3 & R & -> & Hr3 & Hok)]; [left; split; [lia|done]|].
  right. split; [done|]. cbv zeta in Hr3, Hok.
  set (C := <[context_at k := context_init entry arg (stack_at k + 4096)]> (ctxs k)) in *.
  assert (is_Some (C !! context_at k)) as HC by (unfold C; rewrite lookup_insert_eq; eauto).
  pose proof (fresh_publishable q k (fresh_pcb k priority) m3 C R HI Hok HC eq_refl eq_refl) as Hpu.
  assert (∀ y, Inv q (building k y m3 C R)) as HI3 by (intros y; by apply building_inv).
  destruct (create_publish_ok _ _ _ _ _ Hr3 HI3 Htc Hpu) as (s4 & i & E4 & Hi & Hile & Hfirst & Hr4).
  destruct (inv_publish q _ _ i (HI3 (fresh_pcb k priority)) Hpu Hi) as [HI4 Hl].
  eexists s4, _, i. split; [exact E4|]. split; [exact Hr4|]. by split_and!.
Qed.

(** ** [process_init] *)

Lemma rep_boot : rep kstate_boot [] kstate_boot.
Proof. split; [done|]. by unfold erase, strip; simpl; rewrite fmap_empty. Qed.

(** The idle process and the kernel state around it after initialisation. *)
Definition idle_pcb (k : kstate) : process :=
  Process 0 PROCESS_RUNNING 0 0 0 0 (context_at k) 0 0 0 0 0 0 NULL 0 0 0 "idle" (stack_at k) 0.

Definition kstate_init (m : mem) : kstate :=
  let k := kstate_boot in
  KState m {[heap_top k := idle_pcb k]} {[context_at k := context_zero]} ∅ 1 (heap_top k)
    (heap_top k :: replicate 63 NULL) 1 NULL NULL context_zero NULL.

Lemma kstate_init_inv m :
  Memory.bump_ok m → heap_used m = sizeof_process + 4096 + sizeof_context →
  Inv [] (kstate_init m).
Proof.
  intros Hm Hu. pose proof heap_addr_pos. set (k := kstate_init m). set (p := heap_top kstate_boot).
  assert (p = heap_addr) as Ep by (unfold p, heap_top; simpl; lia).
  assert (sizeof_process = 168 ∧ sizeof_context = 160) as [E1 E2] by done.
  assert (procs k !! p = Some (idle_pcb kstate_boot)) as Hp by apply lookup_singleton_eq.
  assert (∀ i t, task k !! i = Some t → (i = 0%nat ∧ t = p) ∨ (i ≠ 0%nat ∧ t = NULL)) as Ht.
  { intros [|i] t E; [injection E as <-; by left|right].
    change (replicate 63 NULL !! i = Some t) in E. apply lookup_replicate in E as [-> _]. done. }
  assert (∀ r, live k r ↔ r = p) as Hl.
  { intros r. split.
    - intros [[i Hi]%list_elem_of_lookup Hr]. destruct (Ht _ _ Hi) as [[_ ?]|[_ ?]]; congruence.
    - intros ->. split; [by left|]. unfold NULL. lia. }
  assert (is_Some (ctxs k !! context_at kstate_boot)) as Hc
    by (simpl; rewrite lookup_singleton_eq; eauto).
  assert (context_at kstate_boot = heap_addr + 4264) as Ec
    by (unfold context_at, stack_at; fold p; lia).
  split; constructor; try done.
  - intros i t E. destruct (Ht _ _ E) as [[-> ->]|[_ ->]]; [simpl; lia|done].
  - intros i j t Ei Ej Hn. destruct (Ht _ _ Ei) as [[-> _]|[_ ?]]; [|done].
    destruct (Ht _ _ Ej) as [[-> _]|[_ ?]]; done.
  - intros r ->%Hl. exists 0, (context_at kstate_boot). unfold psig. rewrite Hp.
    split_and!; try done. unfold NULL. lia.
  - intros r r' ? ? ? ? ? ? ->%Hl ->%Hl. done.
  - exists p, (context_at kstate_boot). split_and!; [done|unfold NULL; lia|]. unfold psig. by rewrite Hp.
  - intros r [x Hx]. unfold k in Hx. simpl in Hx. apply lookup_singleton_Some in Hx as [<- _].
    fold p. unfold heap_top. simpl. lia.
  - intros r [x Hx]. unfold k in Hx. simpl in Hx. apply lookup_singleton_Some in Hx as [<- _]. unfold heap_top. simpl. lia.
  - simpl. lia.
  - apply NoDup_nil_2.
  - by apply Hl.
  - apply not_elem_of_nil.
  - intros r. split; [by intros ?%not_elem_of_nil|].
    intros [->%Hl E]. unfold a_state in E. by rewrite Hp in E.
  - intros r ->%Hl. done.
  - intros r ->%Hl. unfold a_state. by rewrite Hp.
  - intros i [= <-]. unfold a_state. fold p. rewrite Hp. by right.
Qed.

Lemma process_init_inv :
  ∃ s m, process_init kstate_boot = Ret tt s ∧ rep s [] (kstate_init m) ∧ Inv [] (kstate_init m).
Proof.
  pose proof heap_addr_pos. pose proof rep_boot as Hr. set (k := kstate_boot) in *.
  set (p := heap_top k). assert (p = heap_addr) as Ep by (unfold p, heap_top; simpl; lia).
  assert (sizeof_process = 168 ∧ sizeof_context = 160) as [Hsp Hsc] by done.
  unfold process_init.
  destruct (inv_kmalloc k [] k sizeof_process Hr) as [[Hf _]|(_ & s1 & m1 & E1 & Hr1 & Hm1 & Hu1)];
    [done..|]. mstep E1. simpl in Hu1. fold p.
  rewrite (proj2 (Z.eqb_neq p NULL)) by (unfold NULL; lia).
  destruct (new_process_ok _ _ _ p Hr1) as (s2 & E2 & Hr2); [done|]. mstep E2.
  destruct (with_pcb_upd _ _ _ _ _ (set_p_state PROCESS_RUNNING) Hr2) as (s3 & E3 & Hr3). mstep E3.
  destruct (inv_kmalloc _ _ _ 4096 Hr3) as [[Hf _]|(_ & s4 & m4 & E4 & Hr4 & Hm4 & Hu4)];
    [done|done|done|simpl in Hf; unfold HEAP_SIZE in Hf; lia|]. mstep E4. simpl in Hu4.
  replace (heap_top _) with (stack_at k) by (unfold stack_at, heap_top; simpl; lia).
  destruct (with_pcb_upd _ _ (set_kmem m4 (set_kmem m1 k)) p _ (set_p_kernel_stack (stack_at k)) Hr4)
    as (s5 & E5 & Hr5). mstep E5.
  assert (0 < stack_at k) by (unfold stack_at; fold p; lia).
  rewrite (proj2 (Z.eqb_neq (stack_at k) NULL)) by (unfold NULL; lia).
  destruct (with_pcb_upd _ _ _ _ _ (set_p_name "idle") Hr5) as (s6 & E6 & Hr6). mstep E6.
  destruct (inv_kmalloc _ _ _ sizeof_context Hr6) as [[Hf _]|(_ & s7 & m7 & E7 & Hr7 & Hm7 & Hu7)];
    [done|done|done|simpl in Hf; unfold HEAP_SIZE in Hf; lia|]. mstep E7. simpl in Hu7.
  replace (heap_top _) with (context_at k) by (unfold context_at, stack_at, heap_top; simpl; lia).
  destruct (with_pcb_upd _ _ (set_kmem m7 (set_kmem m1 k)) p _ (set_p_context (context_at k)) Hr7)
    as (s8 & E8 & Hr8). mstep E8.
  rewrite (proj2 (Z.eqb_neq (context_at k) NULL)) by (unfold context_at, NULL; lia).
  unfold new_context. rewrite !bind_modify.
  rewrite (f_equal ctxs (proj2 Hr8) : ctxs s8 = ∅).
  apply (rep_set_ctxs _ _ _ (<[context_at k := context_zero]> ∅)) in Hr8.
  apply (rep_set_current _ _ _ p) in Hr8.
  destruct (put_task_ok _ _ _ 0 p Hr8) as (s9 & E9 & Hr9); [done|lia|]. mstep E9.
  rewrite bind_modify. apply (rep_set_task_count _ _ _ 1) in Hr9.
  eexists _, m7. split; [reflexivity|]. split; [|apply kstate_init_inv; [done|lia]].
  destruct Hr9 as [_ Hr9]. split; [done|]. 
  change (erase (set_rq_tail NULL (set_rq_head NULL ?x))) with (erase x). exact Hr9.
Qed.
End create.
