(* ===== verification/KernelSteps.v ===== *)
(** * The process subsystem as a transition system

    After [process_init] the kernel runs an arbitrary sequence of the calls of [kcall], with
    arbitrary user code between them. [kstep] is one of these calls, [reachable] the states they
    lead to; the theorems hold in every reachable state.

    Not among the calls are the functions of process.c and scheduler.c that do a part of the work
    of the others and, called alone, do not keep the PCBs and the ready queue in step:
    [scheduler_add], [scheduler_remove], [switch_to] and the setters [process_set_state] and
    [process_set_current]; and [schedule_sjf], which leaves the states of this system (Sjf.v). *)

From stdpp Require Import base numbers strings pretty gmap relations list.
From S2P Require Import Prelude.
From S2P Require Import Chain.
From S2P Require Import Memory.
From S2P Require Import Context.
From S2P Require Import ProcState.
From S2P Require Import Scheduler.
From S2P Require Import Process.
From S2P Require Import KernelInv.
From S2P Require Import ProcessOps.
From S2P Require Import ProcessCreate.

Local Open Scope Z_scope.

(** A call into the process subsystem: [process_create], [process_exit], [process_wait],
    [do_timer], [schedule], [scheduler_block] and [scheduler_wake]; [User c] is user code that
    leaves the registers [c]. *)
Inductive kcall :=
| Create (entry arg priority : Z)
| Exit (code : Z)
| Wait (pid : Z) (want : bool)
| Timer
| Schedule
| Block
| Wake (p : Z)
| User (c : context).

(** The state of the process at [p], and its pid, in a concrete kernel state. *)
Definition state_of (s : kstate) (p : Z) : option process_state := p_state <$> procs s !! p.
Definition pid_at (s : kstate) (p : Z) : option Z := p_pid <$> procs s !! p.

(** What callers respect: priorities are 32-bit, the idle process does not block itself, and
    only processes of the table are woken. *)
Definition allowed (c : kcall) (s : kstate) : Prop :=
  match c with
  | Create _ _ priority => 0 <= priority < 2 ^ 32
  | Block => pid_at s (current s) ≠ Some 0
  | Wake p => p ∈ task s ∧ p ≠ NULL
  | _ => True
  end.

Section steps.
Context `{L : Linkage}.

(** The result of a call: what it returns (0 for [void]) and what it stores through
    [exit_code]. *)
Definition run (c : kcall) : M kstate (Z * option Z) :=
  match c with
  | Create entry arg priority => pid ← process_create entry arg priority; mret (pid, None)
  | Exit code => process_exit code;; mret (0, None)
  | Wait pid want => process_wait pid want
  | Timer => do_timer;; mret (0, None)
  | Schedule => schedule;; mret (0, None)
  | Block => scheduler_block;; mret (0, None)
  | Wake p => scheduler_wake p;; mret (0, None)
  | User c => modify (set_cpu c);; mret (0, None)
  end.

Inductive kstep : kstate → kstate → Prop :=
| kstep_call c s s' : allowed c s → final (run c s) = Some s' → kstep s s'.

Definition booted (s : kstate) : Prop := process_init kstate_boot = Ret tt s.

Definition reachable (s : kstate) : Prop := ∃ s0, booted s0 ∧ rtc kstep s0 s.

(** ** One step *)

Lemma a_schedule_kinv q k q' k' :
  Inv q k → Slices k → a_schedule q k = Some (q', k') → KInvAt q' k'.
Proof.
  intros HI Hs E. destruct (a_schedule_effect _ _ _ _ HI E) as (n & q0 & _ & _ & Hc & Hsh & Hu & Hst & _).
  split; [by eapply a_schedule_inv| |].
  - eapply slices_mono; [exact Hs|]. intros p Hl. split; [by rewrite <- live_shape|].
    by apply upto_state_slice.
  - by rewrite Hst, Hc, decide_True.
Qed.

Lemma slices_upd p f k :
  Slices k → Benign f → (∀ x, slice_ok (slice x) → slice_ok (slice (f x))) → Slices (a_upd p f k).
Proof.
  intros Hs Hb Hf r v. rewrite (live_shape _ _ r (shape_upd p f k)). intros Hl.
  unfold pslice, a_upd. destruct (procs k !! p) as [x|] eqn:Hx; [|by apply Hs]. simpl.
  destruct (decide (p = r)) as [->|]; [rewrite lookup_insert_eq|rewrite lookup_insert_ne by done].
  - intros [= <-]. apply Hf, (Hs r); [done|]. unfold pslice. by rewrite Hx.
  - by apply Hs.
Qed.

Lemma slices_state p st k : Slices k → Slices (a_upd p (set_p_state st) k).
Proof. intros H. apply slices_upd; [done|apply _|done]. Qed.

Lemma rep_state s q k p : rep s q k → state_of s p = a_state k p.
Proof.
  intros [_ <-]. unfold state_of, a_state. simpl. rewrite strip_lookup. by destruct (procs s !! p).
Qed.

Lemma rep_pid s q k p : rep s q k → pid_at s p = p_pid <$> procs k !! p.
Proof.
  intros [_ <-]. unfold pid_at. simpl. rewrite strip_lookup. by destruct (procs s !! p).
Qed.

Lemma untouched_kinv q k k' : KInvAt q k → Inv q k' → untouched k k' → KInvAt q k'.
Proof.
  intros [HI Hs Hr] HI' (Et & _ & Ec & _ & _ & Hp).
  assert (∀ r, live k r → procs k' !! r = procs k !! r) as Hsame.
  { intros r Hl. apply Hp, (wf_fresh_procs _ HI), wf_lookup; [apply HI|done]. }
  split; [done| |].
  - eapply slices_mono; [exact Hs|]. unfold live. rewrite Et. intros r Hl. split; [done|].
    unfold pslice. by rewrite Hsame.
  - unfold a_state. rewrite Ec, Hsame; [done|]. apply (sc_current _ _ HI).
Qed.

Lemma slice_init prio :
  0 <= prio < 5 → slice_ok (prio, default 0 (COUNTER_INIT_VALUES !! Z.to_nat prio)).
Proof.
  intros Hp. assert (prio = 0 ∨ prio = 1 ∨ prio = 2 ∨ prio = 3 ∨ prio = 4)
    as [-> |[-> |[-> |[-> | ->]]]] by lia; vm_compute; intuition congruence.
Qed.
End steps.
