(* ===== verification/KernelSpec.v ===== *)
(** * What the process subsystem promises

    An abstract machine on process identifiers: who runs, who is ready and in which order, who
    is blocked, and the exit codes of the processes nobody has waited for. No addresses, no
    PCBs, no links. The theorem of this file is that every call of the C code is a step of the
    machine. *)

From stdpp Require Import base numbers strings pretty gmap relations list.
From S2P Require Import Prelude.
From S2P Require Import Chain.
From S2P Require Import Memory.
From S2P Require Import Context.
From S2P Require Import ProcState.
From S2P Require Import Scheduler.
From S2P Require Import Process.
From S2P Require Import KernelInv.
From S2P Require Import ProcessOps.
From S2P Require Import ProcessCreate.
From S2P Require Import KernelSteps.

Local Open Scope Z_scope.

Record aspec := ASpec {
  as_running : Z;
  as_ready : list Z;
  as_blocked : gset Z;
  as_dead : gmap Z Z;
  as_next : Z;
}.

(** What a caller sees of a call: it returns, or the CPU goes to another process. *)
Inductive obs := Returned (r : Z * option Z) | Switched.

(** Calls, with processes named by pid. *)
Inductive acall :=
| ACreate
| AExit (code : Z)
| AWait (pid : Z) (want : bool)
| ATimer
| ASchedule
| ABlock
| AWake (pid : Z)
| AUser.

Definition void : obs := Returned (0, None).

(** The process at the head of the ready list gets the CPU. *)
Definition rotate (a : aspec) (n : Z) (q : list Z) : aspec :=
  ASpec n (q ++ [as_running a]) (as_blocked a) (as_dead a) (as_next a).
Definition park (a : aspec) (n : Z) (q : list Z) : aspec :=
  ASpec n q ({[as_running a]} ∪ as_blocked a) (as_dead a) (as_next a).

Inductive aspec_step (a : aspec) : acall → obs → aspec → Prop :=
| as_created :
    aspec_step a ACreate (Returned (as_next a, None))
      (ASpec (as_running a) (as_ready a ++ [as_next a]) (as_blocked a) (as_dead a) (as_next a + 1))
| as_refused n : as_next a <= n →
    aspec_step a ACreate (Returned (-1, None))
      (ASpec (as_running a) (as_ready a) (as_blocked a) (as_dead a) n)
| as_exit_idle code : as_running a = 0 → aspec_step a (AExit code) void a
| as_exit code n q ws : as_running a ≠ 0 → as_ready a = n :: q →
    NoDup ws → (∀ pid, (pid ∈ ws) ↔ (pid ∈ as_blocked a)) →
    aspec_step a (AExit code) Switched
      (ASpec n (q ++ ws) ∅ (<[as_running a := code]> (as_dead a)) (as_next a))
| as_wait_refused pid want :
    (as_running a = 0 ∨ as_running a = pid ∨
      ((pid ∉ as_ready a) ∧ (pid ∉ as_blocked a) ∧ as_dead a !! pid = None)) →
    aspec_step a (AWait pid want) (Returned (-1, None)) a
| as_wait_dead pid want code : as_running a ≠ 0 → as_dead a !! pid = Some code →
    aspec_step a (AWait pid want) (Returned (0, if want then Some code else None))
      (ASpec (as_running a) (as_ready a) (as_blocked a) (delete pid (as_dead a)) (as_next a))
| as_wait_block pid want n q : as_running a ≠ 0 → as_running a ≠ pid →
    (pid ∈ as_ready a ∨ pid ∈ as_blocked a) → as_ready a = n :: q →
    aspec_step a (AWait pid want) Switched (park a n q)
| as_tick : aspec_step a ATimer void a
| as_tick_switch n q : as_ready a = n :: q → aspec_step a ATimer Switched (rotate a n q)
| as_schedule_alone : as_ready a = [] → aspec_step a ASchedule void a
| as_schedule n q : as_ready a = n :: q → aspec_step a ASchedule Switched (rotate a n q)
| as_block n q : as_running a ≠ 0 → as_ready a = n :: q →
    aspec_step a ABlock Switched (park a n q)
| as_wake pid : pid ∈ as_blocked a →
    aspec_step a (AWake pid) void
      (ASpec (as_running a) (as_ready a ++ [pid]) (as_blocked a ∖ {[pid]}) (as_dead a) (as_next a))
| as_wake_other pid : pid ∉ as_blocked a → aspec_step a (AWake pid) void a
| as_user : aspec_step a AUser void a.

(** The abstract call a concrete one stands for, and what is seen of its outcome. *)
Definition acall_of (s : kstate) (c : kcall) : acall :=
  match c with
  | Create _ _ _ => ACreate
  | Exit code => AExit code
  | Wait pid want => AWait pid want
  | Timer => ATimer
  | Schedule => ASchedule
  | Block => ABlock
  | Wake p => AWake (default 0 (pid_at s p))
  | User _ => AUser
  end.

Definition observe (o : outcome kstate (Z * option Z)) : option (obs * kstate) :=
  match o with
  | Ret r s => Some (Returned r, s)
  | Jump s => Some (Switched, s)
  | _ => None
  end.

(** After initialisation only the idle process exists. *)
Definition aspec_init : aspec := ASpec 0 [] ∅ ∅ 1.

Section spec.
Context `{L : Linkage}.

(** The pids of the live processes in state [st]. *)
Definition in_state (k : kstate) (st : process_state) (pid p : Z) : Prop :=
  live k p ∧ pid_of k p = pid ∧ a_state k p = Some st.
Definition exit_code_of (k : kstate) (p : Z) : option Z := p_exit_code <$> procs k !! p.

Record view (a : aspec) (q : list Z) (k : kstate) : Prop := {
  v_running : as_running a = pid_of k (current k);
  v_ready : as_ready a = pid_of k <$> q;
  v_blocked pid : pid ∈ as_blocked a ↔ ∃ p, in_state k PROCESS_BLOCKED pid p;
  v_dead pid code : as_dead a !! pid = Some code ↔
    ∃ p, in_state k PROCESS_TERMINATED pid p ∧ exit_code_of k p = Some code;
  v_next : as_next a = next_pid k;
}.

(** The simulation relation. *)
Definition models (s : kstate) (a : aspec) : Prop :=
  ∃ q k, rep s q k ∧ KInvAt q k ∧ view a q k.

Lemma pid_inj k p p' : Wf k → live k p → live k p' → pid_of k p = pid_of k p' → p = p'.
Proof.
  intros Hw Hp Hp' E. destruct (wf_pcb _ Hw _ Hp) as (pid & c & Hs & _).
  destruct (wf_pcb _ Hw _ Hp') as (pid' & c' & Hs' & _).
  apply (wf_inj _ Hw _ _ _ _ _ _ _ _ Hp Hp' Hs Hs'). left.
  by rewrite <- (pid_of_sig _ _ _ _ _ Hs), <- (pid_of_sig _ _ _ _ _ Hs').
Qed.

Lemma pid_of_shape k k' p : shape_equiv k' k → pid_of k' p = pid_of k p.
Proof.
  intros (_ & _ & _ & _ & H & _). specialize (H p). unfold psig, pid_of, sig in *.
  destruct (procs k' !! p), (procs k !! p); simplify_eq/=; congruence.
Qed.

(** Same processes, same pids. *)
Record same_procs (k k' : kstate) : Prop := {
  sp_live p : live k' p ↔ live k p;
  sp_pid p : live k p → pid_of k' p = pid_of k p;
}.

Lemma same_procs_shape k k' : shape_equiv k' k → same_procs k k'.
Proof. intros H. split; intros p; [by rewrite live_shape|intros _; by apply pid_of_shape]. Qed.

Lemma in_state_same k k' st pid p :
  same_procs k k' → (live k p → a_state k' p = Some st ↔ a_state k p = Some st) →
  in_state k' st pid p ↔ in_state k st pid p.
Proof.
  intros [Hl Hp] Hs. unfold in_state. rewrite Hl. split; intros (H1 & H2 & H3);
    (split; [done|]); rewrite Hp in * by done; (split; [done|]); by apply Hs.
Qed.

Lemma map_pid_same k k' (q : list Z) :
  same_procs k k' → (∀ p, p ∈ q → live k p) → pid_of k' <$> q = pid_of k <$> q.
Proof. intros [_ H] Hq. apply list_fmap_ext. intros i p Hi. apply H, Hq. by eapply list_elem_of_lookup_2. Qed.

(** Scheduling among the same processes. *)
Lemma view_moved a q k q' k' :
  view a q k → same_procs k k' → next_pid k' = next_pid k →
  (∀ r, live k r → exit_code_of k' r = exit_code_of k r) →
  (∀ r st, live k r → st = PROCESS_BLOCKED ∨ st = PROCESS_TERMINATED →
     a_state k' r = Some st ↔ a_state k r = Some st) →
  live k (current k') → (∀ p, p ∈ q' → live k p) →
  view (ASpec (pid_of k (current k')) (pid_of k <$> q') (as_blocked a) (as_dead a) (as_next a)) q' k'.
Proof.
  intros [Hr Hq Hb Hd Hn] Hsame En Hex Hst Hc Hq'. constructor; simpl.
  - symmetry. by apply Hsame.
  - symmetry. by apply map_pid_same.
  - intros pid. rewrite Hb. apply exist_proper. intros p.
    rewrite (in_state_same k k'); [done|done|]. intros. apply Hst; auto.
  - intros pid code. rewrite Hd. apply exist_proper. intros p.
    rewrite (in_state_same k k'); [|done|intros; apply Hst; auto].
    split; intros [H1 H2]; (split; [done|]); [rewrite Hex|rewrite <- Hex]; try done; apply H1.
  - by rewrite Hn.
Qed.

(** The step a call has to make, from the outcome of the call. *)
Definition simulated (a : aspec) (c : acall) (o : outcome kstate (Z * option Z)) : Prop :=
  ∃ ob s' a', observe o = Some (ob, s') ∧ aspec_step a c ob a' ∧ models s' a'.

Lemma simulated_ret a c r s q k a' :
  aspec_step a c (Returned r) a' → rep s q k → KInvAt q k → view a' q k → simulated a c (Ret r s).
Proof. intros. exists (Returned r), s, a'. split_and!; [done..|]. by exists q, k. Qed.

Lemma simulated_jump a c s q k a' :
  aspec_step a c Switched a' → rep s q k → KInvAt q k → view a' q k → simulated a c (Jump s).
Proof. intros. exists Switched, s, a'. split_and!; [done..|]. by exists q, k. Qed.

Lemma queue_live q k p : Inv q k → p ∈ q → live k p.
Proof. intros [_ Hs] Hp. by apply (sc_queue _ _ Hs). Qed.

(** The FIFO policy on pids: the head of the queue runs; the running process, if it still is
    one, goes to the back. *)
Lemma view_schedule a q k q' k' :
  Inv q k → view a q k → a_schedule q k = Some (q', k') →
  ∃ n ns, as_ready a = n :: ns ∧
    view (ASpec n (if bool_decide (a_state k (current k) = Some PROCESS_RUNNING)
                   then ns ++ [as_running a] else ns)
            (as_blocked a) (as_dead a) (as_next a)) q' k'.
Proof.
  intros HI Hv E.
  destruct (a_schedule_effect _ _ _ _ HI E) as (n & q0 & -> & Hne & Hc & Hsh & Hu & Hst & ->).
  exists (pid_of k n), (pid_of k <$> q0). split; [apply Hv|].
  set (q1 := if bool_decide _ then q0 ++ [current k] else q0).
  pose proof (sc_queue _ _ HI n) as Hqn.
  assert (live k n ∧ a_state k n = Some PROCESS_READY) as [Hln Hsn] by (apply Hqn; by left).
  assert (∀ p, p ∈ q1 → live k p) as Hq1.
  { intros p Hp. assert (p ∈ q0 ∨ p = current k) as [Hp'| ->].
    { revert Hp. unfold q1. case_bool_decide; intros Hp; [|by left].
      by apply elem_of_app in Hp as [?|?%list_elem_of_singleton]; [left|right]. }
    - eapply queue_live; [done|by right].
    - apply (sc_current _ _ HI). }
  replace (if bool_decide _ then _ else _) with (pid_of k <$> q1).
  2:{ unfold q1. rewrite (v_running _ _ _ Hv). destruct (bool_decide _); [|done].
      by rewrite fmap_app. }
  rewrite <- Hc. eapply view_moved; [done|by apply same_procs_shape| | | |by rewrite Hc|done].
  - apply Hsh.
  - intros r _. by apply upto_state_exit_code.
  - intros r st Hl Hbt. rewrite Hst. destruct (decide (n = r)) as [<-|].
    { rewrite Hsn. destruct Hbt as [-> | ->]; done. }
    destruct (bool_decide_reflect (a_state k (current k) = Some PROCESS_RUNNING)) as [Hrun|]; [|done].
    simpl. case_bool_decide as Er; [|done]. subst r. rewrite Hrun. destruct Hbt as [-> | ->]; done.
Qed.

(** The running process blocks. *)
Lemma view_block a q k :
  Inv q k → view a q k → a_state k (current k) = Some PROCESS_RUNNING →
  view (ASpec (as_running a) (as_ready a) ({[as_running a]} ∪ as_blocked a) (as_dead a) (as_next a))
    q (a_upd (current k) (set_p_state PROCESS_BLOCKED) k).
Proof.
  intros HI [Hr Hq Hb Hd Hn] Hrun. set (k1 := a_upd _ _ k). set (c := current k) in *.
  assert (shape_equiv k1 k) as Hsh by (apply shape_upd, _).
  pose proof (same_procs_shape _ _ Hsh) as Hsame.
  assert (∀ r, a_state k1 r = if decide (c = r) then Some PROCESS_BLOCKED else a_state k r) as Hst
    by (intros r; apply a_state_upd, (inv_current_lookup _ _ HI)).
  assert (live k c) as Hlc by apply (sc_current _ _ HI).
  constructor; simpl.
  - unfold k1. rewrite current_upd. rewrite Hr. symmetry. by apply Hsame.
  - rewrite Hq. symmetry. apply map_pid_same; [done|]. intros p. by apply queue_live.
  - intros pid. rewrite elem_of_union, elem_of_singleton, Hb, Hr. unfold in_state. split.
    + intros [-> |(p & Hl & Hp & Hs)].
      * exists c. by rewrite (sp_live _ _ Hsame), (sp_pid _ _ Hsame), Hst, decide_True.
      * exists p. rewrite (sp_live _ _ Hsame), (sp_pid _ _ Hsame), Hst by done.
        split_and!; [done..|]. by destruct (decide (c = p)).
    + intros (p & Hl & Hp & Hs). rewrite (sp_live _ _ Hsame) in Hl.
      rewrite (sp_pid _ _ Hsame) in Hp by done. rewrite Hst in Hs.
      destruct (decide (c = p)) as [<-|]; [by left|right; by exists p].
  - intros pid code. rewrite Hd. apply exist_proper. intros p.
    rewrite (in_state_same k k1); [|done|].
    2:{ intros _. rewrite Hst. destruct (decide (c = p)) as [<-|]; [by rewrite Hrun|done]. }
    unfold exit_code_of.
    by rewrite (upto_state_exit_code k k1 p) by (by apply upto_state_upd).
  - rewrite Hn. symmetry. apply Hsh.
Qed.

(** The running process parks itself and the dispatcher takes over. *)
Lemma view_park a q k q' k' :
  KInvAt q k → view a q k → pid_of k (current k) ≠ 0 →
  a_schedule q (a_upd (current k) (set_p_state PROCESS_BLOCKED) k) = Some (q', k') →
  ∃ n ns, as_ready a = n :: ns ∧ view (park a n ns) q' k' ∧ KInvAt q' k'.
Proof.
  intros HI Hv Hp Ea. pose proof (current_not_idle q k HI Hp) as Hni.
  pose proof (inv_stop q k PROCESS_BLOCKED HI ltac:(by left) Hni) as HI1.
  pose proof (view_block a q k HI Hv (ki_running _ _ HI)) as Hv1.
  destruct (view_schedule _ _ _ _ _ HI1 Hv1 Ea) as (n & ns & En & Hv').
  rewrite bool_decide_false in Hv'.
  2:{ rewrite current_upd, a_state_upd, decide_True; [done|done|].
      apply (inv_current_lookup _ _ HI). }
  exists n, ns. split_and!; [done|done|].
  eapply a_schedule_kinv; [done|apply slices_state, (ki_slices _ _ HI)|exact Ea].
Qed.

Lemma sim_block a s q k :
  rep s q k → KInvAt q k → view a q k → pid_of k (current k) ≠ 0 →
  simulated a ABlock ((scheduler_block;; mret (0, None)) s).
Proof.
  intros Hr HI Hv Hp. pose proof (current_not_idle q k HI Hp) as Hni.
  destruct (scheduler_block_inv s q k Hr HI Hni) as (s' & q' & k' & Ea & E & Hr' & _).
  rewrite (bind_jump _ _ _ _ E).
  destruct (view_park _ _ _ _ _ HI Hv Hp Ea) as (n & ns & En & Hv' & HI').
  eapply simulated_jump; [|done|done|done]. apply as_block; [|done].
  by rewrite (v_running _ _ _ Hv).
Qed.

(** Dispatching a running process rotates the queue. *)
Lemma view_rotate a q k q' k' :
  KInvAt q k → view a q k → a_schedule q k = Some (q', k') →
  ∃ n ns, as_ready a = n :: ns ∧ view (rotate a n ns) q' k' ∧ KInvAt q' k'.
Proof.
  intros HI Hv Ea. destruct (view_schedule _ _ _ _ _ HI Hv Ea) as (n & ns & En & Hv').
  rewrite bool_decide_true in Hv' by apply (ki_running _ _ HI). exists n, ns. split_and!; [done..|].
  eapply a_schedule_kinv; [apply HI|apply (ki_slices _ _ HI)|done].
Qed.

Lemma sim_schedule a s q k :
  rep s q k → KInvAt q k → view a q k → simulated a ASchedule ((schedule;; mret (0, None)) s).
Proof.
  intros Hr HI Hv. destruct (schedule_inv s q k Hr HI) as [[-> E]|(s' & q' & k' & Ea & E & Hr' & _)].
  - mstep E. eapply simulated_ret; [|done|done|done]. apply as_schedule_alone.
    by rewrite (v_ready _ _ _ Hv).
  - rewrite (bind_jump _ _ _ _ E). destruct (view_rotate _ _ _ _ _ HI Hv Ea) as (n & ns & En & Hv' & HI').
    eapply simulated_jump; [|done|done|done]. by apply as_schedule.
Qed.

(** Updates of the counters of a process are not observable. *)
Lemma view_quiet a q k p f `{!Benign f, !Quiet f} :
  (∀ x, p_exit_code (f x) = p_exit_code x) → Inv q k → view a q k → view a q (a_upd p f k).
Proof.
  intros Hf HI Hv. assert (shape_equiv (a_upd p f k) k) as Hsh by (apply shape_upd, _).
  pose proof (same_procs_shape _ _ Hsh) as Hsame. 
  replace a with (ASpec (pid_of k (current (a_upd p f k))) (pid_of k <$> q) (as_blocked a)
    (as_dead a) (as_next a)) by (rewrite current_upd; destruct a, Hv; simpl in *; congruence).
  eapply view_moved; [done|done|apply Hsh| | | |].
  - intros r _. unfold exit_code_of, a_upd. destruct (procs k !! p) as [x|] eqn:Hx; [|done]. simpl.
    destruct (decide (p = r)) as [<-|]; [rewrite lookup_insert_eq, Hx|by rewrite lookup_insert_ne].
    simpl. by rewrite Hf.
  - intros r st _ _. by rewrite a_state_quiet by apply _.
  - rewrite current_upd. apply (sc_current _ _ HI).
  - intros r. by apply queue_live.
Qed.

Lemma sim_timer a s q k :
  rep s q k → KInvAt q k → view a q k → simulated a ATimer ((do_timer;; mret (0, None)) s).
Proof.
  intros Hr HI Hv. destruct (do_timer_inv s q k Hr HI) as (x & k1 & Hx & Ek1 & H).
  assert (slice_ok (slice x)) as [_ [Hpos Hle]].
  { apply (ki_slices _ _ HI (current k)); [apply (sc_current _ _ HI)|]. unfold pslice. by rewrite Hx. }
  specialize (H Hpos).
  assert (view a q k1 ∧ KInvAt q k1) as [Hv1 HI1].
  { subst k1. split.
    - apply view_quiet; [apply _..|done| |].
      + apply inv_quiet; [apply _..|apply HI].
      + apply view_quiet; [apply _..|done|apply HI|done].
    - split.
      + apply inv_quiet; [apply _..|]. apply inv_quiet; [apply _..|apply HI].
      + apply slices_upd; [|apply _|].
        * apply slices_upd; [apply (ki_slices _ _ HI)|apply _|done].
        * intros y [Hy1 _]. unfold slice_ok in *; simpl in *. lia.
      + rewrite !current_upd, !a_state_quiet by apply _. apply (ki_running _ _ HI). }
  destruct (decide _).
  - destruct H as [(-> & s' & E & Hr' & _)|(s' & q' & k' & Ea & E & Hr' & _)].
    + mstep E. eapply simulated_ret; [apply as_tick|done|done|done].
    + rewrite (bind_jump _ _ _ _ E).
      destruct (view_rotate _ _ _ _ _ HI1 Hv1 Ea) as (n & ns & En & Hv' & HI').
      eapply simulated_jump; [by apply as_tick_switch|done|done|done].
  - destruct H as (s' & E & Hr' & _). mstep E. eapply simulated_ret; [apply as_tick|done|done|done].
Qed.

Lemma blocked_iff a q k p :
  Inv q k → view a q k → live k p → pid_of k p ∈ as_blocked a ↔ a_state k p = Some PROCESS_BLOCKED.
Proof.
  intros HI Hv Hl. rewrite (v_blocked _ _ _ Hv). split.
  - intros (p' & Hl' & Ep & Hs). by rewrite (pid_inj k p p') by (done || apply HI).
  - intros Hs. by exists p.
Qed.

Lemma dead_iff a q k p code :
  Inv q k → view a q k → live k p →
  as_dead a !! pid_of k p = Some code ↔
    a_state k p = Some PROCESS_TERMINATED ∧ exit_code_of k p = Some code.
Proof.
  intros HI Hv Hl. rewrite (v_dead _ _ _ Hv). split.
  - intros (p' & (Hl' & Ep & Hs) & Hc). by rewrite (pid_inj k p p') by (done || apply HI).
  - intros [Hs Hc]. by exists p.
Qed.

Lemma ready_iff a q k p :
  Inv q k → view a q k → live k p → pid_of k p ∈ as_ready a ↔ a_state k p = Some PROCESS_READY.
Proof.
  intros HI Hv Hl. rewrite (v_ready _ _ _ Hv), list_elem_of_fmap. split.
  - intros (p' & Ep & Hq). pose proof (queue_live _ _ _ HI Hq) as Hl'.
    rewrite (pid_inj k p p') by (done || apply HI). by apply (sc_queue _ _ HI).
  - intros Hs. exists p. split; [done|]. by apply (sc_queue _ _ HI).
Qed.

(** A pid the machine knows belongs to a live process. *)
Lemma known_pid a q k pid :
  Inv q k → view a q k →
  pid ∈ as_ready a ∨ pid ∈ as_blocked a ∨ is_Some (as_dead a !! pid) → ∃ p, live k p ∧ pid_of k p = pid.
Proof.
  intros HI Hv [H|[H|[code H]]].
  - rewrite (v_ready _ _ _ Hv), list_elem_of_fmap in H. destruct H as (p & -> & Hp).
    exists p. split; [by eapply queue_live|done].
  - apply (v_blocked _ _ _ Hv) in H as (p & ? & ? & _). by exists p.
  - apply (v_dead _ _ _ Hv) in H as (p & (? & ? & _) & _). by exists p.
Qed.

Lemma view_wake a q k p :
  Inv q k → view a q k → live k p → a_state k p = Some PROCESS_BLOCKED →
  view (ASpec (as_running a) (as_ready a ++ [pid_of k p]) (as_blocked a ∖ {[pid_of k p]})
          (as_dead a) (as_next a))
    (q ++ [p]) (a_upd p (set_p_state PROCESS_READY) k).
Proof.
  intros HI Hv Hl Hb. set (k1 := a_upd _ _ k).
  assert (shape_equiv k1 k) as Hsh by (apply shape_upd, _).
  pose proof (same_procs_shape _ _ Hsh) as Hsame.
  assert (∀ r, a_state k1 r = if decide (p = r) then Some PROCESS_READY else a_state k r) as Hst
    by (intros r; apply a_state_upd, wf_lookup; [apply HI|done]).
  constructor; simpl.
  - unfold k1. rewrite current_upd, (v_running _ _ _ Hv). symmetry. apply Hsame, (sc_current _ _ HI).
  - rewrite map_pid_same with (k := k); [by rewrite fmap_app, (v_ready _ _ _ Hv)|done|].
    intros r [Hr|Hr%list_elem_of_singleton]%elem_of_app; [by eapply queue_live|by subst].
  - intros pid. rewrite elem_of_difference, elem_of_singleton, (v_blocked _ _ _ Hv).
    unfold in_state. setoid_rewrite (sp_live _ _ Hsame). split.
    + intros [(r & Hlr & Er & Hs) Hne]. exists r. rewrite (sp_pid _ _ Hsame), Hst by done.
      split_and!; [done..|]. rewrite decide_False; [done|congruence].
    + intros (r & Hlr & Er & Hs). rewrite (sp_pid _ _ Hsame) in Er by done. rewrite Hst in Hs.
      destruct (decide (p = r)) as [|Hne]; [done|]. split; [by exists r|].
      intros ->. apply Hne. apply (pid_inj k); [apply HI|done..].
  - intros pid code. rewrite (v_dead _ _ _ Hv). apply exist_proper. intros r.
    rewrite (in_state_same k k1); [|done|].
    2:{ intros _. rewrite Hst. destruct (decide (p = r)) as [<-|]; [by rewrite Hb|done]. }
    unfold exit_code_of. by rewrite (upto_state_exit_code k k1 r) by (by apply upto_state_upd).
  - rewrite (v_next _ _ _ Hv). symmetry. apply Hsh.
Qed.

(** Waking a process in any other state, the running one included, does nothing. *)
Lemma scheduler_wake_other s q k p :
  rep s q k → Wf k → live k p → a_state k p ≠ Some PROCESS_BLOCKED → scheduler_wake p s = Ret tt s.
Proof.
  intros Hr Hw Hl Hs. unfold scheduler_wake. destruct (wf_lookup _ _ Hw Hl) as [y Hy].
  destruct (rep_get_proc _ _ _ _ _ Hr Hy) as (x & Ex & ->).
  destruct (Z.eqb_spec p NULL); [done|]. mstep Ex.
  rewrite bool_decide_false; [done|]. intros E. apply Hs. unfold a_state. rewrite Hy. simpl. congruence.
Qed.

Lemma sim_wake a s q k p :
  rep s q k → KInvAt q k → view a q k → live k p →
  simulated a (AWake (pid_of k p)) ((scheduler_wake p;; mret (0, None)) s).
Proof.
  intros Hr HI Hv Hl. destruct (decide (a_state k p = Some PROCESS_BLOCKED)) as [Hb|Hb].
  - assert (p ≠ current k) as Hne by (intros ->; rewrite (ki_running _ _ HI) in Hb; done).
    destruct (scheduler_wake_inv s q k p Hr HI Hl Hne) as (s' & E & Hr' & HI'). mstep E.
    unfold a_wake in Hr', HI'. rewrite bool_decide_true in Hr', HI' by done. simpl in Hr', HI'.
    eapply simulated_ret; [|done| |by apply (view_wake a q k p HI)].
    + apply as_wake. by apply (blocked_iff a q k p HI).
    + split; [done|apply slices_state, (ki_slices _ _ HI)|].
      rewrite current_upd, a_state_upd, decide_False by (done || by apply wf_lookup; [apply HI|]).
      apply (ki_running _ _ HI).
  - mstep (scheduler_wake_other s q k p Hr (inv_wf _ _ HI) Hl Hb).
    eapply simulated_ret; [apply as_wake_other|done|done|done]. by rewrite (blocked_iff a q k p HI).
Qed.

Lemma view_reap a q k k' t :
  Inv q k → view a q k → (∀ p, live k' p ↔ live k p ∧ p ≠ t) → procs k' = procs k →
  current k' = current k → next_pid k' = next_pid k → live k t →
  a_state k t = Some PROCESS_TERMINATED →
  view (ASpec (as_running a) (as_ready a) (as_blocked a) (delete (pid_of k t) (as_dead a)) (as_next a))
    q k'.
Proof.
  intros HI Hv Hl' Ep Ec En Hl Ht.
  assert (∀ p, pid_of k' p = pid_of k p ∧ a_state k' p = a_state k p ∧
    exit_code_of k' p = exit_code_of k p) as Hsame
    by (intros p; unfold pid_of, a_state, exit_code_of; by rewrite Ep).
  constructor; simpl.
  - rewrite Ec, (v_running _ _ _ Hv). symmetry. apply Hsame.
  - rewrite (v_ready _ _ _ Hv). apply list_fmap_ext. intros i p _. symmetry. apply Hsame.
  - intros pid. rewrite (v_blocked _ _ _ Hv). apply exist_proper. intros p. unfold in_state.
    destruct (Hsame p) as (-> & -> & _). rewrite Hl'. split; [|tauto].
    intros (? & ? & E). split_and!; try done. intros ->. congruence.
  - intros pid code. rewrite lookup_delete_Some, (v_dead _ _ _ Hv). unfold in_state. split.
    + intros [Hne (p & (Hlp & Epid & Hs) & Hc)]. exists p. destruct (Hsame p) as (-> & -> & ->).
      rewrite Hl'. split_and!; try done. intros ->. by apply Hne.
    + intros (p & ([Hlp Hpt]%Hl' & Epid & Hs) & Hc). destruct (Hsame p) as (E1 & E2 & E3).
      rewrite E1, E2, E3 in *. split; [|by exists p]. intros E. apply Hpt.
      apply (pid_inj k); [apply HI|done|done|congruence].
  - by rewrite (v_next _ _ _ Hv).
Qed.

Lemma sim_wait a s q k pid want :
  rep s q k → KInvAt q k → view a q k → simulated a (AWait pid want) (process_wait pid want s).
Proof.
  intros Hr HI Hv. destruct (process_wait_inv s q k pid want Hr HI)
    as [[-> Hwhy]|(t & x & Hl & Hp & Hne & Hnz & Hx & H)].
  { eapply simulated_ret; [apply as_wait_refused|done|done|done].
    rewrite (v_running _ _ _ Hv). destruct Hwhy as [?|[?|Hno]]; [by auto..|]. right; right.
    assert (¬ (pid ∈ as_ready a ∨ pid ∈ as_blocked a ∨ is_Some (as_dead a !! pid))) as Hk
      by (intros Hk; destruct (known_pid _ _ _ _ HI Hv Hk) as (p & Hp & Ep); by eapply Hno).
    split_and!; [tauto..|]. apply eq_None_not_Some. tauto. }
  assert (as_running a ≠ 0) as Hrun by (by rewrite (v_running _ _ _ Hv)).
  assert (a_state k t = Some (p_state x)) as Hst by (unfold a_state; by rewrite Hx).
  destruct (bool_decide_reflect (p_state x = PROCESS_TERMINATED)) as [Ht|Ht].
  - destruct H as (s' & k' & -> & Hr' & HI' & Hl' & Ep & Ec & En).
    eapply simulated_ret; [apply as_wait_dead; [done|]|done| |].
    + rewrite <- Hp. apply (dead_iff a q k t _ HI); [done|done|].
      split; [congruence|]. unfold exit_code_of. by rewrite Hx.
    + split; [done| |].
      * eapply slices_mono; [apply (ki_slices _ _ HI)|]. intros r [Hr0 _]%Hl'.
        unfold pslice. by rewrite Ep.
      * unfold a_state. rewrite Ep, Ec. apply (ki_running _ _ HI).
    + rewrite <- Hp. apply (view_reap a q k); [apply HI|done..|congruence].
  - destruct H as (s' & q' & k' & Ea & -> & Hr' & _).
    destruct (view_park _ _ _ _ _ HI Hv Hnz Ea) as (n & ns & En & Hv' & HI').
    eapply simulated_jump; [|done|done|done]. apply as_wait_block; [done| | |done].
    + rewrite (v_running _ _ _ Hv), <- Hp. intros E. apply Hne. symmetry.
      apply (pid_inj k); [apply HI|apply (sc_current _ _ HI)|done|done].
    + rewrite <- Hp, (ready_iff a q k t HI), (blocked_iff a q k t HI) by done.
      pose proof (sc_created _ _ HI t Hl) as Hcr. pose proof (sc_running _ _ HI t Hl) as Hr2.
      rewrite Hst in *. destruct (p_state x); auto; [done|exfalso; auto|done].
Qed.

(** The states after an exit, as [process_exit_inv] describes them. *)
Definition exit_states (k k' : kstate) (n : Z) : Prop := ∀ r, live k r → a_state k' r =
  if decide (current k = r) then Some PROCESS_TERMINATED
  else if decide (n = r) then Some PROCESS_RUNNING
  else if decide (a_state k r = Some PROCESS_BLOCKED) then Some PROCESS_READY
  else a_state k r.

(** The processes appended to the queue by an exit are the blocked ones. *)
Lemma exit_woken n q0 ws k k' :
  KInvAt (n :: q0) k → Inv (q0 ++ ws) k' → same_procs k k' → exit_states k k' n →
  ∀ p, p ∈ ws ↔ live k p ∧ a_state k p = Some PROCESS_BLOCKED.
Proof.
  intros HI HI' Hsame Hst p.
  pose proof (sc_nodup _ _ HI') as (_ & Hdis & _)%NoDup_app.
  pose proof (sc_queue _ _ HI' p) as Hq'. pose proof (sc_queue _ _ HI p) as Hq.
  assert (a_state k n = Some PROCESS_READY) as Hsn by (apply (sc_queue _ _ HI); by left).
  rewrite elem_of_cons in Hq. rewrite elem_of_app, (sp_live _ _ Hsame) in Hq'.
  destruct (decide (live k p)) as [Hl|Hl]; [|split; [tauto|by intros [? _]]].
  rewrite (Hst p Hl) in Hq'. pose proof (ki_running _ _ HI) as Hrun.
  destruct (decide (current k = p)) as [<-|].
  { split; [intros Hp|intros [_ ?]; congruence]. by destruct (proj1 Hq' (or_intror Hp)). }
  destruct (decide (n = p)) as [<-|].
  { split; [intros Hp|intros [_ ?]; congruence]. by destruct (proj1 Hq' (or_intror Hp)). }
  destruct (decide (a_state k p = Some PROCESS_BLOCKED)) as [Hb|Hb].
  - split; [done|]. intros _. destruct (proj2 Hq' (conj Hl eq_refl)) as [Hp|]; [|done].
    destruct (proj1 Hq (or_intror Hp)). congruence.
  - split; [|tauto]. intros Hp. exfalso. destruct (proj1 Hq' (or_intror Hp)) as [_ Hs].
    destruct (proj2 Hq (conj Hl Hs)) as [->|Hp']; [done|]. by eapply Hdis.
Qed.

Lemma view_exit a n q0 ws k k' code :
  KInvAt (n :: q0) k → view a (n :: q0) k → Inv (q0 ++ ws) k' → current k' = n →
  exit_effect (current k) code k k' → exit_states k k' n →
  view (ASpec (pid_of k n) ((pid_of k <$> q0) ++ (pid_of k <$> ws)) ∅
          (<[as_running a := code]> (as_dead a)) (as_next a)) (q0 ++ ws) k'.
Proof.
  intros HI Hv HI' Hc [Hsh Hex _] Hst. pose proof (same_procs_shape _ _ Hsh) as Hsame.
  assert (live k (current k)) as Hlc by apply (sc_current _ _ HI).
  assert (live k n ∧ a_state k n = Some PROCESS_READY) as [Hln Hsn] by (apply (sc_queue _ _ HI); by left).
  constructor; simpl.
  - rewrite Hc. symmetry. by apply Hsame.
  - rewrite <- fmap_app. symmetry. apply map_pid_same; [done|].
    intros p Hp. by apply (sp_live _ _ Hsame), (queue_live _ _ _ HI').
  - intros pid. split; [by intros ?%elem_of_empty|]. intros (p & Hl & _ & Hs). exfalso.
    rewrite (sp_live _ _ Hsame) in Hl. rewrite (Hst p Hl) in Hs. by repeat case_decide.
  - intros pid cd. rewrite lookup_insert_Some, (v_running _ _ _ Hv), (v_dead _ _ _ Hv).
    unfold in_state, exit_code_of. setoid_rewrite (sp_live _ _ Hsame). setoid_rewrite Hex. split.
    + intros [[<- <-]|[Hne (p & (Hl & Ep & Hs) & Hcd)]].
      * exists (current k). rewrite (sp_pid _ _ Hsame), Hst, !decide_True by done. done.
      * exists p. rewrite (sp_pid _ _ Hsame), Hst by done.
        rewrite !(decide_False (P := current k = p)) by congruence.
        rewrite decide_False by congruence. rewrite decide_False by congruence. done.
    + intros (p & (Hl & Ep & Hs) & Hcd). rewrite (sp_pid _ _ Hsame) in Ep by done.
      rewrite Hst in Hs by done. destruct (decide (current k = p)) as [<-|Hne]; [left; naive_solver|].
      right. split; [intros <-; apply Hne; by apply (pid_inj k); [apply HI|..]|].
      exists p. repeat case_decide; done.
  - rewrite (v_next _ _ _ Hv). symmetry. apply Hsh.
Qed.

Lemma sim_exit a s q k code :
  rep s q k → KInvAt q k → view a q k →
  simulated a (AExit code) ((process_exit code;; mret (0, None)) s).
Proof.
  intros Hr HI Hv. destruct (decide (pid_of k (current k) = 0)) as [E|E].
  { mstep (process_exit_idle _ _ _ code Hr HI E).
    eapply simulated_ret; [apply as_exit_idle|done|done|done]. by rewrite (v_running _ _ _ Hv). }
  destruct (process_exit_inv s q k code Hr HI E)
    as (s' & n & q0 & ws & k' & Ex & -> & Hr' & HI' & Hc & Heff & Hst).
  rewrite (bind_jump _ _ _ _ Ex). pose proof (ee_shape _ _ _ _ Heff) as Hsh.
  pose proof (same_procs_shape _ _ Hsh) as Hsame.
  pose proof (exit_woken _ _ _ _ _ HI HI' Hsame Hst) as Hws.
  eapply simulated_jump; [|done| |by eapply view_exit].
  - apply as_exit; [by rewrite (v_running _ _ _ Hv)|apply (v_ready _ _ _ Hv)| |].
    + pose proof (sc_nodup _ _ HI') as (_ & _ & Hnd)%NoDup_app.
      apply NoDup_fmap_2_strong; [|done]. intros p p' [Hl _]%Hws [Hl' _]%Hws. by apply (pid_inj k), Hl'; [apply HI|].
    + intros pid. rewrite list_elem_of_fmap, (v_blocked _ _ _ Hv). unfold in_state.
      setoid_rewrite Hws. naive_solver.
  - split; [done| |].
    + eapply slices_mono; [apply (ki_slices _ _ HI)|]. intros r Hl.
      split; [by apply (sp_live _ _ Hsame)|apply (ee_slice _ _ _ _ Heff)].
    + assert (n ≠ current k) by (intros ->; apply (sc_offqueue _ _ HI); by left).
      rewrite Hc, Hst, decide_False, decide_True; [done..|]. apply (sc_queue _ _ HI). by left.
Qed.

Lemma live_below q k r : Inv q k → live k r → r < heap_top k.
Proof. intros HI Hl. apply (wf_fresh_procs _ HI), wf_lookup; [apply HI|done]. Qed.

Lemma untouched_view a q k k' :
  Inv q k → view a q k → untouched k k' → 
  view (ASpec (as_running a) (as_ready a) (as_blocked a) (as_dead a) (next_pid k')) q k'.
Proof.
  intros HI Hv (Et & _ & Ec & _ & _ & Hp).
  assert (∀ r, live k r → procs k' !! r = procs k !! r) as Hsame
    by (intros r Hl; by apply Hp, (live_below q)).
  assert (∀ r, live k' r ↔ live k r) as Hl by (intros r; unfold live; by rewrite Et).
  constructor; simpl; [| | | |done].
  - rewrite Ec, (v_running _ _ _ Hv). unfold pid_of. by rewrite Hsame by apply (sc_current _ _ HI).
  - rewrite (v_ready _ _ _ Hv). apply list_fmap_ext. intros i p Hi.
    unfold pid_of. rewrite Hsame; [done|]. eapply queue_live; [done|by eapply list_elem_of_lookup_2].
  - intros pid. rewrite (v_blocked _ _ _ Hv). apply exist_proper. intros p. unfold in_state.
    rewrite Hl. split; intros (H & ? & ?); (split; [done|]); unfold pid_of, a_state in *;
      by rewrite (Hsame p H) in *.
  - intros pid cd. rewrite (v_dead _ _ _ Hv). apply exist_proper. intros p. unfold in_state.
    rewrite Hl. split; intros ((H & ? & ?) & ?); unfold pid_of, a_state, exit_code_of in *;
      by rewrite (Hsame p H) in *.
Qed.

(** The newcomer is ready and nobody else changes. *)
Lemma view_created a q k k' x :
  Inv q k → view a q k → (∀ r, live k' r ↔ live k r ∨ r = heap_top k) →
  procs k' = <[heap_top k := x]> (procs k) → p_pid x = next_pid k → p_state x = PROCESS_READY →
  current k' = current k → next_pid k' = next_pid k + 1 →
  view (ASpec (as_running a) (as_ready a ++ [as_next a]) (as_blocked a) (as_dead a) (as_next a + 1))
    (q ++ [heap_top k]) k'.
Proof.
  intros HI Hv Hl Ep Hpid Hst Ec En. set (p := heap_top k) in *.
  assert (procs k' !! p = Some x) as Hx by (rewrite Ep; apply lookup_insert_eq).
  assert (∀ r, live k r → procs k' !! r = procs k !! r) as Hsame.
  { intros r Hr. rewrite Ep, lookup_insert_ne; [done|]. pose proof (live_below _ _ _ HI Hr).
    unfold p. lia. }
  assert (∀ st pid r, st ≠ PROCESS_READY → in_state k' st pid r ↔ in_state k st pid r) as Hin.
  { intros st pid r Hne. unfold in_state. rewrite Hl. unfold pid_of, a_state. split.
    - intros ([H| ->] & E1 & E2); [by rewrite (Hsame r H) in *|]. rewrite Hx in E2. simpl in E2. congruence.
    - intros (H & E1 & E2). rewrite (Hsame r H). auto. }
  constructor; simpl.
  - rewrite Ec, (v_running _ _ _ Hv). unfold pid_of. by rewrite Hsame by apply (sc_current _ _ HI).
  - rewrite fmap_app, (v_ready _ _ _ Hv). f_equal.
    + apply list_fmap_ext. intros i r Hi. unfold pid_of. rewrite Hsame; [done|].
      eapply queue_live; [done|by eapply list_elem_of_lookup_2].
    + unfold pid_of. simpl. by rewrite Hx, (v_next _ _ _ Hv), <- Hpid.
  - intros pid. rewrite (v_blocked _ _ _ Hv). apply exist_proper. intros r. by rewrite Hin.
  - intros pid cd. rewrite (v_dead _ _ _ Hv). apply exist_proper. intros r. rewrite Hin by done.
    split; intros [H1 H2]; (split; [done|]); unfold exit_code_of in *; by rewrite Hsame in * by apply H1.
  - by rewrite En, (v_next _ _ _ Hv).
Qed.

Lemma sim_create a s q k entry arg priority :
  rep s q k → KInvAt q k → view a q k → 0 <= priority →
  simulated a ACreate ((pid ← process_create entry arg priority; mret (pid, None)) s).
Proof.
  intros Hr HI Hv Hp.
  destruct (process_create_inv s q k entry arg priority Hr HI Hp)
    as [(_ & s' & k' & E & Hr' & HI' & Hu)
       |(_ & s' & k' & i & E & Hr' & HI' & Hl & Ep & _ & En & Ec & _)]; mstep E.
  - eapply simulated_ret; [|done|by eapply untouched_kinv|by apply (untouched_view a q k k' HI)].
    apply as_refused. rewrite (v_next _ _ _ Hv). apply Hu.
  - rewrite <- (v_next _ _ _ Hv).
    eapply simulated_ret; [apply as_created|done| |by apply (view_created a q k k' _ HI Hv Hl Ep)].
    split; [done| |].
    + intros r v Hlr. unfold pslice. rewrite Ep. apply Hl in Hlr as [Hlr| ->].
      * rewrite lookup_insert_ne; [by apply (ki_slices _ _ HI)|].
        pose proof (live_below _ _ _ HI Hlr). lia.
      * rewrite lookup_insert_eq. intros [= <-]. apply (slice_init (clamp_priority priority)).
        unfold clamp_priority. destruct (Z.ltb_spec priority 5); lia.
    + unfold a_state. rewrite Ec, Ep, lookup_insert_ne; [apply (ki_running _ _ HI)|].
      pose proof (live_below _ _ _ HI (sc_current _ _ HI)). lia.
Qed.

Lemma sim_user a s q k c :
  rep s q k → KInvAt q k → view a q k → simulated a AUser ((modify (set_cpu c);; mret (0, None)) s).
Proof.
  intros Hr HI Hv. rewrite bind_modify.
  eapply simulated_ret; [apply as_user|by apply rep_set_cpu| |].
  - destruct HI as [[[] []] ? ?]. split; [by split; constructor|done|done].
  - destruct Hv. by constructor.
Qed.

(** Every allowed call of the C code is a step of the machine. *)
Lemma run_simulated a s c : models s a → allowed c s → simulated a (acall_of s c) (run c s).
Proof.
  intros (q & k & Hr & HI & Hv) Ha. destruct c; simpl in *.
  - eapply sim_create; [done..|lia].
  - by eapply sim_exit.
  - by eapply sim_wait.
  - by eapply sim_timer.
  - by eapply sim_schedule.
  - eapply sim_block; [done..|]. intros E. apply Ha.
    rewrite (rep_pid _ _ _ _ Hr), (rep_current _ _ _ Hr).
    destruct (inv_current_lookup _ _ HI) as [y Hy]. unfold pid_of in E. rewrite Hy in E |- *.
    simpl in *. congruence.
  - assert (live k p) as Hl by (destruct Hr as [_ <-]; exact Ha).
    rewrite (rep_pid _ _ _ _ Hr). by eapply sim_wake.
  - by eapply sim_user.
Qed.

Lemma booted_models s : booted s → models s aspec_init.
Proof.
  intros E. destruct process_init_inv as (s0 & m & E0 & Hr & HI). unfold booted in E.
  assert (s0 = s) as -> by congruence. exists [], (kstate_init m). split; [done|].
  set (k := kstate_init m) in *. set (p := heap_top kstate_boot).
  assert (procs k !! p = Some (idle_pcb kstate_boot)) as Hp by apply lookup_singleton_eq.
  assert (∀ r x, procs k !! r = Some x → r = p ∧ x = idle_pcb kstate_boot) as Hone.
  { intros r x Hx. unfold k in Hx. simpl in Hx. by apply lookup_singleton_Some in Hx as [<- <-]. }
  assert (∀ r st, a_state k r = Some st → st = PROCESS_RUNNING) as Hst.
  { intros r st Hs. unfold a_state in Hs. destruct (procs k !! r) as [x|] eqn:Hx; [|done].
    destruct (Hone _ _ Hx) as [_ ->]. by injection Hs. }
  split; [split; [done| |]|].
  - intros r v _ Hv. unfold pslice in Hv. destruct (procs k !! r) as [x|] eqn:Hx; [|done].
    destruct (Hone _ _ Hx) as [_ ->]. by injection Hv as <-.
  - unfold a_state. change (current k) with p. by rewrite Hp.
  - constructor; simpl; [|done| | |done].
    + unfold pid_of. change (heap_top kstate_boot) with p. fold k in Hp. by rewrite Hp.
    + intros pid. split; [by intros ?%elem_of_empty|]. intros (r & _ & _ & Hs%Hst). done.
    + intros pid cd. rewrite lookup_empty. split; [done|]. intros (r & (_ & _ & Hs%Hst) & _). done.
Qed.

Lemma reachable_models s : reachable s → ∃ a, models s a.
Proof.
  intros (s0 & H0 & Hrtc). apply booted_models in H0. revert H0. generalize aspec_init.
  induction Hrtc as [|s1 s2 s3 Hstep _ IH]; intros a Ha; [by eauto|].
  destruct Hstep as [c s s' Hok E]. destruct (run_simulated a s c Ha Hok) as (ob & s'' & a' & Eo & _ & Ha').
  apply (IH a'). destruct (run c s); simplify_eq/=; done.
Qed.
End spec.
