(* ===== verification/KernelProps.v ===== *)
(** * Properties of every reachable kernel state

    The claims about the process subsystem, each derived from the simulation and from the
    lemmas of the single operations, with a run of the kernel that exhibits their hypotheses. *)

From stdpp Require Import base numbers strings pretty gmap relations list.
From S2P Require Import Prelude.
From S2P Require Import Chain.
From S2P Require Import Memory.
From S2P Require Import Context.
From S2P Require Import ProcState.
From S2P Require Import Scheduler.
From S2P Require Import Process.
From S2P Require Import KernelInv.
From S2P Require Import ProcessOps.
From S2P Require Import ProcessCreate.
From S2P Require Import KernelSteps.
From S2P Require Import KernelSpec.

Local Open Scope Z_scope.

Section props.
Context `{L : Linkage}.

(** Observable behaviour: the calls made and what was seen of each. *)
Inductive kruns : kstate → list (acall * obs) → kstate → Prop :=
| kruns_nil s : kruns s [] s
| kruns_cons s c ob s1 tr s' : allowed c s → observe (run c s) = Some (ob, s1) →
    kruns s1 tr s' → kruns s ((acall_of s c, ob) :: tr) s'.

Inductive aruns : aspec → list (acall * obs) → aspec → Prop :=
| aruns_nil a : aruns a [] a
| aruns_cons a c ob a1 tr a' : aspec_step a c ob a1 → aruns a1 tr a' → aruns a ((c, ob) :: tr) a'.

(** C1: Refinement. Every sequence of calls of process_create, process_exit, process_wait,
    do_timer, schedule, scheduler_block and scheduler_wake after process_init, with user code
    between them, made within [allowed] (priorities are 32-bit values, idle does not block itself,
    only processes of the table are woken), with everything their callers observe (return values,
    exit codes, context switches), is a behaviour of the abstract machine on process
    identifiers. *)
Theorem kernel_refinement s0 tr s :
  booted s0 → kruns s0 tr s → ∃ a, aruns aspec_init tr a ∧ models s a.
Proof.
  intros H0%booted_models Hr. revert H0. generalize aspec_init.
  induction Hr as [s|s c ob s1 tr s' Ha Eo _ IH]; intros a Hm.
  - exists a. split; [constructor|done].
  - destruct (run_simulated a s c Hm Ha) as (ob' & s1' & a1 & Eo' & Hstep & Hm1). simplify_eq.
    destruct (IH a1 Hm1) as (a' & Hruns & Hm'). exists a'. split; [by econstructor|done].
Qed.

(** C2: Safety of the C code. In every reachable state every one of these calls that is allowed
    returns or gets to a switch, that is, hands the context of another process to the assembly of
    context_restore: up to there no null or dangling pointer is dereferenced, no array is indexed
    out of bounds, the pid counter does not overflow, and no list traversal and no [while (1)] runs
    forever. What the assembly then does with the context is not part of the claim. *)
Theorem kernel_safe s c :
  reachable s → allowed c s → ∃ s', final (run c s) = Some s' ∧ reachable s'.
Proof.
  intros Hre Ha. destruct (reachable_models s Hre) as [a Hm].
  destruct (run_simulated a s c Hm Ha) as (ob & s' & a' & Eo & _).
  exists s'. assert (final (run c s) = Some s') as E by (destruct (run c s); simplify_eq/=; done).
  split; [done|]. destruct Hre as (s0 & H0 & Hs). exists s0. split; [done|].
  eapply rtc_r; [done|]. by econstructor.
Qed.

Lemma reachable_inv s : reachable s → ∃ q k, rep s q k ∧ KInvAt q k.
Proof. intros [a (q & k & Hr & HI & _)]%reachable_models. by exists q, k. Qed.

Definition in_table (s : kstate) (p : Z) : Prop := p ∈ task s ∧ p ≠ NULL.

#[export] Instance in_table_dec s p : Decision (in_table s p).
Proof. unfold in_table. apply _. Defined.

Lemma rep_live s q k p : rep s q k → in_table s p ↔ live k p.
Proof. by intros [_ <-]. Qed.

(** C7: Between two calls exactly one process of the task table is RUNNING: the one [current]
    points to. *)
Theorem running_is_current s p :
  reachable s → in_table s (current s) ∧
    (in_table s p → state_of s p = Some PROCESS_RUNNING ↔ p = current s).
Proof.
  intros (q & k & Hr & HI)%reachable_inv. rewrite !(rep_live s q k), (rep_state s q k) by done.
  rewrite (rep_current _ _ _ Hr). split; [apply (sc_current _ _ HI)|].
  intros Hp. split; [by apply (sc_running _ _ HI)|]. intros ->. apply (ki_running _ _ HI).
Qed.

(** C3: The ready queue, read from [rq_head] through the links, holds every READY process of
    the task table exactly once, holds no other process, and ends at [rq_tail]. *)
Theorem ready_queue_exact s :
  reachable s → NoDup (ready_list s) ∧ rq_tail s = tail_of (ready_list s) ∧
    ∀ p, p ∈ ready_list s ↔ in_table s p ∧ state_of s p = Some PROCESS_READY.
Proof.
  intros (q & k & Hr & HI)%reachable_inv. rewrite (rep_ready_list _ _ _ Hr).
  split; [apply (sc_nodup _ _ HI)|]. split; [apply Hr|].
  intros p. rewrite (rep_live s q k), (rep_state s q k) by done. apply (sc_queue _ _ HI).
Qed.

(** C13: Process identifiers are unique in the task table, positive but for the idle process in
    slot 0, and the counter they are drawn from stays far below the range of [int32_t]. *)
Theorem pids_unique s :
  reachable s →
  (∀ p p', in_table s p → in_table s p' → pid_at s p = pid_at s p' → p = p') ∧
  (∀ p, in_table s p → ∃ pid, pid_at s p = Some pid ∧ 0 <= pid < next_pid s ∧
     (pid = 0 ↔ task s !! 0%nat = Some p)) ∧
  next_pid s <= 6242.
Proof.
  intros (q & k & Hr & HI)%reachable_inv.
  assert (∀ p, live k p → pid_at s p = Some (pid_of k p)) as Hpid.
  { intros p Hl. rewrite (rep_pid s q k) by done. unfold pid_of.
    by destruct (wf_lookup k p (inv_wf _ _ HI) Hl) as [x ->]. }
  assert (next_pid s = next_pid k ∧ task s = task k) as [-> ->] by (by destruct Hr as [_ <-]).
  split_and!.
  - intros p p' Hp Hp'. rewrite !(rep_live s q k) in * by done. rewrite !Hpid by done.
    intros [= E]. by apply (pid_inj k); [apply HI|..].
  - intros p Hp. rewrite (rep_live s q k) in Hp by done. exists (pid_of k p).
    split; [by apply Hpid|]. split; [|apply idle_pid; [apply HI|done]].
    destruct (wf_pcb k (inv_wf _ _ HI) p Hp) as (pid & c & Hs & ? & _).
    by rewrite (pid_of_sig _ _ _ _ _ Hs).
  - pose proof (wf_next_pid _ HI) as [_ Hn]. pose proof (wf_bump _ HI) as [Hb _].
    change sizeof_process with 168 in Hn. unfold HEAP_SIZE in Hb. lia.
Qed.

(** ** Creation *)

(** C11: A creation with a non-null entry point, fewer than 64 processes counted in [task_count]
    and room for the four objects succeeds: it returns the next pid, appends the new process to the
    ready queue, enters it in the first free slot, and its PCB and context are those of a READY
    process with a clamped priority, the time slice of that priority, and a context that
    starts at [entry] with [arg] in RDI on top of a fresh stack. *)
Theorem process_create_ok s entry arg priority :
  reachable s → 0 <= priority < 2 ^ 32 → can_create s entry →
  ∃ s' i, process_create entry arg priority s = Ret (next_pid s) s' ∧
    ready_list s' = ready_list s ++ [heap_top s] ∧
    procs (erase s') = <[heap_top s := fresh_pcb s priority]> (procs (erase s)) ∧
    ctxs s' = <[context_at s := context_init entry arg (stack_at s + 4096)]> (ctxs s) ∧
    next_pid s' = next_pid s + 1 ∧ current s' = current s ∧
    task s !! i = Some NULL ∧ (∀ j, (j < i)%nat → task s !! j ≠ Some NULL) ∧
    task s' = <[i := heap_top s]> (task s).
Proof.
  intros (q & k & Hr & HI)%reachable_inv Hp Hcan. pose proof Hr as [_ Ek]. subst k.
  destruct (process_create_inv s q (erase s) entry arg priority Hr HI)
    as [[Hno _]|(_ & s' & k' & i & E & Hr' & _ & _ & Ep & Ec & En & Ecur & Hi & Hj & Et)];
    [lia|done|].
  exists s', i. rewrite (rep_ready_list _ _ _ Hr), (rep_ready_list _ _ _ Hr').
  destruct Hr' as [_ <-]. by split_and!.
Qed.

(** C12: Any other creation returns -1 and leaves the table, the queue, the running process and
    every PCB and context of the table as they were. *)
Theorem process_create_fails s entry arg priority :
  reachable s → 0 <= priority < 2 ^ 32 → ¬ can_create s entry →
  ∃ s', process_create entry arg priority s = Ret (-1) s' ∧
    ready_list s' = ready_list s ∧ task s' = task s ∧ task_count s' = task_count s ∧
    current s' = current s ∧
    ∀ r, r < heap_top s → procs (erase s') !! r = procs (erase s) !! r ∧ ctxs s' !! r = ctxs s !! r.
Proof.
  intros (q & k & Hr & HI)%reachable_inv Hp Hcan. pose proof Hr as [_ Ek]. subst k.
  destruct (process_create_inv s q (erase s) entry arg priority Hr HI)
    as [(_ & s' & k' & E & Hr' & _ & Et & Etc & Ecur & _ & _ & Hsame)|[Hyes _]]; [lia| |done].
  exists s'. rewrite (rep_ready_list _ _ _ Hr), (rep_ready_list _ _ _ Hr').
  destruct Hr' as [_ <-]. by split_and!.
Qed.

(** ** Termination and waiting *)

Lemma rep_exit_code s q k p : rep s q k → p_exit_code <$> procs s !! p = exit_code_of k p.
Proof.
  intros [_ <-]. unfold exit_code_of. simpl. rewrite strip_lookup. by destruct (procs s !! p).
Qed.

(** C8: [process_exit] of a process other than idle never returns: the caller is TERMINATED
    with its exit code recorded, the head of the ready queue runs, every process that was
    blocked is READY at the back of the queue, and every other process of the table keeps its
    state. *)
Theorem process_exit_spec s code :
  reachable s → pid_at s (current s) ≠ Some 0 →
  ∃ s' n ws, process_exit code s = Jump s' ∧
    ready_list s = n :: tail (ready_list s) ∧ current s' = n ∧
    ready_list s' = tail (ready_list s) ++ ws ∧
    (∀ p, p ∈ ws ↔ in_table s p ∧ state_of s p = Some PROCESS_BLOCKED) ∧
    state_of s' (current s) = Some PROCESS_TERMINATED ∧
    p_exit_code <$> procs s' !! current s = Some code ∧
    (∀ p, in_table s p → p ≠ current s → p ≠ n → state_of s p ≠ Some PROCESS_BLOCKED →
       state_of s' p = state_of s p).
Proof.
  intros (q & k & Hr & HI)%reachable_inv Hpid. rewrite (rep_current _ _ _ Hr) in *.
  pose proof (sc_current _ _ HI) as Hlc.
  assert (pid_of k (current k) ≠ 0) as Hnz.
  { intros E. apply Hpid. rewrite (rep_pid s q k) by done. unfold pid_of in E.
    destruct (inv_current_lookup _ _ HI) as [x Hx]. rewrite Hx in *. simpl in *. congruence. }
  destruct (process_exit_inv s q k code Hr HI Hnz)
    as (s' & n & q0 & ws & k' & E & -> & Hr' & HI' & Hc & Heff & Hst).
  pose proof (same_procs_shape _ _ (ee_shape _ _ _ _ Heff)) as Hsame.
  exists s', n, ws. rewrite (rep_ready_list _ _ _ Hr), (rep_ready_list _ _ _ Hr'), (rep_current _ _ _ Hr').
  simpl. split_and!; [done..| | | |].
  - intros p. rewrite (rep_live s _ k), (rep_state s _ k) by done. by eapply exit_woken.
  - by rewrite (rep_state s' _ k'), Hst, decide_True by done.
  - rewrite (rep_exit_code s' _ k') by done. unfold exit_code_of.
    by rewrite (ee_exit _ _ _ _ Heff), decide_True.
  - intros p Hp Hpc Hpn. rewrite (rep_live s _ k) in Hp by done.
    rewrite (rep_state s _ k), (rep_state s' _ k') by done. intros Hnb.
    by rewrite Hst, !decide_False by done.
Qed.

Lemma current_nonzero s q k :
  rep s q k → KInvAt q k → pid_at s (current s) ≠ Some 0 → pid_of k (current k) ≠ 0.
Proof.
  intros Hr HI Hpid E. apply Hpid. rewrite (rep_current _ _ _ Hr), (rep_pid s q k) by done.
  unfold pid_of in E. destruct (inv_current_lookup _ _ HI) as [x Hx]. rewrite Hx in *.
  simpl in *. congruence.
Qed.

(** C9: Waiting for a terminated process stores its exit code, returns 0 and removes it from
    the table for good; the queue and every PCB are as before, and a second wait for the same
    pid is refused. *)
Theorem process_wait_reaps s p x :
  reachable s → pid_at s (current s) ≠ Some 0 → in_table s p → procs s !! p = Some x →
  p_state x = PROCESS_TERMINATED →
  ∃ s', process_wait (p_pid x) true s = Ret (0, Some (p_exit_code x)) s' ∧
    (∀ r, in_table s' r ↔ in_table s r ∧ r ≠ p) ∧ ready_list s' = ready_list s ∧
    current s' = current s ∧ procs (erase s') = procs (erase s) ∧
    process_wait (p_pid x) true s' = Ret (-1, None) s'.
Proof.
  intros (q & k & Hr & HI)%reachable_inv Hpid Hp Hx Hst.
  pose proof (current_nonzero _ _ _ Hr HI Hpid) as Hnz. rewrite (rep_live s q k) in Hp by done.
  assert (procs k !! p = Some (set_p_next NULL x)) as Hxk
    by (destruct Hr as [_ <-]; simpl; by rewrite strip_lookup, Hx).
  assert (pid_of k p = p_pid x) as Epid by (unfold pid_of; by rewrite Hxk).
  destruct (process_wait_inv s q k (p_pid x) true Hr HI) as [[_ Hwhy]|(t & y & Hl & Ht & _ & _ & Hy & H)].
  { exfalso. destruct Hwhy as [?|[Hc|Hno]]; [done| |by eapply Hno].
    rewrite <- Epid in Hc. apply (pid_inj k) in Hc; [|apply HI|apply (sc_current _ _ HI)|done].
    pose proof (ki_running _ _ HI) as Hrun. rewrite Hc in Hrun. unfold a_state in Hrun.
    rewrite Hxk in Hrun. simpl in Hrun. congruence. }
  assert (t = p) as -> by (apply (pid_inj k); [apply HI|done|done|congruence]).
  rewrite Hxk in Hy. injection Hy as <-. rewrite bool_decide_true in H by done. simpl in H.
  destruct H as (s' & k' & E & Hr' & HI' & Hl' & Ep & Ec & _). exists s'.
  rewrite (rep_ready_list _ _ _ Hr), (rep_ready_list _ _ _ Hr'), (rep_current _ _ _ Hr),
    (rep_current _ _ _ Hr').
  split_and!; [done| |done|done|by rewrite (proj2 Hr), (proj2 Hr')|].
  - intros r. by rewrite (rep_live s' q k'), (rep_live s q k) by done.
  - destruct (process_wait_inv s' q k' (p_pid x) true Hr' HI') as [[-> _]|(t & y & [Hlt Hne]%Hl' & Ht' & _)];
      [done|]. destruct Hne. apply (pid_inj k); [apply HI|done|done|].
    unfold pid_of in *. by rewrite Epid, <- Ht', Ep.
Qed.

(** C10: Waiting for a process that has not terminated blocks the caller and gives the CPU to
    the head of the ready queue. *)
Theorem process_wait_blocks s p x want :
  reachable s → pid_at s (current s) ≠ Some 0 → in_table s p → p ≠ current s →
  procs s !! p = Some x → p_state x ≠ PROCESS_TERMINATED →
  ∃ s' n, process_wait (p_pid x) want s = Jump s' ∧
    ready_list s = n :: ready_list s' ∧ current s' = n ∧
    state_of s' n = Some PROCESS_RUNNING ∧ state_of s' (current s) = Some PROCESS_BLOCKED ∧
    ∀ r, r ≠ n → r ≠ current s → state_of s' r = state_of s r.
Proof.
  intros (q & k & Hr & HI)%reachable_inv Hpid Hp Hpc Hx Hst.
  pose proof (current_nonzero _ _ _ Hr HI Hpid) as Hnz. rewrite (rep_live s q k) in Hp by done.
  rewrite (rep_current _ _ _ Hr) in *.
  assert (procs k !! p = Some (set_p_next NULL x)) as Hxk
    by (destruct Hr as [_ <-]; simpl; by rewrite strip_lookup, Hx).
  assert (pid_of k p = p_pid x) as Epid by (unfold pid_of; by rewrite Hxk).
  destruct (process_wait_inv s q k (p_pid x) want Hr HI) as [[_ Hwhy]|(t & y & Hl & Ht & _ & _ & Hy & H)].
  { exfalso. destruct Hwhy as [?|[Hc|Hno]]; [done| |by eapply Hno].
    rewrite <- Epid in Hc. apply Hpc. symmetry.
    by apply (pid_inj k) in Hc; [|apply HI|apply (sc_current _ _ HI)|]. }
  assert (t = p) as -> by (apply (pid_inj k); [apply HI|done|done|congruence]).
  rewrite Hxk in Hy. injection Hy as <-. rewrite bool_decide_false in H by done.
  destruct H as (s' & q' & k' & Ea & E & Hr' & _).
  destruct (park_effect _ _ _ _ HI (current_not_idle q k HI Hnz) Ea) as (n & -> & Hne & Hc & Hs).
  exists s', n. rewrite (rep_ready_list _ _ _ Hr), (rep_ready_list _ _ _ Hr'), (rep_current _ _ _ Hr').
  rewrite !(rep_state s' _ k') by done. split_and!; [done..| | |].
  - by rewrite Hs, decide_True.
  - by rewrite Hs, decide_False, decide_True.
  - intros r Hrn Hrc. by rewrite (rep_state s' _ k'), (rep_state s _ k), Hs, !decide_False by done.
Qed.

(** A blocked process stays out of the queue until it is woken: [scheduler_block] gives the
    CPU to the head of the queue and keeps the order of the rest; a later [scheduler_wake]
    makes the process READY at the back of the queue. *)
Theorem block_then_wake s :
  reachable s → pid_at s (current s) ≠ Some 0 →
  ∃ s1 s2 n, scheduler_block s = Jump s1 ∧ ready_list s = n :: ready_list s1 ∧ current s1 = n ∧
    state_of s1 (current s) = Some PROCESS_BLOCKED ∧
    scheduler_wake (current s) s1 = Ret tt s2 ∧
    ready_list s2 = ready_list s1 ++ [current s] ∧ current s2 = n ∧
    state_of s2 (current s) = Some PROCESS_READY.
Proof.
  intros (q & k & Hr & HI)%reachable_inv Hpid.
  pose proof (current_not_idle q k HI (current_nonzero _ _ _ Hr HI Hpid)) as Hni.
  destruct (scheduler_block_inv s q k Hr HI Hni) as (s1 & q1 & k1 & Ea & E1 & Hr1 & HI1).
  destruct (park_effect _ _ _ _ HI Hni Ea) as (n & -> & Hne & Hc & Hs).
  pose proof (inv_stop _ _ PROCESS_BLOCKED HI ltac:(by left) Hni) as HI0.
  destruct (a_schedule_effect _ _ _ _ HI0 Ea) as (_ & _ & _ & _ & _ & Hsh & _).
  assert (live k1 (current k)) as Hl.
  { rewrite (live_shape _ _ _ Hsh), (live_shape _ _ _ (shape_upd _ _ k)). apply (sc_current _ _ HI). }
  assert (a_state k1 (current k) = Some PROCESS_BLOCKED) as Hb
    by (by rewrite Hs, decide_False, decide_True).
  destruct (scheduler_wake_inv s1 q1 k1 (current k) Hr1 HI1 Hl) as (s2 & E2 & Hr2 & HI2); [congruence|].
  unfold a_wake in Hr2. rewrite bool_decide_true in Hr2 by done. simpl in Hr2.
  exists s1, s2, n. rewrite (rep_current _ _ _ Hr), (rep_current _ _ _ Hr1), (rep_current _ _ _ Hr2).
  rewrite (rep_ready_list _ _ _ Hr), (rep_ready_list _ _ _ Hr1), (rep_ready_list _ _ _ Hr2).
  rewrite (rep_state _ _ _ _ Hr1), (rep_state _ _ _ _ Hr2), current_upd.
  rewrite a_state_upd, decide_True by (done || (apply wf_lookup; [apply HI1|done])).
  by split_and!.
Qed.

(** ** Time slices and round robin *)

(** The accounting of a PCB reads the same in the C state and in the erased one. *)
Lemma rep_accounts s q k p x z :
  rep s q k → procs k !! p = Some x → p_cpu_time x = p_cpu_time z → p_counter x = p_counter z →
  ∃ x0, procs s !! p = Some x0 ∧ p_cpu_time x0 = p_cpu_time z ∧ p_counter x0 = p_counter z ∧
    p_state x0 = p_state x.
Proof.
  intros Hr Hx E1 E2. destruct (rep_lookup _ _ _ _ _ Hr Hx) as (x0 & H0 & ->). by exists x0.
Qed.

(** C14: A timer tick counts one unit of CPU time (modulo 2^64) and takes one unit off the time
    slice, never below zero. While the slice lasts the tick returns to the running process;
    when it is used up the head of the ready queue runs and the running process goes to the
    back of the queue, or, with nobody ready, it just goes on. *)
Theorem do_timer_spec s x :
  reachable s → procs s !! current s = Some x →
  ∃ s' x', final (do_timer s) = Some s' ∧ procs s' !! current s = Some x' ∧
    p_cpu_time x' = (p_cpu_time x + 1) mod 2 ^ 64 ∧ p_counter x' = Z.max 0 (p_counter x - 1) ∧
    match ready_list s with
    | n :: q => if decide (p_counter x <= 1)
                then do_timer s = Jump s' ∧ current s' = n ∧ ready_list s' = q ++ [current s] ∧
                     p_state x' = PROCESS_READY
                else do_timer s = Ret tt s' ∧ current s' = current s ∧ ready_list s' = n :: q
    | [] => do_timer s = Ret tt s' ∧ current s' = current s ∧ ready_list s' = []
    end.
Proof.
  intros (q & k & Hr & HI)%reachable_inv Hx.
  destruct (do_timer_inv s q k Hr HI) as (y & k1 & Hy & Ek1 & H).
  rewrite (rep_current _ _ _ Hr) in *. rewrite (rep_ready_list _ _ _ Hr).
  assert (y = set_p_next NULL x) as ->.
  { destruct (rep_lookup _ _ _ _ _ Hr Hy) as (x0 & H0 & ->). congruence. }
  assert (slice_ok (slice x)) as [_ [Hpos _]].
  { apply (ki_slices _ _ HI (current k)); [apply (sc_current _ _ HI)|]. unfold pslice. by rewrite Hy. }
  specialize (H Hpos). simpl in H.
  set (z := set_p_counter (Z.max 0 (p_counter x - 1))
    (set_p_cpu_time (u64 (p_cpu_time x + 1)) (set_p_next NULL x))).
  assert (procs k1 !! current k = Some z) as Hz.
  { subst k1. rewrite (a_upd_some (current k) _ k _ Hy). erewrite a_upd_some by apply lookup_insert_eq.
    apply lookup_insert_eq. }
  pose proof (λ s' q' k' x' Hr', rep_accounts s' q' k' (current k) x' z Hr') as Hread.
  assert (current k1 = current k) as Ec1 by (subst k1; by rewrite !current_upd).
  destruct (decide (p_counter x <= 1)) as [Hle|Hgt].
  - destruct H as [(-> & s' & E & Hr' & _)|(s' & q' & k' & Ea & E & Hr' & _)].
    + destruct (Hread _ _ _ _ Hr' Hz eq_refl eq_refl) as (x0 & H0 & H1 & H2 & _).
      exists s', x0. rewrite E, (rep_current _ _ _ Hr'), (rep_ready_list _ _ _ Hr'), Ec1. by split_and!.
    + assert (Inv q k1) as HI1 by (subst k1; apply inv_quiet; [apply _..|];
        apply inv_quiet; [apply _..|apply HI]).
      destruct (a_schedule_effect _ _ _ _ HI1 Ea) as (n & q0 & -> & Hne & Hc & _ & Hu & Hs & ->).
      assert (a_state k1 (current k) = Some PROCESS_RUNNING) as Hrun
        by (subst k1; rewrite !a_state_quiet by apply _; apply (ki_running _ _ HI)).
      rewrite Ec1, Hrun in *. rewrite bool_decide_true in * by done.
      specialize (Hs (current k)). rewrite decide_False, bool_decide_true in Hs by done. simpl in Hs.
      unfold a_state in Hs. destruct (procs k' !! current k) as [x'|] eqn:Hx'; [|done].
      specialize (Hu (current k)). rewrite Hz, Hx' in Hu.
      destruct (Hread _ _ _ _ Hr' Hx') as (x0 & H0 & H1 & H2 & H3); [simplify_eq/=; congruence..|].
      exists s', x0. rewrite E, (rep_current _ _ _ Hr'), (rep_ready_list _ _ _ Hr').
      simpl in Hs. split_and!; try done. congruence.
  - destruct H as (s' & E & Hr' & _).
    destruct (Hread _ _ _ _ Hr' Hz eq_refl eq_refl) as (x0 & H0 & H1 & H2 & _).
    exists s', x0. rewrite E, (rep_current _ _ _ Hr'), (rep_ready_list _ _ _ Hr'), Ec1.
    split_and!; try done. by destruct q.
Qed.

(** The running process gives up the CPU [n] times. *)
Fixpoint yield (n : nat) (s : kstate) : option kstate :=
  match n with
  | O => Some s
  | S n' => s' ← final (schedule s); yield n' s'
  end.

Definition rot1 (l : list Z) : list Z := match l with [] => [] | x :: l' => l' ++ [x] end.

Lemma yield_rotates n s q k :
  rep s q k → KInvAt q k →
  ∃ s' q' k', yield n s = Some s' ∧ rep s' q' k' ∧ KInvAt q' k' ∧
    current k' :: q' = Nat.iter n rot1 (current k :: q).
Proof.
  revert s q k. induction n as [|n IH]; intros s q k Hr HI; [by exists s, q, k|].
  rewrite Nat.iter_succ_r. cbn [yield]. simpl.
  destruct (schedule_inv s q k Hr HI) as [[-> ->]|(s1 & q1 & k1 & Ea & -> & Hr1 & HI1)]; simpl.
  - destruct (IH s [] k Hr HI) as (s' & q' & k' & ? & ? & ? & ?). by exists s', q', k'.
  - destruct (a_schedule_effect _ _ _ _ HI Ea) as (n1 & q0 & -> & _ & Hc & _ & _ & _ & ->).
    rewrite bool_decide_true in * by apply (ki_running _ _ HI).
    destruct (IH s1 _ k1 Hr1) as (s' & q' & k' & ? & ? & ? & E).
    { eapply a_schedule_kinv; [apply HI|apply (ki_slices _ _ HI)|done]. }
    exists s', q', k'. by rewrite E, Hc.
Qed.

(** Round robin. After any number of voluntary switches the running process followed by
    the ready queue is the initial one rotated that many times. *)
Theorem round_robin s n :
  reachable s → ∃ s', yield n s = Some s' ∧
    current s' :: ready_list s' = Nat.iter n rot1 (current s :: ready_list s).
Proof.
  intros (q & k & Hr & HI)%reachable_inv.
  destruct (yield_rotates n s q k Hr HI) as (s' & q' & k' & E & Hr' & _ & Eq).
  exists s'. by rewrite (rep_current _ _ _ Hr), (rep_current _ _ _ Hr'), (rep_ready_list _ _ _ Hr),
    (rep_ready_list _ _ _ Hr').
Qed.

Lemma iter_rot1_lookup (i : nat) : ∀ l : list Z, (i < length l)%nat → Nat.iter i rot1 l = drop i l ++ take i l.
Proof.
  induction i as [|i IH]; intros l Hi; [by rewrite drop_0, take_0, app_nil_r|].
  rewrite Nat.iter_succ_r. destruct l as [|x l]; simpl in *; [lia|].
  rewrite IH by (rewrite length_app; simpl; lia).
  rewrite drop_app_le, take_app_le by lia. by rewrite <- app_assoc.
Qed.

(** C15: No starvation. A process at position [i] of the ready queue runs after exactly [i + 1]
    switches. *)
Theorem no_starvation s i p :
  reachable s → ready_list s !! i = Some p → ∃ s', yield (S i) s = Some s' ∧ current s' = p.
Proof.
  intros (q & k & Hr & HI)%reachable_inv. rewrite (rep_ready_list _ _ _ Hr). intros Hi.
  destruct (yield_rotates (S i) s q k Hr HI) as (s' & q' & k' & E & Hr' & _ & Eq).
  exists s'. split; [done|]. rewrite (rep_current _ _ _ Hr').
  pose proof (lookup_lt_Some _ _ _ Hi) as Hlt. rewrite iter_rot1_lookup in Eq by (simpl; lia).
  apply (f_equal head) in Eq. simpl in Eq. rewrite (drop_S _ _ _ Hi) in Eq. by injection Eq.
Qed.
End props.

(** ** A concrete kernel for the examples *)

Definition demo_linkage : Linkage :=
  {| heap_addr := 0x100000; heap_addr_pos := eq_refl; heap_addr_top := eq_refl |}.
#[local] Existing Instance demo_linkage.

#[export] Instance allowed_dec c s : Decision (allowed c s).
Proof. destruct c; simpl; apply _. Defined.

(** Run a list of calls. *)
Fixpoint follow `{Linkage} (cs : list kcall) (s : kstate) : option kstate :=
  match cs with
  | [] => Some s
  | c :: cs' => if decide (allowed c s) then s' ← final (run c s); follow cs' s' else None
  end.

Lemma follow_steps `{Linkage} cs s s' : follow cs s = Some s' → rtc kstep s s'.
Proof.
  revert s. induction cs as [|c cs IH]; intros s E; simpl in E; [by simplify_eq|].
  destruct (decide (allowed c s)) as [Ha|]; [|done].
  destruct (final (run c s)) as [s1|] eqn:E1; [|done].
  eapply rtc_l; [by econstructor|]. by apply IH.
Qed.

Definition or_boot (o : option kstate) : kstate := default kstate_boot o.
Definition demo_boot : kstate := or_boot (final (process_init kstate_boot)).
Definition demo (cs : list kcall) : kstate := or_boot (follow cs demo_boot).

Lemma demo_booted : booted demo_boot.
Proof. vm_compute. reflexivity. Qed.

Lemma demo_reachable cs : is_Some (follow cs demo_boot) → reachable (demo cs).
Proof.
  intros [s E]. exists demo_boot. split; [apply demo_booted|].
  apply (follow_steps cs). unfold demo. by rewrite E.
Qed.

(** Two processes, the first of them running. *)
Definition demo_two : list kcall := [Create 0x4000 7 1; Create 0x5000 8 2; Schedule].

(** A process that has terminated and another that runs. *)
Definition demo_dead : list kcall := demo_two ++ [Exit 42].
Definition demo_first : Z := 0x101148.
Definition demo_second : Z := 0x102330.

Ltac demo_decide := refine (bool_decide_unpack _ _); vm_compute; exact I.
Ltac demo_run := apply demo_reachable; vm_compute; eexists; reflexivity.

(** ** Witnesses *)

Lemma kernel_refinement_witness :
  ∃ a, aruns aspec_init [(ACreate, Returned (1, None)); (ASchedule, Switched)] a ∧
    models (demo [Create 0x4000 7 1; Schedule]) a.
Proof.
  apply (kernel_refinement demo_boot); [apply demo_booted|].
  apply (kruns_cons demo_boot (Create 0x4000 7 1) _ (demo [Create 0x4000 7 1]));
    [vm_compute; split; congruence|vm_compute; reflexivity|].
  apply (kruns_cons (demo [Create 0x4000 7 1]) Schedule _ (demo [Create 0x4000 7 1; Schedule]));
    [exact I|vm_compute; reflexivity|]. apply kruns_nil.
Defined.

Lemma kernel_safe_witness :
  ∃ s', final (run (Wait 2 true) (demo demo_two)) = Some s' ∧ reachable s'.
Proof. apply (kernel_safe (demo demo_two) (Wait 2 true)); [demo_run|exact I]. Defined.

Lemma running_is_current_witness :
  in_table (demo demo_two) (current (demo demo_two)) ∧
  (in_table (demo demo_two) demo_first →
   state_of (demo demo_two) demo_first = Some PROCESS_RUNNING ↔ demo_first = current (demo demo_two)).
Proof. apply (running_is_current (demo demo_two) demo_first). demo_run. Defined.

Lemma ready_queue_exact_witness :
  ready_list (demo demo_two) = [demo_second; 0x100000] ∧ NoDup (ready_list (demo demo_two)).
Proof.
  split; [vm_compute; reflexivity|]. apply (ready_queue_exact (demo demo_two)). demo_run.
Defined.

Lemma pids_unique_witness : next_pid (demo demo_two) <= 6242.
Proof. apply (pids_unique (demo demo_two)). demo_run. Defined.

Lemma process_create_ok_witness :
  ∃ s' i, process_create 0x6000 9 7 (demo demo_two) = Ret (next_pid (demo demo_two)) s' ∧
    ready_list s' = ready_list (demo demo_two) ++ [heap_top (demo demo_two)] ∧
    task (demo demo_two) !! i = Some NULL.
Proof.
  destruct (process_create_ok (demo demo_two) 0x6000 9 7)
    as (s' & i & E & Hq & _ & _ & _ & _ & Hi & _); [demo_run|done|demo_decide|].
  exists s', i. exact (conj E (conj Hq Hi)).
Defined.

Lemma process_create_fails_witness :
  ∃ s', process_create 0 9 7 (demo demo_two) = Ret (-1) s' ∧
    ready_list s' = ready_list (demo demo_two).
Proof.
  destruct (process_create_fails (demo demo_two) 0 9 7) as (s' & E & Hq & _);
    [demo_run|done|by intros [[] _]|]. exists s'. exact (conj E Hq).
Defined.

Lemma process_exit_spec_witness :
  ∃ s' n ws, process_exit 42 (demo demo_two) = Jump s' ∧ current s' = n ∧
    ready_list s' = tail (ready_list (demo demo_two)) ++ ws.
Proof.
  destruct (process_exit_spec (demo demo_two) 42) as (s' & n & ws & E & _ & Hc & Hq & _);
    [demo_run|demo_decide|]. exists s', n, ws. exact (conj E (conj Hc Hq)).
Defined.

Lemma process_wait_reaps_witness :
  ∃ s' x, procs (demo demo_dead) !! demo_first = Some x ∧
    process_wait (p_pid x) true (demo demo_dead) = Ret (0, Some (p_exit_code x)) s' ∧
    p_exit_code x = 42.
Proof.
  destruct (procs (demo demo_dead) !! demo_first) as [x|] eqn:Hx; [|vm_compute in Hx; done].
  assert (p_state x = PROCESS_TERMINATED ∧ p_exit_code x = 42) as [Hs Hc].
  { assert ((λ x, (p_state x, p_exit_code x)) <$> procs (demo demo_dead) !! demo_first =
      Some (PROCESS_TERMINATED, 42)) as E by (vm_compute; reflexivity).
    rewrite Hx in E. injection E as E1 E2. exact (conj E1 E2). }
  destruct (process_wait_reaps (demo demo_dead) demo_first x) as (s' & E & _);
    [demo_run|demo_decide|demo_decide|exact Hx|exact Hs|].
  exists s', x. exact (conj eq_refl (conj E Hc)).
Defined.

Lemma process_wait_blocks_witness :
  ∃ s' n x, procs (demo demo_two) !! demo_second = Some x ∧
    process_wait (p_pid x) true (demo demo_two) = Jump s' ∧ current s' = n.
Proof.
  destruct (procs (demo demo_two) !! demo_second) as [x|] eqn:Hx; [|vm_compute in Hx; done].
  assert (p_state x = PROCESS_READY) as Hs.
  { assert (state_of (demo demo_two) demo_second = Some PROCESS_READY) as E by (vm_compute; reflexivity).
    unfold state_of in E. rewrite Hx in E. injection E as E1. exact E1. }
  destruct (process_wait_blocks (demo demo_two) demo_second x true) as (s' & n & E & _ & Hc & _);
    [demo_run|demo_decide|demo_decide|demo_decide|exact Hx|
     rewrite Hs; discriminate|].
  exists s', n, x. exact (conj eq_refl (conj E Hc)).
Defined.

Lemma block_then_wake_witness :
  ∃ s1 s2 n, scheduler_block (demo demo_two) = Jump s1 ∧
    scheduler_wake (current (demo demo_two)) s1 = Ret tt s2 ∧ current s2 = n.
Proof.
  destruct (block_then_wake (demo demo_two)) as (s1 & s2 & n & E1 & _ & _ & _ & E2 & _ & Hc & _);
    [demo_run|demo_decide|]. exists s1, s2, n. exact (conj E1 (conj E2 Hc)).
Defined.

Lemma do_timer_spec_witness :
  ∃ s' x x', procs (demo demo_two) !! current (demo demo_two) = Some x ∧
    final (do_timer (demo demo_two)) = Some s' ∧
    procs s' !! current (demo demo_two) = Some x' ∧ p_counter x' = Z.max 0 (p_counter x - 1).
Proof.
  destruct (procs (demo demo_two) !! current (demo demo_two)) as [x|] eqn:Hx;
    [|vm_compute in Hx; done].
  destruct (do_timer_spec (demo demo_two) x) as (s' & x' & E & Hx' & _ & Hc & _); [demo_run|exact Hx|].
  exists s', x, x'. exact (conj eq_refl (conj E (conj Hx' Hc))).
Defined.

Lemma round_robin_witness :
  ∃ s', yield 5 (demo demo_two) = Some s' ∧
    current s' :: ready_list s' =
      Nat.iter 5 rot1 (current (demo demo_two) :: ready_list (demo demo_two)).
Proof. apply (round_robin (demo demo_two) 5). demo_run. Defined.

Lemma no_starvation_witness : ∃ s', yield 2 (demo demo_two) = Some s' ∧ current s' = 0x100000.
Proof.
  apply (no_starvation (demo demo_two) 1 0x100000); [demo_run|vm_compute; reflexivity].
Defined.
