(* ===== verification/Sjf.v ===== *)
(** * The second scheduler of process.c: [schedule_sjf] and [switch_to]

    [schedule_sjf] scans the task table for the READY process with the smallest positive
    counter, refreshes the counters when there is none, and calls itself again. It neither
    reads nor updates the ready queue of scheduler.c. *)

From stdpp Require Import base numbers strings pretty gmap relations list.
From S2P Require Import Prelude.
From S2P Require Import Chain.
From S2P Require Import Memory.
From S2P Require Import Context.
From S2P Require Import ProcState.
From S2P Require Import Scheduler.
From S2P Require Import Process.
From S2P Require Import KernelInv.
From S2P Require Import ProcessOps.
From S2P Require Import ProcessCreate.
From S2P Require Import KernelSteps.
From S2P Require Import KernelSpec.
From S2P Require Import KernelProps.

Local Open Scope Z_scope.

Section sjf.
Context `{L : Linkage}.

(** A READY process in a slot after the first, and its time slice. *)
Definition ready_slot (k : kstate) (i : Z) : Prop :=
  1 <= i < task_count k ∧ slot k i ≠ NULL ∧ a_state k (slot k i) = Some PROCESS_READY.
Definition slot_counter (k : kstate) (i : Z) : Z := default 0 (p_counter <$> procs k !! slot k i).
Definition slot_priority (k : kstate) (i : Z) : Z := default 0 (p_priority <$> procs k !! slot k i).
Definition candidate (k : kstate) (i : Z) : Prop := ready_slot k i ∧ 0 < slot_counter k i.
Definition small_slices (k : kstate) : Prop := ∀ i, ready_slot k i → slot_counter k i <= 4.

(** Reading a slot of the table. *)
Lemma read_slot s q k i :
  rep s q k → Wf k → 0 <= i < 64 → slot k i ≠ NULL →
  ∃ x, get_proc (slot k i) s = Ret x s ∧ procs k !! slot k i = Some (set_p_next NULL x) ∧
    a_state k (slot k i) = Some (p_state x) ∧ slot_counter k i = p_counter x ∧
    slot_priority k i = p_priority x.
Proof.
  intros Hr Hw Hi Hn. destruct (wf_lookup k (slot k i) Hw (slot_live _ _ Hn)) as [y Hy].
  destruct (rep_get_proc _ _ _ _ _ Hr Hy) as (x & Ex & ->). exists x.
  unfold a_state, slot_counter, slot_priority. by rewrite Hy.
Qed.

(** The accumulator of the scan after the slots below [i]: no candidate yet, or the first of
    those with the smallest counter. *)
Definition best (k : kstate) (i n m : Z) : Prop :=
  (n = 0 ∧ m = 0xFFFFFFFF ∧ ∀ j, j < i → ¬ candidate k j) ∨
  (candidate k n ∧ slot_counter k n = m ∧ ∀ j, j < i → candidate k j → m <= slot_counter k j).

Lemma best_skip k i n m : best k i n m → ¬ candidate k i → best k (i + 1) n m.
Proof.
  intros [(? & ? & Hj)|(? & ? & Hj)] Hno; [left|right]; split_and!; try done;
    intros j Hji; (destruct (decide (j = i)) as [->|]; [done|apply Hj; lia]).
Qed.

Lemma best_step k i n m :
  best k i n m → candidate k i → slot_counter k i <= 4 →
  if slot_counter k i <? m then best k (i + 1) i (slot_counter k i) else best k (i + 1) n m.
Proof.
  intros Hb Hc Hmax. destruct (Z.ltb_spec (slot_counter k i) m) as [Hlt|Hge]; right.
  - split_and!; [done..|]. intros j Hji Hcj. destruct (decide (j = i)) as [->|]; [lia|].
    destruct Hb as [(_ & _ & Hj)|(_ & _ & Hj)]; [exfalso; eapply Hj; [|done]; lia|].
    assert (m <= slot_counter k j) by (apply Hj; [lia|done]). lia.
  - destruct Hb as [(_ & -> & _)|(Hn' & Hm & Hj)]; [lia|]. split_and!; [done..|].
    intros j Hji Hcj. destruct (decide (j = i)) as [->|]; [lia|]. apply Hj; [lia|done].
Qed.

Lemma sjf_scan_ok s q k :
  rep s q k → Wf k → small_slices k →
  ∃ n m, sjf_scan s = Ret (n, m) s ∧
    ((n = 0 ∧ ∀ i, ¬ candidate k i) ∨
     (candidate k n ∧ slot_counter k n = m ∧ ∀ i, candidate k i → m <= slot_counter k i)).
Proof.
  intros Hr Hw Hmax. unfold sjf_scan. rewrite bind_get.
  pose proof (wf_count _ Hw) as Htc. pose proof (wf_len _ Hw) as Hlen.
  rewrite (f_equal task_count (proj2 Hr) : task_count s = task_count k).
  match goal with |- context [fold_range _ 1 _ ?b] => set (body := b) end.
  destruct (fold_range_inv (λ i '(n, m) s', s' = s ∧ best k i n m)
    (Z.to_nat (task_count k - 1)) 1 (0, 0xFFFFFFFF) body s) as ([n m] & s' & E & -> & Hb).
  - split; [done|]. left. split_and!; [done..|]. intros j Hj [[? _] _]. lia.
  - intros i [n m] s' Hi (-> & Hb). unfold body.
    mstep (get_task_ret s q k i Hr Hlen ltac:(lia)).
    destruct (Z.eqb_spec (slot k i) NULL) as [Ez|Hn].
    { exists (n, m), s. split_and!; [done..|]. apply best_skip; [done|]. by intros [(_ & ? & _) _]. }
    destruct (read_slot s q k i Hr Hw) as (x & Ex & Hy & Hs & Hc & _); [lia|done|]. mstep Ex.
    destruct (bool_decide_reflect (p_state x = PROCESS_READY)) as [Hrd|Hrd]; simpl.
    2:{ exists (n, m), s. split_and!; [done..|]. apply best_skip; [done|].
        intros [(_ & _ & ?) _]. congruence. }
    rewrite <- Hc. destruct (Z.ltb_spec 0 (slot_counter k i)) as [Hpos|Hpos]; simpl.
    2:{ exists (n, m), s. split_and!; [done..|]. apply best_skip; [done|]. intros [_ ?]. lia. }
    assert (candidate k i) as Hcand by (split; [split; [lia|]; split; [done|congruence]|lia]).
    pose proof (best_step _ _ _ _ Hb Hcand (Hmax i (proj1 Hcand))) as Hstep.
    destruct (slot_counter k i <? m); by eexists _, _.
  - exists n, m. split; [done|]. destruct Hb as [(? & _ & Hj)|(? & ? & Hj)]; [left|right];
      split_and!; try done; intros i Hi; (eapply Hj; [|done]); destruct Hi as [[? _] _]; lia.
Qed.

(** ** Refreshing the time slices *)

(** Nothing but counters differs. *)
Record counters_only (k k' : kstate) : Prop := {
  co_shape : shape_equiv k' k;
  co_current : current k' = current k;
  co_state r : a_state k' r = a_state k r;
  co_priority r : p_priority <$> procs k' !! r = p_priority <$> procs k !! r;
}.

Lemma counters_only_refl k : counters_only k k.
Proof. by split. Qed.

Lemma counters_only_upd k k' p v :
  counters_only k k' → counters_only k (a_upd p (set_p_counter v) k').
Proof.
  intros [H1 H2 H3 H4]. split.
  - by rewrite shape_upd.
  - by rewrite current_upd.
  - intros r. by rewrite a_state_quiet by apply _.
  - intros r. rewrite <- H4. unfold a_upd. destruct (procs k' !! p) as [x|] eqn:Hx; [|done]. simpl.
    destruct (decide (p = r)) as [<-|]; [by rewrite lookup_insert_eq, Hx|by rewrite lookup_insert_ne].
Qed.

Lemma slot_counters_only k k' i : counters_only k k' → slot k' i = slot k i.
Proof. intros H. unfold slot. by rewrite (task_shape _ _ (co_shape _ _ H)). Qed.

Lemma ready_slot_counters_only k k' i : counters_only k k' → ready_slot k' i ↔ ready_slot k i.
Proof.
  intros H. unfold ready_slot. rewrite (slot_counters_only k k' i H), (co_state _ _ H).
  destruct (co_shape _ _ H) as (_ & _ & -> & _). done.
Qed.

Lemma slot_priority_counters_only k k' i :
  counters_only k k' → slot_priority k' i = slot_priority k i.
Proof. intros H. unfold slot_priority. by rewrite (slot_counters_only k k' i H), (co_priority _ _ H). Qed.

Definition initial_counter (priority : Z) : Z :=
  default 0 (COUNTER_INIT_VALUES !! Z.to_nat (priority mod 5)).

(** The loop of the refresh after the slots below [i], with [n] ready processes found. *)
Definition refreshed (k k' : kstate) (i n : Z) : Prop :=
  counters_only k k' ∧
  (∀ j, j < i → ready_slot k j → slot_counter k' j = initial_counter (slot_priority k j)) ∧
  0 <= n ∧ (0 < n ↔ ∃ j, j < i ∧ ready_slot k j).

Lemma refreshed_skip k k' i n :
  refreshed k k' i n → ¬ ready_slot k i → refreshed k k' (i + 1) n.
Proof.
  intros (Hco & Hdone & Hn & Hex) Hno. split_and!; [done| |done|].
  - intros j Hj Hr. apply Hdone; [|done]. destruct (decide (j = i)) as [->|]; [done|lia].
  - rewrite Hex. split; intros (j & Hj & Hr); exists j; (split; [|done]); [lia|].
    destruct (decide (j = i)) as [->|]; [done|lia].
Qed.

Lemma slot_inj k i j :
  Wf k → 0 <= i → 0 <= j → slot k i ≠ NULL → slot k i = slot k j → i = j.
Proof.
  intros Hw Hi Hj Hn E. unfold slot in *.
  destruct (task k !! Z.to_nat i) as [t|] eqn:Ei; [|done].
  destruct (task k !! Z.to_nat j) as [t'|] eqn:Ej; simpl in *; subst; [|done].
  pose proof (wf_slots _ Hw _ _ _ Ei Ej Hn). lia.
Qed.

Lemma slot_counter_upd k k' i j v :
  Wf k → counters_only k k' → ready_slot k i → ready_slot k j → is_Some (procs k' !! slot k i) →
  slot_counter (a_upd (slot k i) (set_p_counter v) k') j = if decide (i = j) then v else slot_counter k' j.
Proof.
  intros Hw Hco Hi Hj [x Hx]. rewrite (a_upd_some _ _ _ _ Hx). unfold slot_counter.
  change (slot (set_procs _ k') j) with (slot k' j). rewrite (slot_counters_only k k' j Hco). simpl.
  destruct (decide (i = j)) as [<-|Hne]; [by rewrite lookup_insert_eq|].
  rewrite lookup_insert_ne; [done|]. intros E. apply Hne.
  destruct Hi as (? & ? & _), Hj as (? & ? & _). apply (slot_inj k); [done|lia|lia|done|done].
Qed.

Lemma refreshed_step q k k' i n :
  refreshed k k' i n → Wf k → Inv q k' → ready_slot k i →
  refreshed k (a_upd (slot k i) (set_p_counter (initial_counter (slot_priority k i))) k') (i + 1) (n + 1).
Proof.
  intros (Hco & Hdone & Hn & Hex) Hw HI' Hi. split_and!; [by apply counters_only_upd| |lia|].
  - intros j Hj Hr. rewrite (slot_counter_upd k); [|done..|].
    + destruct (decide (i = j)) as [<-|]; [done|]. apply Hdone; [lia|done].
    + apply wf_lookup; [apply HI'|]. rewrite (live_shape _ _ _ (co_shape _ _ Hco)).
      apply slot_live, Hi.
  - split; [|lia]. intros _. exists i. split; [lia|done].
Qed.

Lemma sjf_refresh_ok s q k :
  rep s q k → Inv q k →
  ∃ n s' k', sjf_refresh s = Ret n s' ∧ rep s' q k' ∧ Inv q k' ∧ counters_only k k' ∧
    (∀ i, ready_slot k i → slot_counter k' i = initial_counter (slot_priority k i)) ∧
    0 <= n ∧ (0 < n ↔ ∃ i, ready_slot k i).
Proof.
  intros Hr HI. unfold sjf_refresh. rewrite bind_get.
  pose proof (wf_count _ HI) as Htc.
  rewrite (f_equal task_count (proj2 Hr) : task_count s = task_count k).
  match goal with |- context [fold_range _ 1 _ ?b] => set (body := b) end.
  destruct (fold_range_inv (λ i n s', ∃ k', rep s' q k' ∧ Inv q k' ∧ refreshed k k' i n)
    (Z.to_nat (task_count k - 1)) 1 0 body s) as (n & s' & E & k' & Hr' & HI' & Hco & Hdone & Hn & Hex).
  - exists k. split_and!; [done..|]. split_and!; [apply counters_only_refl| |lia|].
    + intros j Hj [? _]. lia.
    + split; [lia|]. intros (j & Hj & [? _]). lia.
  - intros i n s1 Hi (k1 & Hr1 & HI1 & Hre). unfold body.
    pose proof Hre as (Hco & _ & Hn & _). pose proof (slot_counters_only k k1 i Hco) as Eslot.
    mstep (get_task_ret s1 q k1 i Hr1 (wf_len _ HI1) ltac:(lia)).
    destruct (Z.eqb_spec (slot k1 i) NULL) as [Ez|Hnz].
    { exists n, s1. split; [done|]. exists k1. split_and!; [done..|].
      apply refreshed_skip; [done|]. intros (_ & ? & _). congruence. }
    destruct (read_slot s1 q k1 i Hr1 (inv_wf _ _ HI1)) as (x & Ex & Hy & Hs & _ & Hp); [lia|done|].
    mstep Ex. destruct (bool_decide_reflect (p_state x = PROCESS_READY)) as [Hrd|Hrd]; simpl.
    2:{ exists n, s1. split; [done|]. exists k1. split_and!; [done..|].
        apply refreshed_skip; [done|]. rewrite <- (ready_slot_counters_only k k1) by done.
        intros (_ & _ & ?). congruence. }
    assert (ready_slot k i) as Hready.
    { rewrite <- (ready_slot_counters_only k k1) by done. split; [|by rewrite Hs, Hrd].
      destruct (co_shape _ _ Hco) as (_ & _ & -> & _). lia. }
    assert (0 <= p_priority x mod 5 < 5) as Hmod by (apply Z.mod_pos_bound; lia).
    mstep (counter_init_ok (p_priority x mod 5) s1 Hmod). fold (initial_counter (p_priority x)).
    destruct (rep_a_upd s1 q k1 (slot k1 i) (set_p_counter (initial_counter (p_priority x))) Hr1)
      as (s2 & E2 & Hr2); [by eauto|]. mstep E2.
    exists (n + 1), s2. split; [done|]. eexists. split; [exact Hr2|].
    split; [by apply inv_quiet; try apply _|].
    replace (p_priority x) with (slot_priority k i)
      by (by rewrite <- Hp, (slot_priority_counters_only k k1)).
    rewrite Eslot. apply (refreshed_step q); [done|apply HI|done|done].
  - exists n, s', k'. split_and!; try done.
    + intros i Hi. apply Hdone; [destruct Hi; lia|done].
    + rewrite Hex. split; [intros (j & _ & ?); by exists j|].
      intros [j Hj]. exists j. split; [destruct Hj; lia|done].
Qed.

(** Selecting the process to run: somebody ready has a slice left, or will have after one
    refresh. *)
Lemma initial_counter_pos p : 0 <= p <= 4 → 0 < initial_counter p ↔ p ≠ 0.
Proof.
  intros Hp. assert (p = 0 ∨ p = 1 ∨ p = 2 ∨ p = 3 ∨ p = 4)
    as [-> |[-> |[-> |[-> | ->]]]] by lia; vm_compute; intuition congruence.
Qed.

Lemma initial_counter_max p : initial_counter p <= 4.
Proof.
  unfold initial_counter. pose proof (Z.mod_pos_bound p 5 ltac:(lia)).
  assert (p mod 5 = 0 ∨ p mod 5 = 1 ∨ p mod 5 = 2 ∨ p mod 5 = 3 ∨ p mod 5 = 4)
    as [-> |[-> |[-> |[-> | ->]]]] by lia; vm_compute; congruence.
Qed.

(** ** Switching without the queue *)

(** What [switch_to] does to the abstract state: the queue is not touched. *)
Definition a_switch_to (t : Z) (k : kstate) : kstate :=
  let c := current k in
  let k1 := set_current t k in
  let k2 := if bool_decide (a_state k c = Some PROCESS_RUNNING)
            then a_upd c (set_p_state PROCESS_READY) k1 else k1 in
  a_switch (ctx_of k c) (ctx_of k t) (a_upd t (set_p_state PROCESS_RUNNING) k2).

Lemma switch_to_ok s q k t :
  rep s q k → dispatchable k (current k) → dispatchable k t → t ≠ current k →
  ∃ s', switch_to t s = Jump s' ∧ rep s' q (a_switch_to t k).
Proof.
  intros Hr Hc Ht Hne. unfold switch_to, a_switch_to. set (c := current k) in *.
  rewrite (proj2 (Z.eqb_neq t NULL)) by apply Ht. rewrite bind_get. cbv zeta.
  rewrite (rep_current _ _ _ Hr). fold c.
  rewrite (proj2 (Z.eqb_neq c NULL)), (proj2 (Z.eqb_neq c t)) by (done || apply Hc).
  unfold process_set_current. rewrite bind_modify. apply (rep_set_current _ _ _ t) in Hr.
  assert (dispatchable (set_current t k) c) as Hc1 by exact Hc.
  assert (dispatchable (set_current t k) t) as Ht1 by exact Ht.
  change (ctx_of k ?p) with (ctx_of (set_current t k) p).
  change (a_state k c) with (a_state (set_current t k) c).
  set (k1 := set_current t k) in *. clearbody k1. clear Hc Ht. clearbody c.
  destruct Hc1 as (Hc0 & x & Hx & Hxc & Hxctx). destruct (rep_get_proc _ _ _ _ _ Hr Hx) as (x0 & Ex & ->).
  mstep Ex.
  assert (bool_decide (a_state k1 c = Some PROCESS_RUNNING) =
    bool_decide (p_state x0 = PROCESS_RUNNING)) as ->
    by (apply bool_decide_ext; unfold a_state; rewrite Hx; simpl; split; congruence).
  assert (dispatchable k1 c) as Hc1 by (split; [done|]; by eauto).
  set (run := bool_decide _). set (k2 := if run then a_upd c _ k1 else k1).
  assert (∃ s2, when run (upd_proc c (set_p_state PROCESS_READY)) (set_current t s) = Ret tt s2 ∧
    rep s2 q k2) as (s2 & E2 & Hr2).
  { unfold k2, when. destruct run; [|by eexists]. eapply rep_a_upd; [apply _|done|by eauto]. }
  mstep E2.
  assert (∀ p, dispatchable k1 p → dispatchable k2 p ∧ ctx_of k2 p = ctx_of k1 p) as Hd
    by (intros p Hp; unfold k2; destruct run; [by apply dispatchable_upd|done]).
  destruct (rep_a_upd s2 q k2 t (set_p_state PROCESS_RUNNING) Hr2) as (s3 & E3 & Hr3).
  { destruct (Hd _ Ht1) as [(_ & z & -> & _) _]. by eauto. }
  mstep E3. destruct (Hd _ Hc1) as [Hc2 <-], (Hd _ Ht1) as [Ht2 <-].
  destruct (dispatchable_upd k2 c t (set_p_state PROCESS_RUNNING)) as [Hc3 <-]; [done..|].
  destruct (dispatchable_upd k2 t t (set_p_state PROCESS_RUNNING)) as [Ht3 <-]; [done..|].
  set (k3 := a_upd t _ k2) in *. clearbody k3.
  destruct Hc3 as (_ & y & Hy & Hyc & Hyctx), Ht3 as (_ & z & Hz & Hzc & Hzctx).
  destruct (rep_get_proc _ _ _ _ _ Hr3 Hy) as (y0 & Ey & ->). mstep Ey.
  destruct (rep_get_proc _ _ _ _ _ Hr3 Hz) as (z0 & Ez & ->). mstep Ez. simpl in *.
  rewrite (proj2 (Z.eqb_neq (p_context y0) NULL)), (proj2 (Z.eqb_neq (p_context z0) NULL)) by done.
  unfold ctx_of. rewrite Hy, Hz. by apply context_switch_ok.
Qed.

Lemma switch_to_state q k t :
  Inv q k → live k t → t ≠ current k →
  current (a_switch_to t k) = t ∧
  ∀ r, a_state (a_switch_to t k) r =
    if decide (t = r) then Some PROCESS_RUNNING
    else if bool_decide (a_state k (current k) = Some PROCESS_RUNNING) &&
            bool_decide (current k = r) then Some PROCESS_READY
    else a_state k r.
Proof.
  intros HI Ht Hne. unfold a_switch_to. set (run := bool_decide _).
  set (k2 := if run then _ else _).
  assert (is_Some (procs k2 !! t) ∧ ∀ r, a_state k2 r = if run && bool_decide (current k = r)
    then Some PROCESS_READY else a_state k r) as [Hk2 Hs2].
  { destruct (wf_lookup k t (inv_wf _ _ HI) Ht) as [x Hx].
    destruct (inv_current_lookup _ _ HI) as [y Hy]. unfold k2. destruct run; [|by eauto]. split.
    - rewrite (a_upd_some _ _ (set_current t k) _ Hy). simpl. rewrite lookup_insert_ne by done. eauto.
    - intros r. rewrite a_state_upd by (by eauto). simpl.
      destruct (decide (current k = r)); by case_bool_decide. }
  split.
  - rewrite current_switch, current_upd. unfold k2. destruct run; [by rewrite current_upd|done].
  - intros r. rewrite a_state_switch, a_state_upd by done. by rewrite Hs2.
Qed.

(** ** [schedule_sjf] *)

Lemma ready_slot_queue q k i : Inv q k → ready_slot k i → slot k i ∈ q ∧ live k (slot k i).
Proof.
  intros HI (_ & Hn & Hs). pose proof (slot_live _ _ Hn) as Hl.
  split; [by apply (sc_queue _ _ HI)|done].
Qed.

(** With a candidate in the table, the smallest counter wins. *)
Lemma sjf_select fuel s q k :
  rep s q k → Inv q k → small_slices k → (∃ i, candidate k i) →
  ∃ n s', schedule_sjf (S fuel) s = Jump s' ∧ rep s' q (a_switch_to (slot k n) k) ∧
    candidate k n ∧ ∀ i, candidate k i → slot_counter k n <= slot_counter k i.
Proof.
  intros Hr HI Hsmall [i0 Hi0]. cbn [schedule_sjf]. rewrite bind_get, (rep_current _ _ _ Hr).
  rewrite (proj2 (Z.eqb_neq (current k) NULL)) by (by eapply inv_current_not_null).
  destruct (sjf_scan_ok s q k Hr (inv_wf _ _ HI) Hsmall) as (n & m & E & [[_ Hno]|(Hn & <- & Hmin)]);
    [by destruct (Hno i0)|]. mstep E.
  pose proof (wf_count _ HI) as Htc. destruct (proj1 Hn) as (Hrange & Hnull & Hst).
  rewrite (proj2 (Z.eqb_neq n 0)) by lia.
  mstep (get_task_ret s q k n Hr (wf_len _ HI) ltac:(lia)).
  destruct (read_slot s q k n Hr (inv_wf _ _ HI)) as (x & Ex & _); [lia|done|]. mstep Ex.
  destruct (ready_slot_queue _ _ _ HI (proj1 Hn)) as [Hq Hl].
  destruct (switch_to_ok s q k (slot k n) Hr) as (s' & E' & Hr').
  - apply wf_dispatchable; [apply HI|apply (sc_current _ _ HI)].
  - by apply wf_dispatchable; [apply HI|].
  - intros Ec. apply (sc_offqueue _ _ HI). by rewrite <- Ec.
  - by exists n, s'.
Qed.

(** With ready processes but no slice left, one refresh and the same again. *)
Lemma sjf_again fuel s q k :
  rep s q k → Inv q k → small_slices k → (∀ i, ¬ candidate k i) → (∃ i, ready_slot k i) →
  ∃ s' k', schedule_sjf (S fuel) s = schedule_sjf fuel s' ∧ rep s' q k' ∧ Inv q k' ∧
    counters_only k k' ∧ small_slices k' ∧
    ∀ i, ready_slot k i → slot_counter k' i = initial_counter (slot_priority k i).
Proof.
  intros Hr HI Hsmall Hno Hex. cbn [schedule_sjf]. rewrite bind_get, (rep_current _ _ _ Hr).
  rewrite (proj2 (Z.eqb_neq (current k) NULL)) by (by eapply inv_current_not_null).
  destruct (sjf_scan_ok s q k Hr (inv_wf _ _ HI) Hsmall) as (n & m & E & [[-> _]|[Hn _]]);
    [|by destruct (Hno n)]. mstep E. simpl.
  destruct (sjf_refresh_ok s q k Hr HI) as (c & s' & k' & E' & Hr' & HI' & Hco & Hcnt & _ & Hc).
  mstep E'. rewrite (proj2 (Z.ltb_lt 0 c)) by (by apply Hc).
  exists s', k'. split_and!; try done. intros i Hi. rewrite (ready_slot_counters_only k k') in Hi by done.
  rewrite Hcnt by done. apply initial_counter_max.
Qed.

(** When every ready process has priority 0, a refresh gives each of them the slice 0 and the
    recursion never ends. *)
Lemma sjf_stuck fuel s q k :
  rep s q k → Inv q k → (∃ i, ready_slot k i) →
  (∀ i, ready_slot k i → slot_counter k i = 0 ∧ slot_priority k i = 0) →
  schedule_sjf fuel s = NoFuel.
Proof.
  revert s k. induction fuel as [|fuel IH]; intros s k Hr HI Hex Hz; [done|].
  destruct (sjf_again fuel s q k Hr HI) as (s' & k' & -> & Hr' & HI' & Hco & _ & Hcnt).
  - intros i Hi. by rewrite (proj1 (Hz i Hi)).
  - intros i [Hi Hp]. rewrite (proj1 (Hz i Hi)) in Hp. lia.
  - done.
  - apply (IH s' k'); [done..| |].
    + destruct Hex as [i Hi]. exists i. by rewrite (ready_slot_counters_only k k').
    + intros i Hi. rewrite (ready_slot_counters_only k k') in Hi by done.
      rewrite Hcnt, (slot_priority_counters_only k k') by done. by rewrite (proj2 (Hz i Hi)).
Qed.

(** A READY process of the table other than idle, seen from outside. *)
Definition sjf_ready (s : kstate) (p : Z) (x : process) : Prop :=
  in_table s p ∧ procs s !! p = Some x ∧ p_state x = PROCESS_READY ∧ p_pid x ≠ 0.

Lemma sjf_ready_slot s q k :
  rep s q k → Inv q k →
  (∀ p x, sjf_ready s p x → ∃ i, ready_slot k i ∧ slot k i = p ∧
     slot_counter k i = p_counter x ∧ slot_priority k i = p_priority x) ∧
  (∀ i, ready_slot k i → ∃ x, sjf_ready s (slot k i) x ∧
     slot_counter k i = p_counter x ∧ slot_priority k i = p_priority x).
Proof.
  intros Hr HI. pose proof (inv_wf _ _ HI) as Hw. pose proof (wf_count _ Hw) as Htc. split.
  - intros p x (Hp & Hx & Hst & Hpid). rewrite (rep_live s q k) in Hp by done.
    assert (procs k !! p = Some (set_p_next NULL x)) as Hxk
      by (destruct Hr as [_ <-]; simpl; by rewrite strip_lookup, Hx).
    destruct (live_slot k p Hw Hp) as (i & Hi & Es). exists i.
    assert (i ≠ 0) as Hi0.
    { intros ->. apply Hpid. assert (pid_of k p = 0) as E; [|unfold pid_of in E; by rewrite Hxk in E].
      apply idle_pid; [done|done|]. destruct (wf_idle _ Hw) as (j & _ & Hj & _).
      unfold slot in Es. change (Z.to_nat 0) with 0%nat in Es. rewrite Hj in Es. simpl in Es. congruence. }
    unfold ready_slot, slot_counter, slot_priority, a_state. rewrite Es, Hxk. simpl.
    split_and!; [lia|lia|apply Hp|congruence|done|done|done].
  - intros i (Hi & Hn & Hst).
    destruct (read_slot s q k i Hr Hw) as (x & Ex & Hxk & Hs & Hc & Hp); [lia|done|]. exists x.
    destruct (rep_lookup _ _ _ _ _ Hr Hxk) as (x' & Hx' & Exx). 
    assert (x' = x) as -> by (unfold get_proc, deref in Ex; rewrite Hx' in Ex; by injection Ex).
    split_and!; [|done|done]. pose proof (slot_live _ _ Hn) as Hl.
    split_and!; [by rewrite (rep_live s q k)|done|congruence|]. intros E.
    assert (pid_of k (slot k i) = 0) as E0 by (unfold pid_of; by rewrite Hxk).
    apply idle_pid in E0; [|done|done]. assert (slot k 0 = slot k i) as Es
      by (unfold slot at 1; change (Z.to_nat 0) with 0%nat; by rewrite E0).
    symmetry in Es. apply (slot_inj k) in Es; [lia|done|lia|lia|done].
Qed.

Lemma slices_small k : Wf k → Slices k → small_slices k.
Proof.
  intros Hw Hs i (_ & Hn & _). pose proof (slot_live _ _ Hn) as Hl.
  destruct (wf_lookup k _ Hw Hl) as [x Hx]. unfold slot_counter. rewrite Hx. simpl.
  destruct (Hs (slot k i) (slice x) Hl) as [_ [_ ?]]; [|done]. unfold pslice. by rewrite Hx.
Qed.

(** With nobody ready but idle, it returns when idle runs and switches to idle otherwise. *)
Lemma sjf_idle fuel s q k :
  rep s q k → Inv q k → small_slices k → (∀ i, ¬ ready_slot k i) →
  schedule_sjf (S fuel) s ≠ NoFuel.
Proof.
  intros Hr HI Hsmall Hno. cbn [schedule_sjf]. rewrite bind_get, (rep_current _ _ _ Hr).
  rewrite (proj2 (Z.eqb_neq (current k) NULL)) by (by eapply inv_current_not_null).
  destruct (sjf_scan_ok s q k Hr (inv_wf _ _ HI) Hsmall) as (n & m & E & [[-> _]|[[Hn _] _]]);
    [|by destruct (Hno n)]. mstep E. simpl.
  destruct (sjf_refresh_ok s q k Hr HI) as (c & s' & k' & E' & Hr' & HI' & Hco & _ & Hc0 & Hc).
  mstep E'. destruct (Z.ltb_spec 0 c) as [Hpos|_]; [apply Hc in Hpos as [i Hi]; by destruct (Hno i)|].
  rewrite <- (co_current _ _ Hco).
  destruct (inv_current_lookup _ _ HI') as [y Hy].
  destruct (rep_get_proc _ _ _ _ _ Hr' Hy) as (x & Ex & ->). mstep Ex.
  destruct (Z.eqb_spec (p_pid x) 0) as [|Hpid]; [done|].
  mstep (get_task_ret s' q k' 0 Hr' (wf_len _ HI') ltac:(lia)).
  destruct (inv_idle_ready q k' HI') as (i & Hi & Hq).
  { apply (current_not_idle q k' HI'). unfold pid_of. by rewrite Hy. }
  assert (slot k' 0 = i) as -> by (unfold slot; change (Z.to_nat 0) with 0%nat; by rewrite Hi).
  destruct (switch_to_ok s' q k' i Hr') as (s2 & -> & _); [| | |done].
  - apply wf_dispatchable; [apply HI'|apply (sc_current _ _ HI')].
  - apply wf_dispatchable; [apply HI'|by eapply queue_live].
  - intros ->. by apply (sc_offqueue _ _ HI').
Qed.

(** C16: Shortest job first. When a READY process other than idle has time left, [schedule_sjf]
    switches, without recursion, to one of those whose remaining slice is the smallest. *)
Theorem sjf_shortest s p x fuel :
  reachable s → sjf_ready s p x → 0 < p_counter x →
  ∃ s' y, schedule_sjf (S fuel) s = Jump s' ∧ sjf_ready s (current s') y ∧ 0 < p_counter y ∧
    state_of s' (current s') = Some PROCESS_RUNNING ∧
    ∀ p' x', sjf_ready s p' x' → 0 < p_counter x' → p_counter y <= p_counter x'.
Proof.
  intros (q & k & Hr & HI)%reachable_inv Hp Hpos.
  destruct (sjf_ready_slot s q k Hr HI) as [Hto Hfrom].
  destruct (Hto _ _ Hp) as (i & Hi & _ & Ec & _).
  destruct (sjf_select fuel s q k Hr HI) as (n & s' & E & Hr' & Hn & Hmin).
  { apply slices_small; [apply HI|apply (ki_slices _ _ HI)]. }
  { exists i. split; [done|lia]. }
  destruct (Hfrom n (proj1 Hn)) as (y & Hy & Ecy & _).
  destruct (ready_slot_queue q k n HI (proj1 Hn)) as [Hq Hl].
  destruct (switch_to_state q k (slot k n) HI Hl) as [Hcur Hst].
  { intros Eq. apply (sc_offqueue _ _ HI). by rewrite <- Eq. }
  exists s', y. rewrite (rep_current _ _ _ Hr'), Hcur, (rep_state s' _ _ _ Hr'), Hst, decide_True by done.
  split_and!; [done..|rewrite <- Ecy; apply Hn|done|].
  intros p' x' Hp' Hpos'. destruct (Hto _ _ Hp') as (j & Hj & _ & Ecj & _).
  rewrite <- Ecj, <- Ecy. apply Hmin. split; [done|lia].
Qed.

#[local] Instance ready_slot_dec k i : Decision (ready_slot k i).
Proof. unfold ready_slot. apply _. Defined.

(** A ready slot that will get the CPU at the latest after a refresh. *)
Definition good_slot (k : kstate) (i : Z) : Prop :=
  ready_slot k i ∧ (0 < slot_counter k i ∨ slot_priority k i ≠ 0).

#[local] Instance good_slot_dec k i : Decision (good_slot k i).
Proof. unfold good_slot. apply _. Defined.

Lemma good_slot_cases k :
  Wf k → (∃ i, good_slot k i) ∨ (∀ i, ¬ ready_slot k i) ∨
         ((∃ i, ready_slot k i) ∧ ∀ i, ready_slot k i → ¬ good_slot k i).
Proof.
  intros Hw. pose proof (wf_count _ Hw) as Htc.
  assert (∀ P : Z → Prop, (∀ i, Decision (P i)) → (∀ i, P i → ready_slot k i) →
    (∃ i, P i) ∨ ∀ i, ¬ P i) as Hsearch.
  { intros P Hd HP. destruct (decide (Exists P (seqZ 0 64))) as [[i [_ Hi]]%Exists_exists|Hno].
    - left. by exists i.
    - right. intros i Hi. apply Hno, Exists_exists. exists i. split; [|done].
      apply elem_of_seqZ. destruct (HP i Hi). lia. }
  destruct (Hsearch (good_slot k) _) as [?|Hno]; [by intros i [? _]|by left|right].
  destruct (Hsearch (ready_slot k) _) as [?|?]; [done|right|by left]. split; [done|by eauto].
Qed.

Lemma sjf_halts s q k :
  rep s q k → KInvAt q k → (∃ i, good_slot k i) ∨ (∀ i, ¬ ready_slot k i) → schedule_sjf 2 s ≠ NoFuel.
Proof.
  intros Hr HI Hcase. pose proof (slices_small k (inv_wf _ _ HI) (ki_slices _ _ HI)) as Hsmall.
  destruct Hcase as [(i & Hi & Hor)|Hno]; [|by eapply sjf_idle; [|apply HI|..]].
  destruct (sjf_scan_ok s q k Hr (inv_wf _ _ HI) Hsmall) as (n & m & _ & [[_ Hc]|[Hc _]]).
  - destruct (sjf_again 1 s q k Hr HI Hsmall Hc) as (s' & k' & -> & Hr' & HI' & Hco & Hsmall' & Hcnt);
      [by eauto|].
    destruct (sjf_select 0 s' q k' Hr' HI' Hsmall') as (n' & s2 & -> & _); [|done].
    exists i. split; [by rewrite (ready_slot_counters_only k k')|]. rewrite Hcnt by done.
    apply initial_counter_pos; [|destruct Hor; [|done]; by destruct (Hc i)].
    pose proof (slot_live _ _ (proj1 (proj2 Hi))) as Hl.
    destruct (wf_lookup k _ (inv_wf _ _ HI) Hl) as [y Hy]. unfold slot_priority. rewrite Hy.
    destruct (ki_slices _ _ HI (slot k i) (slice y) Hl) as [? _]; [|done]. unfold pslice. by rewrite Hy.
  - by destruct (sjf_select 1 s q k Hr HI Hsmall (ex_intro _ n Hc)) as (n' & s' & -> & _).
Qed.

Lemma sjf_loops s q k fuel :
  rep s q k → KInvAt q k → (∃ i, ready_slot k i) → (∀ i, ready_slot k i → ¬ good_slot k i) →
  schedule_sjf fuel s = NoFuel.
Proof.
  intros Hr HI Hex Hbad. eapply sjf_stuck; [done|apply HI|done|]. intros i Hi.
  pose proof (Hbad i Hi) as Hno. pose proof (slot_live _ _ (proj1 (proj2 Hi))) as Hl.
  destruct (wf_lookup k _ (inv_wf _ _ HI) Hl) as [y Hy].
  destruct (ki_slices _ _ HI (slot k i) (slice y) Hl) as [_ [Hpos _]]; [unfold pslice; by rewrite Hy|].
  assert (slot_counter k i = p_counter y) as Ec by (unfold slot_counter; by rewrite Hy).
  simpl in Hpos. unfold good_slot in Hno.
  destruct (decide (slot_counter k i = 0)), (decide (slot_priority k i = 0)); [done|exfalso..];
    apply Hno; (split; [done|]); [by right|left; lia|left; lia].
Qed.

(** C17: [schedule_sjf] terminates exactly when no process but idle is READY, or some READY
    process has time left or a priority other than 0. READY processes that all have priority 0
    and no time left make it call itself for ever; otherwise two activations are enough. *)
Theorem sjf_terminates_iff s :
  reachable s →
  ((∃ fuel, schedule_sjf fuel s ≠ NoFuel) ↔
   ((∀ p x, ¬ sjf_ready s p x) ∨
    ∃ p x, sjf_ready s p x ∧ (0 < p_counter x ∨ p_priority x ≠ 0))) ∧
  ((∃ fuel, schedule_sjf fuel s ≠ NoFuel) → schedule_sjf 2 s ≠ NoFuel).
Proof.
  intros (q & k & Hr & HI)%reachable_inv.
  destruct (sjf_ready_slot s q k Hr HI) as [Hto Hfrom].
  assert (((∀ p x, ¬ sjf_ready s p x) ∨
    ∃ p x, sjf_ready s p x ∧ (0 < p_counter x ∨ p_priority x ≠ 0)) ↔
    ((∃ i, good_slot k i) ∨ (∀ i, ¬ ready_slot k i))) as ->.
  { split.
    - intros [Hno|(p & x & Hp & Hor)]; [right|left].
      + intros i Hi. destruct (Hfrom i Hi) as (x & Hx & _). by eapply Hno.
      + destruct (Hto _ _ Hp) as (i & Hi & _ & Ec & Ep). exists i. split; [done|]. by rewrite Ec, Ep.
    - intros [(i & Hi & Hor)|Hno]; [right|left].
      + destruct (Hfrom i Hi) as (x & Hx & Ec & Ep). exists (slot k i), x. by rewrite <- Ec, <- Ep.
      + intros p x Hp. destruct (Hto _ _ Hp) as (i & Hi & _). by eapply Hno. }
  pose proof (sjf_halts s q k Hr HI) as Hhalt.
  assert ((∃ fuel, schedule_sjf fuel s ≠ NoFuel) → (∃ i, good_slot k i) ∨ (∀ i, ¬ ready_slot k i)) as Hone.
  { intros [fuel Hf]. destruct (good_slot_cases k (inv_wf _ _ HI)) as [?|[?|[Hex Hbad]]]; [by auto..|].
    destruct Hf. by eapply sjf_loops. }
  split; [split; [done|by eauto]|auto].
Qed.

(** C27: [schedule_sjf] and the FIFO queue do not agree. In every reachable state with a READY
    process, idle apart, that has time left, it switches, and after the switch the process it
    selected is RUNNING and still in the ready queue, while the process it took the CPU from is
    READY and in no queue: the state is one that no sequence of the other calls reaches. *)
Theorem sjf_breaks_queue s p x fuel :
  reachable s → sjf_ready s p x → 0 < p_counter x →
  ∃ s', schedule_sjf (S fuel) s = Jump s' ∧
    current s' ∈ ready_list s' ∧ state_of s' (current s') = Some PROCESS_RUNNING ∧
    (current s ∉ ready_list s') ∧ state_of s' (current s) = Some PROCESS_READY ∧ ¬ reachable s'.
Proof.
  intros (q & k & Hr & HI)%reachable_inv Hp Hpos.
  destruct (sjf_ready_slot s q k Hr HI) as [Hto _].
  destruct (Hto _ _ Hp) as (i & Hi & _ & Ec & _).
  destruct (sjf_select fuel s q k Hr HI) as (n & s' & E & Hr' & Hn & _).
  { apply slices_small; [apply HI|apply (ki_slices _ _ HI)]. }
  { exists i. split; [done|lia]. }
  exists s'. split; [done|].
  destruct (ready_slot_queue q k n HI (proj1 Hn)) as [Hq Hl].
  assert (slot k n ≠ current k) as Hne by (intros Eq; apply (sc_offqueue _ _ HI); by rewrite <- Eq).
  destruct (switch_to_state q k (slot k n) HI Hl Hne) as [Hcur Hst].
  rewrite (rep_ready_list _ _ _ Hr'), (rep_current _ _ _ Hr), (rep_current _ _ _ Hr'), Hcur.
  rewrite !(rep_state s' _ _ _ Hr'), !Hst, decide_True by done.
  rewrite decide_False, !bool_decide_true by (done || apply (ki_running _ _ HI)).
  split_and!; [done..|apply (sc_offqueue _ _ HI)|done|].
  intros (q' & k' & Hr1 & HI1)%reachable_inv. apply (sc_offqueue _ _ HI1).
  rewrite <- (rep_ready_list _ _ _ Hr1), <- (rep_current _ _ _ Hr1).
  by rewrite (rep_ready_list _ _ _ Hr'), (rep_current _ _ _ Hr'), Hcur.
Qed.
End sjf.

(** ** Runs *)

#[local] Existing Instance demo_linkage.

(** Two ready processes with slices 4 and 3. *)
Definition demo_ready : list kcall := [Create 0x4000 7 1; Create 0x5000 8 2].

(** The PCB at [p], for the runs. *)
Definition pcb_at (s : kstate) (p : Z) : process := default process_zero (procs s !! p).

Lemma sjf_ready_run s p :
  bool_decide (in_table s p ∧ is_Some (procs s !! p) ∧ p_state (pcb_at s p) = PROCESS_READY ∧
    p_pid (pcb_at s p) ≠ 0) = true → sjf_ready s p (pcb_at s p).
Proof.
  intros (Ht & [x Hx] & Hs & Hp)%bool_decide_eq_true. split_and!; [done| |done|done].
  unfold pcb_at. by rewrite Hx.
Qed.

Lemma sjf_shortest_witness :
  ∃ s' y, schedule_sjf 1 (demo demo_ready) = Jump s' ∧ 0 < p_counter y ∧
    state_of s' (current s') = Some PROCESS_RUNNING.
Proof.
  destruct (sjf_shortest (demo demo_ready) demo_first (pcb_at (demo demo_ready) demo_first) 0)
    as (s' & y & E & _ & Hy & Hs & _).
  - demo_run.
  - apply sjf_ready_run. vm_compute. reflexivity.
  - vm_compute. reflexivity.
  - exists s', y. exact (conj E (conj Hy Hs)).
Defined.

Lemma sjf_terminates_iff_witness :
  (∃ fuel, schedule_sjf fuel (demo demo_ready) ≠ NoFuel) ∧ schedule_sjf 2 (demo demo_ready) ≠ NoFuel.
Proof.
  destruct (sjf_terminates_iff (demo demo_ready)) as [Hiff H2]; [demo_run|].
  assert (∃ fuel, schedule_sjf fuel (demo demo_ready) ≠ NoFuel) as Hex; [|exact (conj Hex (H2 Hex))].
  apply Hiff. right. exists demo_first, (pcb_at (demo demo_ready) demo_first).
  split; [apply sjf_ready_run; vm_compute; reflexivity|]. left. vm_compute. reflexivity.
Defined.

Lemma sjf_breaks_queue_witness :
  ∃ s', schedule_sjf 1 (demo demo_ready) = Jump s' ∧ current s' ∈ ready_list s' ∧ ¬ reachable s'.
Proof.
  destruct (sjf_breaks_queue (demo demo_ready) demo_first (pcb_at (demo demo_ready) demo_first) 0)
    as (s' & E & Hq & _ & _ & _ & Hr).
  - demo_run.
  - apply sjf_ready_run. vm_compute. reflexivity.
  - vm_compute. reflexivity.
  - exists s'. exact (conj E (conj Hq Hr)).
Defined.

(** A PCB linked to itself traps the search of [scheduler_remove]. *)
Lemma remove_loop_trapped fuel s p x c :
  procs s !! x = Some c → p_next c = x → x ≠ NULL → x ≠ p → remove_loop fuel p x s = NoFuel.
Proof.
  intros Hx Hn H0 Hp. induction fuel as [|fuel IH]; [done|]. cbn [remove_loop].
  mstep (get_proc_ret _ _ _ Hx). rewrite Hn.
  by rewrite (proj2 (Z.eqb_neq x NULL)), (proj2 (Z.eqb_neq x p)).
Qed.

(** One call of [schedule_sjf] followed by one of [schedule] links a PCB of the ready queue
    to itself; when the process then running exits, the search loop of [scheduler_remove]
    never ends. *)
Theorem sjf_then_fifo_hangs :
  ∃ s1 s2, schedule_sjf 1 (demo demo_ready) = Jump s1 ∧ schedule s1 = Jump s2 ∧
    pid_at s2 (current s2) = Some 1 ∧
    p_next <$> procs s2 !! rq_head s2 = Some (rq_head s2) ∧
    ∀ fuel, scheduler_remove_fuel fuel (current s2) s2 = NoFuel.
Proof.
  set (s1 := or_boot (final (schedule_sjf 1 (demo demo_ready)))).
  set (s2 := or_boot (final (schedule s1))).
  assert (rq_head s2 = demo_second ∧ current s2 = demo_first ∧
    p_next <$> procs s2 !! demo_second = Some demo_second) as (Eh & Ec & En)
    by (vm_compute; split_and!; reflexivity).
  exists s1, s2. rewrite Eh, Ec. split_and!; [vm_compute; reflexivity..|exact En|].
  intros fuel. destruct (procs s2 !! demo_second) as [c|] eqn:Hx; [|discriminate En].
  injection En as En. unfold scheduler_remove_fuel. rewrite bind_get, Eh. simpl orb.
  change (demo_second =? demo_first) with false. cbv iota.
  apply (remove_loop_trapped _ _ _ _ c); [exact Hx|exact En|discriminate|discriminate].
Qed.
