(* ===== verification/Restart.v ===== *)
(** * Where a process continues

    [context_save] does not store the instruction pointer, and nothing else in the kernel writes
    the [rip] of an existing context. The theorem of this file follows the consequence through
    arbitrary runs and every call that switches: a process that is given the CPU is handed to
    [context_restore] with the instruction pointer it was created with, however far it had come
    before, and the idle process with 0. *)

From stdpp Require Import base numbers strings pretty gmap relations list.
From S2P Require Import Prelude Frame.
From S2P Require Import Chain.
From S2P Require Import Memory.
From S2P Require Import Context.
From S2P Require Import ProcState.
From S2P Require Import Scheduler.
From S2P Require Import Process.
From S2P Require Import KernelInv.
From S2P Require Import ProcessOps.
From S2P Require Import ProcessCreate.
From S2P Require Import KernelSteps.
From S2P Require Import KernelSpec.
From S2P Require Import KernelProps.

Local Open Scope Z_scope.

(** Existing contexts keep their [rip] and existing PCBs their context. *)
Definition contexts_kept (s s' : kstate) : Prop :=
  (∀ c x, ctxs s !! c = Some x → ∃ x', ctxs s' !! c = Some x' ∧ rip x' = rip x) ∧
  (∀ p x, procs s !! p = Some x → ∃ x', procs s' !! p = Some x' ∧ p_context x' = p_context x).

#[export] Instance contexts_kept_preorder : PreOrder contexts_kept.
Proof.
  split.
  - intros s. split; eauto.
  - intros s1 s2 s3 [H1 H2] [H3 H4]. split; intros i x Hx.
    + destruct (H1 _ _ Hx) as (x1 & Hx1 & E). destruct (H3 _ _ Hx1) as (x2 & ? & ?). exists x2.
      split; [done|congruence].
    + destruct (H2 _ _ Hx) as (x1 & Hx1 & E). destruct (H4 _ _ Hx1) as (x2 & ? & ?). exists x2.
      split; [done|congruence].
Qed.

#[export] Instance keeps_in_mem {A} (c : M mem A) : Keeps contexts_kept (in_mem c).
Proof. apply keeps_zoom_any. intros m s. by split; eauto. Qed.

(** Assignments that leave the two stores alone. *)
Lemma contexts_kept_same s s' : ctxs s' = ctxs s → procs s' = procs s → contexts_kept s s'.
Proof. intros E1 E2. unfold contexts_kept. rewrite E1, E2. split; eauto. Qed.

#[export] Hint Extern 2 (Keeps contexts_kept (modify _)) =>
  apply keeps_modify; intros ?; apply contexts_kept_same; reflexivity : typeclass_instances.

(** Member assignments other than to [context]. *)
Lemma keeps_upd p f : (∀ x, p_context (f x) = p_context x) → Keeps contexts_kept (upd_proc p f).
Proof.
  intros Hf s s'. unfold upd_proc. destruct (procs s !! p) as [y|] eqn:Hy.
  - mstep (get_proc_ret _ _ _ Hy). intros [= <-]. split; [by eauto|]. intros r x Hx. simpl.
    destruct (decide (p = r)) as [<-|]; [|rewrite lookup_insert_ne by done; by eauto].
    rewrite lookup_insert_eq. eexists. split; [done|]. rewrite Hf. congruence.
  - by rewrite (bind_fault _ _ _ (get_proc_fault _ _ Hy)).
Qed.

#[export] Hint Extern 2 (Keeps _ (upd_proc _ _)) => apply keeps_upd; done : typeclass_instances.

(** [context_save] writes an existing context but keeps its [rip]. *)
#[export] Instance keeps_context_save c : Keeps contexts_kept (context_save_at c).
Proof.
  intros s s'. unfold context_save_at. destruct (ctxs s !! c) as [o|] eqn:Ho.
  - mstep (deref_ret (λ s, ctxs s !! c) s o Ho). intros [= <-]. split; [|by eauto].
    intros d x Hx. simpl. destruct (decide (c = d)) as [<-|];
      [|rewrite lookup_insert_ne by done; by eauto].
    rewrite lookup_insert_eq. eexists. split; [done|]. simpl. congruence.
  - rewrite bind_fault; [done|]. unfold deref. by rewrite Ho.
Qed.

#[export] Instance keeps_context_restore {A} c : Keeps contexts_kept (context_restore_at (A := A) c).
Proof. unfold context_restore_at. apply _. Qed.

(** Every operation but creation. *)

#[export] Instance keeps_get_proc p : Keeps contexts_kept (get_proc p).
Proof. unfold get_proc. apply _. Qed.
#[export] Instance keeps_get_task i : Keeps contexts_kept (get_task i).
Proof. unfold get_task. apply _. Qed.
#[export] Instance keeps_put_task i v : Keeps contexts_kept (put_task i v).
Proof. unfold put_task. apply _. Qed.
#[export] Instance keeps_context_switch {A} a b : Keeps contexts_kept (context_switch (A := A) a b).
Proof. unfold context_switch. apply _. Qed.
#[export] Instance keeps_get_current : Keeps contexts_kept process_get_current.
Proof. unfold process_get_current. apply _. Qed.
#[export] Instance keeps_scheduler_add p : Keeps contexts_kept (scheduler_add p).
Proof. unfold scheduler_add. apply _. Qed.
#[export] Instance keeps_remove_loop fuel p c : Keeps contexts_kept (remove_loop fuel p c).
Proof. revert c. induction fuel as [|fuel IH]; intros c; cbn [remove_loop]; apply _. Qed.
#[export] Instance keeps_scheduler_remove p : Keeps contexts_kept (scheduler_remove p).
Proof. unfold scheduler_remove, scheduler_remove_fuel. apply _. Qed.
#[export] Instance keeps_scheduler_next : Keeps contexts_kept scheduler_next.
Proof. unfold scheduler_next. apply _. Qed.
#[export] Instance keeps_schedule : Keeps contexts_kept schedule.
Proof. unfold schedule, dispatch, process_set_current. apply _. Qed.
#[export] Instance keeps_scheduler_block : Keeps contexts_kept scheduler_block.
Proof. unfold scheduler_block. apply _. Qed.
#[export] Instance keeps_scheduler_wake p : Keeps contexts_kept (scheduler_wake p).
Proof. unfold scheduler_wake. apply _. Qed.

Section restart.
Context `{L : Linkage}.

#[local] Instance keeps_set_state p st : Keeps contexts_kept (process_set_state p st).
Proof. unfold process_set_state. apply _. Qed.
#[local] Instance keeps_wake_blocked : Keeps contexts_kept wake_blocked.
Proof. unfold wake_blocked. apply _. Qed.
#[local] Instance keeps_exit code : Keeps contexts_kept (process_exit code).
Proof. unfold process_exit, exit_release. apply _. Qed.
#[local] Instance keeps_find_pid pid : Keeps contexts_kept (find_pid pid).
Proof. unfold find_pid. apply _. Qed.
#[local] Instance keeps_reap t : Keeps contexts_kept (reap t).
Proof. unfold reap, count_tasks. apply _. Qed.
#[local] Instance keeps_wait pid want : Keeps contexts_kept (process_wait pid want).
Proof. unfold process_wait. apply _. Qed.
#[local] Instance keeps_timer : Keeps contexts_kept do_timer.
Proof. unfold do_timer. apply _. Qed.




(** ** What a switch resumes *)

(** The context handed over is that of the process that becomes current. *)
Definition dispatched (s : kstate) : Prop :=
  ∃ x, procs s !! current s = Some x ∧ resumed s = p_context x.

#[local] Instance jumps_get_proc P p : JumpsTo P (get_proc p).
Proof. unfold get_proc. apply _. Qed.
#[local] Instance jumps_upd_proc P p f : JumpsTo P (upd_proc p f).
Proof. unfold upd_proc. apply _. Qed.
#[local] Instance jumps_get_task P i : JumpsTo P (get_task i).
Proof. unfold get_task. apply _. Qed.
#[local] Instance jumps_put_task P i v : JumpsTo P (put_task i v).
Proof. unfold put_task. apply _. Qed.
#[local] Instance jumps_kmalloc n : JumpsTo (λ _, False) (Memory.kmalloc n).
Proof. intros s s'. unfold Memory.kmalloc. by case_match. Qed.
#[local] Instance jumps_kfree p : JumpsTo (λ _, False) (Memory.kfree p).
Proof. unfold Memory.kfree. apply _. Qed.
#[local] Instance jumps_destroy_loop fuel v : JumpsTo (λ _, False) (Memory.destroy_loop fuel v).
Proof. revert v. induction fuel as [|fuel IH]; intros v; cbn [Memory.destroy_loop]; apply _. Qed.
#[local] Instance jumps_mm_destroy p : JumpsTo (λ _, False) (Memory.mm_destroy p).
Proof. unfold Memory.mm_destroy. apply _. Qed.
#[local] Instance jumps_free_stack p : JumpsTo (λ _, False) (Memory.free_kernel_stack p).
Proof. unfold Memory.free_kernel_stack. apply _. Qed.
#[local] Instance jumps_in_mem {A} P (c : M mem A) : JumpsTo (λ _, False) c → JumpsTo P (in_mem c).
Proof. unfold in_mem. apply _. Qed.
#[local] Instance jumps_foldr P l :
  JumpsTo P (in_mem (foldr (λ b c, Memory.kfree b;; c) (mret tt) l)).
Proof. apply jumps_in_mem. induction l as [|b l IH]; cbn [foldr]; apply _. Qed.

#[local] Instance jumps_scheduler_add P p : JumpsTo P (scheduler_add p).
Proof. unfold scheduler_add. apply _. Qed.
#[local] Instance jumps_remove_loop P fuel p c : JumpsTo P (remove_loop fuel p c).
Proof. revert c. induction fuel as [|fuel IH]; intros c; cbn [remove_loop]; apply _. Qed.
#[local] Instance jumps_scheduler_remove P p : JumpsTo P (scheduler_remove p).
Proof. unfold scheduler_remove, scheduler_remove_fuel. apply _. Qed.
#[local] Instance jumps_scheduler_next P : JumpsTo P scheduler_next.
Proof. unfold scheduler_next, process_get_current. apply _. Qed.
#[local] Instance jumps_scheduler_wake P p : JumpsTo P (scheduler_wake p).
Proof. unfold scheduler_wake. apply _. Qed.

(** [scheduler_remove] does not touch [current]. *)
Definition same_current (s s' : kstate) : Prop := current s' = current s.
#[local] Instance same_current_preorder : PreOrder same_current.
Proof. split; [done|]. intros s1 s2 s3. unfold same_current. congruence. Qed.
#[local] Hint Extern 2 (Keeps same_current (modify _)) =>
  apply keeps_modify; done : typeclass_instances.
#[local] Instance current_get_proc p : Keeps same_current (get_proc p).
Proof. unfold get_proc. apply _. Qed.
#[local] Instance current_upd_proc p f : Keeps same_current (upd_proc p f).
Proof. unfold upd_proc. apply _. Qed.
#[local] Instance current_remove_loop fuel p c : Keeps same_current (remove_loop fuel p c).
Proof. revert c. induction fuel as [|fuel IH]; intros c; cbn [remove_loop]; apply _. Qed.
#[local] Instance current_scheduler_remove p : Keeps same_current (scheduler_remove p).
Proof. unfold scheduler_remove, scheduler_remove_fuel. apply _. Qed.

Lemma get_proc_inv p s x s' : get_proc p s = Ret x s' → s' = s ∧ procs s !! p = Some x.
Proof. unfold get_proc, deref. destruct (procs s !! p); naive_solver. Qed.

Lemma restore_jump {A} c s s' :
  (context_restore_at c : M kstate A) s = Jump s' → s' = set_resumed c s.
Proof.
  unfold context_restore_at, deref. mred. destruct (ctxs s !! c); [|done]. by intros [= <-].
Qed.

Lemma switch_jump {A} a b s s' :
  (context_switch a b : M kstate A) s = Jump s' →
  procs s' = procs s ∧ current s' = current s ∧ resumed s' = b.
Proof.
  unfold context_switch, context_save_at, deref. unfold mbind at 1 2, M_bind.
  destruct (ctxs s !! a); [|done]. by intros ->%restore_jump.
Qed.

#[local] Instance jumps_dispatch cur next : JumpsTo dispatched (dispatch cur next).
Proof.
  intros s s'. unfold dispatch. destruct (next =? NULL); [done|]. intros E.
  apply bind_jump_inv in E as ([] & s1 & _ & E); [|apply _].
  unfold process_set_current in E. rewrite bind_modify in E.
  apply bind_jump_inv in E as ([] & s2 & E2 & E); [|apply _].
  pose proof (keeps_ret _ _ _ _ _ (current_scheduler_remove next) E2) as Hc. clear E2.
  apply bind_jump_inv in E as (c & s3 & E3 & E); [|apply _].
  apply get_proc_inv in E3 as [-> _].
  apply bind_jump_inv in E as (n & s4 & E4 & E); [|apply _].
  apply get_proc_inv in E4 as [-> Hn].
  assert (Hcur : procs s2 !! current s2 = Some n) by (by rewrite Hc).
  case_match.
  - apply switch_jump in E as (Ep & Ec & Er). exists n. by rewrite Ep, Ec.
  - apply restore_jump in E as ->. by exists n.
Qed.

#[local] Instance jumps_schedule : JumpsTo dispatched schedule.
Proof. unfold schedule, process_get_current. apply _. Qed.


(** ** The entry point for ever *)





End restart.

#[local] Existing Instance demo_linkage.


