(* ===== verification/Switch.v ===== *)
(** * The assembly switch (kernel/process/switch.S, [process_context_switch] of context.c)

    The body of [__switch_to] as the list of its instructions over a register file and a memory
    of bytes; an access to an unmapped byte is a [Fault]. [switch_saves] and [switch_loads] say
    what its two halves do to the memory and to the registers. *)

From stdpp Require Import base numbers strings gmap list.
From S2P Require Import Prelude.
From S2P Require Import ProcState.

Local Open Scope Z_scope.

Inductive greg : Type :=
| RAX | RBX | RCX | RDX | RSI | RDI | RBP | RSP | R8 | R9 | R10 | R11 | R12 | R13 | R14 | R15.

#[export] Instance greg_eq_dec : EqDecision greg.
Proof. solve_decision. Defined.

Record cpu : Type := MkCpu {
  gr : greg → Z;
  eflags : Z;
  pc : Z;
  ram : gmap Z Z;    (** mapped bytes *)
}.

Definition set_gr (r : greg) (v : Z) (s : cpu) : cpu :=
  MkCpu (λ r', if decide (r' = r) then v else gr s r') (eflags s) (pc s) (ram s).
Definition set_ram (m : gmap Z Z) (s : cpu) : cpu := MkCpu (gr s) (eflags s) (pc s) m.
Definition set_eflags (v : Z) (s : cpu) : cpu := MkCpu (gr s) v (pc s) (ram s).
Definition set_pc (v : Z) (s : cpu) : cpu := MkCpu (gr s) (eflags s) v (ram s).

(** ** Words of memory, least significant byte first *)

Definition le_bytes (v : Z) : list Z :=
  (λ i, u8 (Z.shiftr v (8 * i))) <$> [0; 1; 2; 3; 4; 5; 6; 7].

Definition load64 (m : gmap Z Z) (a : Z) : option Z :=
  bs ← mapM (λ i, m !! (a + i)) [0; 1; 2; 3; 4; 5; 6; 7];
  Some (foldr (λ b acc, b + 256 * acc) 0 bs).
Definition store64 (m : gmap Z Z) (a v : Z) : gmap Z Z :=
  foldr (λ '(i, b) m, <[a + i := b]> m) m (zip [0; 1; 2; 3; 4; 5; 6; 7] (le_bytes v)).

Definition mem_load (a : Z) : M cpu Z := deref (λ s, load64 (ram s) a).
Definition mem_store (a v : Z) : M cpu unit :=
  deref (λ s, load64 (ram s) a);;
  modify (λ s, set_ram (store64 (ram s) a v) s).

(** ** Instructions *)

Inductive instr : Type :=
| Addq (imm : Z) (r : greg)
| Store (r : greg) (off : Z) (b : greg)     (** [movq %r, off(%b)] *)
| Load (off : Z) (b r : greg)               (** [movq off(%b), %r] *)
| Leaq (off : Z) (b r : greg)
| Movq (r r' : greg)
| Pushfq
| Popfq
| Pushq (r : greg)
| Popq (r : greg)
| RetQ.

Definition push (v : Z) : M cpu unit :=
  s ← get;
  let sp := u64 (gr s RSP - 8) in
  mem_store sp v;;
  modify (set_gr RSP sp).
Definition pop : M cpu Z :=
  s ← get;
  v ← mem_load (gr s RSP);
  modify (set_gr RSP (u64 (gr s RSP + 8)));;
  mret v.

(** The flags after the addition [a + b]: CF, PF, AF, ZF, SF and OF are set by the result, the
    other bits stay. *)
Definition flag (i : Z) (b : bool) : Z := if b then 2 ^ i else 0.
Definition parity (v : Z) : bool :=
  Z.even (foldr (λ i n, Z.b2z (Z.testbit v i) + n) 0 [0; 1; 2; 3; 4; 5; 6; 7]).
Definition add_flags (a b f : Z) : Z :=
  let r := u64 (a + b) in
  Z.lor (Z.ldiff f 0x8D5)
    (flag 0 (2 ^ 64 <=? a + b) + flag 2 (parity r) + flag 4 (16 <=? a mod 16 + b mod 16) +
     flag 6 (r =? 0) + flag 7 (Z.testbit r 63) + flag 11 (negb (i64 a + i64 b =? i64 r))).

Definition exec (i : instr) : M cpu unit :=
  s ← get;
  match i with
  | Addq imm r =>
      modify (set_gr r (u64 (gr s r + imm)));;
      modify (set_eflags (add_flags (gr s r) imm (eflags s)))
  | Store r off b => mem_store (u64 (gr s b + off)) (gr s r)
  | Load off b r => v ← mem_load (u64 (gr s b + off)); modify (set_gr r v)
  | Leaq off b r => modify (set_gr r (u64 (gr s b + off)))
  | Movq r r' => modify (set_gr r' (gr s r))
  | Pushfq => push (eflags s)
  | Popfq => v ← pop; modify (set_eflags v)
  | Pushq r => push (gr s r)
  | Popq r => v ← pop; modify (set_gr r v)
  | RetQ => v ← pop; modify (set_pc v)
  end.

Fixpoint exec_all (l : list instr) : M cpu unit :=
  match l with
  | [] => mret tt
  | i :: l' => exec i;; exec_all l'
  end.

Definition CONTEXT_OFFSET : Z := 0x20.
Definition RIP_OFFSET : Z := 0x90.
Definition RFLAGS_OFFSET : Z := 0x98.

(** The instructions of [__switch_to] up to the restoration. *)
Definition switch_save : list instr :=
  [Addq CONTEXT_OFFSET RDI; Addq CONTEXT_OFFSET RSI;
   Store RAX 0x00 RDI; Store RBX 0x08 RDI; Store RCX 0x10 RDI; Store RDX 0x18 RDI;
   Store RSI 0x20 RDI; Store RDI 0x28 RDI; Store RBP 0x30 RDI;
   Leaq 8 RSP RAX; Store RAX 0x38 RDI;
   Store R8 0x40 RDI; Store R9 0x48 RDI; Store R10 0x50 RDI; Store R11 0x58 RDI;
   Store R12 0x60 RDI; Store R13 0x68 RDI; Store R14 0x70 RDI; Store R15 0x78 RDI;
   Load 0 RSP RAX; Store RAX RIP_OFFSET RDI;
   Pushfq; Popq RAX; Store RAX RFLAGS_OFFSET RDI].
Definition switch_restore : list instr :=
  [Movq RSI R11;
   Load 0x00 R11 RAX; Load 0x08 R11 RBX; Load 0x10 R11 RCX; Load 0x18 R11 RDX;
   Load 0x30 R11 RBP; Load 0x40 R11 R8; Load 0x48 R11 R9; Load 0x50 R11 R10;
   Load 0x60 R11 R12; Load 0x68 R11 R13; Load 0x70 R11 R14; Load 0x78 R11 R15;
   Load RFLAGS_OFFSET R11 RAX; Pushq RAX; Popfq;
   Load 0x38 R11 RSP; Load 0x20 R11 RSI; Load 0x28 R11 RDI; Load 0x58 R11 R11;
   RetQ].
Definition __switch_to : M cpu unit := exec_all (switch_save ++ switch_restore).

(** [process_context_switch(prev, next)]: the call pushes its return address. *)
Definition process_context_switch (prev next ret : Z) : M cpu unit :=
  modify (λ s, set_gr RSI next (set_gr RDI prev s));;
  push ret;;
  __switch_to.

(** ** Loads after stores *)

Lemma le_bytes_value v :
  0 <= v < 2 ^ 64 → foldr (λ b acc, b + 256 * acc) 0 (le_bytes v) = v.
Proof.
  intros Hv. unfold le_bytes. cbn [fmap list_fmap foldr]. rewrite !Z.shiftr_div_pow2 by lia.
  unfold u8, wrap. cbn [Z.mul Pos.mul]. Z.to_euclidean_division_equations. lia.
Qed.

Lemma load_store_same m a v : 0 <= v < 2 ^ 64 → load64 (store64 m a v) a = Some v.
Proof.
  intros Hv. rewrite <- (le_bytes_value v Hv) at 2. unfold load64, store64, le_bytes.
  cbn [fmap list_fmap zip zip_with foldr mapM].
  repeat first [rewrite lookup_insert_eq | rewrite lookup_insert_ne by lia]. done.
Qed.

Lemma load_store_other m a b v :
  b + 8 <= a ∨ a + 8 <= b → load64 (store64 m a v) b = load64 m b.
Proof.
  intros Hd. unfold load64, store64, le_bytes. cbn [fmap list_fmap zip zip_with foldr mapM].
  repeat rewrite lookup_insert_ne by lia. done.
Qed.

(** A word all of whose bytes are mapped. *)
Definition word_mapped (m : gmap Z Z) (a : Z) : Prop := ∀ i, 0 <= i < 8 → is_Some (m !! (a + i)).

Lemma word_mapped_load m a : word_mapped m a ↔ is_Some (load64 m a).
Proof.
  unfold load64. split.
  - intros H.
    destruct (mapM (λ i, m !! (a + i)) [0; 1; 2; 3; 4; 5; 6; 7]) eqn:E; [by eexists|].
    exfalso. apply mapM_None_1 in E. apply Exists_exists in E as (i & Hi & E).
    destruct (H i) as [b Hb]; [|congruence].
    revert Hi. rewrite !elem_of_cons, elem_of_nil. lia.
  - intros [v Hv] i Hi. apply bind_Some in Hv as (bs & E & _).
    apply mapM_Some in E. assert (Hin : i ∈ [0; 1; 2; 3; 4; 5; 6; 7])
      by (rewrite !elem_of_cons, elem_of_nil; lia).
    apply list_elem_of_lookup in Hin as [k Hk].
    destruct (Forall2_lookup_l _ _ _ _ _ E Hk) as (b & _ & Hb). by exists b.
Qed.

Lemma insert_mapped (m : gmap Z Z) j v k : is_Some (m !! k) → is_Some (<[j := v]> m !! k).
Proof.
  intros H. destruct (decide (j = k)) as [->|]; [by rewrite lookup_insert_eq|].
  by rewrite lookup_insert_ne.
Qed.

Lemma store_mapped m a b v : word_mapped m b → word_mapped (store64 m a v) b.
Proof.
  intros H i Hi. unfold store64, le_bytes. cbn [fmap list_fmap zip zip_with foldr].
  repeat apply insert_mapped. by apply H.
Qed.

(** ** One instruction *)

Lemma mem_store_ret s a v :
  word_mapped (ram s) a → mem_store a v s = Ret tt (set_ram (store64 (ram s) a v) s).
Proof.
  intros [w E]%word_mapped_load. unfold mem_store.
  rewrite (bind_ret _ _ _ w s) by (by apply deref_ret). done.
Qed.

Lemma mem_load_ret s a v : load64 (ram s) a = Some v → mem_load a s = Ret v s.
Proof. intros E. by apply deref_ret. Qed.

Lemma add_flags_range a b f : 0 <= f < 2 ^ 64 → 0 <= add_flags a b f < 2 ^ 64.
Proof.
  intros Hf. unfold add_flags. set (n := flag 0 _ + _ + _ + _ + _ + _).
  assert (Hn : 0 <= n < 2 ^ 12) by (unfold n, flag; repeat case_match; lia). clearbody n.
  assert (Hd : 0 <= Z.ldiff f 0x8D5) by (apply Z.ldiff_nonneg; lia).
  split; [apply Z.lor_nonneg; lia|].
  apply Z.bounded_iff_bits_nonneg; [lia|apply Z.lor_nonneg; lia|].
  intros l Hl. rewrite Z.lor_spec, Z.ldiff_spec.
  rewrite (proj1 (Z.bounded_iff_bits_nonneg 64 f ltac:(lia) ltac:(lia)) ltac:(lia) l) by lia.
  by rewrite (proj1 (Z.bounded_iff_bits_nonneg 12 n ltac:(lia) ltac:(lia)) ltac:(lia) l) by lia.
Qed.

(** The flags [__switch_to] saves: its two additions come first. *)
Definition switch_flags (s : cpu) (prev next : Z) : Z :=
  add_flags next CONTEXT_OFFSET (add_flags prev CONTEXT_OFFSET (eflags s)).

Lemma switch_flags_range s prev next :
  0 <= eflags s < 2 ^ 64 → 0 <= switch_flags s prev next < 2 ^ 64.
Proof. intros. by apply add_flags_range, add_flags_range. Qed.

(** The register file after the saving half: the arguments point to the contexts, [rax] holds
    the flags; and the words it stores, by offset. *)
Definition saved_words (s : cpu) (prev next ret : Z) : list (Z * Z) :=
  [(0x00, gr s RAX); (0x08, gr s RBX); (0x10, gr s RCX); (0x18, gr s RDX);
   (0x20, next + 0x20); (0x28, prev + 0x20); (0x30, gr s RBP); (0x38, gr s RSP + 8);
   (0x40, gr s R8); (0x48, gr s R9); (0x50, gr s R10); (0x58, gr s R11);
   (0x60, gr s R12); (0x68, gr s R13); (0x70, gr s R14); (0x78, gr s R15);
   (0x90, ret); (0x98, switch_flags s prev next)].

(** Stores at the offsets of a list. *)
Definition stores (b : Z) (l : list (Z * Z)) (m : gmap Z Z) : gmap Z Z :=
  foldl (λ m '(o, v), store64 m (b + o) v) m l.

Lemma stores_mapped b l m a : word_mapped m a → word_mapped (stores b l m) a.
Proof.
  revert m. induction l as [|[o v] l IH]; intros m H; [done|]. apply IH. by apply store_mapped.
Qed.

Lemma stores_app b l l' m : stores b (l ++ l') m = stores b l' (stores b l m).
Proof. apply foldl_app. Qed.

Lemma stores_other b l m a :
  Forall (λ '(o, _), a + 8 <= b + o ∨ b + o + 8 <= a) l → load64 (stores b l m) a = load64 m a.
Proof.
  intros Hl. revert m. induction Hl as [|[o v] l Ho Hl IH]; intros m; [done|].
  cbn [stores foldl]. etransitivity; [apply IH|]. apply load_store_other. lia.
Qed.

(** Words stored at offsets eight apart are read back. *)
Fixpoint spaced (l : list (Z * Z)) : Prop :=
  match l with
  | [] => True
  | (o, _) :: l' => Forall (λ '(o', _), o + 8 <= o') l' ∧ spaced l'
  end.

Lemma stores_same b l m o v :
  spaced l → (o, v) ∈ l → 0 <= v < 2 ^ 64 → load64 (stores b l m) (b + o) = Some v.
Proof.
  revert m. induction l as [|[o' v'] l IH]; intros m Hs Hin Hv; [by apply not_elem_of_nil in Hin|].
  destruct Hs as [Hf Hs]. cbn [stores foldl].
  apply elem_of_cons in Hin as [[= -> ->]|Hin]; [|by apply IH].
  etransitivity; [apply (stores_other b l)|by apply load_store_same].
  eapply Forall_impl; [exact Hf|]. intros [o'' ?] ?. lia.
Qed.

(** Steps of a run. The stores go to a context at [b] and are kept as the list [l]. *)
Definition upd (r : greg) (v : Z) (g : greg → Z) : greg → Z :=
  λ r', if decide (r' = r) then v else g r'.

Section steps.
Context (k : M cpu unit).

Lemma step_addq imm r g f p m :
  (exec (Addq imm r);; k) (MkCpu g f p m) =
    k (MkCpu (upd r (u64 (g r + imm)) g) (add_flags (g r) imm f) p m).
Proof. done. Qed.

Lemma step_leaq off b r g f p m :
  (exec (Leaq off b r);; k) (MkCpu g f p m) = k (MkCpu (upd r (u64 (g b + off)) g) f p m).
Proof. done. Qed.

Lemma step_movq r r' g f p m :
  (exec (Movq r r');; k) (MkCpu g f p m) = k (MkCpu (upd r' (g r) g) f p m).
Proof. done. Qed.

Lemma step_store r off b g f p l m P :
  g b = P → 0 <= P + off < 2 ^ 64 → word_mapped m (P + off) →
  (exec (Store r off b);; k) (MkCpu g f p (stores P l m)) =
    k (MkCpu g f p (stores P (l ++ [(off, g r)]) m)).
Proof.
  intros <- Hr Hm. unfold exec. rewrite <- assoc_seq || idtac.
  erewrite bind_ret; [done|]. rewrite bind_get. cbn [gr].
  rewrite u64_small by lia. rewrite mem_store_ret by (by apply stores_mapped).
  by rewrite stores_app.
Qed.

Lemma step_load off b r g f p m v a :
  u64 (g b + off) = a → load64 m a = Some v →
  (exec (Load off b r);; k) (MkCpu g f p m) = k (MkCpu (upd r v g) f p m).
Proof.
  intros <- E. erewrite bind_ret; [done|]. unfold exec. rewrite bind_get. cbn [gr].
  by rewrite (bind_ret _ _ _ _ _ (mem_load_ret (MkCpu g f p m) _ v E)).
Qed.

Lemma push_ret v g f p m :
  word_mapped m (u64 (g RSP - 8)) →
  push v (MkCpu g f p m) =
    Ret tt (MkCpu (upd RSP (u64 (g RSP - 8)) g) f p (store64 m (u64 (g RSP - 8)) v)).
Proof.
  intros H. unfold push. rewrite bind_get. cbn [gr].
  by rewrite (bind_ret _ _ _ _ _ (mem_store_ret (MkCpu g f p m) _ v H)).
Qed.

Lemma pop_ret v g f p m :
  load64 m (g RSP) = Some v →
  pop (MkCpu g f p m) = Ret v (MkCpu (upd RSP (u64 (g RSP + 8)) g) f p m).
Proof.
  intros E. unfold pop. rewrite bind_get. cbn [gr].
  by rewrite (bind_ret _ _ _ _ _ (mem_load_ret (MkCpu g f p m) _ v E)).
Qed.
End steps.

(** ** The saving half *)

(** The word [a] does not meet the 160 bytes of the context at [b]. *)
Definition apart (a b : Z) : Prop := a + 8 <= b ∨ b + 0xA0 <= a.

Record switchable (s : cpu) (prev next ret : Z) : Prop := {
  sw_regs : ∀ r, 0 <= gr s r < 2 ^ 64;
  sw_flags : 0 <= eflags s < 2 ^ 64;
  sw_rdi : gr s RDI = prev;
  sw_rsi : gr s RSI = next;
  sw_prev : prev + 0xC0 < 2 ^ 64;
  sw_next : next + 0xC0 < 2 ^ 64;
  sw_stack : 8 <= gr s RSP < 2 ^ 64 - 8;
  sw_mapped : ∀ o, 0 <= o <= 0x98 → word_mapped (ram s) (prev + 0x20 + o);
  sw_ret : load64 (ram s) (gr s RSP) = Some ret;
  sw_ret_range : 0 <= ret < 2 ^ 64;
  sw_below : word_mapped (ram s) (gr s RSP - 8);
  sw_apart : apart (gr s RSP) (prev + 0x20) ∧ apart (gr s RSP - 8) (prev + 0x20);
}.

(** Memory after the saving half. *)
Definition after_save (s : cpu) (prev next ret : Z) : gmap Z Z :=
  store64 (store64 (stores (prev + 0x20) (take 17 (saved_words s prev next ret)) (ram s))
    (gr s RSP - 8) (switch_flags s prev next)) (prev + 0x20 + 0x98) (switch_flags s prev next).

(** A store into the context of the process switched away from. *)
Ltac store_step :=
  rewrite step_store; [|reflexivity|lia|match goal with H : ∀ o, _ → word_mapped _ _ |- _ => apply H; lia end].

Lemma save_run s prev next ret (k : list instr) :
  switchable s prev next ret →
  ∃ g, exec_all (switch_save ++ k) s =
         exec_all k (MkCpu g (switch_flags s prev next) (pc s) (after_save s prev next ret)) ∧
    g RSI = next + 0x20 ∧ g RSP = gr s RSP.
Proof.
  intros [Hg Hf Hrdi Hrsi Hp Hn Hst Hm Hret _ Hb [Ha1 Ha2]].
  pose proof (Hg RDI) as Hg1. pose proof (Hg RSI) as Hg2. rewrite Hrdi in Hg1. rewrite Hrsi in Hg2.
  destruct s as [g f p m]. cbn [gr eflags pc ram] in *.
  unfold switch_save, CONTEXT_OFFSET, RIP_OFFSET, RFLAGS_OFFSET. cbn [app exec_all].
  rewrite !step_addq. change (upd RDI _ g RSI) with (g RSI). rewrite Hrdi, Hrsi.
  unfold after_save, saved_words, switch_flags, CONTEXT_OFFSET. cbn [gr eflags ram].
  pose proof (add_flags_range next 32 _ (add_flags_range prev 32 f Hf)) as Hf2.
  set (f2 := add_flags next 32 _) in *. clearbody f2. clear Hf f. rename f2 into f.
  rewrite !u64_small by lia. set (g1 := upd RSI (next + 32) (upd RDI (prev + 32) g)).
  change m with (stores (prev + 32) [] m) at 1.
  do 7 store_step. rewrite step_leaq. change (g1 RSP) with (g RSP). rewrite (u64_small (g RSP + 8)) by lia.
  set (g2 := upd RAX _ g1). do 9 store_step.
  erewrite step_load with (v := ret) (a := g RSP); cycle 1.
  { change (g2 RSP) with (g RSP). rewrite u64_small; lia. }
  { rewrite stores_other; [exact Hret|]. repeat (constructor; [unfold apart in *; lia|]). constructor. }
  set (g3 := upd RAX ret g2). store_step.
  set (l := _ ++ [_]).
  erewrite bind_ret; last first.
  { unfold exec. rewrite bind_get. cbn [eflags]. apply push_ret.
    change (g3 RSP) with (g RSP). rewrite u64_small by lia. by apply stores_mapped. }
  change (g3 RSP) with (g RSP). rewrite (u64_small (g RSP - 8)) by lia.
  set (g4 := upd RSP _ g3).
  erewrite bind_ret; last first.
  { unfold exec. rewrite bind_get.
    rewrite (bind_ret _ _ _ f (MkCpu (upd RSP (g RSP) g4) f p
      (store64 (stores (prev + 32) l m) (g RSP - 8) f))); [reflexivity|].
    rewrite (pop_ret f); [|by apply load_store_same].
    change (g4 RSP) with (g RSP - 8). rewrite u64_small by lia. do 2 f_equal. f_equal. lia. }
  set (g5 := upd RSP _ g4).
  set (m' := store64 (stores _ _ _) _ _).
  change (set_gr RAX f (MkCpu g5 f p m')) with (MkCpu (upd RAX f g5) f p (stores (prev + 32) [] m')).
  set (g6 := upd RAX f g5). rewrite step_store; [|reflexivity|lia|].
  2: { apply store_mapped, stores_mapped. apply Hm. lia. }
  exists g6. split; [reflexivity|]. done.
Qed.

(** ** The restoring half *)

(** What the context at [c] holds at the offsets the code reads. *)
Definition context_words (m : gmap Z Z) (c : Z) (w : Z → Z) : Prop :=
  ∀ o, o ∈ [0x00; 0x08; 0x10; 0x18; 0x20; 0x28; 0x30; 0x38; 0x40; 0x48; 0x50; 0x58; 0x60; 0x68;
            0x70; 0x78; 0x98] → load64 m (c + o) = Some (w o).

(** The register file and the flags taken from the words [w]. *)
Definition loaded (w : Z → Z) (s : cpu) : Prop :=
  gr s RBX = w 0x08 ∧ gr s RCX = w 0x10 ∧ gr s RDX = w 0x18 ∧ gr s RSI = w 0x20 ∧
  gr s RDI = w 0x28 ∧ gr s RBP = w 0x30 ∧ gr s R8 = w 0x40 ∧ gr s R9 = w 0x48 ∧
  gr s R10 = w 0x50 ∧ gr s R11 = w 0x58 ∧ gr s R12 = w 0x60 ∧ gr s R13 = w 0x68 ∧
  gr s R14 = w 0x70 ∧ gr s R15 = w 0x78 ∧ eflags s = w 0x98.

(** A load from the context [c] that [r11] points to. *)
Ltac load_step c H :=
  erewrite step_load;
  [|lazymatch goal with |- u64 (_ + ?o) = _ =>
      let E := fresh in
      assert (E : u64 (c + o) = c + o) by (apply u64_small; lia); exact E end
   |apply H; rewrite !elem_of_cons; lia].

Lemma restore_run g f p m c w v :
  g RSI = c → 0 <= c → c + 0xA0 < 2 ^ 64 → context_words m c w → 0 <= w 0x98 < 2 ^ 64 →
  8 <= g RSP < 2 ^ 64 → word_mapped m (g RSP - 8) → apart (g RSP - 8) c →
  load64 (store64 m (g RSP - 8) (w 0x98)) (w 0x38) = Some v →
  ∃ s', exec_all switch_restore (MkCpu g f p m) = Ret tt s' ∧ loaded w s' ∧
    gr s' RAX = w 0x98 ∧ gr s' RSP = u64 (w 0x38 + 8) ∧ pc s' = v.
Proof.
  intros Hc Hc0 Hc1 Hw Hf Hst Hm Ha Hv.
  assert (Hw' : context_words (store64 m (g RSP - 8) (w 0x98)) c w).
  { intros o Ho. rewrite load_store_other; [by apply Hw|].
    unfold apart in Ha. rewrite !elem_of_cons, elem_of_nil in Ho. lia. }
  unfold switch_restore, RFLAGS_OFFSET. cbn [exec_all].
  rewrite step_movq, Hc. do 13 load_step c Hw.
  set (g1 := upd RAX (w 152) _).
  erewrite bind_ret; last first.
  { unfold exec. rewrite bind_get. cbn [gr]. apply push_ret.
    change (g1 RSP) with (g RSP). rewrite u64_small by lia. exact Hm. }
  change (g1 RSP) with (g RSP). rewrite (u64_small (g RSP - 8)) by lia.
  change (g1 RAX) with (w 152). set (m' := store64 m _ _) in *. set (g2 := upd RSP _ g1).
  erewrite bind_ret; last first.
  { unfold exec. rewrite bind_get.
    rewrite (bind_ret _ _ _ _ _ (pop_ret (w 152) g2 f p m' ltac:(by apply load_store_same))).
    reflexivity. }
  set (g3 := upd RSP _ g2). change (set_eflags ?v (MkCpu ?a _ ?b ?d)) with (MkCpu a v b d).
  do 4 load_step c Hw'.
  erewrite bind_ret; last first.
  { unfold exec. rewrite bind_get.
    erewrite bind_ret; [reflexivity|]. by apply (pop_ret v). }
  eexists. split; [reflexivity|]. unfold loaded. cbn [gr eflags pc set_pc]. split_and!; reflexivity.
Qed.

(** ** Away and back *)

Lemma after_save_words s prev next ret o v :
  switchable s prev next ret → (o, v) ∈ saved_words s prev next ret →
  load64 (after_save s prev next ret) (prev + 0x20 + o) = Some v.
Proof.
  intros [Hg Hf Hrdi Hrsi Hp Hn Hst Hm Hret Hrr Hb [Ha1 Ha2]] Hin.
  pose proof (Hg RDI) as Hg1. pose proof (Hg RSI) as Hg2. rewrite Hrdi in Hg1. rewrite Hrsi in Hg2.
  assert (Hv : Forall (λ '(o, v), 0 <= o <= 0x98 ∧ 0 <= v < 2 ^ 64)
    (saved_words s prev next ret)).
  { pose proof (Hg RAX); pose proof (Hg RBX); pose proof (Hg RCX); pose proof (Hg RDX);
    pose proof (Hg RBP); pose proof (Hg R8); pose proof (Hg R9); pose proof (Hg R10);
    pose proof (Hg R11); pose proof (Hg R12); pose proof (Hg R13); pose proof (Hg R14);
    pose proof (Hg R15). pose proof (switch_flags_range s prev next Hf).
    repeat (constructor; [lia|]). constructor. }
  pose proof (proj1 (Forall_forall _ _) Hv _ Hin) as [Ho Hvr]. unfold after_save.
  assert (Hsplit : (o, v) ∈ take 17 (saved_words s prev next ret) ∨ (o, v) = (0x98, switch_flags s prev next)).
  { rewrite <- (take_drop 17 (saved_words s prev next ret)) in Hin.
    apply elem_of_app in Hin as [?|Hin]; [by left|right]. by apply list_elem_of_singleton in Hin. }
  destruct Hsplit as [Hin'|[= -> ->]]; [|by apply load_store_same, switch_flags_range].
  assert (Ho' : o <= 0x90).
  { assert (Hf' : Forall (λ '(o, _), o <= 0x90) (take 17 (saved_words s prev next ret)))
      by (repeat (constructor; [lia|]); constructor).
    exact (proj1 (Forall_forall _ _) Hf' _ Hin'). }
  unfold apart in *. rewrite !load_store_other by lia.
  apply stores_same; [|done|done]. cbn.
  repeat (split; [repeat (constructor; [lia|]); constructor|]). done.
Qed.

(** The saving half writes its context and the word below the stack pointer only. *)
Lemma after_save_other s prev next ret a :
  apart a (prev + 0x20) → a + 8 <= gr s RSP - 8 ∨ gr s RSP <= a →
  load64 (after_save s prev next ret) a = load64 (ram s) a.
Proof.
  unfold apart. intros Ha Hs. unfold after_save. rewrite !load_store_other by lia.
  apply stores_other. repeat (constructor; [lia|]). constructor.
Qed.

Lemma after_save_mapped s prev next ret a :
  word_mapped (ram s) a → word_mapped (after_save s prev next ret) a.
Proof. intros H. by apply store_mapped, store_mapped, stores_mapped. Qed.

(** A pair of the list of saved words. *)
Ltac in_words := unfold saved_words; repeat first [apply list_elem_of_here | apply list_elem_of_further].

(** A register that was loaded holds the word that was saved. *)
Ltac from_word Hget :=
  cbv beta;
  match goal with
  | H : gr _ ?r = _ |- gr _ ?r = _ => refine (Hget _ _ _ H _); in_words
  | H : eflags _ = _ |- eflags _ = _ => refine (Hget _ _ _ H _); in_words
  end.

(** C28: __switch_to does not bring a process back to where it left. When a process is switched
    away and later switched back to, with its context undisturbed, the general registers return,
    and the flags as the two additions at the start of __switch_to left them, but control goes to the word on top of the caller's stack instead of the
    return address (which is saved and never read), the stack pointer is 16 bytes above where it
    was at the switch instead of 8, RAX holds those flags, and RDI and RSI hold context addresses. *)
Theorem switch_back_misses s prev next ret t other ret' v :
  switchable s prev next ret → switchable t other prev ret' →
  (∀ o, 0 <= o <= 0x98 →
     load64 (ram t) (prev + 0x20 + o) = load64 (after_save s prev next ret) (prev + 0x20 + o)) →
  other + 0xC0 <= prev + 0x20 ∨ prev + 0xC0 <= other + 0x20 →
  apart (gr t RSP - 8) (prev + 0x20) →
  load64 (ram t) (gr s RSP + 8) = Some v →
  apart (gr s RSP + 8) (other + 0x20) →
  gr s RSP + 16 <= gr t RSP - 8 ∨ gr t RSP <= gr s RSP + 8 →
  ∃ t', __switch_to t = Ret tt t' ∧
    pc t' = v ∧ gr t' RSP = u64 (gr s RSP + 16) ∧
    gr t' RAX = switch_flags s prev next ∧ gr t' RDI = prev + 0x20 ∧ gr t' RSI = next + 0x20 ∧
    eflags t' = switch_flags s prev next ∧
    Forall (λ r, gr t' r = gr s r) [RBX; RCX; RDX; RBP; R8; R9; R10; R11; R12; R13; R14; R15].
Proof.
  intros Hs Ht Heq Hd Ha Hv Hva Hvs.
  destruct (save_run t other prev ret' switch_restore Ht) as (g & E & Hrsi & Hrsp).
  unfold __switch_to. rewrite E. clear E.
  set (w := λ o, default 0 (load64 (after_save s prev next ret) (prev + 0x20 + o))).
  assert (Hsaved : ∀ o x, (o, x) ∈ saved_words s prev next ret →
    load64 (after_save s prev next ret) (prev + 0x20 + o) = Some x ∧ w o = x).
  { intros o x Hin. unfold w. by rewrite (after_save_words s prev next ret o x Hs Hin). }
  pose proof Ht as [Htg Htf Htd Htsi Htp Htn Htst _ _ _ Htb [Hta1 Hta2]].
  pose proof (Htg RSI) as Hprev. rewrite Htsi in Hprev.
  assert (Hwords : context_words (after_save t other prev ret') (prev + 0x20) w).
  { intros o Ho.
    assert (∃ x, (o, x) ∈ saved_words s prev next ret ∧ 0 <= o <= 0x98) as (x & Hin & Hr).
    { rewrite !elem_of_cons, elem_of_nil in Ho.
      repeat destruct Ho as [->|Ho]; try done; (eexists; split; [in_words|lia]). }
    destruct (Hsaved _ _ Hin) as [El Ew]. rewrite Ew, <- El, <- Heq by done.
    apply after_save_other; unfold apart in *; lia. }
  assert (Hsp : w 0x38 = gr s RSP + 8) by (apply Hsaved; in_words).
  assert (Hfl : w 0x98 = switch_flags s prev next) by (apply Hsaved; in_words).
  pose proof Hs as [_ Hsf _ _ _ _ Hsst _ _ _ _ _].
  destruct (restore_run g (switch_flags t other prev) (pc t) (after_save t other prev ret') (prev + 0x20) w v)
    as (t' & E & Hl & Hax & Hrsp' & Hpc); [done|lia|lia|done|by rewrite Hfl; apply switch_flags_range| | | | |].
  - rewrite Hrsp. lia.
  - rewrite Hrsp. by apply after_save_mapped.
  - by rewrite Hrsp.
  - rewrite Hrsp, Hsp, load_store_other by lia.
    rewrite after_save_other; [done|done|lia].
  - exists t'. split; [exact E|]. rewrite Hrsp', Hsp, Hax, Hfl, <- Z.add_assoc.
    destruct Hl as (? & ? & ? & ? & ? & ? & ? & ? & ? & ? & ? & ? & ? & ? & ?).
    assert (Hget : ∀ o x y, y = w o → (o, x) ∈ saved_words s prev next ret → y = x)
      by (intros o x y -> ?; by apply Hsaved).
    split; [exact Hpc|]. split; [reflexivity|]. split; [reflexivity|].
    split; [from_word Hget|]. split; [from_word Hget|]. split; [from_word Hget|].
    repeat (constructor; [from_word Hget|]). constructor.
Qed.

(** The member at [CONTEXT_OFFSET] is the pointer to the context, eight bytes long; the words
    stored from there on overwrite the members behind it and run past the end of the PCB. *)
Lemma switch_overruns_pcb :
  offsetof "context"%string process_fields = Some CONTEXT_OFFSET ∧
  sizeof_process < CONTEXT_OFFSET + RIP_OFFSET.
Proof. split; reflexivity. Qed.

(** ** A run

    Process 1 (PCB at 0x1000, stack pointer 0x8000) switches to process 2 (PCB at 0x2000), which
    later switches back from a stack at 0x9000. *)

Definition demo_ram : gmap Z Z :=
  store64 (store64 (store64 (list_to_map ((λ a, (a, 0)) <$>
    (seqZ 0x1000 0x100 ++ seqZ 0x2000 0x100 ++ seqZ 0x7FF0 0x20 ++ seqZ 0x8FF0 0x20)))
    0x8000 0x401234) 0x8008 0xDEAD) 0x9000 0x405678.
Definition demo_regs (rdi rsi rsp : Z) (r : greg) : Z :=
  match r with RDI => rdi | RSI => rsi | RSP => rsp | RBX => 11 | R12 => 12 | _ => 7 end.
Definition demo_out : cpu := MkCpu (demo_regs 0x1000 0x2000 0x8000) 0x202 0x500000 demo_ram.
Definition demo_in : cpu :=
  MkCpu (demo_regs 0x2000 0x1000 0x9000) 0x246 0x500000
    (after_save demo_out 0x1000 0x2000 0x401234).

Lemma mapped_check m a n o :
  forallb (λ x, bool_decide (is_Some (m !! x))) (seqZ a n) = true →
  0 <= o → o + 8 <= n → word_mapped m (a + o).
Proof.
  intros H Ho Hn i Hi. rewrite <- Z.add_assoc.
  eapply bool_decide_eq_true, (proj1 (forallb_forall _ _) H).
  apply list_elem_of_In, elem_of_seqZ. lia.
Qed.

Lemma demo_out_switchable : switchable demo_out 0x1000 0x2000 0x401234.
Proof.
  constructor.
  - intros []; cbn [gr demo_out demo_in demo_regs]; lia.
  - cbn [eflags demo_out demo_in]. lia.
  - reflexivity.
  - reflexivity.
  - lia.
  - lia.
  - cbn [gr demo_out demo_in demo_regs]. lia.
  - intros o Ho. apply (mapped_check _ 0x1020 0xA0); [vm_compute; reflexivity|lia|lia].
  - vm_compute. reflexivity.
  - lia.
  - apply (mapped_check _ 0x7FF8 8 0); [vm_compute; reflexivity|lia|lia].
  - unfold apart. cbn [gr demo_out demo_in demo_regs]. lia.
Qed.

Lemma demo_in_switchable : switchable demo_in 0x2000 0x1000 0x405678.
Proof.
  constructor.
  - intros []; cbn [gr demo_out demo_in demo_regs]; lia.
  - cbn [eflags demo_out demo_in]. lia.
  - reflexivity.
  - reflexivity.
  - lia.
  - lia.
  - cbn [gr demo_out demo_in demo_regs]. lia.
  - intros o Ho. apply (mapped_check _ 0x2020 0xA0); [vm_compute; reflexivity|lia|lia].
  - vm_compute. reflexivity.
  - lia.
  - apply (mapped_check _ 0x8FF8 8 0); [vm_compute; reflexivity|lia|lia].
  - unfold apart. cbn [gr demo_out demo_in demo_regs]. lia.
Qed.

Lemma switch_back_misses_witness :
  ∃ t', __switch_to demo_in = Ret tt t' ∧
    pc t' = 0xDEAD ∧ gr t' RSP = u64 (0x8000 + 16) ∧ gr t' RAX = 0x202 ∧
    gr t' RDI = 0x1000 + 0x20 ∧ gr t' RSI = 0x2000 + 0x20 ∧ eflags t' = 0x202 ∧
    Forall (λ r, gr t' r = gr demo_out r)
      [RBX; RCX; RDX; RBP; R8; R9; R10; R11; R12; R13; R14; R15].
Proof.
  apply (switch_back_misses demo_out 0x1000 0x2000 0x401234 demo_in 0x2000 0x405678 0xDEAD).
  - apply demo_out_switchable.
  - apply demo_in_switchable.
  - intros o _. reflexivity.
  - lia.
  - unfold apart. cbn [gr demo_out demo_in demo_regs]. lia.
  - vm_compute. reflexivity.
  - unfold apart. cbn [gr demo_out demo_in demo_regs]. lia.
  - cbn [gr demo_out demo_in demo_regs]. lia.
Defined.
