(* ===== verification/Restore.v ===== *)
(** * The register blocks of context.c

    The first assembly blocks of [context_save] and of [context_restore] as the lists of their
    instructions, on the machine of Switch.v. The operand [%0] is the context pointer in a
    register of the compiler's choice ([b] below); the block is told nothing about the registers
    it overwrites, so in [context_restore] that register is one of those it loads, RBP and RSP
    being taken by the stack frame. The rest of [context_restore] reads the locals [stack_ptr]
    and [context] after RBP was replaced: where it finds them is up to the compiler, and it is
    not modelled. *)

From stdpp Require Import base numbers strings gmap list.
From S2P Require Import Prelude.
From S2P Require Import Context.
From S2P Require Import Switch.

Local Open Scope Z_scope.

(** [movq %reg, off(%0)], sixteen times. *)
Definition save_block (b : greg) : list instr :=
  [Store RAX 0 b; Store RBX 8 b; Store RCX 16 b; Store RDX 24 b; Store RSI 32 b; Store RDI 40 b;
   Store RBP 48 b; Store RSP 56 b; Store R8 64 b; Store R9 72 b; Store R10 80 b; Store R11 88 b;
   Store R12 96 b; Store R13 104 b; Store R14 112 b; Store R15 120 b].

(** [movq off(%0), %reg], fourteen times. *)
Definition restore_block (b : greg) : list instr :=
  [Load 0 b RAX; Load 8 b RBX; Load 16 b RCX; Load 24 b RDX; Load 32 b RSI; Load 40 b RDI;
   Load 64 b R8; Load 72 b R9; Load 80 b R10; Load 88 b R11; Load 96 b R12; Load 104 b R13;
   Load 112 b R14; Load 120 b R15].

(** The member of [context_t] that belongs to a register, and its place by the struct layout. *)
Definition member_of (r : greg) : string :=
  match r with
  | RAX => "rax" | RBX => "rbx" | RCX => "rcx" | RDX => "rdx" | RSI => "rsi" | RDI => "rdi"
  | RBP => "rbp" | RSP => "rsp" | R8 => "r8" | R9 => "r9" | R10 => "r10" | R11 => "r11"
  | R12 => "r12" | R13 => "r13" | R14 => "r14" | R15 => "r15"
  end.
Definition member_offset (r : greg) : Z := default 0 (offsetof (member_of r) context_fields).

(** [((context_t * )a)->r] *)
Definition member (m : gmap Z Z) (a : Z) (r : greg) : option Z := load64 m (a + member_offset r).

(** A mapped context at [a]. *)
Definition context_mapped (m : gmap Z Z) (a : Z) : Prop :=
  0 <= a ∧ a + sizeof_context < 2 ^ 64 ∧ ∀ r, word_mapped m (a + member_offset r).

(** ** Saving *)

Definition all_regs : list greg :=
  [RAX; RBX; RCX; RDX; RSI; RDI; RBP; RSP; R8; R9; R10; R11; R12; R13; R14; R15].

Lemma save_stores b l g f p m a l0 :
  g b = a → 0 <= a → a + 160 < 2 ^ 64 →
  Forall (λ '(r, o), 0 <= o <= 120 ∧ word_mapped m (a + o)) l →
  exec_all ((λ '(r, o), Store r o b) <$> l) (MkCpu g f p (stores a l0 m)) =
    Ret tt (MkCpu g f p (stores a (l0 ++ ((λ '(r, o), (o, g r)) <$> l)) m)).
Proof.
  intros Hb H0 Ha Hl. revert l0. induction Hl as [|[r o] l [Ho Hm] _ IH]; intros l0.
  - by rewrite app_nil_r.
  - cbn [fmap list_fmap exec_all]. rewrite (step_store _ _ _ _ _ _ _ _ _ a Hb) by (done || lia).
    unfold fmap in IH. rewrite IH. by rewrite <- app_assoc.
Qed.

Definition save_list : list (greg * Z) := (λ r, (r, member_offset r)) <$> all_regs.

Lemma save_block_members b : save_block b = (λ '(r, o), Store r o b) <$> save_list.
Proof. reflexivity. Qed.

Lemma save_words (g : greg → Z) :
  (λ '(r, o), (o, g r)) <$> save_list = (λ r, (member_offset r, g r)) <$> all_regs.
Proof. reflexivity. Qed.

Lemma save_words_spaced (g : greg → Z) a x :
  spaced ((λ r, (member_offset r, g r)) <$> all_regs) ∧
  (x + 8 <= a ∨ a + 128 <= x →
   Forall (λ '(o, _), x + 8 <= a + o ∨ a + o + 8 <= x) ((λ r, (member_offset r, g r)) <$> all_regs)).
Proof.
  set (l := (λ r, (member_offset r, g r)) <$> all_regs). vm_compute in l. subst l. split.
  - cbn [spaced]. repeat (split; [repeat (constructor; [lia|]); constructor|]). done.
  - intros Hx. repeat (constructor; [lia|]). constructor.
Qed.

(** C24: the register block of context_save writes the sixteen general registers as the C struct
    has them: whichever register holds the operand, afterwards every member of the context reads
    as the register it belongs to, the one with the operand included; the registers, the flags
    and all memory outside the sixteen words are as before. *)
Theorem context_save_members b s a :
  gr s b = a → (∀ r, 0 <= gr s r < 2 ^ 64) → context_mapped (ram s) a →
  ∃ s', exec_all (save_block b) s = Ret tt s' ∧
    gr s' = gr s ∧ eflags s' = eflags s ∧ pc s' = pc s ∧
    (∀ r, member (ram s') a r = Some (gr s r)) ∧
    (∀ x, x + 8 <= a ∨ a + 128 <= x → load64 (ram s') x = load64 (ram s) x).
Proof.
  intros Hb Hr (H0 & Ha & Hm). rewrite save_block_members. destruct s as [g f p m]. cbn [gr eflags pc ram] in *.
  assert (Hl : Forall (λ '(r, o), 0 <= o <= 120 ∧ word_mapped m (a + o)) save_list).
  { apply Forall_fmap, Forall_forall. intros r _. split; [by destruct r|apply Hm]. }
  pose proof (save_stores b save_list g f p m a [] Hb H0 Ha Hl) as E.
  rewrite save_words in E. destruct (save_words_spaced g a 0) as [Hsp _].
  eexists. split; [exact E|]. cbn [gr eflags pc ram app]. split_and!; [done..| |].
  - intros r. apply stores_same; [exact Hsp| |apply Hr].
    apply (list_elem_of_fmap_2 (λ r, (member_offset r, g r)) all_regs r).
    destruct r; repeat first [apply list_elem_of_here | apply list_elem_of_further].
  - intros x Hx. apply stores_other. by apply (save_words_spaced g a x).
Qed.

(** ** Restoring *)

Definition restore_regs : list greg :=
  [RAX; RBX; RCX; RDX; RSI; RDI; R8; R9; R10; R11; R12; R13; R14; R15].

Definition load_member (b r : greg) : instr := Load (member_offset r) b r.

Lemma restore_block_members b : restore_block b = load_member b <$> restore_regs.
Proof. reflexivity. Qed.

Lemma exec_all_app l l' s : exec_all (l ++ l') s = (exec_all l;; exec_all l') s.
Proof.
  revert s. induction l as [|i l IH]; intros s; [done|]. cbn [app exec_all].
  rewrite <- assoc_seq. by apply bind_ext.
Qed.

Lemma member_offset_range r : 0 <= member_offset r <= 120.
Proof. by destruct r. Qed.

Lemma step_member (k : M cpu unit) b r g f p m a v :
  g b = a → 0 <= a → a + sizeof_context < 2 ^ 64 → member m a r = Some v →
  (exec (load_member b r);; k) (MkCpu g f p m) = k (MkCpu (upd r v g) f p m).
Proof.
  intros <- H0 Ha Hv. apply (step_load _ _ _ _ _ _ _ _ v (g b + member_offset r)); [|exact Hv].
  pose proof (member_offset_range r). apply u64_small. change sizeof_context with 160 in Ha. lia.
Qed.

(** As long as the base register is not among the destinations, the members are loaded. *)
Lemma loads_run b l g f p m a :
  g b = a → context_mapped m a → b ∉ l →
  ∃ g', exec_all (load_member b <$> l) (MkCpu g f p m) = Ret tt (MkCpu g' f p m) ∧ g' b = a ∧
    ∀ r, Some (g' r) = if decide (r ∈ l) then member m a r else Some (g r).
Proof.
  intros Hb (H0 & Ha & Hm) Hnb. revert g Hb.
  induction l as [|r l IH]; intros g Hb; [by exists g|].
  destruct (proj1 (word_mapped_load m _) (Hm r)) as [v Hv].
  rewrite fmap_cons. cbn [exec_all]. rewrite (step_member _ b r g f p m a v) by done.
  apply not_elem_of_cons in Hnb as [Hbr Hnb].
  destruct (IH Hnb (upd r v g)) as (g' & E & Hb' & Hg').
  { unfold upd. by rewrite decide_False. }
  exists g'. split; [exact E|]. split; [done|]. intros r'. rewrite Hg'. unfold upd, member.
  destruct (decide (r' ∈ l)) as [Hin|Hnin].
  - by rewrite decide_True by (by apply list_elem_of_further).
  - destruct (decide (r' = r)) as [->|]; [rewrite decide_True by apply list_elem_of_here; by rewrite Hv|].
    by rewrite decide_False by (rewrite elem_of_cons; naive_solver).
Qed.

(** Every load that comes after the one into the base register misses the context. *)
Lemma restore_split b :
  b ≠ RBP → b ≠ RSP → b ≠ R15 →
  ∃ pre r post, restore_regs = pre ++ b :: r :: post ∧ (b ∉ pre) ∧ r ≠ RBP ∧ r ≠ RSP.
Proof.
  intros H1 H2 H3. set (n := default 0%nat (fst <$> list_find (λ r, r = b) restore_regs)).
  exists (take n restore_regs), (nth (S n) restore_regs RAX), (drop (2 + n) restore_regs).
  destruct b; try done; (split; [reflexivity|]; split; [|done]);
    apply (bool_decide_unpack _); vm_compute; exact I.
Qed.

Lemma load_unmapped m a : m !! a = None → load64 m a = None.
Proof.
  intros H. destruct (load64 m a) as [v|] eqn:E; [|done].
  destruct (proj2 (word_mapped_load m a) (mk_is_Some _ _ E) 0 ltac:(lia)) as [w Hw].
  rewrite Z.add_0_r in Hw. congruence.
Qed.

(** A context whose base register member is null sends the next load to the first page. *)
Lemma restore_derails b s a :
  b ≠ RBP → b ≠ RSP → b ≠ R15 → gr s b = a → context_mapped (ram s) a →
  member (ram s) a b = Some 0 → (∀ o, 0 <= o < 128 → ram s !! o = None) →
  exec_all (restore_block b) s = Fault.
Proof.
  intros H1 H2 H3 Hb Hm H0 Hlow. destruct s as [g f p m]. cbn [gr ram] in *.
  destruct (restore_split b H1 H2 H3) as (pre & r & post & E & Hpre & _).
  rewrite restore_block_members, E, fmap_app, exec_all_app.
  destruct (loads_run b pre g f p m a Hb Hm Hpre) as (g' & E' & Hb' & _).
  rewrite (bind_ret _ _ _ _ _ E'), !fmap_cons. cbn [exec_all].
  pose proof (member_offset_range r). destruct Hm as (Ha0 & Ha & _).
  rewrite (step_member _ b b g' f p m a 0) by done.
  apply bind_fault. unfold load_member, exec. rewrite bind_get. apply bind_fault. cbn [gr].
  unfold upd. rewrite decide_True by done. rewrite u64_small by lia.
  unfold mem_load, deref. cbn [ram]. by rewrite load_unmapped by (apply Hlow; lia).
Qed.

(** The block does what its comments say. *)
Definition restores (b : greg) : Prop :=
  ∀ s a, gr s b = a → context_mapped (ram s) a →
  ∃ s', exec_all (restore_block b) s = Ret tt s' ∧
    ∀ r, r ∈ restore_regs → Some (gr s' r) = member (ram s) a r.

Definition zero_ram : gmap Z Z := list_to_map ((λ a, (a, 0)) <$> seqZ 0x1000 160).
Definition zero_cpu : cpu := MkCpu (λ _, 0x1000) 0 0 zero_ram.

Lemma zero_mapped : context_mapped zero_ram 0x1000.
Proof.
  split; [lia|]. split; [done|]. intros r. pose proof (member_offset_range r).
  apply (mapped_check _ 0x1000 160); [vm_compute; reflexivity|lia|lia].
Qed.

Lemma zero_low o : 0 <= o < 128 → ram zero_cpu !! o = None.
Proof.
  intros Ho. apply not_elem_of_list_to_map_1. rewrite <- list_fmap_compose, list_elem_of_fmap.
  intros (x & -> & Hx%elem_of_seqZ). cbn in Ho. lia.
Qed.

(** C25: the register block of context_restore works only by luck. With the operand in any
    register it can be in, the block loads all fourteen registers from the context if and only
    if that register is R15, the last one loaded. With any other, the load into the operand's
    register makes the later ones read from the restored value: for a context that holds 0
    there, as every fresh one does but for RDI, the next load goes to the first 128 bytes of
    memory and faults where they are not mapped. *)
Theorem context_restore_block b :
  b ≠ RBP → b ≠ RSP →
  (restores b ↔ b = R15) ∧
  ∀ s a, b ≠ R15 → gr s b = a → context_mapped (ram s) a → member (ram s) a b = Some 0 →
    (∀ o, 0 <= o < 128 → ram s !! o = None) → exec_all (restore_block b) s = Fault.
Proof.
  intros H1 H2. split; [|intros s a H3; by apply restore_derails]. split.
  - intros Hr. destruct (decide (b = R15)) as [|H3]; [done|exfalso].
    destruct (Hr zero_cpu 0x1000 eq_refl zero_mapped) as (s' & E & _).
    rewrite (restore_derails b zero_cpu 0x1000 H1 H2 H3 eq_refl zero_mapped) in E; [done| |].
    + by destruct b.
    + apply zero_low.
  - intros -> s a Hb Hm. destruct s as [g f p m]. cbn [gr ram] in *.
    rewrite restore_block_members. change restore_regs with (take 13 restore_regs ++ [R15]).
    rewrite fmap_app, exec_all_app.
    destruct (loads_run R15 (take 13 restore_regs) g f p m a Hb Hm) as (g' & E & Hb' & Hg);
      [apply (bool_decide_unpack _); by vm_compute|]. rewrite (bind_ret _ _ _ _ _ E).
    destruct Hm as (Ha0 & Ha & Hm). destruct (proj1 (word_mapped_load m _) (Hm R15)) as [v Hv].
    rewrite fmap_cons. cbn [exec_all]. rewrite (step_member _ R15 R15 g' f p m a v) by done.
    eexists. split; [done|]. intros r Hr. cbn [gr]. unfold upd. case_decide as Er; [by subst|].
    rewrite Hg, decide_True; [done|]. apply elem_of_app in Hr as [Hr|Hr]; [done|].
    by apply list_elem_of_singleton in Hr.
Qed.

Lemma context_save_members_witness :
  ∃ s', exec_all (save_block RAX) zero_cpu = Ret tt s' ∧ member (ram s') 0x1000 R9 = Some 0x1000.
Proof.
  destruct (context_save_members RAX zero_cpu 0x1000) as (s' & E & _ & _ & _ & Hm & _);
    [reflexivity|intros r; cbn; lia|exact zero_mapped|].
  exists s'. exact (conj E (Hm R9)).
Defined.

Lemma context_restore_block_witness :
  exec_all (restore_block RAX) zero_cpu = Fault ∧ ¬ restores RAX ∧ restores R15.
Proof.
  assert (H1 : RAX ≠ RBP) by discriminate. assert (H2 : RAX ≠ RSP) by discriminate.
  assert (H3 : R15 ≠ RBP) by discriminate. assert (H4 : R15 ≠ RSP) by discriminate.
  destruct (context_restore_block RAX H1 H2) as [Hi Hf]. split.
  - apply (Hf zero_cpu 0x1000); [discriminate|reflexivity|exact zero_mapped|reflexivity|].
    exact zero_low.
  - split; [intros Hr%Hi; discriminate|]. by apply (context_restore_block R15 H3 H4).
Defined.
