(* ===== verification/Tests.v ===== *)
(** * The repository's tests, run on the model

    tests/template/test_framework.h, tests/memory/test_kmalloc_unit.c and
    tests/process/test_scheduler_unit.c as programs over the definitions of this development. A
    test is a computation that says whether it ran to its end; a failing assertion returns from
    it. The results are proved for every placement of the objects, so they are what
    the C programs report.

    tests/process/test_process_integration.c leaves through its first call of [schedule], which
    switches to a test process for good, so no result of it can be observed;
    tests/process/test_process_unit.c uses the macro [ASSERT_STR_EQ] and
    tests/process/test_process_control.c the function [process_handle_command], which are defined
    nowhere; they cannot be built and are not translated. *)

From stdpp Require Import base numbers strings pretty gmap list.
From S2P Require Import Prelude Chain Memory Context ProcState Scheduler Process.

Local Open Scope Z_scope.

(** ** The framework *)

Record suite (S : Type) : Type := MkSuite {
  env : S;
  tests_run : Z;
  tests_passed : Z;
  tests_failed : Z;
}.
Arguments MkSuite {_} _ _ _ _.
Arguments env {_} _.
Arguments tests_run {_} _.
Arguments tests_passed {_} _.
Arguments tests_failed {_} _.

Section framework.
Context {S : Type}.
Implicit Types s : suite S.

Definition set_env (e : S) s : suite S := MkSuite e (tests_run s) (tests_passed s) (tests_failed s).

(** [ASSERT(b); rest]; the other assertions test a different condition the same way. *)
Definition ASSERT (b : bool) (rest : M S bool) : M S bool := if b then rest else mret false.
Definition ASSERT_EQ (actual expected : Z) (rest : M S bool) : M S bool :=
  ASSERT (actual =? expected) rest.
Definition ASSERT_NOT_NULL (value : Z) (rest : M S bool) : M S bool :=
  ASSERT (negb (value =? NULL)) rest.
Definition ASSERT_NULL (value : Z) (rest : M S bool) : M S bool := ASSERT (value =? NULL) rest.

(** A test that fails an assertion has counted it; the others are counted here. *)
Definition RUN_TEST (test : M S bool) : M (suite S) unit :=
  modify (λ s, MkSuite (env s) (tests_run s + 1) (tests_passed s) (tests_failed s));;
  ok ← zoom env set_env test;
  if ok : bool
  then modify (λ s, MkSuite (env s) (tests_run s) (tests_passed s + 1) (tests_failed s))
  else modify (λ s, MkSuite (env s) (tests_run s) (tests_passed s) (tests_failed s + 1)).

Definition TEST_SUITE_START : M (suite S) unit := modify (λ s, MkSuite (env s) 0 0 0).

(** The exit code of the program. *)
Definition TEST_SUITE_END : M (suite S) Z :=
  s ← get; mret (if 0 <? tests_failed s then 1 else 0).

Lemma run_test_ret test e r p f ok e' :
  test e = Ret ok e' →
  RUN_TEST test (MkSuite e r p f) = Ret tt (MkSuite e' (r + 1)
    (if ok : bool then p + 1 else p) (if ok then f else f + 1)).
Proof.
  intros E. unfold RUN_TEST. rewrite bind_modify. cbn [env tests_run tests_passed tests_failed].
  rewrite (bind_ret _ _ _ _ _ (zoom_ret env set_env test (MkSuite e (r + 1) p f) ok e' E)).
  by destruct ok.
Qed.
End framework.

(** ** tests/memory/test_kmalloc_unit.c

    The bytes a test writes through the pointers it got are part of its state. *)

Record mem_env : Type := MkMemEnv { tmem : mem; tbytes : gmap Z Z }.
Definition set_tmem (m : mem) (e : mem_env) : mem_env := MkMemEnv m (tbytes e).
Definition memset_at (p c : Z) (n : nat) (b : gmap Z Z) : gmap Z Z :=
  foldr (λ i b, <[p + i := c]> b) b (seqZ 0 (Z.of_nat n)).

Section kmalloc_tests.
Context `{L : Linkage}.

Definition t_kmalloc (size : Z) : M mem_env Z := zoom tmem set_tmem (Memory.kmalloc size).
Definition t_kfree (ptr : Z) : M mem_env unit := zoom tmem set_tmem (Memory.kfree ptr).

Definition test_kmalloc_basic : M mem_env bool :=
  ptr ← t_kmalloc 10;
  ASSERT_NOT_NULL ptr (
  modify (λ e, MkMemEnv (tmem e) (memset_at ptr 65 10 (tbytes e)));;
  bad ← find_range 10 0 (λ i, c ← deref (λ e, tbytes e !! (ptr + i)); mret (negb (c =? 65)));
  match bad with
  | Some _ => mret false
  | None => t_kfree ptr;; mret true
  end).

Definition test_kmalloc_sizes : M mem_env bool :=
  ptr1 ← t_kmalloc 1;
  ASSERT_NOT_NULL ptr1 (
  ptr2 ← t_kmalloc 100;
  ASSERT_NOT_NULL ptr2 (
  ptr3 ← t_kmalloc 1000;
  ASSERT_NOT_NULL ptr3 (
  let diff1 := ptr2 - ptr1 in
  let diff2 := ptr3 - ptr2 in
  ASSERT (0 <? diff1) (ASSERT (0 <? diff2) (ASSERT (1 <=? diff1) (ASSERT (100 <=? diff2) (
  t_kfree ptr1;; t_kfree ptr2;; t_kfree ptr3;; mret true))))))).

Definition test_kmalloc_alignment : M mem_env bool :=
  ptr1 ← t_kmalloc 1;
  ptr2 ← t_kmalloc 3;
  ptr3 ← t_kmalloc 7;
  ptr4 ← t_kmalloc 4;
  ASSERT_EQ (ptr1 mod 4) 0 (ASSERT_EQ (ptr2 mod 4) 0 (ASSERT_EQ (ptr3 mod 4) 0 (
  ASSERT_EQ (ptr4 mod 4) 0 (
  t_kfree ptr1;; t_kfree ptr2;; t_kfree ptr3;; t_kfree ptr4;; mret true)))).

Definition test_kmalloc_edge_cases : M mem_env bool :=
  ptr1 ← t_kmalloc 0;
  ASSERT_NOT_NULL ptr1 (
  ptr2 ← t_kmalloc (10 * 1024 * 1024);
  ASSERT_NULL ptr2 (
  t_kfree ptr1;; mret true)).

(** The first loop of [test_kmalloc_multiple]: the pointers, or [None] when one is NULL. *)
Fixpoint alloc_all (n : nat) (i : Z) : M mem_env (option (list Z)) :=
  match n with
  | O => mret (Some [])
  | S n' =>
      p ← t_kmalloc (10 + i);
      if p =? NULL then mret None
      else ps ← alloc_all n' (i + 1); mret (cons p <$> ps)
  end.
Fixpoint free_all (ps : list Z) : M mem_env unit :=
  match ps with [] => mret tt | p :: ps' => t_kfree p;; free_all ps' end.
(** [ptrs[i] != ptrs[j]] for all [i < j] *)
Fixpoint all_different (ps : list Z) : bool :=
  match ps with [] => true | p :: ps' => forallb (λ q, negb (p =? q)) ps' && all_different ps' end.

Definition test_kmalloc_multiple : M mem_env bool :=
  ps ← alloc_all 10 0;
  match ps with
  | None => mret false
  | Some ps => ASSERT (all_different ps) (free_all ps;; mret true)
  end.

Definition kmalloc_main : M (suite mem_env) Z :=
  TEST_SUITE_START;;
  RUN_TEST test_kmalloc_basic;;
  RUN_TEST test_kmalloc_sizes;;
  RUN_TEST test_kmalloc_alignment;;
  RUN_TEST test_kmalloc_edge_cases;;
  RUN_TEST test_kmalloc_multiple;;
  TEST_SUITE_END.

(** The allocator after [u] bytes, with what the tests wrote. *)
Definition used (u : Z) (b : gmap Z Z) : mem_env := MkMemEnv (Mem u ∅ ∅) b.

Lemma t_kmalloc_at u b n u' :
  (HEAP_SIZE <? u64 (u + n)) = false → align_up 2 (u64 (u + n)) = u' →
  t_kmalloc n (used u b) = Ret (heap_addr + u) (used u' b).
Proof.
  intros Hf <-. unfold t_kmalloc, zoom, used. cbn [tmem]. unfold Memory.kmalloc. cbn [heap_used].
  by rewrite Hf.
Qed.

Lemma not_null k : 0 <= k → (heap_addr + k =? NULL) = false.
Proof. intros. apply Z.eqb_neq. pose proof heap_addr_pos. unfold NULL. lia. Qed.

Lemma t_kfree_ret p e : t_kfree p e = Ret tt e.
Proof. by destruct e. Qed.

(** One allocation that succeeds, and what is decided about its pointer. *)
Ltac alloc u' :=
  erewrite bind_ret; [|apply (t_kmalloc_at _ _ _ u'); [vm_compute; reflexivity|vm_compute; reflexivity]];
  unfold ASSERT_NOT_NULL, ASSERT; rewrite ?not_null by lia; cbn [negb].

Lemma memset_lookup p c n b i :
  0 <= i < Z.of_nat n → memset_at p c n b !! (p + i) = Some c.
Proof.
  intros Hi. unfold memset_at. assert (i ∈ seqZ 0 (Z.of_nat n)) as Hin by (apply elem_of_seqZ; lia).
  revert Hin. generalize (seqZ 0 (Z.of_nat n)) as l. induction l as [|j l IH]; intros Hin.
  { by apply elem_of_nil in Hin. }
  cbn [foldr]. destruct (decide (j = i)) as [->|Hne]; [by rewrite lookup_insert_eq|].
  rewrite lookup_insert_ne by lia. apply IH. by apply elem_of_cons in Hin as [->|].
Qed.

Lemma basic_passes :
  ∃ b, test_kmalloc_basic (used 0 ∅) = Ret true (used 12 b).
Proof.
  eexists. unfold test_kmalloc_basic. alloc 12. rewrite bind_modify. set (b := memset_at _ _ _ _).
  destruct (find_range_spec (λ _, false) 10 0
    (λ i, c ← deref (λ e, tbytes e !! (heap_addr + 0 + i)); mret (negb (c =? 65))) (used 12 b))
    as (r & E & Hr).
  { intros i Hi. rewrite (bind_ret _ _ _ 65 (used 12 b)); [done|].
    apply deref_ret. unfold b. apply memset_lookup. lia. }
  change (MkMemEnv _ _) with (used 12 b). rewrite (bind_ret _ _ _ _ _ E).
  destruct r as [k|]; [by destruct Hr as (_ & ? & _)|].
  by rewrite (bind_ret _ _ _ _ _ (t_kfree_ret _ _)).
Qed.

Lemma sizes_passes b : test_kmalloc_sizes (used 12 b) = Ret true (used 1116 b).
Proof.
  unfold test_kmalloc_sizes. alloc 16. alloc 116. alloc 1116.
  rewrite !(proj2 (Z.ltb_lt _ _)), !(proj2 (Z.leb_le _ _)) by lia.
  by rewrite !(bind_ret _ _ _ _ _ (t_kfree_ret _ _)).
Qed.

(** The pointers are aligned when the array is. *)
Lemma alignment_result b :
  test_kmalloc_alignment (used 1116 b) = Ret (heap_addr mod 4 =? 0) (used 1136 b).
Proof.
  unfold test_kmalloc_alignment, ASSERT_EQ. alloc 1120. alloc 1124. alloc 1132. alloc 1136.
  assert (H : ∀ k q, k = q * 4 → (heap_addr + k) mod 4 = heap_addr mod 4)
    by (intros k q ->; apply Z.mod_add; lia).
  rewrite (H 1116 279), (H 1120 280), (H 1124 281), (H 1132 283) by done. destruct (heap_addr mod 4 =? 0); [|done].
  by rewrite !(bind_ret _ _ _ _ _ (t_kfree_ret _ _)).
Qed.

Lemma edge_cases_passes b : test_kmalloc_edge_cases (used 1136 b) = Ret true (used 1136 b).
Proof.
  unfold test_kmalloc_edge_cases. alloc 1136.
  rewrite (bind_ret _ _ _ NULL (used 1136 b)) by reflexivity. unfold ASSERT_NULL, ASSERT.
  cbn [Z.eqb NULL]. by rewrite (bind_ret _ _ _ _ _ (t_kfree_ret _ _)).
Qed.

Lemma all_different_offsets ks :
  all_different (Z.add heap_addr <$> ks) = all_different ks.
Proof.
  induction ks as [|k ks IH]; [done|]. cbn [fmap list_fmap all_different]. f_equal; [|exact IH].
  clear IH. induction ks as [|j ks IH]; [done|]. cbn [fmap list_fmap forallb]. f_equal; [|exact IH].
  f_equal. destruct (Z.eqb_spec (heap_addr + k) (heap_addr + j)), (Z.eqb_spec k j); done || lia.
Qed.

Lemma free_all_ret ps e : free_all ps e = Ret tt e.
Proof.
  induction ps as [|p ps IH]; [done|]. cbn [free_all]. by rewrite (bind_ret _ _ _ _ _ (t_kfree_ret _ _)).
Qed.

(** Where the blocks of the loop start, and where the last one ends; [None] when one does not
    fit. *)
Fixpoint offsets (n : nat) (i u : Z) : option (list Z * Z) :=
  match n with
  | O => Some ([], u)
  | S n' =>
      if (0 <=? u) && negb (HEAP_SIZE <? u64 (u + (10 + i))) then
        '(l, e) ← offsets n' (i + 1) (align_up 2 (u64 (u + (10 + i)))); Some (u :: l, e)
      else None
  end.

Lemma alloc_all_offsets n i u b l e :
  offsets n i u = Some (l, e) →
  alloc_all n i (used u b) = Ret (Some (Z.add heap_addr <$> l)) (used e b).
Proof.
  revert i u l. induction n as [|n IH]; intros i u l E; [by injection E as <- <-|].
  cbn [offsets alloc_all] in *. destruct (Z.leb_spec 0 u); [|done]. cbn [andb] in E.
  destruct (HEAP_SIZE <? _) eqn:Hf; [done|]. cbn [negb] in E.
  destruct (offsets n (i + 1) _) as [[l' e']|] eqn:El; [|done]. injection E as <- ->.
  rewrite (bind_ret _ _ _ _ _ (t_kmalloc_at u b (10 + i) _ Hf eq_refl)).
  rewrite not_null by lia. by rewrite (bind_ret _ _ _ _ _ (IH _ _ _ El)).
Qed.

Lemma multiple_passes b : test_kmalloc_multiple (used 1136 b) = Ret true (used 1296 b).
Proof.
  unfold test_kmalloc_multiple.
  erewrite bind_ret; [|apply alloc_all_offsets; vm_compute; reflexivity].
  unfold ASSERT. rewrite all_different_offsets. cbn -[free_all].
  by rewrite (bind_ret _ _ _ _ _ (free_all_ret _ _)).
Qed.

(** The repository's test program of kmalloc, run on the allocator of kernel/process/memory.c
    before any other call, runs its five tests and reports success exactly when the linker
    placed the heap array at a multiple of four: the alignment test is the only one that depends
    on the address, since kmalloc aligns the size of its blocks and not their addresses. *)
Theorem kmalloc_suite_result r p f :
  ∃ e, kmalloc_main (MkSuite (used 0 ∅) r p f) =
    if heap_addr mod 4 =? 0 then Ret 0 (MkSuite e 5 5 0) else Ret 1 (MkSuite e 5 4 1).
Proof.
  destruct basic_passes as (b & Hb). exists (used 1296 b). unfold kmalloc_main.
  unfold TEST_SUITE_START. rewrite bind_modify. cbn [env].
  rewrite (bind_ret _ _ _ _ _ (run_test_ret _ _ _ _ _ _ _ Hb)).
  rewrite (bind_ret _ _ _ _ _ (run_test_ret _ _ _ _ _ _ _ (sizes_passes b))).
  rewrite (bind_ret _ _ _ _ _ (run_test_ret _ _ _ _ _ _ _ (alignment_result b))).
  rewrite (bind_ret _ _ _ _ _ (run_test_ret _ _ _ _ _ _ _ (edge_cases_passes b))).
  rewrite (bind_ret _ _ _ _ _ (run_test_ret _ _ _ _ _ _ _ (multiple_passes b))).
  by destruct (heap_addr mod 4 =? 0).
Qed.
End kmalloc_tests.

(** ** tests/process/test_scheduler_unit.c

    The three PCBs are the blocks [p0], [p1] and [p2] the host's [malloc] returned. *)

Section scheduler_tests.
Context `{L : Linkage} (p0 p1 p2 : Z).

Definition setup_process (p i : Z) : M kstate unit :=
  new_process p;;
  upd_proc p (set_p_pid (i + 1));;
  upd_proc p (set_p_state PROCESS_READY);;
  upd_proc p (set_p_priority (3 - i));;
  upd_proc p (set_p_counter (i + 1));;
  upd_proc p (set_p_name ("process_" +:+ pretty (i + 1))).

Definition setup : M kstate unit :=
  setup_process p0 0;;
  setup_process p1 1;;
  setup_process p2 2;;
  scheduler_init.

(** [free] ends the objects. *)
Definition teardown : M kstate unit :=
  modify (λ s, set_procs (delete p0 (procs s)) s);;
  modify (λ s, set_procs (delete p1 (procs s)) s);;
  modify (λ s, set_procs (delete p2 (procs s)) s).

(** [next = scheduler_next(); ASSERT_NOT_NULL(next); ASSERT_EQ(next->pid, p->pid);] *)
Definition expect_next (p : Z) (rest : M kstate bool) : M kstate bool :=
  next ← scheduler_next;
  ASSERT_NOT_NULL next (
  n ← get_proc next;
  e ← get_proc p;
  ASSERT_EQ (p_pid n) (p_pid e) rest).

Definition test_scheduler_queue : M kstate bool :=
  scheduler_add p0;;
  scheduler_add p1;;
  expect_next p0 (
  scheduler_add p2;;
  scheduler_remove p0;;
  expect_next p1 (mret true)).

Definition test_sjf_scheduling : M kstate bool :=
  upd_proc p0 (set_p_state PROCESS_READY);;
  scheduler_add p0;;
  upd_proc p1 (set_p_state PROCESS_READY);;
  scheduler_add p1;;
  upd_proc p2 (set_p_state PROCESS_READY);;
  scheduler_add p2;;
  process_set_current NULL;;
  expect_next p0 (mret true).

(** [while (current->counter > 0) do_timer();] *)
Fixpoint tick_until (fuel : nat) (cur : Z) : M kstate unit :=
  match fuel with
  | O => nofuel
  | S fuel' =>
      c ← get_proc cur;
      if 0 <? p_counter c then do_timer;; tick_until fuel' cur else mret tt
  end.

(** A counter of [n] needs [n] turns and the last test. *)
Definition test_timer_tick : M kstate bool :=
  process_set_current p1;;
  upd_proc p1 (set_p_state PROCESS_RUNNING);;
  c ← get_proc p1;
  let initial_counter := p_counter c in
  do_timer;;
  c ← get_proc p1;
  ASSERT_EQ (p_counter c) (initial_counter - 1) (
  tick_until (S (Z.to_nat (p_counter c))) p1;;
  c ← get_proc p1;
  ASSERT_EQ (p_counter c) 0 (mret true)).

Definition scheduler_main : M (suite kstate) Z :=
  TEST_SUITE_START;;
  zoom env set_env setup;;
  RUN_TEST test_scheduler_queue;;
  RUN_TEST test_sjf_scheduling;;
  RUN_TEST test_timer_tick;;
  zoom env set_env teardown;;
  TEST_SUITE_END.

(** *** Running them *)

Context (H0 : p0 ≠ NULL) (H1 : p1 ≠ NULL) (H2 : p2 ≠ NULL).
Context (H01 : p0 ≠ p1) (H02 : p0 ≠ p2) (H12 : p1 ≠ p2).
Context (s0 : kstate).

Definition tri (x0 x1 x2 : process) : gmap Z process :=
  <[p0 := x0]> (<[p1 := x1]> (<[p2 := x2]> (procs s0))).

(** The kernel state with the three PCBs, the queue and [current]. *)
Definition st (x0 x1 x2 : process) (h t c : Z) : kstate :=
  KState (kmem s0) (tri x0 x1 x2) (ctxs s0) (ptregs s0) (next_pid s0) c (task s0) (task_count s0)
    h t (cpu s0) (resumed s0).

Lemma st_get x0 x1 x2 h t c :
  get_proc p0 (st x0 x1 x2 h t c) = Ret x0 (st x0 x1 x2 h t c) ∧
  get_proc p1 (st x0 x1 x2 h t c) = Ret x1 (st x0 x1 x2 h t c) ∧
  get_proc p2 (st x0 x1 x2 h t c) = Ret x2 (st x0 x1 x2 h t c).
Proof.
  unfold get_proc, st, tri. split_and!; apply deref_ret; cbn [procs];
    by repeat (rewrite lookup_insert_eq || rewrite lookup_insert_ne by congruence).
Qed.

Lemma tri_set x0 x1 x2 y :
  <[p0 := y]> (tri x0 x1 x2) = tri y x1 x2 ∧ <[p1 := y]> (tri x0 x1 x2) = tri x0 y x2 ∧
  <[p2 := y]> (tri x0 x1 x2) = tri x0 x1 y.
Proof.
  unfold tri. split_and!; apply map_eq; intros i; rewrite !lookup_insert;
    repeat case_decide; congruence.
Qed.

Lemma st_upd x0 x1 x2 h t c f :
  upd_proc p0 f (st x0 x1 x2 h t c) = Ret tt (st (f x0) x1 x2 h t c) ∧
  upd_proc p1 f (st x0 x1 x2 h t c) = Ret tt (st x0 (f x1) x2 h t c) ∧
  upd_proc p2 f (st x0 x1 x2 h t c) = Ret tt (st x0 x1 (f x2) h t c).
Proof.
  destruct (st_get x0 x1 x2 h t c) as (G0 & G1 & G2). unfold upd_proc.
  rewrite (bind_ret _ _ _ _ _ G0), (bind_ret _ _ _ _ _ G1), (bind_ret _ _ _ _ _ G2).
  unfold modify, st, set_procs. cbn.
  by rewrite (proj1 (tri_set x0 x1 x2 _)), (proj1 (proj2 (tri_set x0 x1 x2 _))),
    (proj2 (proj2 (tri_set x0 x1 x2 _))).
Qed.

Lemma add_to_empty p x s s1 :
  p ≠ NULL → upd_proc p (set_p_next NULL) s = Ret tt s1 → rq_head s1 = NULL →
  get_proc p (set_rq_tail p (set_rq_head p s1)) = Ret x (set_rq_tail p (set_rq_head p s1)) →
  scheduler_add p s = Ret tt (set_rq_tail p (set_rq_head p s1)).
Proof.
  intros Hp E Hh G. unfold scheduler_add. rewrite (proj2 (Z.eqb_neq p _) Hp).
  rewrite (bind_ret _ _ _ _ _ E), bind_get, Hh. cbn [Z.eqb NULL].
  rewrite (bind_ret _ _ _ tt (set_rq_tail p (set_rq_head p s1))) by done.
  by rewrite (bind_ret _ _ _ _ _ G).
Qed.

Lemma add_to_tail p x s s1 s2 :
  p ≠ NULL → upd_proc p (set_p_next NULL) s = Ret tt s1 → rq_head s1 ≠ NULL →
  upd_proc (rq_tail s1) (set_p_next p) s1 = Ret tt s2 →
  get_proc p (set_rq_tail p s2) = Ret x (set_rq_tail p s2) →
  scheduler_add p s = Ret tt (set_rq_tail p s2).
Proof.
  intros Hp E Hh E2 G. unfold scheduler_add. rewrite (proj2 (Z.eqb_neq p _) Hp).
  rewrite (bind_ret _ _ _ _ _ E), bind_get, (proj2 (Z.eqb_neq (rq_head s1) _) Hh).
  rewrite (bind_ret _ _ _ tt (set_rq_tail p s2)) by (by rewrite (bind_ret _ _ _ _ _ E2)).
  by rewrite (bind_ret _ _ _ _ _ G).
Qed.

Lemma remove_head p x s :
  rq_head s = p → p ≠ NULL → get_proc p s = Ret x s → p_next x ≠ NULL →
  get_proc p (set_rq_head (p_next x) s) = Ret x (set_rq_head (p_next x) s) →
  scheduler_remove p s = Ret tt (set_rq_head (p_next x) s).
Proof.
  intros Hh Hp G Hn G'. unfold scheduler_remove, scheduler_remove_fuel. rewrite !bind_get, Hh.
  rewrite (proj2 (Z.eqb_neq p _) Hp), Z.eqb_refl. cbn [orb].
  rewrite (bind_ret _ _ _ _ _ G), bind_modify, (proj2 (Z.eqb_neq _ _) Hn). cbn [when].
  by rewrite bind_mret, (bind_ret _ _ _ _ _ G').
Qed.

(** One PCB at a time. *)
Lemma st_get0 x0 x1 x2 h t c : get_proc p0 (st x0 x1 x2 h t c) = Ret x0 (st x0 x1 x2 h t c).
Proof. apply st_get. Qed.
Lemma st_get1 x0 x1 x2 h t c : get_proc p1 (st x0 x1 x2 h t c) = Ret x1 (st x0 x1 x2 h t c).
Proof. apply st_get. Qed.
Lemma st_get2 x0 x1 x2 h t c : get_proc p2 (st x0 x1 x2 h t c) = Ret x2 (st x0 x1 x2 h t c).
Proof. apply st_get. Qed.
Lemma st_upd0 x0 x1 x2 h t c f :
  upd_proc p0 f (st x0 x1 x2 h t c) = Ret tt (st (f x0) x1 x2 h t c).
Proof. apply st_upd. Qed.
Lemma st_upd1 x0 x1 x2 h t c f :
  upd_proc p1 f (st x0 x1 x2 h t c) = Ret tt (st x0 (f x1) x2 h t c).
Proof. apply st_upd. Qed.
Lemma st_upd2 x0 x1 x2 h t c f :
  upd_proc p2 f (st x0 x1 x2 h t c) = Ret tt (st x0 x1 (f x2) h t c).
Proof. apply st_upd. Qed.

Ltac st_run := first [apply st_get0|apply st_get1|apply st_get2|apply st_upd0|apply st_upd1|apply st_upd2].

(** [scheduler_add] behind another PCB. *)
Tactic Notation "add_tail" constr(p) uconstr(g) :=
  erewrite bind_ret; [|eapply (add_to_tail p); [done|st_run|done|st_run|apply g]].

Lemma expect_head p h x y rest s :
  rq_head s = h → h ≠ NULL → get_proc h s = Ret x s → get_proc p s = Ret y s →
  expect_next p rest s = if p_pid x =? p_pid y then rest s else Ret false s.
Proof.
  intros Hh Hn G Gp. unfold expect_next.
  assert (E : scheduler_next s = Ret h s).
  { unfold scheduler_next. rewrite bind_get, Hh, (proj2 (Z.eqb_neq h _) Hn), bind_mret.
    rewrite (proj2 (Z.eqb_neq h _) Hn).
    by rewrite (bind_ret _ _ _ tt s) by (by rewrite (bind_ret _ _ _ _ _ G)). }
  rewrite (bind_ret _ _ _ _ _ E). unfold ASSERT_NOT_NULL, ASSERT.
  rewrite (proj2 (Z.eqb_neq h _) Hn). cbn [negb].
  rewrite (bind_ret _ _ _ _ _ G), (bind_ret _ _ _ _ _ Gp). unfold ASSERT_EQ, ASSERT.
  by destruct (_ =? _).
Qed.

Definition pcb (i : Z) : process :=
  set_p_name ("process_" +:+ pretty (i + 1)) (set_p_counter (i + 1) (set_p_priority (3 - i)
    (set_p_state PROCESS_READY (set_p_pid (i + 1) process_zero)))).

Definition linked_to (n : Z) (x : process) : process := set_p_next n (set_p_next NULL x).

(** The first test passes and leaves [p1] and [p2] in the queue. *)
Lemma queue_passes c :
  test_scheduler_queue (st (pcb 0) (pcb 1) (pcb 2) NULL NULL c) =
    Ret true (st (linked_to p1 (pcb 0)) (linked_to p2 (pcb 1)) (set_p_next NULL (pcb 2)) p1 p2 c).
Proof.
  unfold test_scheduler_queue.
  rewrite (bind_ret _ _ _ _ _ (add_to_empty p0 _ _ _ H0 (st_upd0 _ _ _ _ _ _ _) eq_refl
    (st_get0 _ _ _ p0 p0 c))).
  add_tail p1 (st_get1 _ _ _ p0 p1 c).
  erewrite expect_head; [|done|done|st_run..]. rewrite Z.eqb_refl.
  add_tail p2 (st_get2 _ _ _ p0 p2 c).
  erewrite bind_ret; [|eapply remove_head; [done|done|st_run|done|apply (st_get0 _ _ _ p1 p2 c)]].
  by erewrite expect_head; [|done|done|apply (st_get1 _ _ _ p1 p2 c)..].
Qed.

(** The second test puts all three in the queue again, two of which are in it: [p0] falls out,
    and [p1] is still at the head when the test expects [p0]. *)
Lemma sjf_fails x0 x1 x2 c :
  p_pid x0 ≠ p_pid x1 →
  test_sjf_scheduling (st x0 x1 x2 p1 p2 c) =
    Ret false (st (linked_to p1 (set_p_state PROCESS_READY x0))
      (linked_to p2 (set_p_state PROCESS_READY x1))
      (set_p_next NULL (set_p_state PROCESS_READY (linked_to p0 x2))) p1 p2 NULL).
Proof.
  intros Hpid. unfold test_sjf_scheduling.
  erewrite bind_ret by st_run. add_tail p0 (st_get0 _ _ _ p1 p0 c).
  erewrite bind_ret by apply (st_upd1 _ _ _ p1 p0 c). add_tail p1 (st_get1 _ _ _ p1 p1 c).
  erewrite bind_ret by apply (st_upd2 _ _ _ p1 p1 c). add_tail p2 (st_get2 _ _ _ p1 p2 c).
  unfold process_set_current. rewrite bind_modify.
  erewrite expect_head; [|done|done|apply (st_get1 _ _ _ p1 p2 NULL)|apply (st_get0 _ _ _ p1 p2 NULL)].
  rewrite (proj2 (Z.eqb_neq _ _)) by done. done.
Qed.

Definition ticked (x : process) : process :=
  set_p_counter (p_counter x - 1) (set_p_cpu_time (u64 (p_cpu_time x + 1)) x).

(** A tick of [p1] while it is both running and at the head of the queue: even at the end of the
    slice [schedule] finds it is the next process and returns. *)
Lemma tick_self x0 x1 x2 t :
  0 < p_counter x1 →
  do_timer (st x0 x1 x2 p1 t p1) = Ret tt (st x0 (ticked x1) x2 p1 t p1).
Proof.
  intros Hc. unfold do_timer. rewrite bind_get. cbn [current st].
  rewrite (proj2 (Z.eqb_neq p1 _) H1).
  erewrite bind_ret by st_run. erewrite bind_ret by st_run.
  rewrite (proj2 (Z.ltb_lt _ _) Hc).
  erewrite bind_ret by st_run. erewrite bind_ret by st_run.
  change (p_counter _) with (p_counter x1 - 1) at 1.
  destruct (_ =? 0); [|done]. cbn [when]. unfold schedule, process_get_current.
  rewrite (bind_ret _ _ _ p1 (st x0 (ticked x1) x2 p1 t p1)) by done.
  rewrite (bind_ret _ _ _ p1 (st x0 (ticked x1) x2 p1 t p1)); [by rewrite Z.eqb_refl|].
  unfold scheduler_next. rewrite bind_get. cbn [rq_head st].
  rewrite (proj2 (Z.eqb_neq p1 _) H1), bind_mret, (proj2 (Z.eqb_neq p1 _) H1).
  rewrite (bind_ret _ _ _ tt (st x0 (ticked x1) x2 p1 t p1)); [done|].
  by erewrite bind_ret by st_run.
Qed.

Lemma timer_passes x0 x1 x2 :
  p_counter x1 = 2 →
  test_timer_tick (st x0 x1 x2 p1 p2 NULL) =
    Ret true (st x0 (ticked (ticked (set_p_state PROCESS_RUNNING x1))) x2 p1 p2 p1).
Proof.
  intros Hc. unfold test_timer_tick, process_set_current. rewrite bind_modify.
  erewrite bind_ret by apply (st_upd1 x0 x1 x2 p1 p2 p1). erewrite bind_ret by st_run.
  set (x := set_p_state _ x1). assert (Hx : p_counter x = 2) by done.
  erewrite bind_ret by (apply tick_self; lia). erewrite bind_ret by st_run.
  assert (Hx1 : p_counter (ticked x) = 1) by (cbn; lia).
  assert (Hx2 : p_counter (ticked (ticked x)) = 0) by (cbn; lia).
  unfold ASSERT_EQ, ASSERT. rewrite Hx1, Hx. cbn [Z.eqb Z.sub Z.add Z.opp Z.pos_sub Pos.eqb].
  change (2 - 1) with 1. cbn [Z.eqb Pos.eqb]. change (Z.to_nat 1) with 1%nat.
  erewrite bind_ret; [erewrite bind_ret by st_run|].
  2: { cbn [tick_until]. erewrite bind_ret by st_run. rewrite Hx1. cbn [Z.ltb Z.compare].
       erewrite bind_ret by (apply tick_self; lia). erewrite bind_ret by st_run.
       rewrite Hx2. done. }
  rewrite Hx2. done.
Qed.

Lemma setup_process_run p i s :
  setup_process p i s = Ret tt (set_procs (<[p := pcb i]> (procs s)) s).
Proof.
  assert (U : ∀ f x s, upd_proc p f (set_procs (<[p := x]> (procs s)) s) =
    Ret tt (set_procs (<[p := f x]> (procs s)) s)).
  { intros f x s1. unfold upd_proc. rewrite (bind_ret _ _ _ x (set_procs (<[p := x]> (procs s1)) s1)).
    - unfold modify, set_procs. cbn. by rewrite insert_insert_eq.
    - apply deref_ret. cbn. apply lookup_insert_eq. }
  unfold setup_process, new_process. rewrite bind_modify.
  rewrite !(bind_ret _ _ _ _ _ (U _ _ _)). apply U.
Qed.

Lemma setup_ret : setup s0 = Ret tt (st (pcb 0) (pcb 1) (pcb 2) NULL NULL (current s0)).
Proof.
  unfold setup. rewrite !(bind_ret _ _ _ _ _ (setup_process_run _ _ _)).
  assert (E : <[p2 := pcb 2]> (<[p1 := pcb 1]> (<[p0 := pcb 0]> (procs s0))) =
    tri (pcb 0) (pcb 1) (pcb 2)).
  { unfold tri. apply map_eq. intros j. rewrite !lookup_insert. repeat case_decide; congruence. }
  unfold st. by rewrite <- E.
Qed.

(** The repository's test program of the scheduler fails: of its three tests the queue test
    and the timer test pass, and test_sjf_scheduling reports a failure, for any placement of the
    three PCBs. It expects the first process at the head of the queue, but the second and the third
    are still queued from the first test, and the queue is first in, first out. The exit code
    is 1. *)
Theorem scheduler_suite_fails r p f :
  ∃ s', scheduler_main (MkSuite s0 r p f) = Ret 1 (MkSuite s' 3 2 1).
Proof.
  unfold scheduler_main, TEST_SUITE_START. rewrite bind_modify. cbn [env].
  rewrite (bind_ret _ _ _ _ _ (zoom_ret env set_env setup (MkSuite s0 0 0 0) tt _ setup_ret)).
  unfold set_env. cbn [tests_run tests_passed tests_failed].
  rewrite (bind_ret _ _ _ _ _ (run_test_ret _ _ _ _ _ _ _ (queue_passes (current s0)))).
  erewrite bind_ret; [|apply run_test_ret, sjf_fails; done].
  erewrite bind_ret; [|apply run_test_ret, timer_passes; done].
  eexists. reflexivity.
Qed.
End scheduler_tests.

(** ** Witnesses *)

#[local] Program Instance aligned_heap : Linkage := {| heap_addr := 0x404040 |}.
Next Obligation. lia. Qed.
Next Obligation. lia. Qed.

Lemma kmalloc_suite_result_witness :
  ∃ e, kmalloc_main (MkSuite (used 0 ∅) 0 0 0) = Ret 0 (MkSuite e 5 5 0).
Proof. exact (kmalloc_suite_result 0 0 0). Defined.

Lemma scheduler_suite_fails_witness :
  ∃ s', scheduler_main 0x5000 0x5100 0x5200 (MkSuite kstate_boot 0 0 0) = Ret 1 (MkSuite s' 3 2 1).
Proof. apply (scheduler_suite_fails 0x5000 0x5100 0x5200); discriminate. Defined.
